(* ===== verification/_CoqProject ===== *)
-Q . S2P
Prelude.v
ProgramLogic.v
Slice.v
Sdk.v
RefStore.v
Privilege.v
Json.v
JsonProps.v
TwasmMsgs.v
Wasm.v
TwasmKeeper.v
TwasmHandler.v
TwasmSteps.v
RefWorld.v
TwasmMsgProps.v
TwasmProps.v
TwasmHandlerProps.v
TwasmAbci.v
TwasmGenesis.v
TwasmGenesisIO.v
GlobalFee.v
GoTime.v
PoETypes.v
PoEMsgs.v
PoETypesProps.v
PoEKeeper.v
PoEKeeperProps.v
PoEContractIO.v
PoEValset.v
PoEValsetProps.v
PoEServer.v
PoEServerProps.v
RefPoE.v
PoEExamples.v
PoEAdapters.v
PoEQueries.v
PoEWasmQuery.v
PoEBootstrap.v
PoEBootstrapProps.v
RefBootstrap.v
PoEQueriesProps.v
AppAnte.v
AppAnteProps.v
AppUpgrade.v
AppExport.v
GenTxCollect.v
AppBlock.v
AppGenesis.v
AppChain.v
AppLife.v
RefChain.v
AppWasm.v
ClientQuery.v
GenAccounts.v
TestnetIP.v
Testnet.v
TestnetLaws.v
TestnetProps.v
RefTestnet.v
ClientTx.v
Root.v
ModuleGenesis.v
ContractMsgs.v
CollectCmd.v
Simulation.v
RefSimulation.v
SimGenesis.v
AppWiring.v
ModuleInfo.v
StakingAdapter.v
NodeStart.v
CommandFlags.v
