(* ===== verification/Prelude.v ===== *)
(** * Verification of the Furya chain

    Furya is a Cosmos SDK application (Go). Its own logic is in three modules and the
    application around them: x/twasm gives smart contracts privileges (callbacks of the
    chain and messages that change it), x/poe keeps the proof-of-engagement contracts that decide
    on validators, stakes and rewards, and x/globalfee sets a minimum fee. The application
    composes them with the modules of the SDK, of wasmd and of ibc-go.

    ** How the code is modelled

    A Go function that returns an error is a function to [outcome]: a value, an error or a
    panic. A method on the chain's state is a computation in [M W], from a context (the
    store of type [W] and the events so far) to an outcome and a context; the state is explicit because
    the code commits or drops cached contexts. [W] is abstract: code that is not part of the repository is
    reached through type classes, a class of operations and a class of laws with the documented behaviour
    the theorems use ([Sdk], [Wasm] and the heads of the other files). Machine integers are
    [Z] with the conversions [uint64], [int64] and so on of this file; [sdk.Int] is [option Z], nil included;
    decimals are scaled integers. JSON is modelled as values (Json.v), with the order of members and
    the reuse of memory by encoding/json where they matter. Go slices that share an array are
    modelled with the array (Slice.v). Error texts are the constant parts of the messages.

    ** The files

    - Prelude: outcomes, the monad, machine integers, byte strings, tactics ([go_inv]) and lemmas for all files.
    - ProgramLogic: rules for what a stateful call keeps ([respects]), for what it returns ([returns]) and for how it may
      end, with a result or a failure ([ends]).
    - Slice: Go slices over a shared array, and what deleting from a slice does while it is iterated.
    - Sdk, RefStore: addresses, coins, key/value stores; a store that satisfies the laws.
    - Json, JsonProps: encoding/json.
    - x/twasm. Privilege: types/privilege.go, contract_extension.go. TwasmMsgs, TwasmMsgProps: contract/.
      Wasm: the interface of wasmd. TwasmKeeper: keeper/privileged.go, keeper.go, store.go.
      TwasmHandler, TwasmHandlerProps: keeper/handler_plugin.go, proposal_handler.go, types/proposal.go.
      TwasmSteps, TwasmProps: the registrations over time. TwasmAbci: abci.go, keeper/querier.go.
      TwasmGenesis: types/genesis.go, keeper/genesis.go. TwasmGenesisIO: client/cli/genesisio.go, genesis_flags.go.
      RefWorld: a chain with scripted contracts that satisfies all laws.
    - x/globalfee. GlobalFee: ante.go, types/params.go, module.go, querier.go.
    - x/poe. GoTime: durations and float64 seconds. PoETypes, PoEMsgs, PoETypesProps: types/.
      PoEKeeper, PoEKeeperProps: keeper/keeper.go, params.go, genesis.go, historical_info.go.
      PoEContractIO, PoEValset, PoEValsetProps, PoEAdapters, ContractMsgs: contract/. PoEServer, PoEServerProps:
      keeper/msg_server.go, engagement.go, abci.go, ante.go, handler.go. PoEQueries, PoEQueriesProps: keeper/querier.go,
      contracts.go and the legacy queriers. PoEWasmQuery: wasm/query_plugin.go. PoEBootstrap,
      PoEBootstrapProps: bootstrap.go, module.go. RefPoE, RefBootstrap, PoEExamples: concrete chains.
      ClientTx: client/cli/tx.go, genutil_gentx.go, flags.go. GenTxCollect, CollectCmd: client/genutil_collect.go
      and the command around it. Simulation, RefSimulation, SimGenesis: simulation/ of x/poe and of x/twasm.
    - All modules. ClientQuery: client/cli/query.go of the three modules. ModuleGenesis: the genesis functions of the
      three module.go, app/genesis.go. ModuleInfo: parameter sets, the methods of messages and the texts of proposals
      (types/params.go, msg.go, proposal.go). StakingAdapter: x/poe/stakingadapter.
    - The application. AppAnte, AppAnteProps: app/ante.go. AppBlock: the order of the modules and the
      blocks (app/app.go). AppGenesis: the start from a genesis file, from a stored state and from a snapshot (app/app.go,
      app/snapshotter.go). AppChain, AppLife, RefChain: the invariant of the whole chain, the steps of a node, and
      a chain from its genesis on. AppWasm: app/wasm.go, and module accounts, parameter subspaces and
      upgrade handlers of app/app.go. AppUpgrade: app/upgrades. AppExport: app/export.go. AppWiring: the construction of the
      application (NewPetriApp of app/app.go and the constructors of the three modules).
    - The daemon (cmd/furya). GenAccounts: genaccounts.go. TestnetIP, Testnet, TestnetLaws, TestnetProps, RefTestnet:
      testnet.go. Root, NodeStart: root.go. CommandFlags: the flags of the commands here and in x/poe/client/cli.

    ** What the theorems show

    - Privileges (TwasmProps, TwasmHandlerProps): in every state that registrations, releases, promotions,
      demotions and other steps reach, the index and the extensions of the contracts agree and singleton
      privileges have one holder; a privilege message refines an abstract list of holders; contracts
      can only do what they have the privilege for; tokens, parameters and proposals are handled exactly as stated.
      AppWasm: staking messages are refused, and only what wasmd does not know reaches x/twasm.
      Demotion clears up to two privileges, and leaves some of three or more behind.
    - Blocks (TwasmAbci, AppBlock): callbacks are isolated from each other and from the chain; the end of a block fails
      only when a module of the SDK does, and applies the update of the validator set after all other contracts. The
      chain as a whole (AppLife): from a successful genesis on, through blocks, transactions, restarts and snapshots, the
      invariants of x/twasm and x/poe hold together, every PoE contract is found, and nothing but a module of the SDK or
      evidence with a negative number stops the chain.
    - Genesis (PoETypesProps, PoEKeeperProps, TwasmGenesis, PoEBootstrapProps, GenTxCollect, ClientTx, GenAccounts): what the
      validations accept, that an export can be imported, what the set-up leaves behind, which genesis
      transactions that are written can be collected, that accounts, balances and supply stay consistent and a new
      balance is credited to the new account.
    - Test networks (TestnetProps): the files of all nodes fit together; every node gets the same, valid genesis with the
      transactions of all validators.
    - Simulation (Simulation, SimGenesis): what is delivered is valid, signed by its operator and affordable; the operations
      return when there are validators, and some panic when there are none; a random genesis that is made is valid.
    - State of x/poe (PoEKeeperProps): the address cache agrees with the store; historical infos form a window.
    - Contract calls and queries (PoEValsetProps, PoEQueriesProps, PoEServerProps, AppExport): paging visits every
      validator and ends; different queries agree; keys survive conversions; the validator set that is exported is the one
      that is imported, and the one of the contract as long as all keys are of the type ed25519. ClientQuery: the
      page keys that a command prints lead through all pages. ContractMsgs: consensus parameters and votes
      are read as they were written. Root: an export does not depend on how its height is given.
    - Fees (GlobalFee, AppAnteProps, Root): the rule of the minimum fee, that accepted transactions have paid, and that
      the limit of the client refuses nothing.
    - Construction (AppWiring, NodeStart): no component is built with something that is not there yet, keepers that are assigned
      later are handed out by reference, routes, stores, orders and the ante handler are complete; without a readable configuration
      nothing is built. CommandFlags: every flag a command reads is one it defines. ModuleInfo: parameters that a genesis file may
      have are those the parameter store takes.
    - Upgrades (AppUpgrade): none of the addresses of v3 can be decoded, so that it fails.

    A theorem with hypotheses is followed by a witness on a concrete chain or client; the instances of the classes
    there show that the laws hold together.

    ** Fuel

    Loops that end for a reason outside of the code take fuel and return [None] without it. Paging through contracts
    ([iterate_pages], [all_validators]) needs one round per page: the theorems show that more than the number of
    validators plus one is enough for every page size of at least one. [prune] counts down from a height; its
    caller gives it one round per height. [trim_left] takes the length of its text.

    ** Not modelled

    - The code of the protobuf compiler, but for the struct types other parts use.
    - The SDK, wasmd, ibc-go, tendermint and the contracts: parameters with laws.
    - Codecs, aliases and the registration of types with them; the gateway and REST routes.
    - The lists of subcommands and the help texts of the commands.
    - Mocks and fixtures for tests. *)
From stdpp Require Import base option list strings gmap sorting.
From Stdlib Require Import ZArith Lia.
Open Scope Z_scope.

(** ** Go errors *)

(** A Go [error]: the registered root error it wraps and the constant part of
    the messages [sdkerrors.Wrap] put around it, outermost first. *)
Record error := mkErr { err_root : string; err_msgs : list string }.

#[export] Instance error_eq_dec : EqDecision error.
Proof. solve_decision. Defined.

Definition new_err (root : string) : error := mkErr root [].
Definition Wrap (e : error) (msg : string) : error := mkErr (err_root e) (msg :: err_msgs e).
(** [root.Is(err)]: the error is, or wraps, the registered error [root]. *)
Definition ErrIs (root e : error) : bool := bool_decide (err_root root = err_root e).

(** ** Outcomes of a Go call: a value, a returned error, or a panic *)
Inductive outcome (A : Type) :=
  | Ok (a : A)
  | Err (e : error)
  | Panic (msg : string).
Arguments Ok {A} a.
Arguments Err {A} e.
Arguments Panic {A} msg.

#[export] Instance outcome_ret : MRet outcome := λ A a, Ok a.
#[export] Instance outcome_bind : MBind outcome := λ A B f m,
  match m with Ok a => f a | Err e => Err e | Panic p => Panic p end.

(** [sdkerrors.Wrap(err, msg)] on the error of a call; a nil error stays nil. *)
Definition wrap {A} (msg : string) (m : outcome A) : outcome A :=
  match m with Err e => Err (Wrap e msg) | _ => m end.

Definition is_ok {A} (m : outcome A) : bool :=
  match m with Ok _ => true | _ => false end.
Definition is_panic {A} (m : outcome A) : bool :=
  match m with Panic _ => true | _ => false end.

(** [if cond { return err }] *)
Definition check (cond : bool) (e : error) : outcome () :=
  if cond then Err e else Ok ().

(** ** Stateful calls *)

(** An sdk event: its type and its attributes. *)
Record Event := NewEvent { ev_type : string; ev_attrs : list (string * string) }.

(** [sdk.Context]: the multistore behind it, of a type [W] the modules do not
    look into, and the events of the event manager it carries. *)
Record Ctx (W : Type) := mkCtx { store : W; events : list Event }.
Arguments mkCtx {W} store events.
Arguments store {W} c.
Arguments events {W} c.

Definition M (W A : Type) : Type := Ctx W → outcome A * Ctx W.

Section monad.
Context {W : Type}.

#[export] Instance M_ret : MRet (M W) := λ A a c, (Ok a, c).
#[export] Instance M_bind : MBind (M W) := λ A B f m c,
  match m c with
  | (Ok a, c') => f a c'
  | (Err e, c') => (Err e, c')
  | (Panic p, c') => (Panic p, c')
  end.

Definition lift {A} (o : outcome A) : M W A := λ c, (o, c).
Definition fail_with {A} (e : error) : M W A := λ c, (Err e, c).
Definition panic {A} (msg : string) : M W A := λ c, (Panic msg, c).
Definition gets {A} (f : W → A) : M W A := λ c, (Ok (f (store c)), c).
Definition modify (f : W → W) : M W () := λ c, (Ok (), mkCtx (f (store c)) (events c)).
Definition wrapM {A} (msg : string) (m : M W A) : M W A :=
  λ c, let '(o, c') := m c in (wrap msg o, c').
Definition EmitEvent (e : Event) : M W () := λ c, (Ok (), mkCtx (store c) (events c ++ [e])).
Definition EmitEvents (es : list Event) : M W () := λ c, (Ok (), mkCtx (store c) (events c ++ es)).

(** [m] run with [ctx.WithEventManager(em)] for a fresh [em]: the outer event
    manager is untouched; the events of [em] come beside the outcome. *)
Definition with_fresh_events {A} (m : M W A) : Ctx W → outcome A * list Event * Ctx W :=
  λ c, let '(o, c') := m (mkCtx (store c) []) in (o, events c', mkCtx (store c') (events c)).

(** The [error] of a call as a value. *)
Definition try {A} (m : M W A) : M W (A + error) :=
  λ c, match m c with
       | (Ok a, c') => (Ok (inl a), c')
       | (Err e, c') => (Ok (inr e), c')
       | (Panic p, c') => (Panic p, c')
       end.

(** [for _, x := range xs { body }], left early by an error or a panic. *)
Fixpoint forM {A} (xs : list A) (body : A → M W ()) : M W () :=
  match xs with
  | [] => mret ()
  | x :: xs' => body x ;; forM xs' body
  end.

(** A callback iteration: [cb] returns true to stop early. *)
Fixpoint iterM {A} (xs : list A) (cb : A → M W bool) : M W () :=
  match xs with
  | [] => mret ()
  | x :: xs' => stop ← cb x; if (stop : bool) then mret () else iterM xs' cb
  end.
End monad.

(** ** Machine integers *)

(** Conversion to an unsigned or to a two's complement integer of [w] bits. *)
Definition wrap_u (w z : Z) : Z := z mod 2 ^ w.
Definition wrap_s (w z : Z) : Z := (z + 2 ^ (w - 1)) mod 2 ^ w - 2 ^ (w - 1).
Definition uint8 : Z → Z := wrap_u 8.
Definition uint32 : Z → Z := wrap_u 32.
Definition uint64 : Z → Z := wrap_u 64.
Definition int64 : Z → Z := wrap_s 64.
Definition is_u (w z : Z) : Prop := 0 ≤ z < 2 ^ w.
Definition is_s (w z : Z) : Prop := - 2 ^ (w - 1) ≤ z < 2 ^ (w - 1).
Definition MaxUint8 : Z := 255.
Definition MaxInt64 : Z := 2 ^ 63 - 1.

Lemma wrap_u_small w z : is_u w z → wrap_u w z = z.
Proof. apply Z.mod_small. Qed.

Lemma wrap_u_range w z : 0 ≤ w → is_u w (wrap_u w z).
Proof. intros Hw. apply Z.mod_pos_bound. by apply Z.pow_pos_nonneg. Qed.

Lemma pow2_split w : 0 < w → 2 ^ w = 2 ^ (w - 1) + 2 ^ (w - 1).
Proof. intros Hw. rewrite <-(Z.succ_pred w) at 1. rewrite Z.pow_succ_r by lia.
  replace (Z.pred w) with (w - 1) by lia. lia. Qed.

Lemma wrap_s_small w z : 0 < w → is_s w z → wrap_s w z = z.
Proof.
  unfold wrap_s, is_s. intros Hw Hz. rewrite Z.mod_small; [lia|].
  rewrite (pow2_split w) by done. lia.
Qed.

Lemma wrap_s_range w z : 0 < w → is_s w (wrap_s w z).
Proof.
  intros Hw. unfold wrap_s, is_s.
  pose proof (Z.mod_pos_bound (z + 2 ^ (w - 1)) (2 ^ w) ltac:(apply Z.pow_pos_nonneg; lia)).
  pose proof (pow2_split w Hw). lia.
Qed.

(** ** Sublists *)
Lemma sublist_elem {A} (l1 l2 : list A) x : l1 `sublist_of` l2 → x ∈ l1 → x ∈ l2.
Proof. induction 1; set_solver. Qed.

Lemma sublist_NoDup {A} (l1 l2 : list A) : l1 `sublist_of` l2 → NoDup l2 → NoDup l1.
Proof.
  induction 1 as [|x l1 l2 Hs IH|x l1 l2 Hs IH]; [done| |]; intros [Hx Hnd]%NoDup_cons; [|by auto].
  constructor; [|by auto]. intros Hin. by eapply Hx, sublist_elem.
Qed.

Lemma sublist_map {A B} (f : A → B) l1 l2 : l1 `sublist_of` l2 → (f <$> l1) `sublist_of` (f <$> l2).
Proof. induction 1; cbn; by constructor. Qed.

Lemma filter_ext_in {A} (P Q : A → Prop) `{∀ x, Decision (P x), ∀ x, Decision (Q x)} (l : list A) :
  (∀ x, x ∈ l → P x ↔ Q x) → filter P l = filter Q l.
Proof.
  induction l as [|x l IH]; intros Hl; [done|]. rewrite !filter_cons.
  rewrite (decide_ext (P x) (Q x)) by (apply Hl; by left).
  rewrite IH by (intros y Hy; apply Hl; by right). done.
Qed.

Lemma filter_none {A} (P : A → Prop) `{∀ x, Decision (P x)} (l : list A) :
  (∀ x, x ∈ l → ¬ P x) → filter P l = [].
Proof.
  induction l as [|x l IH]; intros Hl; [done|]. rewrite filter_cons, decide_False by (apply Hl; by left).
  apply IH. intros y Hy. apply Hl. by right.
Qed.

Lemma filter_all {A} (P : A → Prop) `{∀ x, Decision (P x)} (l : list A) :
  (∀ x, x ∈ l → P x) → filter P l = l.
Proof.
  induction l as [|x l IH]; intros Hl; [done|]. rewrite filter_cons, decide_True by (apply Hl; by left).
  f_equal. apply IH. intros y Hy. apply Hl. by right.
Qed.

(** ** Strictly sorted lists *)
Section sorted.
Context {A : Type} (R : relation A) `{!Irreflexive R, !Transitive R}.

Lemma StronglySorted_strict_NoDup l : StronglySorted R l → NoDup l.
Proof using Irreflexive0.
  induction 1 as [|x l _ IH Hall]; constructor; [|done].
  intros Hx. rewrite Forall_forall in Hall. by apply (irreflexivity R x), Hall.
Qed.

(** A strictly sorted list is determined by its elements. *)
Lemma StronglySorted_strict_ext l1 l2 :
  StronglySorted R l1 → StronglySorted R l2 → (∀ x, x ∈ l1 ↔ x ∈ l2) → l1 = l2.
Proof using Irreflexive0 Transitive0.
  intros H1 H2 Heq. assert (AntiSymm (=) R) as Ha.
  { intros x y Hxy Hyx. destruct (irreflexivity R x). by trans y. }
  apply (StronglySorted_unique R); [done|done|].
  apply NoDup_Permutation; [by apply StronglySorted_strict_NoDup..|done].
Qed.

Lemma StronglySorted_snoc l x :
  StronglySorted R l → Forall (λ y, R y x) l → StronglySorted R (l ++ [x]).
Proof.
  induction 1 as [|y l Hs IH Hall]; cbn; intros Hx; [by repeat constructor|].
  apply Forall_cons in Hx as [Hy Hx]. constructor; [by apply IH|].
  apply Forall_app. split; [done|]. by apply Forall_singleton.
Qed.

Lemma StronglySorted_filter P `{∀ x, Decision (P x)} l :
  StronglySorted R l → StronglySorted R (filter P l).
Proof.
  induction 1 as [|x l Hs IH Hall]; [constructor|]. rewrite filter_cons. case_decide; [|done].
  constructor; [done|]. rewrite Forall_forall in *. intros y [_ Hy]%list_elem_of_filter. auto.
Qed.

Lemma StronglySorted_last l x y :
  StronglySorted R l → last l = Some y → x ∈ l → x = y ∨ R x y.
Proof.
  induction 1 as [|z l Hs IH Hall]; [done|]. rewrite last_cons. intros Hlast Hx.
  apply elem_of_cons in Hx as [->|Hx].
  - destruct (last l) as [w|] eqn:E; simplify_eq; [|by left]. right.
    rewrite Forall_forall in Hall. by apply Hall, last_Some_elem_of.
  - destruct (last l) as [w|] eqn:E; [by apply IH|].
    apply last_None in E as ->. by apply not_elem_of_nil in Hx.
Qed.
End sorted.

(** ** Inversion of successful calls *)
Section inversion_lemmas.
Context {W : Type}.

Lemma outcome_bind_ok {A B} (f : A → outcome B) (m : outcome A) b :
  (m ≫= f) = Ok b ↔ ∃ a, m = Ok a ∧ f a = Ok b.
Proof. destruct m; cbn; naive_solver. Qed.

Lemma M_bind_ok {A B} (f : A → M W B) (m : M W A) c b c' :
  (m ≫= f) c = (Ok b, c') ↔ ∃ a c1, m c = (Ok a, c1) ∧ f a c1 = (Ok b, c').
Proof. unfold mbind, M_bind. destruct (m c) as [[] ?]; naive_solver. Qed.

Lemma wrap_ok {A} msg (m : outcome A) a : wrap msg m = Ok a ↔ m = Ok a.
Proof. destruct m; cbn; naive_solver. Qed.

Lemma wrapM_ok {A} msg (m : M W A) c a c' : wrapM msg m c = (Ok a, c') ↔ m c = (Ok a, c').
Proof. unfold wrapM. destruct (m c) as [[] ?]; naive_solver. Qed.

Lemma check_ok b e : check b e = Ok () ↔ b = false.
Proof. destruct b; naive_solver. Qed.

Lemma lift_ok {A} (o : outcome A) (c c' : Ctx W) a :
  lift o c = (Ok a, c') ↔ o = Ok a ∧ c' = c.
Proof. unfold lift. naive_solver. Qed.

Lemma mret_ok {A} (a b : A) (c c' : Ctx W) : mret (M:=M W) a c = (Ok b, c') ↔ b = a ∧ c' = c.
Proof. unfold mret, M_ret. naive_solver. Qed.

Lemma gets_ok {A} (f : W → A) c b c' : gets f c = (Ok b, c') ↔ b = f (store c) ∧ c' = c.
Proof. unfold gets. naive_solver. Qed.

Lemma modify_ok (f : W → W) c b c' :
  modify f c = (Ok b, c') ↔ c' = mkCtx (f (store c)) (events c).
Proof. unfold modify. destruct b. naive_solver. Qed.

Lemma EmitEvent_ok e (c c' : Ctx W) b :
  EmitEvent e c = (Ok b, c') ↔ c' = mkCtx (store c) (events c ++ [e]).
Proof. unfold EmitEvent. destruct b. naive_solver. Qed.

Lemma fail_with_ok {A} e (c c' : Ctx W) (a : A) : fail_with e c = (Ok a, c') ↔ False.
Proof. unfold fail_with. naive_solver. Qed.

Lemma panic_ok {A} e (c c' : Ctx W) (a : A) : panic e c = (Ok a, c') ↔ False.
Proof. unfold panic. naive_solver. Qed.
End inversion_lemmas.

(** ** Loops that refuse duplicates *)

(** [for _, v := range xs { if err := validate(v); err != nil { return err };
    if _, exists := seen[key(v)]; exists { return dup }; seen[key(v)] = struct{}{} }] *)
Section unique.
Context {A K : Type} `{Countable K}.

Fixpoint unique_loop (validate : A → outcome ()) (key : A → K) (dup : error) (xs : list A) (seen : gset K) :
    outcome (gset K) :=
  match xs with
  | [] => Ok seen
  | v :: xs' =>
      validate v ;;
      if decide (key v ∈ seen) then Err dup else unique_loop validate key dup xs' ({[key v]} ∪ seen)
  end.

Lemma unique_loop_ok validate key dup xs seen s :
  unique_loop validate key dup xs seen = Ok s ↔
  Forall (λ x, validate x = Ok ()) xs ∧ NoDup (key <$> xs) ∧ (∀ k, k ∈ key <$> xs → k ∉ seen) ∧
  s = list_to_set (key <$> xs) ∪ seen.
Proof.
  revert seen. induction xs as [|x xs IH]; intros seen; cbn.
  { split; [intros [= <-]; split_and!; [constructor|constructor|set_solver|set_solver]|].
    intros (_ & _ & _ & ->). f_equal. set_solver. }
  rewrite Forall_cons, NoDup_cons. destruct (validate x) as [[]|e|p]; cbn; [|split; [done|naive_solver]..].
  case_decide as Hin.
  { split; [done|]. intros (_ & _ & Hdis & _). destruct (Hdis (key x)); set_solver. }
  rewrite IH. split.
  - intros (Hf & Hnd & Hdis & ->). split_and!; [done|done| |done| |set_solver].
    + intros Ha. destruct (Hdis _ Ha). set_solver.
    + intros t [->|Ht]%elem_of_cons; [done|]. specialize (Hdis t Ht). set_solver.
  - intros ((_ & Hf) & (Ha & Hnd) & Hdis & ->). split_and!; [done|done| |set_solver].
    intros t Ht Ht'. apply elem_of_union in Ht' as [->%elem_of_singleton|Ht']; [done|].
    destruct (Hdis t); set_solver.
Qed.
End unique.

(** Rewriting base for goals and hypotheses of the form "the call returned". *)
Create Rewrite HintDb go_db.
#[export] Hint Rewrite @outcome_bind_ok @M_bind_ok @wrap_ok @wrapM_ok @check_ok @lift_ok @mret_ok @gets_ok @modify_ok
  @EmitEvent_ok @fail_with_ok @panic_ok : go_db.

(** [go_inv]: decompose every "returned normally" hypothesis into its steps. *)
Ltac go_inv :=
  repeat match goal with
  | H : _ = Ok _ |- _ => progress (autorewrite with go_db in H)
  | H : _ = (Ok _, _) |- _ => progress (autorewrite with go_db in H)
  | H : ∃ _, _ |- _ => destruct H
  | H : _ ∧ _ |- _ => destruct H
  | x : () |- _ => destruct x
  end; simplify_eq/=.

(** [go_case]: split on the conditions and lookups a definition branches on. *)
Ltac go_case := repeat (case_match; simplify_eq/=).
