(* ===== verification/ProgramLogic.v ===== *)
(** A small program logic for stateful calls.

    [respects R m]: a successful run of [m] takes the store to one that is related
    by the preorder [R]. The relations of the components (the store of x/poe is
    untouched, an invariant is kept, only some entries change) are preorders, so
    that one rule per control structure and one tactic do for all of them. *)
From stdpp Require Import base list strings relations.
From S2P Require Import Prelude.

Definition respects {W} (R : relation W) {A} (m : M W A) : Prop :=
  ∀ c a c', m c = (Ok a, c') → R (store c) (store c').

(** The result of a successful run. *)
Definition returns {W A} (Q : A → Prop) (m : M W A) : Prop := ∀ c a c', m c = (Ok a, c') → Q a.

(** What a run that does not return ends with. *)
Inductive failure := Failed (e : error) | Panicked (p : string).
Definition failure_of {A} (o : outcome A) : option failure :=
  match o with Ok _ => None | Err e => Some (Failed e) | Panic p => Some (Panicked p) end.
(** A run ends with a result and a context that satisfy [P], or with a failure that satisfies [Q]. *)
Definition ends {W A} (m : M W A) (c : Ctx W) (P : A → Ctx W → Prop) (Q : failure → Prop) : Prop :=
  match m c with
  | (Ok a, c') => P a c'
  | (Err e, _) => Q (Failed e)
  | (Panic p, _) => Q (Panicked p)
  end.
Lemma ends_intro {W A} (m : M W A) c (P : A → Ctx W → Prop) (Q : failure → Prop) :
  (∀ a c', m c = (Ok a, c') → P a c') → (∀ f, failure_of (m c).1 = Some f → Q f) → ends m c P Q.
Proof. unfold ends. destruct (m c) as [[a|e|p] c']; cbn; auto. Qed.
Lemma ends_ok {W A} (m : M W A) c P Q a c' : ends m c P Q → m c = (Ok a, c') → P a c'.
Proof. unfold ends. intros He Hm. by rewrite Hm in He. Qed.
Lemma ends_failed {W A} (m : M W A) c P Q f : ends m c P Q → failure_of (m c).1 = Some f → Q f.
Proof. unfold ends. destruct (m c) as [[a|e|p] c']; cbn; [done|by intros ? [= <-]..]. Qed.
Lemma ends_returns {W A} (m : M W A) c P Q : ends m c P Q → (∀ f, ¬ Q f) → ∃ a c', m c = (Ok a, c') ∧ P a c'.
Proof. unfold ends. destruct (m c) as [[a|e|p] c']; [by eexists _, _|intros He Hno; by destruct (Hno _ He)..]. Qed.
Lemma ends_ret {W A} (a : A) (c : Ctx W) (P : A → Ctx W → Prop) Q : P a c → ends (mret a) c P Q.
Proof. done. Qed.
Lemma ends_bind {W A B} (m : M W A) (k : A → M W B) c (P : A → Ctx W → Prop) P' Q :
  ends m c P Q → (∀ a c', P a c' → ends (k a) c' P' Q) → ends (m ≫= k) c P' Q.
Proof. unfold ends at 1 3, mbind, M_bind. destruct (m c) as [[a|e|p] c']; [|done..]. intros Ha Hk. by apply Hk. Qed.
Lemma ends_mono {W A} (m : M W A) c (P P' : A → Ctx W → Prop) (Q Q' : failure → Prop) :
  ends m c P Q → (∀ a c', P a c' → P' a c') → (∀ f, Q f → Q' f) → ends m c P' Q'.
Proof. unfold ends. destruct (m c) as [[a|e|p] c']; auto. Qed.

(** A successful run keeps [P]. *)
Definition keeps {W} (P : W → Prop) : relation W := λ w w', P w → P w'.
#[export] Instance keeps_preorder {W} (P : W → Prop) : PreOrder (keeps P).
Proof. split; [by intros w Hw|]. intros x y z Hxy Hyz Hx. by apply Hyz, Hxy. Qed.

(** Two relations at once. *)
Definition both {W} (R S : relation W) : relation W := λ w w', R w w' ∧ S w w'.
#[export] Instance both_preorder {W} (R S : relation W) `{!PreOrder R, !PreOrder S} : PreOrder (both R S).
Proof. split; [by intros w; split|]. intros x y z [??] [??]. split; by etrans. Qed.

(** [S] for the states where the invariant [P] holds, which [S] keeps. *)
Definition under {W} (P : W → Prop) (S : relation W) : relation W := λ w w', P w → P w' ∧ S w w'.
#[export] Instance under_preorder {W} (P : W → Prop) (S : relation W) `{!PreOrder S} : PreOrder (under P S).
Proof.
  split; [by intros w Hw|]. intros x y z Hxy Hyz Hx. destruct (Hxy Hx) as [Hy Sxy]. destruct (Hyz Hy) as [Hz Syz].
  split; [done|]. by etrans.
Qed.

(** The relation on what [f] sees of the state. *)
Definition seen_by {V W} (f : V → W) (R : relation W) : relation V := λ v v', R (f v) (f v').
#[export] Instance seen_by_preorder {V W} (f : V → W) (R : relation W) `{!PreOrder R} : PreOrder (seen_by f R).
Proof. split; [intros v; unfold seen_by; reflexivity|]. intros x y z. unfold seen_by. by etrans. Qed.

Section rules.
Context {W : Type} (R : relation W).

Lemma respects_mono (S : relation W) {A} (m : M W A) :
  (∀ w w', R w w' → S w w') → respects R m → respects S m.
Proof. intros HRS Hm c a c' Hrun. by apply HRS, (Hm _ _ _ Hrun). Qed.
Lemma respects_both (S : relation W) {A} (m : M W A) : respects R m → respects S m → respects (both R S) m.
Proof. intros HR HS c a c' Hrun. split; [by apply (HR _ _ _ Hrun)|by apply (HS _ _ _ Hrun)]. Qed.
Lemma respects_wrap {A} msg (m : M W A) : respects R m → respects R (wrapM msg m).
Proof. intros Hm c a c' Hrun%wrapM_ok. by apply (Hm _ _ _ Hrun). Qed.
Lemma respects_fail {A} e : respects R (A:=A) (fail_with e).
Proof. by intros c b c' [=]. Qed.
Lemma respects_panic {A} e : respects R (A:=A) (panic e).
Proof. by intros c b c' [=]. Qed.
Lemma respects_modify f : (∀ w, R w (f w)) → respects R (modify f).
Proof. by intros Hf c a c' [= _ <-]. Qed.

Context `{!PreOrder R}.

Lemma respects_bind {A B} (m : M W A) (f : A → M W B) : respects R m → (∀ a, respects R (f a)) → respects R (m ≫= f).
Proof. intros Hm Hf c b c' (a & c1 & Hrun & Hrest)%M_bind_ok. etrans; [by apply (Hm _ _ _ Hrun)|by apply (Hf _ _ _ _ Hrest)]. Qed.
Lemma respects_bind_returns {A B} (Q : A → Prop) (m : M W A) (f : A → M W B) :
  respects R m → returns Q m → (∀ a, Q a → respects R (f a)) → respects R (m ≫= f).
Proof.
  intros Hm HQ Hf c b c' (a & c1 & Hrun & Hrest)%M_bind_ok.
  etrans; [by apply (Hm _ _ _ Hrun)|by apply (Hf _ (HQ _ _ _ Hrun) _ _ _ Hrest)].
Qed.
(** A call that reads the state at most. *)
Lemma respects_pure {A} (m : M W A) : (∀ c a c', m c = (Ok a, c') → store c' = store c) → respects R m.
Proof. intros Hm c a c' Hrun. by rewrite (Hm _ _ _ Hrun). Qed.
Lemma respects_lift {A} (o : outcome A) : respects R (lift o).
Proof. apply respects_pure. by intros c a c' [= -> <-]. Qed.
Lemma respects_gets {A} (f : W → A) : respects R (gets f).
Proof. apply respects_pure. by intros c a c' [= _ <-]. Qed.
Lemma respects_ret {A} (a : A) : respects R (mret a).
Proof. apply respects_pure. by intros c b c' [= _ <-]. Qed.
Lemma respects_emit e : respects R (EmitEvent e).
Proof. apply respects_pure. by intros c b c' [= _ <-]. Qed.
Lemma respects_emits es : respects R (EmitEvents es).
Proof. apply respects_pure. by intros c b c' [= _ <-]. Qed.
Lemma respects_forM {A} (xs : list A) body : (∀ x, x ∈ xs → respects R (body x)) → respects R (forM xs body).
Proof.
  induction xs as [|x xs IH]; intros Hb; [apply respects_ret|]. cbn. apply respects_bind; [apply Hb; by left|].
  intros _. apply IH. intros y Hy. apply Hb. by right.
Qed.
Lemma respects_iterM {A} (xs : list A) cb : (∀ x, x ∈ xs → respects R (cb x)) → respects R (iterM xs cb).
Proof.
  induction xs as [|x xs IH]; intros Hb; [apply respects_ret|]. cbn. apply respects_bind; [apply Hb; by left|].
  intros []; [apply respects_ret|]. apply IH. intros y Hy. apply Hb. by right.
Qed.
(** An error that is only looked at to return another one. *)
Lemma respects_try {A B} (m : M W A) (f : A + error → M W B) :
  respects R m → (∀ a, respects R (f (inl a))) → (∀ e c b c', f (inr e) c ≠ (Ok b, c')) → respects R (try m ≫= f).
Proof.
  intros Hm Hf He c b c' (r & c1 & Hrun & Hrest)%M_bind_ok. unfold try in Hrun.
  destruct (m c) as [[a|e|p] c2] eqn:E; [|by injection Hrun as <- <-; destruct (He _ _ _ _ Hrest)|done].
  injection Hrun as <- <-. etrans; [by apply (Hm _ _ _ E)|by apply (Hf _ _ _ _ Hrest)].
Qed.
End rules.

(** ** Calls that fail, too *)

(** However [m] ends, the store is related to the one before. *)
Definition always {W} (R : relation W) {A} (m : M W A) : Prop := ∀ c, R (store c) (store (m c).2).

Section always_rules.
Context {W : Type} (R : relation W) `{!PreOrder R}.

Lemma always_respects {A} (m : M W A) : always R m → respects R m.
Proof. intros Hm c a c' Hrun. specialize (Hm c). by rewrite Hrun in Hm. Qed.
Lemma always_bind {A B} (m : M W A) (f : A → M W B) : always R m → (∀ a, always R (f a)) → always R (m ≫= f).
Proof.
  intros Hm Hf c. specialize (Hm c). unfold mbind, M_bind. destruct (m c) as [[a|e|p] c1]; [|done|done].
  etrans; [exact Hm|apply (Hf a c1)].
Qed.
Lemma always_wrap {A} msg (m : M W A) : always R m → always R (wrapM msg m).
Proof. intros Hm c. specialize (Hm c). unfold wrapM. by destruct (m c). Qed.
Lemma always_try {A} (m : M W A) : always R m → always R (try m).
Proof. intros Hm c. specialize (Hm c). unfold try. by destruct (m c) as [[] ?]. Qed.
Lemma always_read {A} (m : M W A) : (∀ c, store (m c).2 = store c) → always R m.
Proof. intros Hm c. by rewrite Hm. Qed.
End always_rules.

Lemma forM_ends {W A} (P : Ctx W → Prop) (Q : failure → Prop) (f : A → M W ()) xs c :
  (∀ x c, x ∈ xs → P c → ends (f x) c (λ _, P) Q) → P c → ends (forM xs f) c (λ _, P) Q.
Proof.
  revert c. induction xs as [|x xs IH]; intros c Hf Hc; [done|]. cbn [forM].
  apply (ends_bind _ _ _ (λ _, P)); [apply Hf; [by left|done]|]. intros [] c' Hc'. apply IH; [|done].
  intros y d Hy. apply Hf. by right.
Qed.

(** The calls a component knows to respect its relation. *)
Create HintDb respects.

(** One rule; the leaves are left to the database. *)
Ltac respects_step :=
  lazymatch goal with
  | |- respects _ (mbind _ (try _)) => apply respects_try; [apply _| |intros ?|by intros ? ? ? ? [=]]
  | |- respects _ (mbind _ _) => apply respects_bind; [apply _| |intros ?]
  | |- respects _ (wrapM _ _) => apply respects_wrap
  | |- respects _ (lift _) => apply respects_lift, _
  | |- respects _ (gets _) => apply respects_gets, _
  | |- respects _ (mret _) => apply respects_ret, _
  | |- respects _ (EmitEvent _) => apply respects_emit, _
  | |- respects _ (EmitEvents _) => apply respects_emits, _
  | |- respects _ (fail_with _) => apply respects_fail
  | |- respects _ (panic _) => apply respects_panic
  | |- respects _ (forM _ _) => apply respects_forM; [apply _|intros ? ?]
  | |- respects _ (iterM _ _) => apply respects_iterM; [apply _|intros ? ?]
  | |- respects _ (match ?x with _ => _ end) => destruct x
  | |- respects _ _ => solve [eauto with respects]
  end.
Ltac respects_solve := repeat respects_step.

(** The same for [always]; the leaves that only read are found by computation. *)
Ltac always_solve :=
  repeat lazymatch goal with
  | |- always _ (mbind _ _) => apply always_bind; [apply _| |intros ?]
  | |- always _ (wrapM _ _) => apply always_wrap
  | |- always _ (try _) => apply always_try
  | |- always _ (match ?x with _ => _ end) => destruct x
  | |- always _ _ => first [solve [eauto with respects] | apply always_read; [apply _|by intros ?]]
  end.

(** Rules for the result. *)
Section results.
Context {W : Type}.
Lemma returns_ret {A} (Q : A → Prop) a : Q a → returns (W:=W) Q (mret a).
Proof. by intros HQ c b c' [= <- _]. Qed.
Lemma returns_panic {A} (Q : A → Prop) p : returns (W:=W) Q (panic p).
Proof. by intros c b c' [=]. Qed.
Lemma returns_fail {A} (Q : A → Prop) e : returns (W:=W) Q (fail_with e).
Proof. by intros c b c' [=]. Qed.
Lemma returns_lift {A} (Q : A → Prop) (o : outcome A) : (∀ a, o = Ok a → Q a) → returns (W:=W) Q (lift o).
Proof. intros HQ c b c' [= -> _]. by apply HQ. Qed.
Lemma returns_bind {A B} (P : A → Prop) (Q : B → Prop) (m : M W A) (f : A → M W B) :
  returns P m → (∀ a, P a → returns Q (f a)) → returns Q (m ≫= f).
Proof. intros Hm Hf c b c' (a & c1 & Hrun & Hrest)%M_bind_ok. by eapply Hf; [eapply Hm|]. Qed.
End results.
