(* ===== verification/Slice.v ===== *)
(** Go slices over a shared backing array.

    A slice header is a pointer into an array, a length and a capacity. Copies
    of a header (a value receiver, the operand of [range]) keep the length they
    were made with and read the array as it is now, so a delete in place
    ([append(s[:i], s[i+1:]...)]) done through one header is visible, shifted,
    through the others. Every slice here starts at offset 0 of its array, as the
    ones of the program do. *)
From stdpp Require Import base list strings sets.
From Stdlib Require Import Lia.
From S2P Require Import Prelude.
Open Scope nat_scope.

Record slice (A : Type) := mkSlice { arr : list A; len : nat }.
Arguments mkSlice {A} arr len.
Arguments arr {A} s.
Arguments len {A} s.

(** The elements a header shows. *)
Definition view {A} (s : slice A) : list A := take (len s) (arr s).
Definition of_list {A} (l : list A) : slice A := mkSlice l (length l).

(** [append(s[0:i], s[i+1:]...)], which never grows: [s[i+1:]] panics when
    [i+1 > len(s)]; otherwise the tail moves one to the left and the array keeps
    what stood behind it. *)
Definition delete_at {A} (i : nat) (s : slice A) : outcome (slice A) :=
  if decide (S i ≤ len s) then
    Ok (mkSlice (take i (arr s) ++ drop (S i) (take (len s) (arr s)) ++ drop (pred (len s)) (arr s))
                (pred (len s)))
  else Panic "slice bounds out of range".

(** [for i, v := range s { body }] where [body] may change the array: [n] is the
    length [range] read once, element [i] is read when iteration [i] starts. *)
Fixpoint range_loop {A St} (get : St → list A) (body : nat → A → St → outcome St)
    (i n : nat) (st : St) : outcome St :=
  match n with
  | 0 => Ok st
  | S n' =>
      match get st !! i with
      | Some v => st' ← body i v st; range_loop get body (S i) n' st'
      | None => Panic "index out of range"
      end
  end.

(** [for i, v := range s { if pred(v) { s = append(s[0:i], s[i+1:]...) } }] *)
Definition remove_all {A} (p : A → bool) (s : slice A) : outcome (slice A) :=
  range_loop arr (λ i v s, if p v then delete_at i s else Ok s) 0 (len s) s.

Section lemmas.
Context {A : Type}.
Implicit Types (l : list A) (s : slice A).

Lemma delete_at_ok i l tl :
  i < length l →
  delete_at i (mkSlice (l ++ tl) (length l)) =
    Ok (mkSlice (delete i l ++ drop (pred (length l)) (l ++ tl)) (pred (length l))).
Proof.
  intros Hi. unfold delete_at. cbn. rewrite decide_True by lia.
  rewrite take_app_length, take_app_le by lia.
  by rewrite (app_assoc (take i l)), <-delete_take_drop.
Qed.

(** What a delete in place leaves behind the shortened slice: the last element again. *)
Lemma stale_tail l tl x :
  last l = Some x → drop (pred (length l)) (l ++ tl) = x :: tl.
Proof.
  intros (l' & ->)%last_Some. rewrite length_app. cbn.
  replace (pred (length l' + 1)) with (length l') by lia.
  by rewrite <-app_assoc, drop_app_length.
Qed.

Lemma range_loop_skip (p : A → bool) i n s :
  (∀ j v, i ≤ j < i + n → arr s !! j = Some v → p v = false) →
  i + n ≤ length (arr s) →
  range_loop arr (λ i v s, if p v then delete_at i s else Ok s) i n s = Ok s.
Proof.
  revert i. induction n as [|n IH]; intros i Hp Hlen; [done|]. cbn.
  destruct (lookup_lt_is_Some_2 (arr s) i) as [v Hv]; [lia|]. rewrite Hv.
  rewrite (Hp i v) by (done || lia). cbn. apply IH; [|lia].
  intros j w ??. apply (Hp j w); [lia|done].
Qed.

Lemma range_loop_app (p : A → bool) i n m s :
  range_loop arr (λ i v s, if p v then delete_at i s else Ok s) i (n + m) s =
  (range_loop arr (λ i v s, if p v then delete_at i s else Ok s) i n s ≫=
    range_loop arr (λ i v s, if p v then delete_at i s else Ok s) (i + n) m).
Proof.
  revert i s. induction n as [|n IH]; intros i s.
  { cbn. by rewrite Nat.add_0_r. }
  cbn. destruct (arr s !! i) as [v|]; [|done]. cbn.
  destruct (if p v then _ else _) as [s'|e|e]; cbn; [|done|done].
  rewrite IH. by rewrite Nat.add_succ_r.
Qed.

(** Nothing matches: the loop changes nothing. *)
Lemma remove_all_none (p : A → bool) l tl :
  Forall (λ v, p v = false) l →
  remove_all p (mkSlice (l ++ tl) (length l)) = Ok (mkSlice (l ++ tl) (length l)).
Proof.
  intros Hl. unfold remove_all. cbn. apply range_loop_skip.
  - cbn. intros j v Hj Hv. rewrite lookup_app_l in Hv by lia.
    by eapply Forall_lookup_1 in Hl.
  - cbn. rewrite length_app. lia.
Qed.

(** Exactly one element matches: it is deleted, and the array keeps one more
    copy of the last element behind the slice (or, when the last element itself
    goes, that element). *)
Lemma remove_all_one (p : A → bool) l1 x l2 tl :
  p x = true → Forall (λ v, p v = false) (l1 ++ l2) →
  remove_all p (mkSlice ((l1 ++ x :: l2) ++ tl) (length (l1 ++ x :: l2))) =
    Ok (mkSlice ((l1 ++ l2) ++ default x (last l2) :: tl) (length (l1 ++ l2))).
Proof.
  intros Hx Hl. apply Forall_app in Hl as [H1 H2].
  unfold remove_all. cbn [len]. rewrite !length_app. cbn [length].
  rewrite range_loop_app, range_loop_skip; cycle 1.
  { cbn. intros j v Hj Hv. rewrite <-app_assoc, lookup_app_l in Hv by lia.
    by eapply Forall_lookup_1 in H1. }
  { cbn. rewrite !length_app. lia. }
  cbn. replace (((l1 ++ x :: l2) ++ tl) !! length l1) with (Some x)
    by (by rewrite <-app_assoc, <-app_comm_cons, list_lookup_middle).
  rewrite Hx.
  replace (length l1 + S (length l2)) with (length (l1 ++ x :: l2))
    by (rewrite length_app; done).
  rewrite delete_at_ok by (rewrite length_app; cbn; lia). cbn.
  rewrite delete_middle.
  assert (last (l1 ++ x :: l2) = Some (default x (last l2))) as Hlast.
  { rewrite last_app_cons, last_cons. by destruct (last l2). }
  rewrite (stale_tail _ _ _ Hlast). rewrite length_app. cbn.
  replace (pred (length l1 + S (length l2))) with (length l1 + length l2) by lia.
  rewrite range_loop_skip; [done|..]; cbn; [|rewrite !length_app; cbn; lia].
  intros j v Hj Hv. destruct (decide (j < length (l1 ++ l2))) as [Hlt|Hge].
  - rewrite lookup_app_l in Hv by done.
    rewrite lookup_app_r in Hv by lia. by eapply Forall_lookup_1 in H2.
  - rewrite length_app in Hge. destruct l2 as [|y l2]; [cbn in Hj; lia|].
    rewrite lookup_app_r in Hv by (rewrite length_app; lia).
    replace (j - length (l1 ++ y :: l2)) with 0 in Hv by (rewrite length_app in *; cbn in *; lia).
    cbn in Hv. simplify_eq.
    assert (is_Some (last (y :: l2))) as [z Hz] by (by apply last_is_Some).
    rewrite last_cons in Hz |- *. cbn in *. destruct (last l2) as [w|] eqn:E; cbn.
    + rewrite Forall_cons in H2. destruct H2 as [_ H2].
      apply last_Some in E as (l' & ->). rewrite Forall_app, Forall_singleton in H2. naive_solver.
    + rewrite Forall_cons in H2. naive_solver.
Qed.

(** A delete in place only moves elements of the array. *)
Lemma delete_at_incl i s s' x :
  delete_at i s = Ok s' → x ∈ arr s' → x ∈ arr s.
Proof.
  unfold delete_at. case_decide; [|done]. intros [= <-]. cbn.
  rewrite !elem_of_app. intros [H1|[H1|H1]].
  - by eapply elem_of_take in H1 as (? & ? & _); apply list_elem_of_lookup; eauto.
  - eapply subseteq_drop in H1. by eapply subseteq_take in H1.
  - by eapply subseteq_drop in H1.
Qed.

Lemma remove_all_incl (p : A → bool) s s' x :
  remove_all p s = Ok s' → x ∈ arr s' → x ∈ arr s.
Proof.
  unfold remove_all. generalize (len s), 0. intros n.
  revert s. induction n as [|n IH]; intros s i; cbn; [by intros [= <-]|].
  destruct (arr s !! i) as [v|]; [|done]. intros (s1 & Hs1 & H)%outcome_bind_ok Hx.
  specialize (IH _ _ H Hx). destruct (p v); [by eapply delete_at_incl|by simplify_eq].
Qed.
End lemmas.

(** ** Deleting every visited element through a second header

    The pattern of [UnsetPrivileged]: a header copy is ranged over while the
    callback deletes the current element through the original header. *)

(** [for _, v := range s { body }] with effects; [n] and element reads as in [range_loop]. *)
Fixpoint range_loopM {W A St} (get : St → list A) (body : A → St → M W St)
    (i n : nat) (st : St) : M W St :=
  match n with
  | 0 => mret st
  | S n' =>
      match get st !! i with
      | Some v => st' ← body v st; range_loopM get body (S i) n' st'
      | None => panic "index out of range"
      end
  end.

(** The elements that survive the loop: each delete shifts the next element over
    the read position, and the copies of the last element left behind the slice
    are what the end of the loop reads. *)
Fixpoint survivors {A} (l : list A) : list A :=
  match l with
  | x :: y :: l' => match l' with [] => [] | _ => y :: survivors l' end
  | _ => []
  end.

(** The elements the loop reads, in order; [m] stale copies follow the slice. *)
Fixpoint visited {A} (l : list A) (m : nat) : list A :=
  match l with
  | [] => []
  | x :: l1 =>
      match l1 with
      | [] => replicate (S m) x
      | y :: l' => match l' with [] => x :: replicate (S m) y | _ => x :: visited l' (S m) end
      end
  end.

Lemma range_loopM_S {W A St} (get : St → list A) (body : A → St → M W St) i n st :
  range_loopM get body i (S n) st =
    match get st !! i with
    | Some v => st' ← body v st; range_loopM get body (S i) n st'
    | None => panic "index out of range"
    end.
Proof. done. Qed.

#[local] Arguments range_loopM : simpl never.

Section alias_loop.
Context {W A : Type} (eqb : A → A → bool) (act : A → M W ()).
Hypothesis eqb_spec : ∀ x y, eqb x y = true ↔ x = y.
Implicit Types l : list A.

Let body (v : A) (s : slice A) : M W (slice A) :=
  act v ;; lift (remove_all (eqb v) s).

Lemma eqb_refl_true x : eqb x x = true.
Proof. by apply eqb_spec. Qed.

Lemma eqb_ne x y : x ≠ y → eqb x y = false.
Proof. intros H. destruct (eqb x y) eqn:E; [|done]. by apply eqb_spec in E. Qed.

Lemma Forall_eqb_notin x l : x ∉ l → Forall (λ v, eqb x v = false) l.
Proof.
  intros H. apply Forall_forall. intros y Hy. apply eqb_ne. intros ->. done.
Qed.

Lemma remove_visited P x R tl :
  x ∉ P ++ R →
  remove_all (eqb x) (mkSlice ((P ++ x :: R) ++ tl) (length (P ++ x :: R))) =
    Ok (mkSlice ((P ++ R) ++ default x (last R) :: tl) (length (P ++ R))).
Proof.
  intros H. apply remove_all_one; [apply eqb_refl_true|]. by apply Forall_eqb_notin.
Qed.

Lemma body_step v s s' (k : slice A → M W (slice A)) c :
  remove_all (eqb v) s = Ok s' →
  (body v s ≫= k) c = (act v ;; k s') c.
Proof.
  intros H. unfold body, mbind, M_bind. rewrite H.
  by destruct (act v c) as [[[]|e|e] c1].
Qed.

(** Reads of an element that is gone act again but delete nothing. *)
Lemma alias_loop_stale P z K i n c :
  z ∉ P → length P ≤ i → i + n ≤ length P + K →
  range_loopM arr body i n (mkSlice (P ++ replicate K z) (length P)) c =
  (forM (replicate n z) act ;; mret (mkSlice (P ++ replicate K z) (length P))) c.
Proof.
  intros Hz. revert i c. induction n as [|n IH]; intros i c Hi Hn; [done|]. rewrite range_loopM_S. cbn.
  assert ((P ++ replicate K z) !! i = Some z) as ->.
  { rewrite lookup_app_r by done. apply lookup_replicate_2. lia. }
  rewrite (body_step _ _ _ _ _ (remove_all_none _ _ _ (Forall_eqb_notin _ _ Hz))).
  unfold mbind, M_bind. destruct (act z c) as [[[]|e|e] c1]; [|done|done].
  by rewrite IH by lia.
Qed.

(** One iteration: the element under the read position acts and is deleted. *)
Lemma alias_loop_step P x R tl n c :
  x ∉ P ++ R →
  range_loopM arr body (length P) (S n) (mkSlice (P ++ x :: R ++ tl) (length (P ++ x :: R))) c =
  (act x ;;
   range_loopM arr body (S (length P)) n
     (mkSlice (P ++ R ++ default x (last R) :: tl) (length (P ++ R)))) c.
Proof.
  intros Hx. rewrite range_loopM_S. cbn. rewrite list_lookup_middle by done.
  pose proof (remove_visited P x R tl Hx) as Hr.
  rewrite <-app_assoc, <-app_comm_cons, <-app_assoc in Hr.
  by rewrite (body_step _ _ _ _ _ Hr).
Qed.

(** The stale copy of the only element left is read: it acts and is deleted, and what follows
    reads copies of it. *)
Lemma alias_loop_one_left P z m c :
  z ∉ P →
  range_loopM arr body (S (length P)) (S m) (mkSlice (P ++ z :: z :: replicate m z) (length (P ++ [z]))) c =
  (forM (replicate (S m) z) act ;; mret (mkSlice (P ++ replicate (S (S m)) z) (length P))) c.
Proof.
  intros HzP.
  replace (S (length P)) with (length (P ++ [z])) by (rewrite length_app; cbn; lia).
  replace (P ++ z :: z :: replicate m z) with ((P ++ [z]) ++ z :: replicate m z)
    by (by rewrite <-app_assoc).
  rewrite range_loopM_S. cbn [arr]. rewrite list_lookup_middle by done.
  assert (remove_all (eqb z) (mkSlice ((P ++ [z]) ++ z :: replicate m z) (length (P ++ [z])))
    = Ok (mkSlice (P ++ replicate (S (S m)) z) (length P))) as Hr.
  { rewrite (remove_visited P z []) by (by rewrite app_nil_r). by rewrite app_nil_r. }
  rewrite (body_step _ _ _ _ _ Hr).
  change (forM (replicate (S m) z) act) with (act z ;; forM (replicate m z) act).
  unfold mbind, M_bind. destruct (act z c) as [[[]|e|e] c1]; [|done|done].
  by rewrite (alias_loop_stale P z (S (S m))) by (rewrite ?length_app; cbn; done || lia).
Qed.

Lemma alias_loop_gen n R P z m i c :
  length R ≤ n → NoDup (P ++ R) → last R = Some z → i = length P →
  range_loopM arr body i (length R + m) (mkSlice (P ++ R ++ replicate m z) (length (P ++ R))) c =
  (forM (visited R m) act ;;
     mret (mkSlice (P ++ survivors R ++
             replicate (length R + m - length (survivors R)) z)
             (length (P ++ survivors R)))) c.
Proof.
  revert R P m i c. induction n as [|n IH]; intros R P m i c Hn Hnd Hz ->;
    [by destruct R; cbn in *; [|lia]|].
  destruct R as [|x R]; [done|].
  assert (x ∉ P ++ R) as Hx.
  { rewrite NoDup_app, NoDup_cons in Hnd. set_solver. }
  change (length (x :: R) + m) with (S (length R + m)).
  rewrite <-app_comm_cons, alias_loop_step by done.
  destruct R as [|y [|w R]].
  - (* the last element, at an even position *)
    cbn in Hz. simplify_eq. cbn. rewrite !app_nil_r in *.
    unfold mbind, M_bind. destruct (act z c) as [[[]|e|e] c1]; [|done|done].
    change (z :: replicate m z) with (replicate (S m) z).
    by rewrite (alias_loop_stale P z (S m)) by (done || lia).
  - (* one element before the last: the stale copy of the last is read next *)
    cbn in Hz. simplify_eq. cbn. rewrite !app_nil_r in *.
    unfold mbind, M_bind. destruct (act x c) as [[[]|e|e] c1]; [|done|done].
    assert (z ∉ P) as HzP by (rewrite NoDup_app in Hnd; set_solver).
    rewrite alias_loop_one_left by done. done.
  - (* the next element moves under the read position just left: it survives *)
    assert (last (y :: w :: R) = Some z) as -> by done. cbn [from_option id].
    replace (P ++ (y :: w :: R) ++ z :: replicate m z)
      with ((P ++ [y]) ++ (w :: R) ++ replicate (S m) z) by (by rewrite <-app_assoc).
    replace (P ++ y :: w :: R) with ((P ++ [y]) ++ w :: R) by (by rewrite <-app_assoc).
    change (visited (x :: y :: w :: R) m) with (x :: visited (w :: R) (S m)).
    change (survivors (x :: y :: w :: R)) with (y :: survivors (w :: R)).
    replace (length (y :: w :: R) + m) with (length (w :: R) + S m) by (cbn; lia).
    cbn [forM]. unfold mbind, M_bind.
    destruct (act x c) as [[[]|e|e] c1]; [|done|done].
    rewrite IH; [|cbn in *; lia| |done|rewrite length_app; cbn; lia].
    + rewrite <-!app_assoc. cbn [app].
      replace (length (w :: R) + S m - length (survivors (w :: R)))
        with (S (length (w :: R) + S m) - length (y :: survivors (w :: R))) by (cbn; lia).
      done.
    + rewrite <-app_assoc. cbn. rewrite NoDup_app, !NoDup_cons in *. set_solver.
Qed.

(** The whole loop over a slice without duplicates: [visited] is what acted,
    [survivors] is what the original header still shows. *)
Lemma alias_loop l c :
  NoDup l →
  ∃ tl,
  range_loopM arr body 0 (length l) (of_list l) c =
  (forM (visited l 0) act ;;
     mret (mkSlice (survivors l ++ tl) (length (survivors l)))) c.
Proof.
  intros Hnd. destruct (last l) as [z|] eqn:Hz.
  - eexists. pose proof (alias_loop_gen (length l) l [] z 0 0 c) as H.
    rewrite Nat.add_0_r, app_nil_r in H. by apply H.
  - apply last_None in Hz as ->. by exists [].
Qed.
End alias_loop.

(** ** What is visited and what survives *)
Section survivors.
Context {A : Type}.
Implicit Types l : list A.

(** Induction that takes two elements at a time while at least three are left. *)
Lemma pairs_ind (P : list A → Prop) :
  P [] → (∀ x, P [x]) → (∀ x y, P [x; y]) →
  (∀ x y z l, P (z :: l) → P (x :: y :: z :: l)) → ∀ l, P l.
Proof.
  intros H0 H1 H2 H3 l. remember (length l) as m eqn:Hm. revert l Hm.
  induction m as [m IH] using lt_wf_ind; intros l ->.
  destruct l as [|x [|y [|z l]]]; [done..|]. apply H3. eapply IH; [|done]. cbn. lia.
Qed.

Lemma survivors_sublist l : survivors l `sublist_of` l.
Proof.
  induction l as [|x|x y|x y z l IH] using pairs_ind; [apply sublist_nil_l..|].
  change (survivors (x :: y :: z :: l)) with (y :: survivors (z :: l)).
  by do 2 constructor.
Qed.

Lemma visited_elem l m x :
  NoDup l → x ∈ visited l m ↔ x ∈ l ∧ x ∉ survivors l.
Proof.
  revert m. induction l as [|a|a b|a b c l IH] using pairs_ind; intros m Hnd.
  - cbn. set_solver.
  - cbn. rewrite elem_of_cons, elem_of_replicate. set_solver.
  - cbn. rewrite !elem_of_cons, elem_of_replicate. set_solver.
  - change (survivors (a :: b :: c :: l)) with (b :: survivors (c :: l)).
    change (visited (a :: b :: c :: l) m) with (a :: visited (c :: l) (S m)).
    apply NoDup_cons in Hnd as [Ha Hnd]. apply NoDup_cons in Hnd as [Hb Hnd].
    rewrite elem_of_cons, IH by done. rewrite (elem_of_cons (b :: c :: l)), (elem_of_cons (c :: l)).
    rewrite (elem_of_cons (survivors _)).
    assert (a ∉ survivors (c :: l)).
    { intros Hin. apply Ha. right. eapply sublist_elem; [apply survivors_sublist|done]. }
    rewrite elem_of_cons in Ha. split; [intros [->|[Hx Hs]]|intros [[->|[->|Hx]] Hs]]; try tauto.
    split; [tauto|]. intros [->|?]; tauto.
Qed.

(** At most two elements: nothing survives. *)
Lemma survivors_short l : length l ≤ 2 ↔ survivors l = [].
Proof. destruct l as [|x [|y [|z l]]]; cbn; split; (done || lia). Qed.
End survivors.
