(* ===== verification/Sdk.v ===== *)
(** The interfaces of the Cosmos SDK the modules are written against.

    The SDK is not part of the repository. Each class below lists the operations
    the modules call; the [...Laws] classes state the documented behaviour the
    theorems rely on. [RefKV] is a model of the store laws, used to evaluate the
    definitions on concrete inputs. *)
From stdpp Require Import base list strings gmap sorting sets.
From Stdlib Require Import ZArith Lia Ascii.
From S2P Require Import Prelude.
Open Scope Z_scope.

(** Go byte slices and strings are both byte sequences. *)
Abbreviation bytes := string (only parsing).
Abbreviation AccAddress := string (only parsing).

(** ** Byte strings *)
Definition byte_of (z : Z) : Ascii.ascii := Ascii.ascii_of_N (Z.to_N z).
Definition of_byte (a : Ascii.ascii) : Z := Z.of_N (Ascii.N_of_ascii a).
Definition bytes1 (z : Z) : bytes := String (byte_of z) EmptyString.

Lemma of_byte_of z : is_u 8 z → of_byte (byte_of z) = z.
Proof.
  unfold is_u, of_byte, byte_of. intros Hz.
  rewrite Ascii.N_ascii_embedding by lia. lia.
Qed.

Lemma byte_of_of a : byte_of (of_byte a) = a.
Proof. unfold byte_of, of_byte. rewrite N2Z.id. apply Ascii.ascii_N_embedding. Qed.

Lemma of_byte_range a : is_u 8 (of_byte a).
Proof. unfold is_u, of_byte. pose proof (Ascii.N_ascii_bounded a). lia. Qed.

Lemma byte_of_inj z1 z2 : is_u 8 z1 → is_u 8 z2 → byte_of z1 = byte_of z2 → z1 = z2.
Proof. intros H1 H2 H. by rewrite <-(of_byte_of z1), <-(of_byte_of z2), H. Qed.

(** Lexicographic order of keys, the order of the store's iterators. *)
Definition bytes_lt (a b : bytes) : Prop := String.compare a b = Lt.
Definition bytes_le (a b : bytes) : Prop := String.compare a b ≠ Gt.

#[export] Instance bytes_lt_dec : RelDecision bytes_lt.
Proof. intros a b. unfold bytes_lt. apply _. Defined.
#[export] Instance bytes_le_dec : RelDecision bytes_le.
Proof. intros a b. unfold bytes_le. apply _. Defined.

Lemma bytes1_lt x y : is_u 8 x → is_u 8 y → bytes_lt (bytes1 x) (bytes1 y) ↔ x < y.
Proof.
  intros Hx Hy. unfold bytes_lt, bytes1. cbn. unfold Ascii.compare.
  pose proof (of_byte_of x Hx) as Ex. pose proof (of_byte_of y Hy) as Ey.
  unfold of_byte in *. rewrite <-Ex, <-Ey, <-N2Z.inj_lt, <-N.compare_lt_iff.
  rewrite Ex, Ey.
  by destruct (N.compare (Ascii.N_of_ascii (byte_of x)) (Ascii.N_of_ascii (byte_of y))).
Qed.

(** ** Addresses and coins *)
Class Bech32 := {
  (** [sdk.AccAddressFromBech32] *)
  AccAddressFromBech32 : string → outcome AccAddress;
  (** [sdk.AccAddress.String] *)
  AccAddress_String : AccAddress → string;
}.

(** An address reads back from its text form. The SDK refuses the empty address. *)
Class Bech32Laws `{Bech32} := {
  bech32_roundtrip a :
    a ≠ "" → (String.length a ≤ 255)%nat → AccAddressFromBech32 (AccAddress_String a) = Ok a;
}.

Record Coin := mkCoin { Denom : string; Amount : Z }.
#[export] Instance Coin_eq_dec : EqDecision Coin.
Proof. solve_decision. Defined.

Class SdkCoins := {
  (** [sdk.NewIntFromString]; false when the text is no integer of at most 256 bits. *)
  NewIntFromString : string → option Z;
  (** [sdk.Coin.Validate] *)
  Coin_Validate : Coin → outcome ();
  (** [sdk.NewCoins]: drops zero coins, sorts, and panics on an invalid result. *)
  NewCoins : list Coin → outcome (list Coin);
  Coin_String : Coin → string;
  Coins_String : list Coin → string;
}.

Class SdkCoinsLaws `{SdkCoins} := {
  Coin_Validate_nonneg c : Coin_Validate c = Ok () → 0 ≤ Amount c;
  NewCoins_single c :
    Coin_Validate c = Ok () → NewCoins [c] = Ok (if decide (Amount c = 0) then [] else [c]);
}.

(** ** The key/value store of a module *)
Class KVStore (W : Type) := {
  (** [ctx.KVStore(key).Get(k)]; a missing key reads as nil. *)
  kv_get : W → string → bytes → option bytes;
  kv_set : string → bytes → bytes → W → W;
  kv_delete : string → bytes → W → W;
  (** What [prefix.NewStore(store, pre).Iterator(nil, nil)] yields: the entries
      under the prefix, keys without it. An iterator ranges over the store as it
      is when the iterator is created. *)
  kv_iterate : W → string → bytes → list (bytes * bytes);
}.

Class KVLaws (W : Type) `{KVStore W} := {
  kv_get_set w sk k v sk' k' :
    kv_get (kv_set sk k v w) sk' k' =
      if decide (sk = sk' ∧ k = k') then Some v else kv_get w sk' k';
  kv_get_delete w sk k sk' k' :
    kv_get (kv_delete sk k w) sk' k' =
      if decide (sk = sk' ∧ k = k') then None else kv_get w sk' k';
  kv_iterate_elem w sk pre k v :
    (k, v) ∈ kv_iterate w sk pre ↔ kv_get w sk (pre +:+ k) = Some v;
  kv_iterate_sorted w sk pre :
    StronglySorted bytes_lt (kv_iterate w sk pre).*1;
}.

(** [store.Has(k)] *)
Definition kv_has `{KVStore W} (w : W) (sk : string) (k : bytes) : bool :=
  bool_decide (is_Some (kv_get w sk k)).

(** [Iterator(start, end)] of the prefix store: the end is exclusive. *)
Definition kv_iterate_range `{KVStore W} (w : W) (sk : string) (pre from to : bytes) :
    list (bytes * bytes) :=
  filter (λ kv, bytes_le from kv.1 ∧ bytes_lt kv.1 to) (kv_iterate w sk pre).

Section kv_lemmas.
Context `{KVLaws W}.
Implicit Types w : W.

Lemma kv_get_set_eq w sk k v : kv_get (kv_set sk k v w) sk k = Some v.
Proof. rewrite kv_get_set. by rewrite decide_True. Qed.
Lemma kv_get_set_ne w sk k v k' : k ≠ k' → kv_get (kv_set sk k v w) sk k' = kv_get w sk k'.
Proof. intros. rewrite kv_get_set. rewrite decide_False; naive_solver. Qed.
Lemma kv_get_set_store w sk k v sk' k' :
  sk ≠ sk' → kv_get (kv_set sk k v w) sk' k' = kv_get w sk' k'.
Proof. intros. rewrite kv_get_set. rewrite decide_False; naive_solver. Qed.
Lemma kv_get_delete_eq w sk k : kv_get (kv_delete sk k w) sk k = None.
Proof. rewrite kv_get_delete. by rewrite decide_True. Qed.
Lemma kv_get_delete_ne w sk k k' : k ≠ k' → kv_get (kv_delete sk k w) sk k' = kv_get w sk k'.
Proof. intros. rewrite kv_get_delete. rewrite decide_False; naive_solver. Qed.

Lemma kv_has_true w sk k : kv_has w sk k = true ↔ is_Some (kv_get w sk k).
Proof. apply bool_decide_eq_true. Qed.
Lemma kv_has_false w sk k : kv_has w sk k = false ↔ kv_get w sk k = None.
Proof. unfold kv_has. rewrite bool_decide_eq_false, eq_None_not_Some. done. Qed.

Lemma kv_iterate_nil w sk pre :
  kv_iterate w sk pre = [] ↔ ∀ k, kv_get w sk (pre +:+ k) = None.
Proof.
  split.
  - intros Hnil k. destruct (kv_get w sk (pre +:+ k)) as [v|] eqn:E; [|done].
    apply kv_iterate_elem in E. rewrite Hnil in E. by apply not_elem_of_nil in E.
  - intros Hk. destruct (kv_iterate w sk pre) as [|[k v] l] eqn:E; [done|].
    assert ((k, v) ∈ kv_iterate w sk pre) as He%kv_iterate_elem by (rewrite E; left).
    by rewrite Hk in He.
Qed.
End kv_lemmas.

(** ** Numbers in texts *)
Definition ErrSyntax : error := new_err "strconv".
Fixpoint digits (acc : Z) (s : string) : option Z :=
  match s with
  | "" => Some acc
  | String a s' => if decide (48 ≤ of_byte a ≤ 57) then digits (10 * acc + (of_byte a - 48)) s' else None
  end.
Definition unsigned (s : string) : option Z := match s with "" => None | _ => digits 0 s end.

(** [strconv.ParseInt(s, 10, 64)] *)
Definition ParseInt (s : string) : outcome Z :=
  let v := match s with
           | String "+"%char s' => unsigned s'
           | String "-"%char s' => Z.opp <$> unsigned s'
           | _ => unsigned s
           end in
  match v with
  | Some z => if (- 2 ^ 63 <=? z) && (z <? 2 ^ 63) then Ok z else Err ErrSyntax
  | None => Err ErrSyntax
  end.

(** [strconv.ParseUint(s, 10, 64)]: no sign. *)
Definition ParseUint (s : string) : outcome Z :=
  match unsigned s with
  | Some z => if z <? 2 ^ 64 then Ok z else Err ErrSyntax
  | None => Err ErrSyntax
  end.
