(* ===== verification/RefStore.v ===== *)
(** A model of the store laws: every store as one finite map, iterators by
    sorting the keys. It makes the definitions of the development executable and
    shows that the laws of [Sdk.KVLaws] hold together. *)
From stdpp Require Import base list strings gmap sorting sets.
From Stdlib Require Import ZArith Lia.
From S2P Require Import Prelude Sdk.
Open Scope Z_scope.

Fixpoint strip_prefix (pre s : string) : option string :=
  match pre, s with
  | EmptyString, _ => Some s
  | String a pre', String b s' => if decide (a = b) then strip_prefix pre' s' else None
  | String _ _, EmptyString => None
  end.

Lemma strip_prefix_Some pre s k : strip_prefix pre s = Some k ↔ s = pre +:+ k.
Proof.
  revert s. induction pre as [|a pre IH]; intros s; cbn.
  - split; [by intros [= ->]|by intros ->].
  - destruct s as [|b s]; [split; intros; discriminate|]. case_decide as Hab.
    + rewrite IH, Hab. split; [by intros ->|by intros [= ->]].
    + split; [done|]. intros [= ? ?]. congruence.
Qed.

(** ** The lexicographic order *)
Lemma ascii_compare_N a b :
  Ascii.compare a b = N.compare (Ascii.N_of_ascii a) (Ascii.N_of_ascii b).
Proof. done. Qed.

Lemma ascii_compare_eq a b : Ascii.compare a b = Eq → a = b.
Proof. apply Ascii.compare_eq_iff. Qed.

Lemma ascii_compare_refl a : Ascii.compare a a = Eq.
Proof. apply N.compare_refl. Qed.

#[export] Instance bytes_lt_trans : Transitive bytes_lt.
Proof.
  unfold bytes_lt. intros x. induction x as [|a x IH]; intros [|b y] [|c z]; cbn; try done.
  destruct (Ascii.compare a b) eqn:Hab; destruct (Ascii.compare b c) eqn:Hbc; try done.
  - apply ascii_compare_eq in Hab as ->, Hbc as ->. rewrite ascii_compare_refl. apply IH.
  - apply ascii_compare_eq in Hab as ->. by rewrite Hbc.
  - apply ascii_compare_eq in Hbc as ->. by rewrite Hab.
  - intros _ _. rewrite ascii_compare_N, !N.compare_lt_iff in *.
    assert (Ascii.N_of_ascii a < Ascii.N_of_ascii c)%N as ->%N.compare_lt_iff by lia. done.
Qed.

Lemma bytes_compare_refl x : String.compare x x = Eq.
Proof. induction x as [|a x IH]; cbn; [done|]. by rewrite ascii_compare_refl. Qed.

Lemma bytes_le_lt_eq x y : bytes_le x y ↔ bytes_lt x y ∨ x = y.
Proof.
  unfold bytes_le, bytes_lt. split.
  - destruct (String.compare x y) eqn:E; try naive_solver.
    right. by apply String.compare_eq_iff.
  - intros [->| ->]; [done|]. by rewrite bytes_compare_refl.
Qed.

#[export] Instance bytes_le_trans : Transitive bytes_le.
Proof.
  intros x y z. rewrite !bytes_le_lt_eq. intros [H1| ->] [H2| ->]; eauto.
  left. by etrans.
Qed.

#[export] Instance bytes_le_total : Total bytes_le.
Proof.
  intros x y. unfold bytes_le. rewrite (String.compare_antisym y x).
  destruct (String.compare x y); cbn; auto.
Qed.

(** ** Sorted entries *)
Definition entry_le (a b : bytes * bytes) : Prop := bytes_le a.1 b.1.
#[export] Instance entry_le_dec : RelDecision entry_le.
Proof. intros a b. unfold entry_le. apply _. Defined.
#[export] Instance entry_le_trans : Transitive entry_le.
Proof. intros a b c. unfold entry_le. apply bytes_le_trans. Qed.
#[export] Instance entry_le_total : Total entry_le.
Proof. intros a b. unfold entry_le. apply bytes_le_total. Qed.

Lemma StronglySorted_entries (l : list (bytes * bytes)) :
  NoDup l.*1 → StronglySorted entry_le l → StronglySorted bytes_lt l.*1.
Proof.
  induction l as [|[k v] l IH]; cbn; intros Hnd Hs; [constructor|].
  apply NoDup_cons in Hnd as [Hk Hnd]. inversion Hs as [|? ? Hs' Hall]; subst.
  constructor; [by apply IH|]. rewrite Forall_fmap. rewrite Forall_forall in *.
  intros [k' v'] Hin. specialize (Hall _ Hin). unfold entry_le in Hall. cbn in *.
  apply bytes_le_lt_eq in Hall as [?| ->]; [done|].
  destruct Hk. apply list_elem_of_fmap. by exists (k', v').
Qed.

(** ** The store *)
Abbreviation RefKV := (gmap (string * string) string).

Definition ref_entries (w : RefKV) (sk : string) (pre : bytes) : list (bytes * bytes) :=
  omap (λ e : (string * string) * string,
          if decide (e.1.1 = sk) then k ← strip_prefix pre e.1.2; Some (k, e.2) else None)
       (map_to_list w).

#[export] Instance RefKV_store : KVStore RefKV := {
  kv_get w sk k := w !! (sk, k);
  kv_set sk k v w := <[(sk, k) := v]> w;
  kv_delete sk k w := delete (sk, k) w;
  kv_iterate w sk pre := merge_sort entry_le (ref_entries w sk pre);
}.

Lemma ref_entries_elem w sk pre k v :
  (k, v) ∈ ref_entries w sk pre ↔ w !! (sk, pre +:+ k) = Some v.
Proof.
  unfold ref_entries. rewrite list_elem_of_omap. split.
  - intros ([[sk' k'] v'] & Hin%elem_of_map_to_list & H). cbn in *. case_decide; [|done].
    subst. destruct (strip_prefix pre k') as [k''|] eqn:E; [|done]. cbn in H. simplify_eq.
    by apply strip_prefix_Some in E as ->.
  - intros Hw. exists ((sk, pre +:+ k), v). rewrite elem_of_map_to_list. split; [done|].
    cbn. rewrite decide_True by done.
    assert (strip_prefix pre (pre +:+ k) = Some k) as -> by (by apply strip_prefix_Some). done.
Qed.

Lemma ref_entries_nodup w sk pre : NoDup (ref_entries w sk pre).*1.
Proof.
  unfold ref_entries. pose proof (NoDup_fst_map_to_list w) as Hnd.
  induction (map_to_list w) as [|[[sk' k'] v'] l IH]; cbn in *; [constructor|].
  apply NoDup_cons in Hnd as [Hnot Hnd]. specialize (IH Hnd).
  case_decide; cbn; [|done]. subst. destruct (strip_prefix pre k') as [k''|] eqn:E; cbn; [|done].
  constructor; [|done]. intros Hin. apply Hnot.
  apply list_elem_of_fmap in Hin as ([k0 v0] & -> & Hin).
  apply list_elem_of_omap in Hin as ([[sk1 k1] v1] & Hin & H). cbn in *.
  case_decide; [|done]. subst. destruct (strip_prefix pre k1) as [k2|] eqn:E1; [|done].
  cbn in H. simplify_eq. apply strip_prefix_Some in E as ->, E1 as ->.
  apply list_elem_of_fmap. exists ((sk, pre +:+ k0), v0). done.
Qed.

#[export] Instance RefKV_laws : KVLaws RefKV.
Proof.
  constructor; cbn.
  - intros w sk k v sk' k'. rewrite lookup_insert.
    destruct (decide ((sk, k) = (sk', k'))); case_decide; naive_solver.
  - intros w sk k sk' k'. rewrite lookup_delete.
    destruct (decide ((sk, k) = (sk', k'))); case_decide; naive_solver.
  - intros w sk pre k v. rewrite (merge_sort_Permutation entry_le). apply ref_entries_elem.
  - intros w sk pre. apply StronglySorted_entries.
    + rewrite (merge_sort_Permutation entry_le). apply ref_entries_nodup.
    + apply StronglySorted_merge_sort; apply _.
Qed.
