(* ===== verification/Privilege.v ===== *)
(** Privilege types and the privileges a contract has registered
    (x/twasm/types/privilege.go, x/twasm/types/contract_extension.go).

    The registry of privilege types is built by the package's variable
    initialisation; a contract's registrations live in a slice of its contract
    info extension, which [IterateRegisteredPrivileges] and
    [RemoveRegisteredPrivilege] share during a callback. *)
From stdpp Require Import base list strings gmap sets.
From Stdlib Require Import ZArith Lia.
From S2P Require Import Prelude Slice Sdk.
Open Scope Z_scope.

(** wasmd errors the module returns *)
Definition ErrInvalid : error := new_err "wasm/invalid".
Definition ErrEmpty : error := new_err "wasm/empty".
Definition ErrDuplicate : error := new_err "wasm/duplicate".

(** ** The registry of privilege types *)

(** [PrivilegeType] is a byte. *)
Definition PrivilegeTypeEmpty : Z := 0.

Record Registry := mkRegistry {
  callbackTypeToString : gmap Z string;
  singleInstanceCallbackTypes : gset Z }.

(** [PrivilegeTypeFrom] ranges over the map in an unspecified order. *)
Definition PrivilegeTypeFrom_in (r : Registry) (name : string) : option Z :=
  match filter (λ kv : Z * string, kv.2 = name) (map_to_list (callbackTypeToString r)) with
  | kv :: _ => Some kv.1
  | [] => None
  end.

Definition registerCallbackType (i : Z) (name : string) (singleton : bool) (r : Registry) :
    outcome (Z * Registry) :=
  if decide (i = 0) then Panic "unique number must not be empty"
  else if decide (is_Some (callbackTypeToString r !! i)) then Panic "type exists already"
  else match PrivilegeTypeFrom_in r name with
  | Some _ => Panic "name exists already"
  | None =>
      Ok (i, mkRegistry (<[i := name]> (callbackTypeToString r))
               (if singleton then {[i]} ∪ singleInstanceCallbackTypes r
                else singleInstanceCallbackTypes r))
  end.

Definition PrivilegeTypeBeginBlock : Z := 1.
Definition PrivilegeTypeEndBlock : Z := 2.
Definition PrivilegeTypeValidatorSetUpdate : Z := 3.
Definition PrivilegeTypeGovProposalExecutor : Z := 4.
Definition PrivilegeTypeTokenMinter : Z := 5.
Definition PrivilegeConsensusParamChanger : Z := 6.
Definition PrivilegeDelegator : Z := 7.
Definition PrivilegeStateExporterImporter : Z := 8.

(** The package variables, in the order of their initialisation. *)
Definition privilege_types : list (Z * string * bool) :=
  [ (PrivilegeTypeBeginBlock, "begin_blocker", false);
    (PrivilegeTypeEndBlock, "end_blocker", false);
    (PrivilegeTypeValidatorSetUpdate, "validator_set_updater", true);
    (PrivilegeTypeGovProposalExecutor, "gov_proposal_executor", false);
    (PrivilegeTypeTokenMinter, "token_minter", false);
    (PrivilegeConsensusParamChanger, "consensus_param_changer", false);
    (PrivilegeDelegator, "delegator", false);
    (PrivilegeStateExporterImporter, "state_exporter_importer", false) ].

Definition empty_registry : Registry := mkRegistry ∅ ∅.

Fixpoint register_all (ts : list (Z * string * bool)) (r : Registry) : outcome Registry :=
  match ts with
  | [] => Ok r
  | (i, name, single) :: ts' =>
      '(_, r') ← registerCallbackType i name single r; register_all ts' r'
  end.

(** The maps after package initialisation ([registry_init] shows it does not panic). *)
Definition registry : Registry :=
  match register_all privilege_types empty_registry with
  | Ok r => r
  | _ => empty_registry
  end.

Definition PrivilegeTypeFrom : string → option Z := PrivilegeTypeFrom_in registry.

Definition PrivilegeType_String (t : Z) : string :=
  default "" (callbackTypeToString registry !! t).

Definition IsSingleton (t : Z) : bool :=
  bool_decide (t ∈ singleInstanceCallbackTypes registry).

Definition PrivilegeType_ValidateBasic (t : Z) : outcome () :=
  if decide (is_Some (callbackTypeToString registry !! t)) then Ok () else Err ErrInvalid.

(** [sort.Strings] of the names; the map's order does not matter. *)
Definition AllPrivilegeTypeNames : list string :=
  sorting.merge_sort String.le (map_to_list (callbackTypeToString registry)).*2.

(** [UnmarshalJSON], after encoding/json has decoded the raw value to [src] (or failed). *)
Definition PrivilegeType_UnmarshalJSON (t : Z) (src : outcome string) : outcome Z :=
  s ← src;
  if decide (s = "") then Err ErrInvalid
  else match PrivilegeTypeFrom s with
  | Some v => Ok v
  | None => Ok t
  end.

(** [MarshalJSON]: nil for the empty type, the JSON string of the name otherwise
    ([None] and [Some] of the name). *)
Definition PrivilegeType_MarshalJSON (t : Z) : outcome (option string) :=
  if decide (t = 0) then Ok None
  else PrivilegeType_ValidateBasic t ;; Ok (Some (PrivilegeType_String t)).

(** ** The privileges of a contract *)
Record RegisteredPrivilege := mkRP { Position : Z; PrivilegeTypeName : string }.

#[export] Instance RegisteredPrivilege_eq_dec : EqDecision RegisteredPrivilege.
Proof. solve_decision. Defined.

Record PetriContractDetails := mkDetails { RegisteredPrivileges : list RegisteredPrivilege }.

Definition RegisteredPrivilege_Equal (this that : RegisteredPrivilege) : bool :=
  if negb (Position this =? Position that) then false
  else if negb (PrivilegeTypeName this =? PrivilegeTypeName that)%string then false
  else true.

Definition AddRegisteredPrivilege (t pos : Z) (d : PetriContractDetails) : PetriContractDetails :=
  mkDetails (RegisteredPrivileges d ++ [mkRP (uint32 pos) (PrivilegeType_String t)]).

(** Deletes in place while ranging over the old header. *)
Definition RemoveRegisteredPrivilege (t pos : Z) (s : slice RegisteredPrivilege) :
    outcome (slice RegisteredPrivilege) :=
  remove_all (RegisteredPrivilege_Equal (mkRP (uint32 pos) (PrivilegeType_String t))) s.

Definition HasRegisteredPrivilege (c : Z) (d : PetriContractDetails) : bool :=
  existsb (λ v, PrivilegeTypeName v =? PrivilegeType_String c)%string (RegisteredPrivileges d).

(** Value receiver: the length is the one at the call; the callback may change the
    array behind the header, [s]. [*PrivilegeTypeFrom(..)] dereferences nil for an
    unknown name. *)
Fixpoint iterate_privileges {W} (cb : Z → Z → slice RegisteredPrivilege → M W (bool * slice RegisteredPrivilege))
    (i n : nat) (s : slice RegisteredPrivilege) : M W (slice RegisteredPrivilege) :=
  match n with
  | O => mret s
  | S n' =>
      match arr s !! i with
      | Some v =>
          match PrivilegeTypeFrom (PrivilegeTypeName v) with
          | Some t =>
              '(stop, s') ← cb t (uint8 (Position v)) s;
              if (stop : bool) then mret s' else iterate_privileges cb (S i) n' s'
          | None => panic "nil pointer dereference"
          end
      | None => panic "index out of range"
      end
  end.

Definition IterateRegisteredPrivileges {W}
    (cb : Z → Z → slice RegisteredPrivilege → M W (bool * slice RegisteredPrivilege))
    (s : slice RegisteredPrivilege) : M W (slice RegisteredPrivilege) :=
  iterate_privileges cb 0 (len s) s.

Definition RegisteredPrivilege_ValidateBasic (r : RegisteredPrivilege) : outcome () :=
  check (MaxUint8 <? Position r) (Wrap ErrInvalid "position exceeds max") ;;
  check (Position r =? 0) (Wrap ErrEmpty "position") ;;
  match PrivilegeTypeFrom (PrivilegeTypeName r) with
  | None => Err (Wrap ErrInvalid "privilege type")
  | Some _ => Ok ()
  end.

Fixpoint validate_privileges (unique : gset Z) (cs : list RegisteredPrivilege) : outcome () :=
  match cs with
  | [] => Ok ()
  | c :: cs' =>
      wrap "privilege %d" (RegisteredPrivilege_ValidateBasic c) ;;
      match PrivilegeTypeFrom (PrivilegeTypeName c) with
      | None => Panic "nil pointer dereference"
      | Some privilegeType =>
          if decide (privilegeType ∈ unique) then Err (Wrap ErrDuplicate "privilege %q")
          else validate_privileges ({[privilegeType]} ∪ unique) cs'
      end
  end.

Definition PetriContractDetails_ValidateBasic (d : PetriContractDetails) : outcome () :=
  validate_privileges ∅ (RegisteredPrivileges d).

(** ** Well-formedness of the registry *)
Record registry_wf (r : Registry) : Prop := {
  wf_names_inj t1 t2 n :
    callbackTypeToString r !! t1 = Some n → callbackTypeToString r !! t2 = Some n → t1 = t2;
  wf_nonzero : callbackTypeToString r !! 0 = None;
  wf_singletons : singleInstanceCallbackTypes r ⊆ dom (callbackTypeToString r) }.

Section registry_lemmas.
Implicit Types r : Registry.

Lemma From_in_Some r n t :
  PrivilegeTypeFrom_in r n = Some t → callbackTypeToString r !! t = Some n.
Proof.
  unfold PrivilegeTypeFrom_in. case_match eqn:E; [done|]. intros [= <-].
  assert (p ∈ filter (λ kv : Z * string, kv.2 = n) (map_to_list (callbackTypeToString r)))
    as [<- Hin]%list_elem_of_filter by (rewrite E; left).
  destruct p. by apply elem_of_map_to_list in Hin.
Qed.

Lemma From_in_None r n :
  PrivilegeTypeFrom_in r n = None ↔ ∀ t, callbackTypeToString r !! t ≠ Some n.
Proof.
  unfold PrivilegeTypeFrom_in. split.
  - intros H t Ht%elem_of_map_to_list.
    assert ((t, n) ∈ filter (λ kv : Z * string, kv.2 = n)
      (map_to_list (callbackTypeToString r))) as Hin by (by apply list_elem_of_filter).
    case_match eqn:E; [|done]. by apply not_elem_of_nil in Hin.
  - intros H. case_match eqn:E; [done|]. exfalso.
    apply (H p.1), From_in_Some. unfold PrivilegeTypeFrom_in. by rewrite E.
Qed.

(** In a well-formed registry the lookup by name does not depend on map order. *)
Lemma From_in_wf r n t :
  registry_wf r → PrivilegeTypeFrom_in r n = Some t ↔ callbackTypeToString r !! t = Some n.
Proof.
  intros Hwf. split; [apply From_in_Some|]. intros Ht.
  destruct (PrivilegeTypeFrom_in r n) as [t'|] eqn:E.
  - f_equal. by eapply (wf_names_inj r Hwf); [apply From_in_Some|].
  - rewrite From_in_None in E. by destruct (E t).
Qed.

Lemma registerCallbackType_inv i n s r t r' :
  registerCallbackType i n s r = Ok (t, r') →
  t = i ∧ i ≠ 0 ∧ callbackTypeToString r !! i = None ∧
  (∀ t', callbackTypeToString r !! t' ≠ Some n) ∧
  callbackTypeToString r' = <[i := n]> (callbackTypeToString r) ∧
  singleInstanceCallbackTypes r' =
    (if s then {[i]} ∪ singleInstanceCallbackTypes r else singleInstanceCallbackTypes r).
Proof.
  unfold registerCallbackType. intros H. repeat case_decide; try done.
  case_match eqn:E; [done|]. simplify_eq/=. rewrite From_in_None in E.
  by rewrite <-eq_None_not_Some in *.
Qed.

Lemma registerCallbackType_wf i n s r t r' :
  registry_wf r → registerCallbackType i n s r = Ok (t, r') → registry_wf r'.
Proof.
  intros [Hinj H0 Hs] (-> & Hi & Hnone & Hfresh & Hn & Hsing)%registerCallbackType_inv.
  split; rewrite Hn.
  - intros t1 t2 m. rewrite !lookup_insert. repeat case_decide; naive_solver.
  - rewrite lookup_insert. by case_decide.
  - rewrite Hsing, dom_insert_L. destruct s; set_solver.
Qed.

Lemma register_all_wf ts r r' :
  registry_wf r → register_all ts r = Ok r' → registry_wf r'.
Proof.
  revert r. induction ts as [|[[i n] s] ts IH]; cbn; intros r Hwf H; [by simplify_eq|].
  destruct (registerCallbackType i n s r) as [[t r1]|?|?] eqn:E; cbn in H; try done.
  eapply IH; [|done]. by eapply registerCallbackType_wf.
Qed.
End registry_lemmas.

Lemma empty_registry_wf : registry_wf empty_registry.
Proof. split; cbn; [intros; simplify_map_eq|done|set_solver]. Qed.

Lemma registry_init : register_all privilege_types empty_registry = Ok registry.
Proof. vm_compute. reflexivity. Qed.

Lemma registry_is_wf : registry_wf registry.
Proof. eapply register_all_wf; [apply empty_registry_wf|apply registry_init]. Qed.

Lemma registry_names :
  callbackTypeToString registry = list_to_map (privilege_types.*1).
Proof. vm_compute. reflexivity. Qed.

(** ** Names and numbers of the known types *)
Definition known (t : Z) : Prop := is_Some (callbackTypeToString registry !! t).

#[export] Instance known_dec t : Decision (known t).
Proof. unfold known. apply _. Defined.

Lemma known_elem t : known t ↔ t ∈ privilege_types.*1.*1.
Proof.
  unfold known. rewrite registry_names. split.
  - intros [n Hn%elem_of_list_to_map_2]. apply list_elem_of_fmap. by exists (t, n).
  - intros ([t' n] & -> & Hin)%list_elem_of_fmap. exists n.
    apply elem_of_list_to_map_1; [|done]. by apply (bool_decide_unpack _); vm_compute.
Qed.

Lemma known_range t : known t ↔ 1 ≤ t ≤ 8.
Proof.
  rewrite known_elem. cbn. rewrite !elem_of_cons, elem_of_nil.
  unfold PrivilegeTypeBeginBlock, PrivilegeTypeEndBlock, PrivilegeTypeValidatorSetUpdate,
    PrivilegeTypeGovProposalExecutor, PrivilegeTypeTokenMinter, PrivilegeConsensusParamChanger,
    PrivilegeDelegator, PrivilegeStateExporterImporter. lia.
Qed.

Lemma known_byte t : known t → is_u 8 t.
Proof. rewrite known_range. unfold is_u. lia. Qed.

Lemma From_Some n t :
  PrivilegeTypeFrom n = Some t ↔ callbackTypeToString registry !! t = Some n.
Proof. apply From_in_wf, registry_is_wf. Qed.

Lemma From_known n t : PrivilegeTypeFrom n = Some t → known t ∧ PrivilegeType_String t = n.
Proof. intros H%From_Some. split; [by eexists|]. unfold PrivilegeType_String. by rewrite H. Qed.

Lemma From_String t : known t → PrivilegeTypeFrom (PrivilegeType_String t) = Some t.
Proof. intros [n Hn]. apply From_Some. unfold PrivilegeType_String. by rewrite Hn. Qed.

Lemma String_inj t1 t2 :
  known t1 → known t2 → PrivilegeType_String t1 = PrivilegeType_String t2 → t1 = t2.
Proof. intros H1 H2 E. apply From_String in H1, H2. congruence. Qed.

Lemma String_known_nonempty t : known t → PrivilegeType_String t ≠ "".
Proof.
  intros [n Hn] H. unfold PrivilegeType_String in H. rewrite Hn in H. cbn in H. subst.
  rewrite registry_names in Hn. apply elem_of_list_to_map_2 in Hn.
  assert ("" ∉ privilege_types.*1.*2) as Hno by (apply (bool_decide_unpack _); by vm_compute).
  apply Hno, list_elem_of_fmap. by exists (t, "").
Qed.

(** ** Valid registrations *)

(** The type a registration names (0 when the name is unknown). *)
Definition ptype (v : RegisteredPrivilege) : Z := default 0 (PrivilegeTypeFrom (PrivilegeTypeName v)).

Definition rp_ok (v : RegisteredPrivilege) : Prop :=
  1 ≤ Position v ≤ 255 ∧ is_Some (PrivilegeTypeFrom (PrivilegeTypeName v)).

Definition valid_details (d : PetriContractDetails) : Prop :=
  Forall rp_ok (RegisteredPrivileges d) ∧ NoDup (ptype <$> RegisteredPrivileges d).

Lemma Equal_spec a b : RegisteredPrivilege_Equal a b = true ↔ a = b.
Proof.
  unfold RegisteredPrivilege_Equal. destruct a as [p1 n1], b as [p2 n2]; cbn.
  destruct (Z.eqb_spec p1 p2); cbn; [|naive_solver].
  destruct (String.eqb_spec n1 n2); cbn; naive_solver.
Qed.

Lemma rp_ok_From v : rp_ok v → PrivilegeTypeFrom (PrivilegeTypeName v) = Some (ptype v).
Proof. intros [_ [t Ht]]. unfold ptype. by rewrite Ht. Qed.

Lemma rp_ok_known v : rp_ok v → known (ptype v).
Proof. intros Hv%rp_ok_From. by apply From_known in Hv as [? _]. Qed.

Lemma rp_ok_name v : rp_ok v → PrivilegeTypeName v = PrivilegeType_String (ptype v).
Proof. intros Hv%rp_ok_From. by apply From_known in Hv as [_ ?]. Qed.

Lemma rp_ok_uint8 v : rp_ok v → uint8 (Position v) = Position v.
Proof. intros [? _]. apply wrap_u_small. unfold is_u. lia. Qed.

Lemma pos_uint32 p : 0 ≤ p ≤ 255 → uint32 p = p.
Proof. intros ?. apply wrap_u_small. unfold is_u. lia. Qed.

(** The entry [RemoveRegisteredPrivilege] looks for is the visited one. *)
Lemma rp_ok_canon v :
  rp_ok v → mkRP (uint32 (uint8 (Position v))) (PrivilegeType_String (ptype v)) = v.
Proof.
  intros Hv. rewrite <-rp_ok_name, rp_ok_uint8, pos_uint32 by (done || by destruct Hv; lia).
  by destruct v.
Qed.

Lemma mk_rp_ok t p : known t → 1 ≤ p ≤ 255 → rp_ok (mkRP p (PrivilegeType_String t)).
Proof. intros Ht Hp. split; [done|]. cbn. rewrite From_String by done. by eexists. Qed.

Lemma ptype_mk t p : known t → ptype (mkRP p (PrivilegeType_String t)) = t.
Proof. intros Ht. unfold ptype. cbn. by rewrite From_String. Qed.

Lemma valid_details_nodup d : valid_details d → NoDup (RegisteredPrivileges d).
Proof. intros [_ H]. by eapply NoDup_fmap_1. Qed.

Lemma Has_spec c d :
  HasRegisteredPrivilege c d = true ↔
  ∃ v, v ∈ RegisteredPrivileges d ∧ PrivilegeTypeName v = PrivilegeType_String c.
Proof.
  unfold HasRegisteredPrivilege. rewrite existsb_exists.
  setoid_rewrite String.eqb_eq. by setoid_rewrite list_elem_of_In.
Qed.

Lemma Has_valid c d :
  valid_details d → known c →
  HasRegisteredPrivilege c d = true ↔ c ∈ ptype <$> RegisteredPrivileges d.
Proof.
  intros [Hok _] Hc. rewrite Has_spec, list_elem_of_fmap.
  rewrite Forall_forall in Hok. split.
  - intros (v & Hv & Hn). exists v. split; [|done].
    rewrite (rp_ok_name v) in Hn by auto. symmetry. apply String_inj in Hn; [done|by apply rp_ok_known, Hok|done].
  - intros (v & -> & Hv). exists v. by rewrite <-rp_ok_name by auto.
Qed.

(** [ValidateBasic] accepts exactly the valid registrations and never panics. *)
Lemma validate_privileges_ok unique cs :
  Forall (λ v, is_u 32 (Position v)) cs →
  validate_privileges unique cs = Ok () ↔
  Forall rp_ok cs ∧ NoDup (ptype <$> cs) ∧ Forall (λ v, ptype v ∉ unique) cs.
Proof.
  revert unique. induction cs as [|c cs IH]; intros unique; cbn.
  { intros _. split; [|done]. intros _. repeat constructor. }
  rewrite !Forall_cons. intros [Hc Hcs]. rewrite NoDup_cons.
  unfold RegisteredPrivilege_ValidateBasic, check, MaxUint8, is_u in *.
  destruct (Z.ltb_spec 255 (Position c)); cbn.
  { split; [done|]. intros [[[? _] _] _]. lia. }
  destruct (Z.eqb_spec (Position c) 0); cbn.
  { split; [done|]. intros [[[? _] _] _]. lia. }
  destruct (PrivilegeTypeFrom (PrivilegeTypeName c)) as [t|] eqn:Et; cbn.
  - assert (ptype c = t) as -> by (unfold ptype; by rewrite Et).
    assert (rp_ok c) as Hok by (split; [lia|by eexists]).
    case_decide; [naive_solver|]. rewrite IH by done.
    rewrite list_elem_of_fmap, !Forall_forall. split.
    + intros (H1 & H2 & H3). split; [by split|]. split; split; try done.
      * intros (v & -> & Hv). specialize (H3 v Hv). set_solver.
      * intros v Hv. specialize (H3 v Hv). set_solver.
    + intros ((_ & H1) & (H2 & H3) & _ & H4). split; [done|]. split; [done|].
      intros v Hv. apply not_elem_of_union. split; [|by apply H4].
      apply not_elem_of_singleton. intros <-. apply H2. by exists v.
  - split; [done|]. intros [[[_ [? ?]] _] _]. congruence.
Qed.

(** ** Operations on valid registrations *)
Lemma valid_rp_ok d v : valid_details d → v ∈ RegisteredPrivileges d → rp_ok v.
Proof. intros [Hok _] Hv. rewrite Forall_forall in Hok. by apply Hok. Qed.

Lemma IsSingleton_known t : IsSingleton t = true → known t.
Proof.
  intros Ht%bool_decide_eq_true. apply (wf_singletons _ registry_is_wf) in Ht.
  by apply elem_of_dom in Ht.
Qed.

Lemma valid_same_type d v1 v2 :
  valid_details d → v1 ∈ RegisteredPrivileges d → v2 ∈ RegisteredPrivileges d →
  ptype v1 = ptype v2 → v1 = v2.
Proof.
  intros [_ Hnd] (i1 & H1)%list_elem_of_lookup (i2 & H2)%list_elem_of_lookup E.
  assert (i1 = i2); [|congruence].
  eapply NoDup_lookup; [done|..]; rewrite list_lookup_fmap; [by rewrite H1|by rewrite H2, E].
Qed.

Lemma validate_details d :
  Forall (λ v, is_u 32 (Position v)) (RegisteredPrivileges d) →
  PetriContractDetails_ValidateBasic d = Ok () ↔ valid_details d.
Proof.
  intros Hu. unfold PetriContractDetails_ValidateBasic. rewrite validate_privileges_ok by done.
  unfold valid_details. split; [tauto|]. intros [? ?]. split_and!; [done|done|].
  apply Forall_forall. set_solver.
Qed.

Lemma valid_positions d :
  valid_details d → Forall (λ v, is_u 32 (Position v)) (RegisteredPrivileges d).
Proof.
  intros [Hok _]. eapply Forall_impl; [done|]. intros v [Hp _]. unfold is_u. lia.
Qed.

Lemma valid_ValidateBasic d : valid_details d → PetriContractDetails_ValidateBasic d = Ok ().
Proof. intros Hd. by apply validate_details; [apply valid_positions|]. Qed.

Lemma valid_sublist l l' : l' `sublist_of` l → valid_details (mkDetails l) → valid_details (mkDetails l').
Proof.
  intros Hs [Hok Hnd]. split; cbn in *.
  - rewrite Forall_forall in *. intros v Hv. by eapply Hok, sublist_elem.
  - eapply sublist_NoDup; [|done]. by apply sublist_map.
Qed.

Lemma Add_spec t p d :
  1 ≤ p ≤ 255 →
  RegisteredPrivileges (AddRegisteredPrivilege t p d) =
  RegisteredPrivileges d ++ [mkRP p (PrivilegeType_String t)].
Proof. intros. cbn. by rewrite pos_uint32 by lia. Qed.

Lemma Add_valid t p d :
  valid_details d → known t → t ∉ ptype <$> RegisteredPrivileges d → 1 ≤ p ≤ 255 →
  valid_details (AddRegisteredPrivilege t p d).
Proof.
  intros [Hok Hnd] Ht Hnot Hp. unfold valid_details. rewrite Add_spec by done. split.
  - apply Forall_app. split; [done|]. apply Forall_singleton. by apply mk_rp_ok.
  - rewrite fmap_app. cbn. rewrite ptype_mk by done. apply NoDup_app. split_and!; [done| |].
    + set_solver.
    + apply NoDup_singleton.
Qed.

(** Only known types can be stored in an extension. *)
Lemma Add_known t p d :
  valid_details d → PetriContractDetails_ValidateBasic (AddRegisteredPrivilege t p d) = Ok () → known t.
Proof.
  intros Hd Hval%validate_details; cycle 1.
  { cbn. apply Forall_app. split; [by apply valid_positions|]. apply Forall_singleton.
    by apply wrap_u_range. }
  destruct Hval as [Hok _]. cbn in Hok. apply Forall_app in Hok as [_ Hok]. rewrite Forall_singleton in Hok.
  destruct (decide (known t)) as [|Hnot]; [done|]. exfalso.
  destruct Hok as [_ [t' Ht']]. cbn in Ht'.
  assert (PrivilegeType_String t = "") as E.
  { unfold PrivilegeType_String. unfold known in Hnot. by rewrite <-eq_None_not_Some in Hnot; rewrite Hnot. }
  rewrite E in Ht'. apply From_known in Ht' as [Hk Hs]. by apply String_known_nonempty in Hk.
Qed.

(** The one registration of a type that a contract has. *)
Lemma valid_split d t :
  valid_details d → known t → HasRegisteredPrivilege t d = true →
  ∃ l1 x l2, RegisteredPrivileges d = l1 ++ x :: l2 ∧ ptype x = t.
Proof.
  intros Hval Ht Hhas. apply (Has_valid t d Hval Ht), list_elem_of_fmap in Hhas as (x & -> & Hx).
  apply list_elem_of_split in Hx as (l1 & l2 & ->). by exists l1, x, l2.
Qed.

Lemma Has_known t d : valid_details d → HasRegisteredPrivilege t d = true → known t.
Proof.
  intros Hval (v & Hv & Hn)%Has_spec. pose proof (valid_rp_ok _ _ Hval Hv) as Hok.
  destruct (decide (known t)) as [|Hnot]; [done|]. exfalso.
  apply (String_known_nonempty (ptype v)); [by apply rp_ok_known|].
  rewrite <-rp_ok_name, Hn by done. unfold PrivilegeType_String. unfold known in Hnot.
  by rewrite <-eq_None_not_Some in Hnot; rewrite Hnot.
Qed.

(** ** Iterating over the registrations while removing them *)
Lemma iterate_privileges_ext {W} cb1 cb2 i n s (c : Ctx W) :
  (∀ t p s c, cb1 t p s c = cb2 t p s c) →
  iterate_privileges cb1 i n s c = iterate_privileges cb2 i n s c.
Proof.
  intros Heq. revert i s c. induction n as [|n IH]; intros i s c; [done|]. cbn.
  destruct (arr s !! i) as [v|]; [|done].
  destruct (PrivilegeTypeFrom (PrivilegeTypeName v)) as [t|]; [|done].
  unfold mbind, M_bind. rewrite Heq.
  destruct (cb2 _ _ s c) as [[[[] s']|?|?] c']; [done|apply IH|done|done].
Qed.

Section iteration.
Context {W : Type} (act : Z → Z → M W ()).

(** The callback of [UnsetPrivileged]: act on every registration and remove it. *)
Definition remove_each (t p : Z) (s : slice RegisteredPrivilege) :
    M W (bool * slice RegisteredPrivilege) :=
  act t p ;; s' ← lift (RemoveRegisteredPrivilege t p s); mret (false, s').

(** The callback of the privilege release: act on and remove type [tp] only. *)
Definition remove_type (tp t p : Z) (s : slice RegisteredPrivilege) :
    M W (bool * slice RegisteredPrivilege) :=
  if decide (t = tp) then remove_each t p s else mret (false, s).

Lemma remove_each_ok v s c :
  rp_ok v →
  remove_each (ptype v) (uint8 (Position v)) s c =
  (act (ptype v) (Position v) ;;
   s' ← lift (remove_all (RegisteredPrivilege_Equal v) s); mret (false, s')) c.
Proof.
  intros Hv. unfold remove_each, RemoveRegisteredPrivilege.
  by rewrite rp_ok_canon, rp_ok_uint8 by done.
Qed.

Lemma iterate_all_loop i n s c :
  Forall rp_ok (arr s) →
  iterate_privileges remove_each i n s c =
  range_loopM arr (λ v s, act (ptype v) (Position v) ;;
                          lift (remove_all (RegisteredPrivilege_Equal v) s)) i n s c.
Proof.
  revert i s c. induction n as [|n IH]; intros i s c Hs; [done|].
  rewrite range_loopM_S. cbn. destruct (arr s !! i) as [v|] eqn:Hv; [|done].
  assert (rp_ok v) as Hok by (by eapply Forall_lookup_1).
  rewrite (rp_ok_From v Hok). unfold mbind at 1, M_bind at 1.
  rewrite remove_each_ok by done. unfold mbind, M_bind.
  destruct (act _ _ c) as [[[]|e|e] c1]; [|done|done]. unfold lift.
  destruct (remove_all _ s) as [s'|e|e] eqn:Hr; [|done|done]. cbn.
  apply IH. apply Forall_forall. intros x Hx. rewrite Forall_forall in Hs.
  apply Hs. by eapply remove_all_incl.
Qed.

(** What [UnsetPrivileged] really iterates over: see [Slice.alias_loop]. *)
Lemma iterate_all d c :
  valid_details d →
  ∃ tl, IterateRegisteredPrivileges remove_each (of_list (RegisteredPrivileges d)) c =
    (forM (visited (RegisteredPrivileges d) 0) (λ v, act (ptype v) (Position v)) ;;
     mret (mkSlice (survivors (RegisteredPrivileges d) ++ tl)
                   (length (survivors (RegisteredPrivileges d))))) c.
Proof.
  intros Hd. unfold IterateRegisteredPrivileges.
  rewrite iterate_all_loop by apply Hd. cbn [len of_list].
  apply (alias_loop RegisteredPrivilege_Equal (λ v, act (ptype v) (Position v)) Equal_spec).
  by apply valid_details_nodup.
Qed.

Lemma iterate_type_skip tp i n s c :
  (∀ j v, (i ≤ j < i + n)%nat → arr s !! j = Some v → rp_ok v ∧ ptype v ≠ tp) →
  (i + n ≤ length (arr s))%nat →
  iterate_privileges (remove_type tp) i n s c = (Ok s, c).
Proof.
  revert i. induction n as [|n IH]; intros i Hp Hlen; [done|]. cbn.
  destruct (lookup_lt_is_Some_2 (arr s) i) as [v Hv]; [lia|]. rewrite Hv.
  destruct (Hp i v) as [Hok Hne]; [lia|done|].
  rewrite (rp_ok_From v Hok). unfold mbind, M_bind, remove_type.
  rewrite decide_False by done. cbn. apply IH; [|lia].
  intros j w ??. apply (Hp j w); [lia|done].
Qed.

Lemma iterate_type_app tp i n m s c :
  (∀ j v, (i ≤ j < i + n)%nat → arr s !! j = Some v → rp_ok v ∧ ptype v ≠ tp) →
  (i + n ≤ length (arr s))%nat →
  iterate_privileges (remove_type tp) i (n + m) s c =
  iterate_privileges (remove_type tp) (i + n) m s c.
Proof.
  revert i. induction n as [|n IH]; intros i Hp Hlen; [by rewrite Nat.add_0_r|]. cbn.
  destruct (lookup_lt_is_Some_2 (arr s) i) as [v Hv]; [lia|]. rewrite Hv.
  destruct (Hp i v) as [Hok Hne]; [lia|done|].
  rewrite (rp_ok_From v Hok). unfold mbind, M_bind, remove_type.
  rewrite decide_False by done. cbn. rewrite Nat.add_succ_r. apply IH; [|lia].
  intros j w ??. apply (Hp j w); [lia|done].
Qed.

(** Releasing a registered type removes its one entry and acts once. *)
Lemma iterate_type l1 x l2 c :
  Forall rp_ok (l1 ++ x :: l2) → NoDup (ptype <$> l1 ++ x :: l2) →
  ∃ tl, IterateRegisteredPrivileges (remove_type (ptype x)) (of_list (l1 ++ x :: l2)) c =
    (act (ptype x) (Position x) ;;
     mret (mkSlice ((l1 ++ l2) ++ tl) (length (l1 ++ l2)))) c.
Proof.
  intros Hok Hnd.
  assert (∀ v, v ∈ l1 ++ l2 → rp_ok v ∧ ptype v ≠ ptype x) as Hother.
  { intros v Hv. split.
    - rewrite Forall_forall in Hok. apply Hok. set_solver.
    - rewrite fmap_app, fmap_cons, NoDup_app, NoDup_cons in Hnd.
      destruct Hnd as (_ & Hd & Hx & _). intros E.
      apply elem_of_app in Hv as [Hv|Hv].
      + apply (Hd (ptype v)); [by apply list_elem_of_fmap_2|]. rewrite E. by left.
      + apply Hx. rewrite <-E. by apply list_elem_of_fmap_2. }
  assert (rp_ok x) as Hx by (rewrite Forall_forall in Hok; apply Hok; set_solver).
  exists [default x (last l2)]. unfold IterateRegisteredPrivileges, of_list. cbn [len].
  rewrite length_app. cbn [length].
  rewrite iterate_type_app; cycle 1.
  { cbn. intros j v Hj Hv. rewrite lookup_app_l in Hv by lia.
    apply Hother, elem_of_app. left. by eapply list_elem_of_lookup_2. }
  { cbn. rewrite length_app. lia. }
  cbn. rewrite list_lookup_middle by done. rewrite (rp_ok_From x Hx).
  unfold mbind at 1, M_bind at 1. unfold remove_type at 1. rewrite decide_True by done.
  rewrite remove_each_ok by done.
  replace (length l1 + S (length l2))%nat with (length (l1 ++ x :: l2)) by (by rewrite length_app).
  pose proof (remove_all_one (RegisteredPrivilege_Equal x) l1 x l2 []) as Hr.
  rewrite app_nil_r in Hr. rewrite Hr; cycle 1.
  { by apply Equal_spec. }
  { apply Forall_forall. intros v Hv. destruct (Hother v Hv) as [_ Hne].
    destruct (RegisteredPrivilege_Equal x v) eqn:E; [|done]. apply Equal_spec in E. by subst. }
  unfold mbind, M_bind. destruct (act _ _ c) as [[[]|e|e] c1]; [|done|done]. cbn.
  rewrite iterate_type_skip; [done|..]; cbn.
  - intros j v Hj Hv. destruct l2 as [|y l2]; [cbn in Hj; lia|]. cbn in Hj.
    apply Hother. apply list_elem_of_lookup_2 in Hv.
    apply elem_of_app in Hv as [Hv| ->%list_elem_of_singleton]; [done|].
    apply elem_of_app. right. rewrite last_cons. destruct (last l2) as [w|] eqn:E; cbn; [|by left].
    right. by apply last_Some_elem_of.
  - rewrite !length_app. cbn. lia.
Qed.
End iteration.
