(* ===== verification/Json.v ===== *)
(** JSON values as encoding/json reads and writes them.

    Messages to and from contracts are JSON texts. A text is represented by the
    value it denotes: [json] keeps the members of an object in text order, with
    duplicates, because the decoder below assigns them one after the other, as
    encoding/json does. *)
From stdpp Require Import base list strings gmap sets.
From Stdlib Require Import ZArith Lia Ascii.
From S2P Require Import Prelude Sdk.
Open Scope Z_scope.

#[local] Set Warnings "-register-all".
Inductive json :=
  | JNull
  | JBool (b : bool)
  | JNum (z : Z)            (** an integer literal *)
  | JFloat (lit : string)   (** a number literal with a fraction or an exponent *)
  | JStr (s : string)
  | JArr (l : list json)
  | JObj (ms : list (string * json)).

(** Bytes that are passed around as a JSON text: nil, the bytes of a text, or
    bytes that are not one. *)
Inductive json_bytes :=
  | JNil
  | JText (j : json)
  | JInvalid (b : string).

Definition ErrJSONMarshal : error := new_err "sdk/ErrJSONMarshal".
Definition ErrJSONUnmarshal : error := new_err "sdk/ErrJSONUnmarshal".
(** Errors of encoding/json itself. *)
Definition ErrJSON : error := new_err "encoding/json".

(** ** Encoding *)

(** A [json.RawMessage] field: nil is written as null, invalid text fails. *)
Definition enc_raw (b : json_bytes) : outcome json :=
  match b with
  | JNil => Ok JNull
  | JText j => Ok j
  | JInvalid _ => Err ErrJSON
  end.

(** A struct whose fields are tagged omitempty: absent ones are left out. *)
Definition enc_omitempty (fields : list (string * option json)) : json :=
  JObj (omap (λ f, j ← f.2; Some (f.1, j)) fields).

(** ** base64 (StdEncoding), the encoding of []byte *)
Definition b64_alphabet : string :=
  "ABCDEFGHIJKLMNOPQRSTUVWXYZabcdefghijklmnopqrstuvwxyz0123456789+/".

Definition b64_char (z : Z) : Ascii.ascii :=
  default "="%char (String.get (Z.to_nat z) b64_alphabet).

Fixpoint b64_encode (s : string) : string :=
  match s with
  | "" => ""
  | String a "" =>
      let x := of_byte a in
      String (b64_char (x / 4)) (String (b64_char (x mod 4 * 16)) "==")
  | String a (String b "") =>
      let x := of_byte a in let y := of_byte b in
      String (b64_char (x / 4)) (String (b64_char (x mod 4 * 16 + y / 16))
        (String (b64_char (y mod 16 * 4)) "="))
  | String a (String b (String c s')) =>
      let x := of_byte a in let y := of_byte b in let z := of_byte c in
      String (b64_char (x / 4)) (String (b64_char (x mod 4 * 16 + y / 16))
        (String (b64_char (y mod 16 * 4 + z / 64)) (String (b64_char (z mod 64)) (b64_encode s'))))
  end.

Fixpoint b64_index_in (alphabet : string) (i : Z) (a : Ascii.ascii) : option Z :=
  match alphabet with
  | "" => None
  | String b r => if decide (a = b) then Some i else b64_index_in r (i + 1) a
  end.
Definition b64_index (a : Ascii.ascii) : option Z := b64_index_in b64_alphabet 0 a.

(** Padding is required and ends the text; carriage returns and line feeds are
    skipped by the caller. *)
Fixpoint b64_decode_quads (s : string) : option string :=
  match s with
  | "" => Some ""
  | String a (String b (String c (String d s'))) =>
      x ← b64_index a; y ← b64_index b;
      if decide (c = "="%char) then
        if decide (d = "="%char ∧ s' = "") then Some (String (byte_of (x * 4 + y / 16)) "") else None
      else z ← b64_index c;
      if decide (d = "="%char) then
        if decide (s' = "") then
          Some (String (byte_of (x * 4 + y / 16)) (String (byte_of (y mod 16 * 16 + z / 4)) ""))
        else None
      else w ← b64_index d; r ← b64_decode_quads s';
      Some (String (byte_of (x * 4 + y / 16)) (String (byte_of (y mod 16 * 16 + z / 4))
             (String (byte_of (z mod 4 * 64 + w)) r)))
  | _ => None
  end.

Fixpoint strip_newlines (s : string) : string :=
  match s with
  | "" => ""
  | String a s' =>
      if decide (of_byte a = 10 ∨ of_byte a = 13) then strip_newlines s'
      else String a (strip_newlines s')
  end.

Definition b64_decode (s : string) : option string := b64_decode_quads (strip_newlines s).

(** ** Decoding *)

(** Decoding writes into the current value of its target. *)
Definition decoder (A : Type) : Type := json → A → outcome A.

Definition dec_string : decoder string := λ j s,
  match j with JStr s' => Ok s' | JNull => Ok s | _ => Err ErrJSON end.
Definition dec_int (p : Z → bool) : decoder Z := λ j n,
  match j with
  | JNum z => if p z then Ok z else Err ErrJSON
  | JNull => Ok n
  | _ => Err ErrJSON
  end.
Definition dec_int64 : decoder Z := dec_int (λ z, (- 2 ^ 63 <=? z) && (z <? 2 ^ 63)).
Definition dec_uint64 : decoder Z := dec_int (λ z, (0 <=? z) && (z <? 2 ^ 64)).
Definition dec_bool : decoder bool := λ j b,
  match j with JBool b' => Ok b' | JNull => Ok b | _ => Err ErrJSON end.
(** A []byte target; nil is the empty string. *)
Definition dec_bytes : decoder bytes := λ j b,
  match j with
  | JStr s => match b64_decode s with Some b' => Ok b' | None => Err ErrJSON end
  | JNull => Ok ""
  | _ => Err ErrJSON
  end.

(** A pointer target is allocated when it is nil and reset by null. *)
Definition dec_ptr {A} (zero : A) (d : decoder A) : decoder (option A) := λ j o,
  match j with
  | JNull => Ok None
  | _ => a ← d j (default zero o); Ok (Some a)
  end.

Fixpoint dec_elems {A} (zero : A) (d : decoder A) (l : list json) : outcome (list A) :=
  match l with
  | [] => Ok []
  | j :: l' => a ← d j zero; r ← dec_elems zero d l'; Ok (a :: r)
  end.
Definition dec_list {A} (zero : A) (d : decoder A) : decoder (list A) := λ j l,
  match j with
  | JArr js => dec_elems zero d js
  | JNull => Ok []
  | _ => Err ErrJSON
  end.

(** The folding of encoding/json: ASCII case, and the two characters that fold
    to ASCII letters, U+212A (Kelvin sign) to k and U+017F (long s) to s. *)
Definition lower (a : Ascii.ascii) : Ascii.ascii :=
  if decide (65 ≤ of_byte a ≤ 90) then byte_of (of_byte a + 32) else a.
Fixpoint fold_key (s : string) : string :=
  match s with
  | "" => ""
  | String a s' =>
      match s' with
      | String b s'' =>
          if decide (of_byte a = 197 ∧ of_byte b = 191) then String "s"%char (fold_key s'')
          else match s'' with
          | String c s''' =>
              if decide (of_byte a = 226 ∧ of_byte b = 132 ∧ of_byte c = 170)
              then String "k"%char (fold_key s''')
              else String (lower a) (fold_key s')
          | "" => String (lower a) (fold_key s')
          end
      | "" => String (lower a) (fold_key s')
      end
  end.

(** A struct target: every member goes to the field of its name, or else to the
    first one that folds to it; other members are ignored. *)
Definition find_field {A} (fields : list (string * decoder A)) (key : string) : option (decoder A) :=
  match list_find (λ f : string * decoder A, f.1 = key) fields with
  | Some (_, f) => Some f.2
  | None => snd ∘ snd <$> list_find (λ f : string * decoder A, fold_key f.1 = fold_key key) fields
  end.

Fixpoint dec_members {A} (fields : list (string * decoder A)) (ms : list (string * json)) (a : A) :
    outcome A :=
  match ms with
  | [] => Ok a
  | (k, j) :: ms' =>
      match find_field fields k with
      | Some d => a' ← d j a; dec_members fields ms' a'
      | None => dec_members fields ms' a
      end
  end.

Definition dec_struct {A} (fields : list (string * decoder A)) : decoder A := λ j a,
  match j with
  | JObj ms => dec_members fields ms a
  | JNull => Ok a
  | _ => Err ErrJSON
  end.

(** One field of a struct: its name, its getter and its setter. *)
Definition field {A B} (name : string) (get : A → B) (set : B → A → A) (d : decoder B) :
    string * decoder A :=
  (name, λ j a, b ← d j (get a); Ok (set b a)).

(** [json.Unmarshal(b, &m)] for a map from strings to raw messages. *)
Definition dec_raw_map (j : json) : outcome (gmap string json) :=
  match j with
  | JObj ms => Ok (list_to_map (reverse ms))
  | JNull => Ok ∅
  | _ => Err ErrJSON
  end.

(** [json.Unmarshal(bz, &v)] *)
Definition Unmarshal {A} (d : decoder A) (b : json_bytes) (a : A) : outcome A :=
  match b with
  | JText j => d j a
  | _ => Err ErrJSON
  end.
