(* ===== verification/JsonProps.v ===== *)
(** Lemmas on decoding: what every field keeps, the whole decoding keeps; and
    base64 texts read back. *)
From stdpp Require Import base list strings gmap.
From Stdlib Require Import ZArith Lia Ascii.
From S2P Require Import Prelude Sdk Json.
Open Scope Z_scope.

(** ** Invariants of decoding *)

(** A decoder that keeps a property of its target. *)
Definition keeps {A} (P : A → Prop) (d : decoder A) : Prop := ∀ j a a', P a → d j a = Ok a' → P a'.

Create HintDb decode.

Lemma find_field_elem {A} (fields : list (string * decoder A)) k d :
  find_field fields k = Some d → ∃ n, (n, d) ∈ fields.
Proof.
  unfold find_field. destruct (list_find _ fields) as [[i [n f]]|] eqn:Hf.
  - intros [= <-]. apply list_find_Some in Hf as (Hi & _ & _). exists n. by eapply list_elem_of_lookup_2.
  - intros Hd. destruct (list_find (λ f : string * decoder A, fold_key f.1 = fold_key k) fields) as [[i [n f]]|] eqn:Hg;
      [|done]. cbn in Hd. injection Hd as <-. apply list_find_Some in Hg as (Hi & _ & _).
    exists n. by eapply list_elem_of_lookup_2.
Qed.

Lemma keeps_struct {A} (P : A → Prop) fields :
  Forall (λ f : string * decoder A, keeps P f.2) fields → keeps P (dec_struct fields).
Proof.
  intros Hf j a a' Ha Hd. unfold dec_struct in Hd. destruct j as [| | | | | |ms]; try done; [by injection Hd as <-|].
  revert a Ha Hd. induction ms as [|[k j] ms IH]; intros a Ha Hd; cbn in Hd; [by injection Hd as <-|].
  destruct (find_field fields k) as [d|] eqn:Hk; [|by apply (IH a)].
  apply find_field_elem in Hk as [n Hin]. apply outcome_bind_ok in Hd as (b & Hb & Hd).
  apply (IH b); [|done]. rewrite Forall_forall in Hf. by apply (Hf _ Hin j a).
Qed.

(** A field keeps a property of the struct when its decoder keeps one of the field. *)
Lemma keeps_field {A B} (P : A → Prop) (Q : B → Prop) name get set (d : decoder B) :
  keeps Q d → (∀ a, P a → Q (get a)) → (∀ b a, P a → Q b → P (set b a)) → keeps P (field name get set d).2.
Proof.
  intros Hd Hg Hs j a a' Ha Hr. cbn in Hr. apply outcome_bind_ok in Hr as (b & Hb & [= <-]).
  apply Hs; [done|]. by apply (Hd j (get a)); [apply Hg|].
Qed.

(** A property of what a pointer points to. *)
Definition on_ptr {A} (P : A → Prop) (o : option A) : Prop := ∀ a, o = Some a → P a.

Lemma keeps_ptr {A} (P : A → Prop) zero d : P zero → keeps P d → keeps (on_ptr P) (dec_ptr zero d).
Proof.
  intros Hz Hd j o o' Ho Hr. assert (P (default zero o)) as Hcur by (destruct o; [by apply Ho|done]).
  destruct j; cbn in Hr; [injection Hr as <-; done|..];
    apply outcome_bind_ok in Hr as (a & Ha & [= <-]); intros x [= <-]; by apply (Hd _ _ _ Hcur Ha).
Qed.

Lemma keeps_True {A} (d : decoder A) : keeps (λ _, True) d.
Proof. done. Qed.

Lemma keeps_int (p : Z → bool) (P : Z → Prop) : (∀ z, p z = true → P z) → keeps P (dec_int p).
Proof.
  intros Hp j n n' Hn Hd. destruct j; try done; cbn in Hd; [by injection Hd as <-|].
  destruct (p _) eqn:E; [|done]. injection Hd as <-. by apply Hp.
Qed.
Lemma keeps_int64 : keeps (is_s 64) dec_int64.
Proof. apply keeps_int. intros z. unfold is_s. lia. Qed.
Lemma keeps_uint64 : keeps (is_u 64) dec_uint64.
Proof. apply keeps_int. intros z. unfold is_u. lia. Qed.
#[export] Hint Resolve keeps_True keeps_int64 keeps_uint64 : decode.

(** ** base64 *)
Definition sextets : list Z := seqZ 0 64.
Lemma sextet_cases (P : Z → Prop) x : Forall P sextets → 0 ≤ x < 64 → P x.
Proof. intros Hall Hx. rewrite Forall_forall in Hall. apply Hall, elem_of_seqZ. lia. Qed.

Lemma b64_index_char x : 0 ≤ x < 64 → b64_index (b64_char x) = Some x.
Proof. apply (sextet_cases (λ x, b64_index (b64_char x) = Some x)). by repeat constructor. Qed.
Lemma b64_char_plain x :
  0 ≤ x < 64 → b64_char x ≠ "="%char ∧ of_byte (b64_char x) ≠ 10 ∧ of_byte (b64_char x) ≠ 13.
Proof.
  apply (sextet_cases (λ x, b64_char x ≠ "="%char ∧ of_byte (b64_char x) ≠ 10 ∧ of_byte (b64_char x) ≠ 13)).
  apply (bool_decide_unpack _). vm_compute. exact I.
Qed.

(** Induction by three bytes. *)
Lemma string_ind3 (P : string → Prop) :
  P "" → (∀ a, P (String a "")) → (∀ a b, P (String a (String b ""))) →
  (∀ a b c s, P s → P (String a (String b (String c s)))) → ∀ s, P s.
Proof.
  intros H0 H1 H2 H3 s. assert (P s ∧ (∀ a, P (String a s)) ∧ (∀ a b, P (String a (String b s)))) as [? _]; [|done].
  induction s as [|c s (IH0 & IH1 & IH2)]; split_and!; auto.
Qed.

Lemma quads_cons x y z w s :
  0 ≤ x < 64 → 0 ≤ y < 64 → 0 ≤ z < 64 → 0 ≤ w < 64 →
  b64_decode_quads (String (b64_char x) (String (b64_char y) (String (b64_char z) (String (b64_char w) s)))) =
  (r ← b64_decode_quads s;
   Some (String (byte_of (x * 4 + y / 16)) (String (byte_of (y mod 16 * 16 + z / 4)) (String (byte_of (z mod 4 * 64 + w)) r)))).
Proof.
  intros Hx Hy Hz Hw. cbn [b64_decode_quads]. rewrite !b64_index_char by done. cbn [mbind option_bind].
  rewrite decide_False by (by apply b64_char_plain). cbn [mbind option_bind].
  rewrite decide_False by (by apply b64_char_plain). done.
Qed.

(** The parts of bytes put together again. *)
Lemma parts1 x y : 0 ≤ x < 256 → 0 ≤ y < 16 → x / 4 * 4 + (x mod 4 * 16 + y) / 16 = x.
Proof. intros Hx Hy. Z.to_euclidean_division_equations. lia. Qed.
Lemma parts2 q y z : 0 ≤ y < 256 → 0 ≤ z < 4 → (q * 16 + y / 16) mod 16 * 16 + (y mod 16 * 4 + z) / 4 = y.
Proof.
  intros Hy Hz. rewrite (Z.add_comm (q * 16)), Z.mod_add by done. Z.to_euclidean_division_equations. lia.
Qed.
Lemma parts3 q z : 0 ≤ z < 256 → (q * 4 + z / 64) mod 4 * 64 + z mod 64 = z.
Proof. intros Hz. rewrite (Z.add_comm (q * 4)), Z.mod_add by done. Z.to_euclidean_division_equations. lia. Qed.

Lemma sextet1 x : 0 ≤ x < 256 → 0 ≤ x / 4 < 64.
Proof. intros. Z.to_euclidean_division_equations. lia. Qed.
Lemma sextet2 x y : 0 ≤ y < 16 → 0 ≤ x mod 4 * 16 + y < 64.
Proof. intros. Z.to_euclidean_division_equations. lia. Qed.
Lemma sextet3 y z : 0 ≤ z < 4 → 0 ≤ y mod 16 * 4 + z < 64.
Proof. intros. Z.to_euclidean_division_equations. lia. Qed.
Lemma nibble y : 0 ≤ y < 256 → 0 ≤ y / 16 < 16.
Proof. intros. Z.to_euclidean_division_equations. lia. Qed.
Lemma top2 z : 0 ≤ z < 256 → 0 ≤ z / 64 < 4.
Proof. intros. Z.to_euclidean_division_equations. lia. Qed.

Lemma b64_decode_quads_encode s : b64_decode_quads (b64_encode s) = Some s.
Proof.
  induction s as [|a|a b|a b c s IH] using string_ind3; [done|..];
    pose proof (of_byte_range a) as Ha; try pose proof (of_byte_range b) as Hb; try pose proof (of_byte_range c) as Hc;
    unfold is_u in *; cbn [b64_encode].
  - pose proof (sextet2 (of_byte a) 0 ltac:(lia)) as H2. rewrite Z.add_0_r in H2.
    cbn [b64_decode_quads]. rewrite !b64_index_char by (done || by apply sextet1). cbn.
    rewrite <-(Z.add_0_r (_ mod 4 * 16)), parts1 by lia. by rewrite byte_of_of.
  - pose proof (sextet3 (of_byte b) 0 ltac:(lia)) as H3. rewrite Z.add_0_r in H3.
    cbn [b64_decode_quads]. rewrite !b64_index_char by (done || by apply sextet1 || apply sextet2, nibble, Hb).
    cbn [mbind option_bind]. rewrite decide_False by (by apply b64_char_plain). cbn.
    rewrite parts1 by (done || by apply nibble). rewrite <-(Z.add_0_r (_ mod 16 * 4)), parts2 by lia. by rewrite !byte_of_of.
  - rewrite quads_cons; [|by apply sextet1|apply sextet2, nibble, Hb|apply sextet3, top2, Hc|apply Z.mod_pos_bound; lia].
    rewrite IH. cbn. rewrite parts1, parts2, parts3 by (done || by apply nibble || by apply top2). by rewrite !byte_of_of.
Qed.

Lemma strip_plain x s : 0 ≤ x < 64 → strip_newlines (String (b64_char x) s) = String (b64_char x) (strip_newlines s).
Proof. intros Hx. destruct (b64_char_plain x Hx) as (_ & ? & ?). cbn. by rewrite decide_False by naive_solver. Qed.

Lemma strip_newlines_encode s : strip_newlines (b64_encode s) = b64_encode s.
Proof.
  induction s as [|a|a b|a b c s IH] using string_ind3; [done|..];
    pose proof (of_byte_range a) as Ha; try pose proof (of_byte_range b) as Hb; try pose proof (of_byte_range c) as Hc;
    unfold is_u in *; cbn [b64_encode].
  - pose proof (sextet2 (of_byte a) 0 ltac:(lia)) as H2. rewrite Z.add_0_r in H2.
    rewrite !strip_plain by (done || by apply sextet1). done.
  - pose proof (sextet3 (of_byte b) 0 ltac:(lia)) as H3. rewrite Z.add_0_r in H3.
    rewrite !strip_plain by (done || by apply sextet1 || apply sextet2, nibble, Hb). done.
  - rewrite !strip_plain by (by apply sextet1 || apply sextet2, nibble, Hb || apply sextet3, top2, Hc || apply Z.mod_pos_bound; lia).
    by rewrite IH.
Qed.

(** The bytes of a []byte field read back. *)
Lemma b64_roundtrip s : b64_decode (b64_encode s) = Some s.
Proof. unfold b64_decode. by rewrite strip_newlines_encode, b64_decode_quads_encode. Qed.
