(* ===== verification/TwasmMsgs.v ===== *)
(** The messages exchanged with contracts (x/twasm/contract/callback_msgs.go and
    x/twasm/contract/incoming_msgs.go): the callbacks sent with sudo and their
    JSON, the messages contracts send back and how they are read. *)
From stdpp Require Import base list strings gmap sets.
From Stdlib Require Import ZArith Lia.
From S2P Require Import Prelude Sdk Slice Json Privilege.
Open Scope Z_scope.

(** ** Callbacks *)
Inductive EvidenceType := EvidenceDuplicateVote | EvidenceLightClientAttack.

Definition EvidenceType_value (t : EvidenceType) : string :=
  match t with
  | EvidenceDuplicateVote => "duplicate_vote"
  | EvidenceLightClientAttack => "light_client_attack"
  end.

Record Validator := mkValidator { Address : bytes; Power : Z }.

Record Evidence := mkEvidence {
  Evidence_type : EvidenceType;
  Evidence_Validator : Validator;
  Evidence_Height : Z;
  Evidence_Time : Z;
  TotalVotingPower : Z }.

Inductive PrivilegeChangeMsg := Promoted | Demoted.

(** The callers set exactly one field of [PetriSudoMsg]. *)
Inductive PetriSudoMsg :=
  | PrivilegeChange (m : PrivilegeChangeMsg)
  | BeginBlock (evidence : list Evidence)
  | EndBlock
  | EndWithValidatorUpdate
  | Export
  | Import (raw : json_bytes).

Definition enc_Validator (v : Validator) : json :=
  JObj [("address", JStr (b64_encode (Address v))); ("power", JNum (Power v))].

Definition enc_Evidence (e : Evidence) : json :=
  JObj [("evidence_type", JStr (EvidenceType_value (Evidence_type e)));
        ("validator", enc_Validator (Evidence_Validator e));
        ("height", JNum (Evidence_Height e));
        ("time", JNum (Evidence_Time e));
        ("total_voting_power", JNum (TotalVotingPower e))].

(** [json.Marshal(PetriSudoMsg{...})] *)
Definition PetriSudoMsg_Marshal (m : PetriSudoMsg) : outcome json :=
  match m with
  | PrivilegeChange Promoted => Ok (JObj [("privilege_change", JObj [("promoted", JObj [])])])
  | PrivilegeChange Demoted => Ok (JObj [("privilege_change", JObj [("demoted", JObj [])])])
  | BeginBlock es => Ok (JObj [("begin_block", JObj [("evidence", JArr (enc_Evidence <$> es))])])
  | EndBlock => Ok (JObj [("end_block", JObj [])])
  | EndWithValidatorUpdate => Ok (JObj [("end_with_validator_update", JObj [])])
  | Export => Ok (JObj [("export", JObj [])])
  | Import raw => j ← enc_raw raw; Ok (JObj [("import", j)])
  end.

(** ** Messages from contracts *)
Record PrivilegeMsg := mkPrivilegeMsg { Request : Z; Release : Z }.

Record BlockParams := mkBlockParams { BP_MaxBytes : option Z; BP_MaxGas : option Z }.
Record EvidenceParams := mkEvidenceParams {
  EP_MaxAgeNumBlocks : option Z; EP_MaxAgeDuration : option Z; EP_MaxBytes : option Z }.
Record ConsensusParamsUpdate := mkCPU {
  CPU_Block : option BlockParams; CPU_Evidence : option EvidenceParams }.

(** wasmvm's coin: the amount is a decimal string. *)
Record WasmCoin := mkWasmCoin { WC_Denom : string; WC_Amount : string }.

Record MintTokens := mkMint { Mint_Denom : string; Mint_Amount : string; Mint_RecipientAddr : string }.
Record Delegate := mkDelegate { Delegate_Funds : WasmCoin; StakerAddr : string }.
Record Undelegate := mkUndelegate { Undelegate_Funds : WasmCoin; Undelegate_RecipientAddr : string }.

Definition BlockParams_ValidateBasic (p : option BlockParams) : outcome () :=
  match p with
  | None => Ok ()
  | Some p =>
      check (bool_decide (BP_MaxBytes p = None) && bool_decide (BP_MaxGas p = None)) ErrEmpty
  end.

Definition EvidenceParams_ValidateBasic (p : option EvidenceParams) : outcome () :=
  match p with
  | None => Ok ()
  | Some p =>
      check (bool_decide (EP_MaxAgeNumBlocks p = None) && bool_decide (EP_MaxAgeDuration p = None)
             && bool_decide (EP_MaxBytes p = None)) ErrEmpty
  end.

Definition ConsensusParamsUpdate_ValidateBasic (c : ConsensusParamsUpdate) : outcome () :=
  match CPU_Block c, CPU_Evidence c with
  | None, None => Err ErrEmpty
  | _, _ =>
      wrap "block" (BlockParams_ValidateBasic (CPU_Block c)) ;;
      wrap "evidence" (EvidenceParams_ValidateBasic (CPU_Evidence c))
  end.

(** *** Governance proposals

    The concrete proposal types belong to the SDK, wasmd and ibc-go. Of each the
    model has the fields this code reads or writes; the others are the [payload]
    it carries along. *)
Record Titled (P : Type) := mkTitled { Title : string; Description : string; payload : P }.
Arguments mkTitled {P} Title Description payload.
Arguments Title {P} t.
Arguments Description {P} t.
Arguments payload {P} t.

Record Plan := mkPlan {
  Plan_Name : string; Plan_Height : Z; Plan_Info : string; UpgradedClientState : option json }.
Record ParamChange := mkParamChange { Subspace : string; ParamKey : string; ParamValue : string }.
Record InstantiateContract := mkInstantiate {
  RunAs : string; Inst_Admin : string; Inst_CodeID : Z; Inst_Label : string;
  Inst_Msg : bytes; Inst_Funds : list Coin }.
Record StoreCode := mkStoreCode { Store_RunAs : string; Store_rest : json }.
Record MigrateContract := mkMigrate { Mig_Contract : string; Mig_CodeID : Z; Mig_Msg : bytes }.

(** [proposalContent], a struct of optional proposals. *)
Record proposalContent := mkProposal {
  GP_Text : option (Titled ());
  GP_RegisterUpgrade : option Plan;
  GP_CancelUpgrade : option (Titled ());
  GP_ChangeParams : option (list ParamChange);
  GP_IBCClientUpdate : option (Titled (string * json)); (* the subject client id first *)
  GP_PromoteToPrivilegedContract : option (Titled string);
  GP_DemotePrivilegedContract : option (Titled string);
  GP_InstantiateContract : option (Titled InstantiateContract);
  GP_StoreCode : option (Titled StoreCode);
  GP_MigrateContract : option (Titled MigrateContract);
  GP_SetContractAdmin : option (Titled json);
  GP_ClearContractAdmin : option (Titled json);
  GP_PinCodes : option (Titled json);
  GP_UnpinCodes : option (Titled json) }.

Definition empty_proposal : proposalContent :=
  mkProposal None None None None None None None None None None None None None None.

Record ExecuteGovProposal := mkExecute {
  EGP_Title : string; EGP_Description : string; EGP_Proposal : proposalContent }.

(** [govtypes.Content], one constructor per dynamic type. *)
Inductive Content :=
  | CText (p : Titled ())
  | CSoftwareUpgrade (p : Titled Plan)
  | CCancelUpgrade (p : Titled ())
  | CParameterChange (p : Titled (list ParamChange))
  | CClientUpdate (p : Titled (string * json))
  | CPromote (p : Titled string)
  | CDemote (p : Titled string)
  | CInstantiate (p : Titled InstantiateContract)
  | CStoreCode (p : Titled StoreCode)
  | CMigrate (p : Titled MigrateContract)
  | CUpdateAdmin (p : Titled json)
  | CClearAdmin (p : Titled json)
  | CPinCodes (p : Titled json)
  | CUnpinCodes (p : Titled json).

(** The message a contract sends, decoded. *)
Record PetriMsg := mkPetriMsg {
  PM_Privilege : option PrivilegeMsg;
  PM_ExecuteGovProposal : option ExecuteGovProposal;
  PM_MintTokens : option MintTokens;
  PM_ConsensusParams : option ConsensusParamsUpdate;
  PM_Delegate : option Delegate;
  PM_Undelegate : option Undelegate }.

Section proposals.
(** [sdk.AccAddress.String] *)
Variable AccAddress_String : AccAddress → string.

Definition set_RunAs (r : string) (p : InstantiateContract) : InstantiateContract :=
  mkInstantiate r (Inst_Admin p) (Inst_CodeID p) (Inst_Label p) (Inst_Msg p) (Inst_Funds p).

Definition GetProposalContent (p : ExecuteGovProposal) (sender : AccAddress) : option Content :=
  let titled {P} (x : P) := mkTitled (EGP_Title p) (EGP_Description p) x in
  let c := EGP_Proposal p in
  match GP_Text c with Some x => Some (CText (titled (payload x))) | None =>
  match GP_RegisterUpgrade c with Some x => Some (CSoftwareUpgrade (titled x)) | None =>
  match GP_CancelUpgrade c with Some x => Some (CCancelUpgrade (titled (payload x))) | None =>
  match GP_ChangeParams c with Some x => Some (CParameterChange (titled x)) | None =>
  match GP_IBCClientUpdate c with Some x => Some (CClientUpdate (titled (payload x))) | None =>
  match GP_PromoteToPrivilegedContract c with Some x => Some (CPromote (titled (payload x))) | None =>
  match GP_DemotePrivilegedContract c with Some x => Some (CDemote (titled (payload x))) | None =>
  match GP_InstantiateContract c with
  | Some x => Some (CInstantiate (titled (set_RunAs (AccAddress_String sender) (payload x))))
  | None =>
  match GP_StoreCode c with
  | Some x => Some (CStoreCode (titled (mkStoreCode (AccAddress_String sender) (Store_rest (payload x)))))
  | None =>
  match GP_MigrateContract c with Some x => Some (CMigrate (titled (payload x))) | None =>
  match GP_SetContractAdmin c with Some x => Some (CUpdateAdmin (titled (payload x))) | None =>
  match GP_ClearContractAdmin c with Some x => Some (CClearAdmin (titled (payload x))) | None =>
  match GP_PinCodes c with Some x => Some (CPinCodes (titled (payload x))) | None =>
  match GP_UnpinCodes c with Some x => Some (CUnpinCodes (titled (payload x))) | None =>
  None
  end end end end end end end end end end end end end end.
End proposals.

Definition ErrInvalidRequest : error := new_err "sdk/ErrInvalidRequest".

Definition unpackInterfaces (p : ExecuteGovProposal) : outcome () :=
  match GP_RegisterUpgrade (EGP_Proposal p) with
  | Some plan =>
      match UpgradedClientState plan with
      | Some _ => Err (Wrap ErrInvalidRequest "upgrade logic for IBC has been moved to the IBC module")
      | None => Ok ()
      end
  | None => Ok ()
  end.

(** ** Reading the messages *)

(** [wasmvmtypes.InstantiateMsg] *)
Record WasmInstantiateMsg := mkWasmInstantiate {
  WI_CodeID : Z; WI_Msg : bytes; WI_Funds : list WasmCoin; WI_Label : string; WI_Admin : string }.

(** encoding/json on struct types of other packages. *)
Class ForeignDecoders := {
  dec_TextProposal : decoder (Titled ());
  dec_Plan : decoder Plan;
  dec_CancelSoftwareUpgradeProposal : decoder (Titled ());
  dec_ParamChange : decoder ParamChange;
  dec_ClientUpdateProposal : decoder (Titled (string * json));
  dec_InstantiateContractProposal : decoder (Titled InstantiateContract);
  dec_StoreCodeProposal : decoder (Titled StoreCode);
  dec_MigrateContractProposal : decoder (Titled MigrateContract);
  dec_UpdateAdminProposal : decoder (Titled json);
  dec_ClearAdminProposal : decoder (Titled json);
  dec_PinCodesProposal : decoder (Titled json);
  dec_UnpinCodesProposal : decoder (Titled json);
  dec_InstantiateMsg : decoder WasmInstantiateMsg;
  dec_WasmCoin : decoder WasmCoin;
}.

Section decoding.
Context `{SdkCoins, ForeignDecoders}.

Definition ErrInvalidCoins : error := new_err "sdk/ErrInvalidCoins".

Definition convertWasmCoinToSdkCoin (coin : WasmCoin) : outcome Coin :=
  match NewIntFromString (WC_Amount coin) with
  | None => Err (Wrap ErrInvalidCoins (WC_Amount coin +:+ WC_Denom coin))
  | Some amount =>
      let r := mkCoin (WC_Denom coin) amount in
      Coin_Validate r ;; Ok r
  end.

Fixpoint convertWasmCoinsToSdkCoins (coins : list WasmCoin) : outcome (list Coin) :=
  match coins with
  | [] => Ok []
  | coin :: coins' =>
      c ← convertWasmCoinToSdkCoin coin;
      r ← convertWasmCoinsToSdkCoins coins';
      Ok (c :: r)
  end.

(** A foreign error reported with [sdkerrors.Wrap(ErrJSONUnmarshal, err.Error())]. *)
Definition as_json_error {A} (m : outcome A) : outcome A :=
  match m with Err _ => Err ErrJSONUnmarshal | _ => m end.

Definition dec_PromoteProposal : decoder (Titled string) := dec_struct
  [ field "title" Title (λ x p, mkTitled x (Description p) (payload p)) dec_string;
    field "description" Description (λ x p, mkTitled (Title p) x (payload p)) dec_string;
    field "contract" payload (λ x p, mkTitled (Title p) (Description p) x) dec_string ].

(** *** The custom readers of GovProposal.UnmarshalJSON, by member name *)
Definition unmarshal_ibc_client_update (j : json) : outcome proposalContent :=
  as_json_error (
    id ← dec_struct
      [ field "client_id" (λ x, x) (λ x _, x) dec_string;
        field "header" (λ _, None) (λ _ s, s)
          (dec_ptr ("", "") (dec_struct
            [ field "type_url" fst (λ x a, (x, a.2)) dec_string;
              field "value" snd (λ x a, (a.1, x)) dec_bytes ])) ] j "";
    Ok (mkProposal None None None None (Some (mkTitled "" "" (id, JNull))) None None None None
          None None None None None)).

Definition unmarshal_register_upgrade (j : json) : outcome proposalContent :=
  as_json_error (
    plan ← dec_struct
      [ field "name" Plan_Name (λ x p, mkPlan x (Plan_Height p) (Plan_Info p) None) dec_string;
        field "height" Plan_Height (λ x p, mkPlan (Plan_Name p) x (Plan_Info p) None) dec_int64;
        field "info" Plan_Info (λ x p, mkPlan (Plan_Name p) (Plan_Height p) x None) dec_string ]
      j (mkPlan "" 0 "" None);
    Ok (mkProposal None (Some plan) None None None None None None None None None None None None)).

Definition unmarshal_migrate_contract (j : json) : outcome proposalContent :=
  as_json_error (
    m ← dec_struct
      [ field "contract" Mig_Contract (λ x p, mkMigrate x (Mig_CodeID p) (Mig_Msg p)) dec_string;
        field "code_id" Mig_CodeID (λ x p, mkMigrate (Mig_Contract p) x (Mig_Msg p)) dec_uint64;
        field "migrate_msg" Mig_Msg (λ x p, mkMigrate (Mig_Contract p) (Mig_CodeID p) x) dec_bytes ]
      j (mkMigrate "" 0 "");
    Ok (mkProposal None None None None None None None None None (Some (mkTitled "" "" m))
          None None None None)).

Definition unmarshal_instantiate_contract (j : json) : outcome proposalContent :=
  as_json_error (
    m ← dec_InstantiateMsg j (mkWasmInstantiate 0 "" [] "" "");
    funds ← convertWasmCoinsToSdkCoins (WI_Funds m);
    Ok (mkProposal None None None None None None None
          (Some (mkTitled "" "" (mkInstantiate "" (WI_Admin m) (WI_CodeID m) (WI_Label m)
                                   (WI_Msg m) funds)))
          None None None None None None)).

(** The readers in the order of [sort.Strings] of their names. *)
Definition customUnmarshalers : list (string * (json → outcome proposalContent)) :=
  [ ("ibc_client_update", unmarshal_ibc_client_update);
    ("instantiate_contract", unmarshal_instantiate_contract);
    ("migrate_contract", unmarshal_migrate_contract);
    ("register_upgrade", unmarshal_register_upgrade) ].

(** [proposalContent] read by field tags. *)
Definition dec_proposalContent : decoder proposalContent := dec_struct
  [ field "text" GP_Text (λ x p, let 'mkProposal _ b c d e f g h i j k l m n := p in
      mkProposal x b c d e f g h i j k l m n) (dec_ptr (mkTitled "" "" ()) dec_TextProposal);
    field "register_upgrade" GP_RegisterUpgrade (λ x p, let 'mkProposal a _ c d e f g h i j k l m n := p in
      mkProposal a x c d e f g h i j k l m n) (dec_ptr (mkPlan "" 0 "" None) dec_Plan);
    field "cancel_upgrade" GP_CancelUpgrade (λ x p, let 'mkProposal a b _ d e f g h i j k l m n := p in
      mkProposal a b x d e f g h i j k l m n)
      (dec_ptr (mkTitled "" "" ()) dec_CancelSoftwareUpgradeProposal);
    field "change_params" GP_ChangeParams (λ x p, let 'mkProposal a b c _ e f g h i j k l m n := p in
      mkProposal a b c x e f g h i j k l m n)
      (dec_ptr [] (dec_list (mkParamChange "" "" "") dec_ParamChange));
    field "ibc_client_update" GP_IBCClientUpdate (λ x p, let 'mkProposal a b c d _ f g h i j k l m n := p in
      mkProposal a b c d x f g h i j k l m n)
      (dec_ptr (mkTitled "" "" ("", JNull)) dec_ClientUpdateProposal);
    field "promote_to_privileged_contract" GP_PromoteToPrivilegedContract
      (λ x p, let 'mkProposal a b c d e _ g h i j k l m n := p in
      mkProposal a b c d e x g h i j k l m n) (dec_ptr (mkTitled "" "" "") dec_PromoteProposal);
    field "demote_privileged_contract" GP_DemotePrivilegedContract
      (λ x p, let 'mkProposal a b c d e f _ h i j k l m n := p in
      mkProposal a b c d e f x h i j k l m n) (dec_ptr (mkTitled "" "" "") dec_PromoteProposal);
    field "instantiate_contract" GP_InstantiateContract
      (λ x p, let 'mkProposal a b c d e f g _ i j k l m n := p in
      mkProposal a b c d e f g x i j k l m n)
      (dec_ptr (mkTitled "" "" (mkInstantiate "" "" 0 "" "" [])) dec_InstantiateContractProposal);
    field "store_code" GP_StoreCode (λ x p, let 'mkProposal a b c d e f g h _ j k l m n := p in
      mkProposal a b c d e f g h x j k l m n)
      (dec_ptr (mkTitled "" "" (mkStoreCode "" JNull)) dec_StoreCodeProposal);
    field "migrate_contract" GP_MigrateContract (λ x p, let 'mkProposal a b c d e f g h i _ k l m n := p in
      mkProposal a b c d e f g h i x k l m n)
      (dec_ptr (mkTitled "" "" (mkMigrate "" 0 "")) dec_MigrateContractProposal);
    field "set_contract_admin" GP_SetContractAdmin (λ x p, let 'mkProposal a b c d e f g h i j _ l m n := p in
      mkProposal a b c d e f g h i j x l m n) (dec_ptr (mkTitled "" "" JNull) dec_UpdateAdminProposal);
    field "clear_contract_admin" GP_ClearContractAdmin
      (λ x p, let 'mkProposal a b c d e f g h i j k _ m n := p in
      mkProposal a b c d e f g h i j k x m n) (dec_ptr (mkTitled "" "" JNull) dec_ClearAdminProposal);
    field "pin_codes" GP_PinCodes (λ x p, let 'mkProposal a b c d e f g h i j k l _ n := p in
      mkProposal a b c d e f g h i j k l x n) (dec_ptr (mkTitled "" "" JNull) dec_PinCodesProposal);
    field "unpin_codes" GP_UnpinCodes (λ x p, let 'mkProposal a b c d e f g h i j k l m _ := p in
      mkProposal a b c d e f g h i j k l m x) (dec_ptr (mkTitled "" "" JNull) dec_UnpinCodesProposal) ].

Fixpoint first_custom (raws : gmap string json)
    (us : list (string * (json → outcome proposalContent))) : option (outcome proposalContent) :=
  match us with
  | [] => None
  | (name, u) :: us' =>
      match raws !! name with
      | Some j => Some (as_json_error (u j))
      | None => first_custom raws us'
      end
  end.

(** [GovProposal.UnmarshalJSON]: the result replaces the whole target. *)
Definition GovProposal_UnmarshalJSON : decoder proposalContent := λ j _,
  raws ← as_json_error (dec_raw_map j);
  match first_custom raws customUnmarshalers with
  | Some r => r
  | None => as_json_error (dec_proposalContent j empty_proposal)
  end.

Definition dec_PrivilegeType : decoder Z := λ j t, PrivilegeType_UnmarshalJSON t (dec_string j "").

Definition dec_PrivilegeMsg : decoder PrivilegeMsg := dec_struct
  [ field "request" Request (λ x m, mkPrivilegeMsg x (Release m)) dec_PrivilegeType;
    field "release" Release (λ x m, mkPrivilegeMsg (Request m) x) dec_PrivilegeType ].

Definition dec_ExecuteGovProposal : decoder ExecuteGovProposal := dec_struct
  [ field "title" EGP_Title (λ x m, mkExecute x (EGP_Description m) (EGP_Proposal m)) dec_string;
    field "description" EGP_Description (λ x m, mkExecute (EGP_Title m) x (EGP_Proposal m)) dec_string;
    field "proposal" EGP_Proposal (λ x m, mkExecute (EGP_Title m) (EGP_Description m) x)
      GovProposal_UnmarshalJSON ].

Definition dec_MintTokens : decoder MintTokens := dec_struct
  [ field "denom" Mint_Denom (λ x m, mkMint x (Mint_Amount m) (Mint_RecipientAddr m)) dec_string;
    field "amount" Mint_Amount (λ x m, mkMint (Mint_Denom m) x (Mint_RecipientAddr m)) dec_string;
    field "recipient" Mint_RecipientAddr (λ x m, mkMint (Mint_Denom m) (Mint_Amount m) x) dec_string ].

Definition dec_BlockParams : decoder BlockParams := dec_struct
  [ field "max_bytes" BP_MaxBytes (λ x p, mkBlockParams x (BP_MaxGas p)) (dec_ptr 0 dec_int64);
    field "max_gas" BP_MaxGas (λ x p, mkBlockParams (BP_MaxBytes p) x) (dec_ptr 0 dec_int64) ].

Definition dec_EvidenceParams : decoder EvidenceParams := dec_struct
  [ field "max_age_num_blocks" EP_MaxAgeNumBlocks
      (λ x p, mkEvidenceParams x (EP_MaxAgeDuration p) (EP_MaxBytes p)) (dec_ptr 0 dec_int64);
    field "max_age_duration" EP_MaxAgeDuration
      (λ x p, mkEvidenceParams (EP_MaxAgeNumBlocks p) x (EP_MaxBytes p)) (dec_ptr 0 dec_int64);
    field "max_bytes" EP_MaxBytes
      (λ x p, mkEvidenceParams (EP_MaxAgeNumBlocks p) (EP_MaxAgeDuration p) x) (dec_ptr 0 dec_int64) ].

Definition dec_ConsensusParamsUpdate : decoder ConsensusParamsUpdate := dec_struct
  [ field "block" CPU_Block (λ x c, mkCPU x (CPU_Evidence c))
      (dec_ptr (mkBlockParams None None) dec_BlockParams);
    field "evidence" CPU_Evidence (λ x c, mkCPU (CPU_Block c) x)
      (dec_ptr (mkEvidenceParams None None None) dec_EvidenceParams) ].

Definition dec_Delegate : decoder Delegate := dec_struct
  [ field "funds" Delegate_Funds (λ x d, mkDelegate x (StakerAddr d)) dec_WasmCoin;
    field "staker" StakerAddr (λ x d, mkDelegate (Delegate_Funds d) x) dec_string ].

Definition dec_Undelegate : decoder Undelegate := dec_struct
  [ field "funds" Undelegate_Funds (λ x d, mkUndelegate x (Undelegate_RecipientAddr d)) dec_WasmCoin;
    field "recipient" Undelegate_RecipientAddr (λ x d, mkUndelegate (Undelegate_Funds d) x) dec_string ].

Definition empty_PetriMsg : PetriMsg := mkPetriMsg None None None None None None.

Definition dec_PetriMsg : decoder PetriMsg := dec_struct
  [ field "privilege" PM_Privilege (λ x m, let 'mkPetriMsg _ b c d e f := m in mkPetriMsg x b c d e f)
      (dec_ptr (mkPrivilegeMsg 0 0) dec_PrivilegeMsg);
    field "execute_gov_proposal" PM_ExecuteGovProposal
      (λ x m, let 'mkPetriMsg a _ c d e f := m in mkPetriMsg a x c d e f)
      (dec_ptr (mkExecute "" "" empty_proposal) dec_ExecuteGovProposal);
    field "mint_tokens" PM_MintTokens
      (λ x m, let 'mkPetriMsg a b _ d e f := m in mkPetriMsg a b x d e f)
      (dec_ptr (mkMint "" "" "") dec_MintTokens);
    field "consensus_params" PM_ConsensusParams
      (λ x m, let 'mkPetriMsg a b c _ e f := m in mkPetriMsg a b c x e f)
      (dec_ptr (mkCPU None None) dec_ConsensusParamsUpdate);
    field "delegate" PM_Delegate (λ x m, let 'mkPetriMsg a b c d _ f := m in mkPetriMsg a b c d x f)
      (dec_ptr (mkDelegate (mkWasmCoin "" "") "") dec_Delegate);
    field "undelegate" PM_Undelegate (λ x m, let 'mkPetriMsg a b c d e _ := m in mkPetriMsg a b c d e x)
      (dec_ptr (mkUndelegate (mkWasmCoin "" "") "") dec_Undelegate) ].

Definition UnmarshalWithAny (bz : json_bytes) : outcome PetriMsg :=
  p ← as_json_error (Unmarshal dec_PetriMsg bz empty_PetriMsg);
  match PM_ExecuteGovProposal p with
  | Some e => wrap "execute_gov_proposal" (unpackInterfaces e) ;; Ok p
  | None => Ok p
  end.
End decoding.
