(* ===== verification/Wasm.v ===== *)
(** The interface of wasmd's keeper.

    x/twasm embeds wasmd's keeper and shares its store, under key prefixes wasmd
    does not use. [WasmKeeper] lists what x/twasm calls of it, [WasmVM] is the
    entry point into contract code, [WasmLaws] states what wasmd documents of the
    former. *)
From stdpp Require Import base list strings gmap sets.
From Stdlib Require Import ZArith Lia.
From S2P Require Import Prelude Sdk Slice Json Privilege.
Open Scope Z_scope.

Definition StoreKey : string := "wasm".
Definition RouterKey : string := "wasm".

Definition ErrNotFound : error := new_err "wasm/not found".
Definition ErrUnknownMsg : error := new_err "wasm/unknown message from the contract".
Definition ErrInvalidGenesis : error := new_err "wasm/invalid genesis".

(** A protobuf Any. *)
Record Any := mkAny { TypeUrl : string; AnyValue : bytes }.
#[export] Instance Any_eq_dec : EqDecision Any.
Proof. solve_decision. Defined.

(** [wasmtypes.ContractInfo], the fields this repository reads. *)
Record ContractInfo := mkContractInfo {
  CodeID : Z; Admin : string; Extension : option Any }.
#[export] Instance ContractInfo_eq_dec : EqDecision ContractInfo.
Proof. solve_decision. Defined.

Class WasmKeeper (W : Type) := {
  GetContractInfo : W → AccAddress → option ContractInfo;
  (** [ContractInfo.ReadExtension(&details)]: details stay empty without an extension. *)
  ReadExtension : ContractInfo → outcome PetriContractDetails;
  PinCode : Z → M W ();
  UnpinCode : Z → M W ();
  (** The addresses [IterateContractsByCode] calls back with, in order. *)
  IterateContractsByCode : W → Z → list AccAddress;
  SetContractInfoExtension : AccAddress → PetriContractDetails → M W ();
}.

Class WasmVM (W : Type) := {
  (** [keeper.Sudo(ctx, contractAddr, msg)]: runs the contract and dispatches the
      messages it returns. *)
  Sudo : AccAddress → json → M W json_bytes;
}.

(** The prefixes of x/twasm's indexes in the shared store. *)
Definition privilegedContractsSecondaryIndexPrefix : bytes := bytes1 0xa0.
Definition contractCallbacksSecondaryIndexPrefix : bytes := bytes1 0xa1.

Definition index_key (k : bytes) : Prop :=
  ∃ k', k = privilegedContractsSecondaryIndexPrefix +:+ k' ∨
        k = contractCallbacksSecondaryIndexPrefix +:+ k'.

(** The indexes are the same in both states. *)
Definition same_index `{KVStore W} (w w' : W) : Prop :=
  ∀ k, index_key k → kv_get w' StoreKey k = kv_get w StoreKey k.
(** The contracts and their extensions are the same in both states. *)
Definition same_contracts `{WasmKeeper W} (w w' : W) : Prop :=
  ∀ a, GetContractInfo w' a = GetContractInfo w a.

Class WasmLaws (W : Type) `{KVStore W, WasmKeeper W} := {
  (** wasmd keeps nothing under the prefixes of x/twasm. *)
  GetContractInfo_set k v w : index_key k → same_contracts w (kv_set StoreKey k v w);
  GetContractInfo_delete k w : index_key k → same_contracts w (kv_delete StoreKey k w);
  PinCode_frame id c c' :
    PinCode id c = (Ok (), c') → same_index (store c) (store c') ∧ same_contracts (store c) (store c');
  UnpinCode_frame id c c' :
    UnpinCode id c = (Ok (), c') → same_index (store c) (store c') ∧ same_contracts (store c) (store c');
  (** [SetContractInfoExtension] validates and stores the extension of an existing contract. *)
  SetExtension_ok a d c i :
    GetContractInfo (store c) a = Some i → PetriContractDetails_ValidateBasic d = Ok () →
    Forall (λ v, is_u 32 (Position v)) (RegisteredPrivileges d) →
    ∃ c', SetContractInfoExtension a d c = (Ok (), c');
  SetExtension_spec a d c c' :
    SetContractInfoExtension a d c = (Ok (), c') →
    PetriContractDetails_ValidateBasic d = Ok () ∧ same_index (store c) (store c') ∧
    (∃ i i', GetContractInfo (store c) a = Some i ∧ GetContractInfo (store c') a = Some i' ∧
             ReadExtension i' = Ok d ∧ CodeID i' = CodeID i ∧ Admin i' = Admin i) ∧
    (∀ b, b ≠ a → GetContractInfo (store c') b = GetContractInfo (store c) b);
}.

(** The privileges a contract has on record; none for an unknown contract. *)
Definition details_of `{WasmKeeper W} (w : W) (a : AccAddress) : option PetriContractDetails :=
  i ← GetContractInfo w a;
  match ReadExtension i with Ok d => Some d | _ => None end.

Section frame_lemmas.
Context `{KVLaws W, WasmKeeper W}.
Implicit Types w : W.

Lemma details_of_same w w' a : same_contracts w w' → details_of w' a = details_of w a.
Proof. intros Hs. unfold details_of. by rewrite Hs. Qed.

Lemma same_index_trans w1 w2 w3 : same_index w1 w2 → same_index w2 w3 → same_index w1 w3.
Proof. unfold same_index. intros Ha Hb k Hk. by rewrite Hb, Ha. Qed.
Lemma same_contracts_trans w1 w2 w3 :
  same_contracts w1 w2 → same_contracts w2 w3 → same_contracts w1 w3.
Proof. unfold same_contracts. intros Ha Hb a. by rewrite Hb, Ha. Qed.
End frame_lemmas.
