(* ===== verification/TwasmKeeper.v ===== *)
(** The keeper of x/twasm (x/twasm/keeper/keeper.go, privileged.go, store.go).

    The store holds a flag per privileged contract (0xa0|address) and an index of
    registrations (0xa1|type|position -> address). The extension of a contract's
    info lists the contract's own registrations. [priv_inv] says that the two
    agree; the index of a type is a queue, see [queue]. *)
From stdpp Require Import base list strings gmap sets sorting.
From Stdlib Require Import ZArith Lia.
From S2P Require Import Prelude Sdk Slice Json Privilege TwasmMsgs Wasm.
Open Scope Z_scope.

Definition EventTypeSetPrivileged : string := "set_privileged_contract".
Definition EventTypeUnsetPrivileged : string := "unset_privileged_contract".
Definition EventTypeRegisterPrivilege : string := "register_privilege".
Definition EventTypeReleasePrivilege : string := "release_privilege".
Definition AttributeKeyContractAddr : string := "_contract_address".
Definition AttributeKeyCallbackType : string := "privilege_type".

(** ** Keys *)
Definition privilegedContractsSecondaryIndexKey (contractAddr : AccAddress) : bytes :=
  privilegedContractsSecondaryIndexPrefix +:+ contractAddr.

Definition getContractPrivilegesSecondaryIndexPrefix (privilegeType : Z) : bytes :=
  contractCallbacksSecondaryIndexPrefix +:+ bytes1 privilegeType.

Definition contractPrivilegesSecondaryIndexKey (privilegeType pos : Z) : bytes :=
  getContractPrivilegesSecondaryIndexPrefix privilegeType +:+ bytes1 pos.

Definition parseContractPosition (key : bytes) : outcome Z :=
  match key with
  | String b "" => Ok (of_byte b)
  | _ => Panic "unexpected key length"
  end.

(** ** Operations *)
Section operations.
Context `{KVStore W, WasmKeeper W, Bech32}.

Definition setContractDetails (contract : AccAddress) (details : PetriContractDetails) : M W () :=
  SetContractInfoExtension contract details.

Definition getContractDetails (contract : AccAddress) : M W PetriContractDetails :=
  info ← gets (λ w, GetContractInfo w contract);
  match info with
  | None => fail_with (Wrap ErrNotFound "contract info")
  | Some info => lift (ReadExtension info)
  end.

Definition setPrivilegedFlag (contractAddr : AccAddress) : M W () :=
  modify (kv_set StoreKey (privilegedContractsSecondaryIndexKey contractAddr) (bytes1 1)).

Definition clearPrivilegedFlag (contractAddr : AccAddress) : M W () :=
  modify (kv_delete StoreKey (privilegedContractsSecondaryIndexKey contractAddr)).

Definition IsPrivileged (w : W) (contractAddr : AccAddress) : bool :=
  kv_has w StoreKey (privilegedContractsSecondaryIndexKey contractAddr).

Definition IteratePrivileged (cb : AccAddress → M W bool) : M W () :=
  entries ← gets (λ w, kv_iterate w StoreKey privilegedContractsSecondaryIndexPrefix);
  iterM entries.*1 cb.

Definition storeContractPrivilegeRegistration (privilegeType pos : Z) (contractAddr : AccAddress) : M W () :=
  modify (kv_set StoreKey (contractPrivilegesSecondaryIndexKey privilegeType pos) contractAddr).

Definition privilege_event (type : string) (contractAddr : AccAddress) (privilegeType : Z) : Event :=
  NewEvent type [(AttributeKeyContractAddr, AccAddress_String contractAddr);
                 (AttributeKeyCallbackType, PrivilegeType_String privilegeType)].

Definition appendToPrivilegedContracts (privilegeType : Z) (contractAddr : AccAddress) : M W Z :=
  entries ← gets (λ w, kv_iterate w StoreKey (getContractPrivilegesSecondaryIndexPrefix privilegeType));
  pos ← match last entries with
        | Some (String b _, _) =>
            if IsSingleton privilegeType then fail_with ErrDuplicate else mret (of_byte b)
        | Some ("", _) => panic "index out of range"
        | None => mret 0
        end;
  let newPos := uint8 (pos + 1) in
  if newPos <=? pos then panic "Overflow in privilege positions"
  else
    storeContractPrivilegeRegistration privilegeType newPos contractAddr ;;
    EmitEvent (privilege_event EventTypeRegisterPrivilege contractAddr privilegeType) ;;
    mret newPos.

Definition removePrivilegeRegistration (privilegeType pos : Z) (contractAddr : AccAddress) : M W bool :=
  let key := contractPrivilegesSecondaryIndexKey privilegeType pos in
  has ← gets (λ w, kv_has w StoreKey key);
  if negb has then mret false
  else
    modify (kv_delete StoreKey key) ;;
    EmitEvent (privilege_event EventTypeReleasePrivilege contractAddr privilegeType) ;;
    mret true.

Definition getPrivilegedContract (w : W) (privilegeType pos : Z) : option AccAddress :=
  kv_get w StoreKey (contractPrivilegesSecondaryIndexKey privilegeType pos).

Definition ExistsAnyPrivilegedContract (w : W) (privilegeType : Z) : bool :=
  match kv_iterate_range w StoreKey (getContractPrivilegesSecondaryIndexPrefix privilegeType)
          (bytes1 0) (bytes1 MaxUint8) with
  | [] => false
  | _ => true
  end.

Definition IteratePrivilegedContractsByType (privilegeType : Z) (cb : Z → AccAddress → M W bool) : M W () :=
  entries ← gets (λ w, kv_iterate w StoreKey (getContractPrivilegesSecondaryIndexPrefix privilegeType));
  iterM entries (λ e, pos ← lift (parseContractPosition e.1); cb pos e.2).

Definition HasPrivilegedContract (contractAddr : AccAddress) (privilegeType : Z) : M W bool :=
  d ← getContractDetails contractAddr;
  mret (HasRegisteredPrivilege privilegeType d).

Fixpoint importRegistrations (contractAddr : AccAddress) (cs : list RegisteredPrivilege) : M W () :=
  match cs with
  | [] => mret ()
  | c :: cs' =>
      match PrivilegeTypeFrom (PrivilegeTypeName c) with
      | None => fail_with (Wrap ErrInvalidGenesis "unknown privilege type: %q")
      | Some privilegeType =>
          let pos := uint8 (Position c) in
          has ← gets (λ w, kv_has w StoreKey (contractPrivilegesSecondaryIndexKey privilegeType pos));
          if (has : bool) then fail_with (Wrap ErrInvalidGenesis "privilege exists already: %s for contract %s")
          else storeContractPrivilegeRegistration privilegeType pos contractAddr ;;
               importRegistrations contractAddr cs'
      end
  end.

Definition importPrivileged (contractAddr : AccAddress) (codeID : Z) (details : PetriContractDetails) : M W () :=
  wrapM "pin" (PinCode codeID) ;;
  setPrivilegedFlag contractAddr ;;
  importRegistrations contractAddr (RegisteredPrivileges details).

(** The part of [UnsetPrivileged] after the contract was called. *)
Definition demote (contractAddr : AccAddress) : M W () :=
  info ← gets (λ w, GetContractInfo w contractAddr);
  match info with
  | None => fail_with (Wrap ErrNotFound "contractAddr")
  | Some contractInfo =>
      isUniqueContractInstance ← gets (λ w,
        forallb (λ address, contractAddr =? address)%string
          (IterateContractsByCode w (CodeID contractInfo)));
      (if (isUniqueContractInstance : bool) then wrapM "unpin" (UnpinCode (CodeID contractInfo))
       else mret ()) ;;
      clearPrivilegedFlag contractAddr ;;
      details ← lift (ReadExtension contractInfo);
      remaining ← IterateRegisteredPrivileges
        (λ privilegeType pos s,
           _ ← removePrivilegeRegistration privilegeType pos contractAddr;
           s' ← lift (RemoveRegisteredPrivilege privilegeType pos s);
           mret (false, s'))
        (of_list (RegisteredPrivileges details));
      wrapM "store contract info extension"
        (setContractDetails contractAddr (mkDetails (view remaining))) ;;
      EmitEvent (NewEvent EventTypeUnsetPrivileged
        [(AttributeKeyContractAddr, AccAddress_String contractAddr)])
  end.

(** The part of [SetPrivileged] before the contract is called. *)
Definition promote (contractAddr : AccAddress) : M W () :=
  info ← gets (λ w, GetContractInfo w contractAddr);
  match info with
  | None => fail_with (Wrap ErrNotFound "contractAddr")
  | Some contractInfo =>
      wrapM "pin" (PinCode (CodeID contractInfo)) ;;
      setPrivilegedFlag contractAddr
  end.

Context `{WasmVM W}.

(** [json.Marshal(&msg)] followed by [k.Sudo]. *)
Definition sudo_msg (contractAddr : AccAddress) (msg : PetriSudoMsg) : M W json_bytes :=
  match PetriSudoMsg_Marshal msg with
  | Ok msgBz => wrapM "sudo" (Sudo contractAddr msgBz)
  | Err _ => fail_with ErrJSONMarshal
  | Panic p => panic p
  end.

Definition SetPrivileged (contractAddr : AccAddress) : M W () :=
  promote contractAddr ;;
  _ ← sudo_msg contractAddr (PrivilegeChange Promoted);
  EmitEvent (NewEvent EventTypeSetPrivileged
    [(AttributeKeyContractAddr, AccAddress_String contractAddr)]).

Definition UnsetPrivileged (contractAddr : AccAddress) : M W () :=
  _ ← sudo_msg contractAddr (PrivilegeChange Demoted);
  demote contractAddr.
End operations.

(** ** Facts about keys *)
Lemma privilege_key_index t p : index_key (contractPrivilegesSecondaryIndexKey t p).
Proof. by eexists; right. Qed.
Lemma flag_key_index a : index_key (privilegedContractsSecondaryIndexKey a).
Proof. by eexists; left. Qed.

Lemma flag_key_ne_index a k :
  privilegedContractsSecondaryIndexKey a ≠ contractCallbacksSecondaryIndexPrefix +:+ k.
Proof. intros [= ]. Qed.

Lemma privilege_key_inj t p t' p' :
  is_u 8 t → is_u 8 p → is_u 8 t' → is_u 8 p' →
  contractPrivilegesSecondaryIndexKey t p = contractPrivilegesSecondaryIndexKey t' p' →
  t = t' ∧ p = p'.
Proof. intros Ht Hp Ht' Hp' [= H1 H2]. split; by apply byte_of_inj. Qed.

#[export] Hint Resolve privilege_key_index flag_key_index : core.

(** ** The invariant *)

(** The registrations of every contract are valid and in the index under their
    type and position; everything in the index is such a registration; a
    singleton type has one holder. *)
Record priv_inv `{KVStore W, WasmKeeper W} (w : W) : Prop := {
  inv_details a i :
    GetContractInfo w a = Some i → ∃ d, ReadExtension i = Ok d ∧ valid_details d;
  inv_index a d v :
    details_of w a = Some d → v ∈ RegisteredPrivileges d →
    getPrivilegedContract w (ptype v) (Position v) = Some a;
  inv_keys k a :
    kv_get w StoreKey (contractCallbacksSecondaryIndexPrefix +:+ k) = Some a →
    ∃ t p d, k = bytes1 t +:+ bytes1 p ∧ known t ∧ 1 ≤ p ≤ 255 ∧
      details_of w a = Some d ∧ mkRP p (PrivilegeType_String t) ∈ RegisteredPrivileges d;
  inv_singleton t p1 p2 a1 a2 :
    IsSingleton t = true → is_u 8 p1 → is_u 8 p2 →
    getPrivilegedContract w t p1 = Some a1 → getPrivilegedContract w t p2 = Some a2 → p1 = p2 }.

(** ** The index of a type as a queue *)
Definition pos_lt (a b : Z * AccAddress) : Prop := a.1 < b.1.
#[export] Instance pos_lt_irrefl : Irreflexive pos_lt.
Proof. intros [p a]. unfold pos_lt, complement. lia. Qed.
#[export] Instance pos_lt_trans : Transitive pos_lt.
Proof. intros [p a] [q b] [r c]. unfold pos_lt. lia. Qed.

(** The position a key ends with; [parseContractPosition] on one-byte keys. *)
Definition key_pos (k : bytes) : Z := match k with String b _ => of_byte b | "" => 0 end.

Definition queue `{KVStore W} (w : W) (t : Z) : list (Z * AccAddress) :=
  (λ e, (key_pos e.1, e.2)) <$> kv_iterate w StoreKey (getContractPrivilegesSecondaryIndexPrefix t).

Section queue_lemmas.
Context `{KVLaws W, !WasmKeeper W, !Bech32}.
Implicit Types w : W.

Lemma inv_get w t p a :
  priv_inv w → is_u 8 t → is_u 8 p → getPrivilegedContract w t p = Some a →
  known t ∧ 1 ≤ p ≤ 255 ∧
  ∃ d, details_of w a = Some d ∧ mkRP p (PrivilegeType_String t) ∈ RegisteredPrivileges d.
Proof.
  intros Hinv Ht Hp Hget.
  destruct (inv_keys w Hinv (bytes1 t +:+ bytes1 p) a Hget) as (t' & p' & d & [= E1 E2] & Hk & Hp' & Hd).
  apply byte_of_inj in E1 as <-; [|done|by apply known_byte].
  apply byte_of_inj in E2 as <-; [|done|unfold is_u; lia]. naive_solver.
Qed.

Lemma inv_valid w a d : priv_inv w → details_of w a = Some d → valid_details d.
Proof.
  unfold details_of. intros Hinv Hd. destruct (GetContractInfo w a) as [i|] eqn:Hi; [|done].
  destruct (inv_details w Hinv a i Hi) as (d' & Hd' & ?). cbn in Hd. rewrite Hd' in Hd. by simplify_eq.
Qed.

(** The keys of the index of a known type are single bytes. *)
Lemma inv_entry w t k a :
  priv_inv w → is_u 8 t →
  (k, a) ∈ kv_iterate w StoreKey (getContractPrivilegesSecondaryIndexPrefix t) →
  known t ∧ 1 ≤ key_pos k ≤ 255 ∧ k = bytes1 (key_pos k).
Proof.
  intros Hinv Ht Hin%kv_iterate_elem.
  destruct (inv_keys w Hinv (bytes1 t +:+ k) a Hin) as (t' & p & d & [= Et Ek] & Hk & Hp & _).
  apply byte_of_inj in Et as <-; [|done|by apply known_byte].
  change (k = bytes1 p) in Ek. subst k. cbn. rewrite of_byte_of by (unfold is_u; lia). done.
Qed.

Lemma queue_elem w t p a :
  priv_inv w → is_u 8 t →
  (p, a) ∈ queue w t ↔ 1 ≤ p ≤ 255 ∧ getPrivilegedContract w t p = Some a.
Proof.
  intros Hinv Ht. unfold queue. rewrite list_elem_of_fmap. split.
  - intros ([k a'] & [= -> ->] & Hin). destruct (inv_entry _ _ _ _ Hinv Ht Hin) as (_ & Hp & Hk).
    split; [done|]. apply kv_iterate_elem in Hin. by rewrite Hk in Hin.
  - intros [Hp Hget]. exists (bytes1 p, a). cbn.
    rewrite of_byte_of by (unfold is_u; lia). split; [done|]. by apply kv_iterate_elem.
Qed.

Lemma queue_sorted w t : priv_inv w → is_u 8 t → StronglySorted pos_lt (queue w t).
Proof.
  intros Hinv Ht. unfold queue.
  pose proof (kv_iterate_sorted w StoreKey (getContractPrivilegesSecondaryIndexPrefix t)) as Hs.
  assert (∀ k a, (k, a) ∈ kv_iterate w StoreKey (getContractPrivilegesSecondaryIndexPrefix t) →
    1 ≤ key_pos k ≤ 255 ∧ k = bytes1 (key_pos k)) as Hkeys by (intros; by eapply inv_entry).
  induction (kv_iterate w StoreKey (getContractPrivilegesSecondaryIndexPrefix t)) as [|[k a] l IH];
    cbn in *; [constructor|].
  inversion Hs as [|? ? Hs' Hall]; subst. constructor; [apply IH; set_solver|].
  rewrite Forall_fmap. rewrite Forall_fmap in Hall. rewrite Forall_forall in *.
  intros [k' a'] Hin. specialize (Hall _ Hin). unfold pos_lt. cbn in *.
  destruct (Hkeys k a) as [Hp Hk]; [by left|]. destruct (Hkeys k' a') as [Hp' Hk']; [by right|].
  rewrite Hk, Hk' in Hall. apply bytes1_lt in Hall; unfold is_u; lia.
Qed.

(** Iterating over a type calls back along its queue and never panics on a key. *)
Lemma Iterate_queue t (cb : Z → AccAddress → M W bool) c :
  priv_inv (store c) → is_u 8 t →
  IteratePrivilegedContractsByType t cb c = iterM (queue (store c) t) (λ e, cb e.1 e.2) c.
Proof.
  intros Hinv Ht. unfold IteratePrivilegedContractsByType, queue.
  unfold mbind, M_bind at 1, gets.
  assert (∀ k a, (k, a) ∈ kv_iterate (store c) StoreKey (getContractPrivilegesSecondaryIndexPrefix t) →
    1 ≤ key_pos k ≤ 255 ∧ k = bytes1 (key_pos k)) as Hkeys by (intros; by eapply inv_entry).
  generalize c at 2 4. induction (kv_iterate _ _ _) as [|[k a] l IH]; intros c1; [done|].
  destruct (Hkeys k a) as [_ Hk]; [by left|]. cbn. destruct k as [|b k]; [done|].
  assert (k = "") as -> by (by injection Hk). cbn. unfold mbind, M_bind. cbn.
  destruct (cb _ _ c1) as [[[]|e|e] c2]; [done| |done|done]. apply IH. set_solver.
Qed.
End queue_lemmas.

(** ** Effect of the operations *)

(** The key of a registration below the prefix of the index. *)
Definition entry_key (v : RegisteredPrivilege) : bytes := bytes1 (ptype v) +:+ bytes1 (Position v).

Lemma entry_key_inj v v' : rp_ok v → rp_ok v' → entry_key v = entry_key v' → v = v'.
Proof.
  intros Hv Hv' [= E1 E2].
  apply byte_of_inj in E1; [|by apply known_byte, rp_ok_known..].
  apply byte_of_inj in E2; [|destruct Hv, Hv'; unfold is_u; lia..].
  rewrite <-(rp_ok_canon v), <-(rp_ok_canon v') by done. by rewrite E1, E2.
Qed.

Lemma entry_key_mk t p : known t → entry_key (mkRP p (PrivilegeType_String t)) = bytes1 t +:+ bytes1 p.
Proof. intros Ht. unfold entry_key. by rewrite ptype_mk. Qed.

(** The same with the prefix. *)
Definition index_entry (v : RegisteredPrivilege) : bytes :=
  contractCallbacksSecondaryIndexPrefix +:+ entry_key v.

Section effects.
Context `{!KVStore W, !KVLaws W, !WasmKeeper W, !WasmLaws W, !Bech32}.
Implicit Types w : W.

(** *** Changing the registrations of one contract *)

(** [w'] is [w] with the registrations of [a] replaced by [d'], in the
    extension and in the index. *)
Record updated w w' (a : AccAddress) (d' : PetriContractDetails) : Prop := {
  upd_others b : b ≠ a → GetContractInfo w' b = GetContractInfo w b;
  upd_details : ∃ i', GetContractInfo w' a = Some i' ∧ ReadExtension i' = Ok d';
  upd_index k b :
    kv_get w' StoreKey (contractCallbacksSecondaryIndexPrefix +:+ k) = Some b ↔
    (b ≠ a ∧ kv_get w StoreKey (contractCallbacksSecondaryIndexPrefix +:+ k) = Some b) ∨
    (b = a ∧ ∃ v, v ∈ RegisteredPrivileges d' ∧ k = entry_key v) }.

Lemma upd_details_of w w' a d' : updated w w' a d' → details_of w' a = Some d'.
Proof. intros [_ (i' & Hi & Hr) _]. unfold details_of. by rewrite Hi; cbn; rewrite Hr. Qed.

Lemma upd_details_other w w' a d' b :
  updated w w' a d' → b ≠ a → details_of w' b = details_of w b.
Proof. intros [Ho _ _] Hb. unfold details_of. by rewrite Ho. Qed.

Lemma upd_get w w' a d' v :
  updated w w' a d' → v ∈ RegisteredPrivileges d' →
  getPrivilegedContract w' (ptype v) (Position v) = Some a.
Proof. intros [_ _ Hi] Hv. apply (Hi (entry_key v) a). right. eauto. Qed.

Lemma inv_entry_iff w a d k :
  priv_inv w → details_of w a = Some d →
  kv_get w StoreKey (contractCallbacksSecondaryIndexPrefix +:+ k) = Some a ↔
  ∃ v, v ∈ RegisteredPrivileges d ∧ k = entry_key v.
Proof.
  intros Hinv Hd. split.
  - intros (t & p & d0 & -> & Ht & _ & Hd0 & Hin)%(inv_keys w Hinv). simplify_eq.
    exists (mkRP p (PrivilegeType_String t)). by rewrite entry_key_mk.
  - intros (v & Hv & ->). by apply (inv_index w Hinv a d v).
Qed.

(** An entry of the index after an update is old or a new registration. *)
Lemma upd_get_inv w w' a d d' t p b :
  priv_inv w → details_of w a = Some d → valid_details d' → updated w w' a d' →
  is_u 8 t → is_u 8 p → getPrivilegedContract w' t p = Some b →
  getPrivilegedContract w t p = Some b ∨
  ∃ v, v ∈ RegisteredPrivileges d' ∧ (v ∉ RegisteredPrivileges d) ∧ ptype v = t ∧ Position v = p.
Proof.
  intros Hinv Hd Hval Hupd Ht Hp.
  intros [[_ ?]|[-> (v & Hv & E)]]%(upd_index _ _ _ _ Hupd (bytes1 t +:+ bytes1 p)); [by left|].
  destruct (decide (v ∈ RegisteredPrivileges d)) as [Hin|Hin].
  - left. apply (inv_entry_iff w a d); eauto.
  - right. exists v. pose proof (valid_rp_ok _ _ Hval Hv) as Hok. injection E as E1 E2.
    split_and!; [done|done|..]; symmetry; apply byte_of_inj; try done.
    + by apply known_byte, rp_ok_known.
    + destruct Hok. unfold is_u. lia.
Qed.

(** The invariant survives an update whose new singleton registrations had no holder. *)
Lemma priv_inv_update w w' a d d' :
  priv_inv w → details_of w a = Some d → valid_details d' → updated w w' a d' →
  (∀ v p b, v ∈ RegisteredPrivileges d' → v ∉ RegisteredPrivileges d → IsSingleton (ptype v) = true →
     is_u 8 p → getPrivilegedContract w (ptype v) p ≠ Some b) →
  priv_inv w'.
Proof.
  intros Hinv Hd Hval Hupd Hnew. split.
  - intros b i Hi. destruct (decide (b = a)) as [->|Hb].
    + destruct (upd_details _ _ _ _ Hupd) as (i' & Hi' & Hr). simplify_eq. eauto.
    + rewrite (upd_others _ _ _ _ Hupd) in Hi by done. by eapply inv_details.
  - intros b d0 v Hd0 Hv. destruct (decide (b = a)) as [->|Hb].
    + rewrite (upd_details_of _ _ _ _ Hupd) in Hd0. simplify_eq. by eapply upd_get.
    + rewrite (upd_details_other _ _ _ _ _ Hupd) in Hd0 by done.
      apply (upd_index _ _ _ _ Hupd (entry_key v)). left. split; [done|]. by eapply inv_index.
  - intros k b [[Hb Hk]|[-> (v & Hv & ->)]]%(upd_index _ _ _ _ Hupd).
    + destruct (inv_keys w Hinv k b Hk) as (t & p & d0 & ?). exists t, p, d0.
      by rewrite (upd_details_other _ _ _ _ _ Hupd) by done.
    + pose proof (valid_rp_ok _ _ Hval Hv) as Hok.
      exists (ptype v), (Position v), d'. split; [done|]. split; [by apply rp_ok_known|].
      split; [apply Hok|]. split; [by eapply upd_details_of|].
      rewrite <-rp_ok_name by done. by destruct v.
  - intros t p1 p2 a1 a2 Hs H1 H2 G1 G2.
    assert (is_u 8 t) as Ht by (by apply known_byte, IsSingleton_known).
    destruct (upd_get_inv w w' a d d' t p1 a1) as [O1|(v1 & I1 & N1 & E1 & P1)]; [done..| |];
    destruct (upd_get_inv w w' a d d' t p2 a2) as [O2|(v2 & I2 & N2 & E2 & P2)]; try done.
    + by eapply inv_singleton.
    + rewrite <-E2 in *. by destruct (Hnew v2 p1 a1).
    + rewrite <-E1 in *. by destruct (Hnew v1 p2 a2).
    + rewrite <-P1, <-P2. f_equal. eapply valid_same_type; [done..|congruence].
Qed.

(** *** Appending to a queue *)
Definition next_pos w t : Z :=
  match last (queue w t) with Some (p, _) => p + 1 | None => 1 end.

Lemma queue_last_max w t p a :
  priv_inv w → is_u 8 t → (p, a) ∈ queue w t → p < next_pos w t.
Proof.
  intros Hinv Ht Hin. unfold next_pos.
  destruct (last (queue w t)) as [[q b]|] eqn:E.
  - destruct (StronglySorted_last pos_lt _ (p, a) (q, b) (queue_sorted w t Hinv Ht) E Hin) as [[= ->]|Hlt];
      [lia|]. unfold pos_lt in Hlt. cbn in Hlt. lia.
  - apply last_None in E. rewrite E in Hin. by apply not_elem_of_nil in Hin.
Qed.

Lemma next_pos_range w t : priv_inv w → is_u 8 t → 1 ≤ next_pos w t ≤ 256.
Proof.
  intros Hinv Ht. unfold next_pos. destruct (last (queue w t)) as [[p a]|] eqn:E; [|lia].
  apply last_Some_elem_of, (queue_elem w t p a Hinv Ht) in E. lia.
Qed.

(** Every outcome of a registration: a singleton type that is taken, a full
    queue, or the next position. *)
Lemma append_spec t a c :
  priv_inv (store c) → is_u 8 t →
  appendToPrivilegedContracts t a c =
  if IsSingleton t && negb (bool_decide (queue (store c) t = [])) then (Err ErrDuplicate, c)
  else if 255 <? next_pos (store c) t then (Panic "Overflow in privilege positions", c)
  else (Ok (next_pos (store c) t),
        mkCtx (kv_set StoreKey (contractPrivilegesSecondaryIndexKey t (next_pos (store c) t)) a (store c))
              (events c ++ [privilege_event EventTypeRegisterPrivilege a t])).
Proof.
  intros Hinv Ht. pose proof (next_pos_range _ t Hinv Ht) as Hr.
  unfold appendToPrivilegedContracts, next_pos, queue in *. unfold mbind, M_bind, gets. cbn.
  rewrite fmap_last in *.
  destruct (last (kv_iterate _ _ _)) as [[k b]|] eqn:E; cbn in *.
  - apply last_Some_elem_of in E as Hin. apply (inv_entry _ _ _ _ Hinv Ht) in Hin as (_ & Hp & ->).
    rewrite (bool_decide_false (_ <$> _ = [])) by (intros Hnil%fmap_nil_inv; by rewrite Hnil in E).
    cbn. rewrite andb_true_r. destruct (IsSingleton t); cbn; [done|].
    rewrite !of_byte_of in * by (unfold is_u in *; cbn in *; lia).
    destruct (Z.ltb_spec 255 (key_pos k + 1)).
    + replace (key_pos k) with 255 by lia. done.
    + rewrite (wrap_u_small 8) by (unfold is_u; lia).
      destruct (Z.leb_spec (key_pos k + 1) (key_pos k)); [lia|]. done.
  - apply last_None in E. rewrite E. cbn. by rewrite andb_false_r.
Qed.

(** *** Storing the extension after the index was changed *)
Lemma set_details_updated w c1 c' a d' :
  same_contracts w (store c1) →
  (∀ k b, kv_get (store c1) StoreKey (contractCallbacksSecondaryIndexPrefix +:+ k) = Some b ↔
    (b ≠ a ∧ kv_get w StoreKey (contractCallbacksSecondaryIndexPrefix +:+ k) = Some b) ∨
    (b = a ∧ ∃ v, v ∈ RegisteredPrivileges d' ∧ k = entry_key v)) →
  setContractDetails a d' c1 = (Ok (), c') →
  updated w (store c') a d'.
Proof.
  intros Hsame Hidx (_ & Hix & (i & i' & _ & Hi' & Hr & _) & Ho)%SetExtension_spec. split.
  - intros b Hb. by rewrite Ho, Hsame.
  - eauto.
  - intros k b. rewrite Hix by (by eexists; right). apply Hidx.
Qed.

Lemma details_of_Some w a d :
  details_of w a = Some d → ∃ i, GetContractInfo w a = Some i ∧ ReadExtension i = Ok d.
Proof.
  unfold details_of. destruct (GetContractInfo w a) as [i|]; [|done]. cbn.
  intros Hd. exists i. split; [done|]. by destruct (ReadExtension i); simplify_eq.
Qed.

(** *** Removing registrations from the index *)
Definition remove_reg (a : AccAddress) (v : RegisteredPrivilege) : M W () :=
  _ ← removePrivilegeRegistration (ptype v) (Position v) a; mret ().

Lemma remove_reg_spec a v c :
  ∃ w' evs, remove_reg a v c = (Ok (), mkCtx w' (events c ++ evs)) ∧
    same_contracts (store c) w' ∧
    ∀ sk k, kv_get w' sk k =
      if decide (StoreKey = sk ∧ index_entry v = k)
      then None else kv_get (store c) sk k.
Proof.
  unfold remove_reg, removePrivilegeRegistration. unfold mbind, M_bind, gets.
  destruct (kv_has _ _ _) eqn:Hhas; cbn.
  - eexists _, [_]. split; [done|]. split; [by apply GetContractInfo_delete|].
    intros sk k. by rewrite kv_get_delete.
  - exists (store c), []. rewrite app_nil_r. split; [by destruct c|]. split; [done|].
    apply kv_has_false in Hhas. intros sk k. case_decide as E; [|done]. by destruct E as [<- <-].
Qed.

Lemma remove_regs_spec a vs c :
  ∃ w' evs, forM vs (remove_reg a) c = (Ok (), mkCtx w' (events c ++ evs)) ∧
    same_contracts (store c) w' ∧
    ∀ sk k, kv_get w' sk k =
      if decide (StoreKey = sk ∧ k ∈ index_entry <$> vs)
      then None else kv_get (store c) sk k.
Proof.
  revert c. induction vs as [|v vs IH]; intros c.
  { exists (store c), []. rewrite app_nil_r. split; [by destruct c|]. split; [done|].
    intros sk k. rewrite decide_False; [done|]. set_solver. }
  destruct (remove_reg_spec a v c) as (w1 & e1 & H1 & Hs1 & Hk1).
  destruct (IH (mkCtx w1 (events c ++ e1))) as (w2 & e2 & H2 & Hs2 & Hk2).
  exists w2, (e1 ++ e2). cbn [forM]. unfold mbind, M_bind. rewrite H1, H2. cbn.
  rewrite app_assoc. split; [done|]. split; [by eapply same_contracts_trans|].
  intros sk k. rewrite Hk2. cbn. rewrite Hk1. repeat case_decide; try done; set_solver.
Qed.

(** Removing the registrations [vs] of [a] from the index leaves those in [rest]. *)
Lemma remove_index w w' a d (vs rest : list RegisteredPrivilege) k b :
  priv_inv w → details_of w a = Some d →
  (∀ v, v ∈ vs ↔ v ∈ RegisteredPrivileges d ∧ v ∉ rest) → rest ⊆ RegisteredPrivileges d →
  (∀ sk k, kv_get w' sk k =
     if decide (StoreKey = sk ∧ k ∈ index_entry <$> vs) then None else kv_get w sk k) →
  kv_get w' StoreKey (contractCallbacksSecondaryIndexPrefix +:+ k) = Some b ↔
  (b ≠ a ∧ kv_get w StoreKey (contractCallbacksSecondaryIndexPrefix +:+ k) = Some b) ∨
  (b = a ∧ ∃ v, v ∈ rest ∧ k = entry_key v).
Proof.
  intros Hinv Hd Hvs Hrest Hget. rewrite Hget.
  pose proof (inv_valid w a d Hinv Hd) as Hval.
  case_decide as E.
  - split; [done|]. destruct E as [_ (v & Ek & Hv)%list_elem_of_fmap].
    assert (k = entry_key v) as -> by (by injection Ek). apply Hvs in Hv as [Hv Hnot].
    rewrite (proj2 (inv_entry_iff w a d _ Hinv Hd)) by eauto.
    intros [[? ?]|[-> (v' & Hv' & E')]]; [congruence|].
    apply entry_key_inj in E' as <-; [done|eapply valid_rp_ok..]; eauto.
  - destruct (decide (b = a)) as [->|Hb]; [|naive_solver].
    rewrite (inv_entry_iff w a d _ Hinv Hd). split.
    + intros (v & Hv & ->). right. split; [done|]. exists v. split; [|done].
      destruct (decide (v ∈ rest)) as [|Hnot]; [done|]. destruct E. split; [done|].
      apply list_elem_of_fmap. exists v. split; [done|]. by apply Hvs.
    + intros [[? ?]|[_ (v & Hv & ->)]]; [done|]. exists v. auto.
Qed.

(** *** Steps that leave the registrations alone *)
Definition same_privileges w w' : Prop :=
  same_contracts w w' ∧
  ∀ k, kv_get w' StoreKey (contractCallbacksSecondaryIndexPrefix +:+ k) =
       kv_get w StoreKey (contractCallbacksSecondaryIndexPrefix +:+ k).

Lemma same_privileges_trans w1 w2 w3 :
  same_privileges w1 w2 → same_privileges w2 w3 → same_privileges w1 w3.
Proof.
  intros [Hc1 Hk1] [Hc2 Hk2]. split; [by eapply same_contracts_trans|].
  intros k. by rewrite Hk2, Hk1.
Qed.

Lemma same_privileges_frame w w' : same_contracts w w' → same_index w w' → same_privileges w w'.
Proof. intros Hc Hi. split; [done|]. intros k. apply Hi. by eexists; right. Qed.

Lemma priv_inv_frame w w' : same_privileges w w' → priv_inv w → priv_inv w'.
Proof.
  intros [Hc Hk] Hinv.
  assert (∀ a, details_of w' a = details_of w a) as Hd by (intros; by apply details_of_same).
  assert (∀ t p, getPrivilegedContract w' t p = getPrivilegedContract w t p) as Hg
    by (intros t p; apply (Hk (bytes1 t +:+ bytes1 p))).
  split.
  - intros a i. rewrite Hc. by apply inv_details.
  - intros a d v. rewrite Hd, Hg. by apply inv_index.
  - intros k a. rewrite Hk. setoid_rewrite Hd. by apply inv_keys.
  - intros t p1 p2 a1 a2. rewrite !Hg. by apply inv_singleton.
Qed.

(** *** Flags *)
Lemma flag_frame w w' a : same_index w w' → IsPrivileged w' a = IsPrivileged w a.
Proof. intros Hs. unfold IsPrivileged, kv_has. by rewrite Hs. Qed.

Lemma index_entry_flag v a : index_entry v ≠ privilegedContractsSecondaryIndexKey a.
Proof. apply not_eq_sym, flag_key_ne_index. Qed.

(** *** Demotion *)
Lemma demote_iterate a d c :
  valid_details d →
  ∃ tl, IterateRegisteredPrivileges
    (λ privilegeType pos s,
       _ ← removePrivilegeRegistration privilegeType pos a;
       s' ← lift (RemoveRegisteredPrivilege privilegeType pos s);
       mret (false, s')) (of_list (RegisteredPrivileges d)) c =
    (forM (visited (RegisteredPrivileges d) 0) (remove_reg a) ;;
     mret (mkSlice (survivors (RegisteredPrivileges d) ++ tl)
                   (length (survivors (RegisteredPrivileges d))))) c.
Proof.
  intros Hd. destruct (iterate_all (λ t p, _ ← removePrivilegeRegistration t p a; mret ()) d c Hd)
    as [tl Htl].
  exists tl. etrans; [|exact Htl]. unfold IterateRegisteredPrivileges. apply iterate_privileges_ext.
  intros t p s c1. unfold remove_each, mbind, M_bind.
  by destruct (removePrivilegeRegistration t p a c1) as [[?|?|?] ?].
Qed.

Lemma clear_flag_spec a c :
  ∃ w', clearPrivilegedFlag a c = (Ok (), mkCtx w' (events c)) ∧ same_contracts (store c) w' ∧
    (∀ b, IsPrivileged w' b = if decide (b = a) then false else IsPrivileged (store c) b) ∧
    same_privileges (store c) w'.
Proof.
  eexists. split; [done|]. split; [by apply GetContractInfo_delete|]. split;
    [|split; [by apply GetContractInfo_delete|]].
  - intros b. unfold IsPrivileged, kv_has. rewrite kv_get_delete.
    unfold privilegedContractsSecondaryIndexKey. case_decide as E; case_decide as E'; try done.
    + destruct E' as []. destruct E as [_ E]. by apply (inj (String.append _)) in E.
    + subst. tauto.
  - intros k. apply kv_get_delete_ne, flag_key_ne_index.
Qed.

Lemma set_flag_spec a c :
  ∃ w', setPrivilegedFlag a c = (Ok (), mkCtx w' (events c)) ∧ same_contracts (store c) w' ∧
    (∀ b, IsPrivileged w' b = if decide (b = a) then true else IsPrivileged (store c) b) ∧
    same_privileges (store c) w'.
Proof.
  eexists. split; [done|]. split; [by apply GetContractInfo_set|]. split;
    [|split; [by apply GetContractInfo_set|]].
  - intros b. unfold IsPrivileged, kv_has. rewrite kv_get_set.
    unfold privilegedContractsSecondaryIndexKey. case_decide as E; case_decide as E'; try done.
    + destruct E' as []. destruct E as [_ E]. by apply (inj (String.append _)) in E.
    + subst. tauto.
  - intros k. apply kv_get_set_ne, flag_key_ne_index.
Qed.

Lemma demote_steps a c c' i d :
  GetContractInfo (store c) a = Some i → ReadExtension i = Ok d → valid_details d →
  demote a c = (Ok (), c') →
  ∃ c1 c2 c3 c4,
    same_index (store c) (store c1) ∧ same_contracts (store c) (store c1) ∧
    clearPrivilegedFlag a c1 = (Ok (), c2) ∧
    forM (visited (RegisteredPrivileges d) 0) (remove_reg a) c2 = (Ok (), c3) ∧
    setContractDetails a (mkDetails (survivors (RegisteredPrivileges d))) c3 = (Ok (), c4) ∧
    store c' = store c4.
Proof.
  intros Hi Hr Hval Hrun. unfold demote in Hrun.
  unfold mbind at 1, M_bind at 1, gets in Hrun. rewrite Hi in Hrun.
  unfold mbind at 1, M_bind at 1, gets in Hrun.
  apply M_bind_ok in Hrun as ([] & c1 & Hunpin & Hrun).
  apply M_bind_ok in Hrun as ([] & c2 & Hflag & Hrun).
  apply M_bind_ok in Hrun as (d' & c2' & [Hr' ->]%lift_ok & Hrun).
  assert (d' = d) as -> by congruence.
  apply M_bind_ok in Hrun as (s & c3 & Hit & Hrun).
  apply M_bind_ok in Hrun as ([] & c4 & Hset & [= <-]).
  destruct (demote_iterate a d c2 Hval) as [tl Htl]. rewrite Htl in Hit.
  apply M_bind_ok in Hit as ([] & c3' & Hfor & [= <- <-]).
  unfold view in Hset. cbn in Hset. rewrite take_app_length in Hset.
  apply wrapM_ok in Hset. exists c1, c2, c3', c4.
  assert (same_index (store c) (store c1) ∧ same_contracts (store c) (store c1)) as [? ?];
    [|by split_and!].
  case_match; [by apply wrapM_ok, UnpinCode_frame in Hunpin|].
  by injection Hunpin as <-.
Qed.

(** What a demotion does to the store, once the contract was called. *)
Lemma demote_spec a c c' d :
  priv_inv (store c) → details_of (store c) a = Some d → demote a c = (Ok (), c') →
  updated (store c) (store c') a (mkDetails (survivors (RegisteredPrivileges d))) ∧
  ∀ b, IsPrivileged (store c') b = if decide (b = a) then false else IsPrivileged (store c) b.
Proof.
  intros Hinv Hd Hrun. destruct (details_of_Some _ _ _ Hd) as (i & Hi & Hr).
  pose proof (inv_valid _ _ _ Hinv Hd) as Hval.
  destruct (demote_steps a c c' i d) as (c1 & c2 & c3 & c4 & Hx1 & Hc1 & Hf & Hfor & Hset & ->);
    [done..|].
  destruct (clear_flag_spec a c1) as (w2 & Hf' & Hc2 & Hflag2 & Hx2). rewrite Hf' in Hf. injection Hf as <-.
  destruct (remove_regs_spec a (visited (RegisteredPrivileges d) 0) (mkCtx w2 (events c1)))
    as (w3 & evs & Hfor' & Hc3 & Hx3). rewrite Hfor' in Hfor. injection Hfor as <-. cbn in *.
  split.
  - eapply (set_details_updated _ (mkCtx w3 _)); [|cbn|done].
    { by eapply same_contracts_trans, same_contracts_trans. }
    assert (same_privileges (store c) w2) as Hp2
      by (by eapply same_privileges_trans; [by apply same_privileges_frame|]).
    intros k b. rewrite <-(proj2 Hp2 k).
    apply (remove_index w2 w3 a d (visited (RegisteredPrivileges d) 0)); [..|done].
    + by eapply priv_inv_frame.
    + rewrite <-Hd. apply details_of_same, Hp2.
    + intros v. by apply visited_elem, valid_details_nodup.
    + intros v Hv. eapply sublist_elem; [apply survivors_sublist|done].
  - intros b. apply SetExtension_spec in Hset as (_ & Hx4 & _). rewrite (flag_frame _ _ _ Hx4). cbn.
    rewrite <-(flag_frame (store c) (store c1)) by done. rewrite <-Hflag2.
    unfold IsPrivileged, kv_has. rewrite Hx3, decide_False; [done|].
    intros [_ (v & E & _)%list_elem_of_fmap]. symmetry in E. by apply index_entry_flag in E.
Qed.

Lemma demote_inv a c c' :
  priv_inv (store c) → demote a c = (Ok (), c') → priv_inv (store c').
Proof.
  intros Hinv Hrun. destruct (GetContractInfo (store c) a) as [i|] eqn:Hi; cycle 1.
  { unfold demote, mbind, M_bind, gets in Hrun. by rewrite Hi in Hrun. }
  destruct (inv_details _ Hinv a i Hi) as (d & Hr & Hval).
  assert (details_of (store c) a = Some d) as Hd by (unfold details_of; rewrite Hi; cbn; by rewrite Hr).
  destruct (demote_spec a c c' d Hinv Hd Hrun) as [Hupd _].
  eapply priv_inv_update; [done|done| |done|].
  - destruct d as [l]. eapply valid_sublist; [apply survivors_sublist|done].
  - intros v p b Hv Hnot. destruct Hnot. eapply sublist_elem; [apply survivors_sublist|done].
Qed.

Lemma promote_frame a c c' :
  promote a c = (Ok (), c') →
  same_privileges (store c) (store c') ∧ is_Some (GetContractInfo (store c) a) ∧
  ∀ b, IsPrivileged (store c') b = if decide (b = a) then true else IsPrivileged (store c) b.
Proof.
  unfold promote. unfold mbind at 1, M_bind at 1, gets.
  destruct (GetContractInfo (store c) a) as [i|] eqn:Hi; [|done].
  intros ([] & c1 & [Hx Hc]%wrapM_ok%PinCode_frame & Hflag)%M_bind_ok.
  destruct (set_flag_spec a c1) as (w2 & Hf & _ & Hflag2 & Hp2). rewrite Hf in Hflag.
  injection Hflag as <-. cbn. split; [|split; [done|]].
  - by eapply same_privileges_trans; [by apply same_privileges_frame|].
  - intros b. rewrite Hflag2. by rewrite (flag_frame _ _ _ Hx).
Qed.

(** *** How a queue changes *)
Lemma queue_ext w w' t :
  priv_inv w → priv_inv w' → is_u 8 t →
  (∀ q, is_u 8 q → getPrivilegedContract w' t q = getPrivilegedContract w t q) →
  queue w' t = queue w t.
Proof.
  intros Hinv Hinv' Ht Hg. apply (StronglySorted_strict_ext pos_lt); [by apply queue_sorted..|].
  intros [q b]. rewrite !queue_elem by done. split; intros [? Hq]; split; try done;
    by rewrite <-Hq, Hg by (unfold is_u; lia).
Qed.

Lemma queue_append w w' t p a :
  priv_inv w → priv_inv w' → is_u 8 t → p = next_pos w t → 1 ≤ p ≤ 255 →
  (∀ q, is_u 8 q →
     getPrivilegedContract w' t q = if decide (q = p) then Some a else getPrivilegedContract w t q) →
  queue w' t = queue w t ++ [(p, a)].
Proof.
  intros Hinv Hinv' Ht Hp Hr Hg.
  apply (StronglySorted_strict_ext pos_lt); [by apply queue_sorted|..].
  - apply StronglySorted_snoc; [by apply queue_sorted|]. apply Forall_forall. intros [q b] Hin.
    unfold pos_lt. cbn. rewrite Hp. by eapply queue_last_max.
  - intros [q b]. rewrite elem_of_app, list_elem_of_singleton, !queue_elem by done.
    split.
    + intros [Hq Hget]. rewrite Hg in Hget by (unfold is_u; lia). case_decide; [right|left]; naive_solver.
    + intros [[Hq Hget]|[= -> ->]]; (split; [done|]); rewrite Hg by (unfold is_u; lia).
      * case_decide; [|done]. subst q. assert ((p, b) ∈ queue w t) as Hin by (by apply queue_elem).
        apply queue_last_max in Hin; [|done..]. lia.
      * by rewrite decide_True.
Qed.

(** *** Registration of one type *)
Lemma next_pos_fresh w t b :
  priv_inv w → is_u 8 t → next_pos w t ≤ 255 → getPrivilegedContract w t (next_pos w t) ≠ Some b.
Proof.
  intros Hinv Ht Hle Hget. pose proof (next_pos_range w t Hinv Ht).
  assert ((next_pos w t, b) ∈ queue w t) as Hin by (apply queue_elem; [done..|split; [lia|done]]).
  apply queue_last_max in Hin; [lia|done..].
Qed.

Lemma append_ok t a c p c1 :
  priv_inv (store c) → is_u 8 t → appendToPrivilegedContracts t a c = (Ok p, c1) →
  p = next_pos (store c) t ∧ 1 ≤ p ≤ 255 ∧ (IsSingleton t = true → queue (store c) t = []) ∧
  store c1 = kv_set StoreKey (contractPrivilegesSecondaryIndexKey t p) a (store c).
Proof.
  intros Hinv Ht Hrun. rewrite append_spec in Hrun by done.
  pose proof (next_pos_range _ t Hinv Ht).
  destruct (IsSingleton t), (bool_decide_reflect (queue (store c) t = [])); cbn in Hrun; try done;
    destruct (Z.ltb_spec 255 (next_pos (store c) t)); simplify_eq/=; split_and!; (done || lia).
Qed.

Lemma register_index w a d t p k b :
  priv_inv w → details_of w a = Some d → known t → 1 ≤ p ≤ 255 →
  (∀ b, getPrivilegedContract w t p ≠ Some b) →
  kv_get (kv_set StoreKey (contractPrivilegesSecondaryIndexKey t p) a w) StoreKey
    (contractCallbacksSecondaryIndexPrefix +:+ k) = Some b ↔
  (b ≠ a ∧ kv_get w StoreKey (contractCallbacksSecondaryIndexPrefix +:+ k) = Some b) ∨
  (b = a ∧ ∃ v, v ∈ RegisteredPrivileges (AddRegisteredPrivilege t p d) ∧ k = entry_key v).
Proof.
  intros Hinv Hd Ht Hp Hfresh. rewrite Add_spec by done.
  setoid_rewrite elem_of_app. setoid_rewrite list_elem_of_singleton.
  destruct (decide (k = bytes1 t +:+ bytes1 p)) as [->|Hk].
  - rewrite kv_get_set_eq. split.
    + intros [= ->]. right. split; [done|]. exists (mkRP p (PrivilegeType_String t)).
      by rewrite entry_key_mk; auto.
    + intros [[_ Hget]|[-> _]]; [by destruct (Hfresh b)|done].
  - rewrite kv_get_set_ne by (intros E; apply Hk; by injection E).
    destruct (decide (b = a)) as [->|Hb]; [|naive_solver].
    rewrite (inv_entry_iff w a d) by done. split.
    + intros (v & Hv & ->). right. eauto 10.
    + intros [[? _]|[_ (v & [Hv| ->] & ->)]]; [done|by eauto|].
      by rewrite entry_key_mk in Hk.
Qed.

Lemma register_spec a c c1 c' d t p :
  priv_inv (store c) → details_of (store c) a = Some d → known t →
  t ∉ ptype <$> RegisteredPrivileges d →
  appendToPrivilegedContracts t a c = (Ok p, c1) →
  setContractDetails a (AddRegisteredPrivilege t p d) c1 = (Ok (), c') →
  updated (store c) (store c') a (AddRegisteredPrivilege t p d) ∧
  priv_inv (store c') ∧ queue (store c') t = queue (store c) t ++ [(p, a)].
Proof.
  intros Hinv Hd Ht Hnot Happ Hset. pose proof (known_byte t Ht) as Hbyte.
  destruct (append_ok t a c p c1) as (Hp & Hr & Hsing & Hst); [done..|].
  pose proof (inv_valid _ _ _ Hinv Hd) as Hval.
  assert (∀ b, getPrivilegedContract (store c) t p ≠ Some b) as Hfresh.
  { intros b. rewrite Hp. apply next_pos_fresh; [done..|lia]. }
  assert (updated (store c) (store c') a (AddRegisteredPrivilege t p d)) as Hupd.
  { eapply set_details_updated; [|intros k b|done]; rewrite Hst.
    - by apply GetContractInfo_set.
    - by apply register_index. }
  assert (priv_inv (store c')) as Hinv'.
  { eapply priv_inv_update; [done|done|by apply Add_valid|done|].
    intros v q b Hv Hnew. rewrite Add_spec in Hv by done.
    apply elem_of_app in Hv as [Hv| ->%list_elem_of_singleton]; [done|].
    rewrite ptype_mk by done. intros Hs Hq Hget. pose proof (Hsing Hs) as Hnil.
    assert ((q, b) ∈ queue (store c) t) as Hin.
    { destruct (inv_get _ _ _ _ Hinv Hbyte Hq Hget) as (_ & ? & _). by apply queue_elem. }
    rewrite Hnil in Hin. by apply not_elem_of_nil in Hin. }
  split_and!; [done|done|]. apply queue_append; [done..|]. intros q Hq.
  apply SetExtension_spec in Hset as (_ & Hx & _). unfold getPrivilegedContract.
  rewrite Hx, Hst by done. rewrite kv_get_set.
  case_decide as E; case_decide as E'; try done.
  - destruct E as [_ E]. apply privilege_key_inj in E as [_ ?]; [congruence|unfold is_u in *; lia..].
  - subst q. tauto.
Qed.

(** *** Removal of registrations *)
Lemma upd_get_iff w w' a d' t p b :
  updated w w' a d' → valid_details d' → known t → is_u 8 p →
  getPrivilegedContract w' t p = Some b ↔
  (b ≠ a ∧ getPrivilegedContract w t p = Some b) ∨
  (b = a ∧ mkRP p (PrivilegeType_String t) ∈ RegisteredPrivileges d').
Proof.
  intros Hupd Hval Ht Hp. rewrite (upd_index _ _ _ _ Hupd (bytes1 t +:+ bytes1 p) b).
  apply or_iff_compat_l, and_iff_compat_l. rewrite <-entry_key_mk by done. split; [|by eauto].
  intros (v & Hv & E). pose proof (valid_rp_ok _ _ Hval Hv) as Hok.
  assert (Position v = p) as <-.
  { injection E as _ E. apply byte_of_inj in E; [by symmetry|done|]. destruct Hok. unfold is_u. lia. }
  assert (ptype v = t) as <-.
  { rewrite entry_key_mk in E by done. injection E as E. symmetry.
    by apply byte_of_inj in E; [|by apply known_byte|by apply known_byte, rp_ok_known]. }
  rewrite <-rp_ok_name by done. by destruct v.
Qed.

(** When registrations of [a] only go away, every queue loses the entries of
    [a] that went and keeps the order of the others. *)
Lemma queue_remove w w' a d d' t :
  priv_inv w → priv_inv w' → details_of w a = Some d → updated w w' a d' →
  valid_details d' → RegisteredPrivileges d' ⊆ RegisteredPrivileges d → known t →
  queue w' t =
  filter (λ e, e.2 = a → mkRP e.1 (PrivilegeType_String t) ∈ RegisteredPrivileges d') (queue w t).
Proof.
  intros Hinv Hinv' Hd Hupd Hval Hsub Ht. pose proof (known_byte t Ht) as Hb.
  apply (StronglySorted_strict_ext pos_lt); [by apply queue_sorted|..].
  - apply StronglySorted_filter. by apply queue_sorted.
  - intros [p b]. rewrite list_elem_of_filter, !queue_elem by done. cbn. split.
    + intros [Hp Hget]. apply (upd_get_iff w w' a d') in Hget; [|done..|unfold is_u; lia].
      destruct Hget as [[Hne Hget]|[-> Hin]]; [naive_solver|]. split; [done|]. split; [done|].
      apply (inv_entry_iff w a d (bytes1 t +:+ bytes1 p)); [done..|].
      exists (mkRP p (PrivilegeType_String t)). rewrite entry_key_mk by done. auto.
    + intros (Himp & Hp & Hget). split; [done|].
      apply (upd_get_iff w w' a d'); [done..|unfold is_u; lia|].
      destruct (decide (b = a)); [right|left]; auto.
Qed.
End effects.
