(* ===== verification/TwasmHandler.v ===== *)
(** The handlers of x/twasm: custom messages of contracts
    (x/twasm/keeper/handler_plugin.go) and governance proposals
    (x/twasm/keeper/proposal_handler.go, x/twasm/types/proposal.go). *)
From stdpp Require Import base list strings gmap sets sorting.
From Stdlib Require Import ZArith Lia.
From S2P Require Import Prelude Sdk RefStore Slice Json Privilege TwasmMsgs Wasm TwasmKeeper.
Open Scope Z_scope.

Definition ModuleName : string := "wasm".
Definition BondedPoolName : string := "bonded_tokens_pool".

Definition ErrUnauthorized : error := new_err "sdk/unauthorized".
Definition ErrUnknownRequest : error := new_err "sdk/unknown request".
Definition ErrInvalidAddress : error := new_err "sdk/invalid address".
Definition ErrNoProposalHandlerExists : error := new_err "gov/no handler exists for proposal type".
Definition ErrInvalidProposalContent : error := new_err "gov/invalid proposal content".

Definition EventTypeMintTokens : string := "mint".
Definition EventTypeDelegateTokens : string := "delegate".
Definition EventTypeUndelegateTokens : string := "undelegate".
Definition AttributeKeyRecipient : string := "recipient".
Definition AttributeKeySender : string := "sender".
Definition AttributeKeyAmount : string := "amount".

(** ** Other modules *)

(** The bank keeper. *)
Class BankKeeper (W : Type) := {
  MintCoins : string → list Coin → M W ();
  SendCoinsFromModuleToAccount : string → AccAddress → list Coin → M W ();
  SendCoinsFromAccountToModule : AccAddress → string → list Coin → M W ();
  DelegateCoinsFromAccountToModule : AccAddress → string → list Coin → M W ();
  UndelegateCoinsFromModuleToAccount : string → AccAddress → list Coin → M W ();
}.

(** Tendermint's consensus parameters; [CP_rest] are the groups not touched here. *)
Record AbciBlockParams := mkAbciBlock { AB_MaxBytes : Z; AB_MaxGas : Z }.
Record AbciEvidenceParams := mkAbciEvidence {
  AE_MaxAgeNumBlocks : Z; AE_MaxAgeDuration : Z; AE_MaxBytes : Z }.
Record ConsensusParams := mkConsensusParams {
  CP_Block : option AbciBlockParams; CP_Evidence : option AbciEvidenceParams; CP_rest : bytes }.

(** [ConsensusParamsUpdater], baseapp. *)
Class ConsensusParamsUpdater (W : Type) := {
  GetConsensusParams : W → option ConsensusParams;
  StoreConsensusParams : option ConsensusParams → M W ();
}.

(** A governance handler and the governance router. [GetRoute] may panic. *)
Abbreviation GovHandler W := (Content → M W ()).
Record Router (W : Type) := mkRouter {
  HasRoute : string → bool;
  GetRoute : string → outcome (GovHandler W);
  AddRoute : string → GovHandler W → outcome ();
  Seal : outcome () }.
Arguments mkRouter {W} HasRoute GetRoute AddRoute Seal.
Arguments HasRoute {W} r.
Arguments GetRoute {W} r.
Arguments AddRoute {W} r.
Arguments Seal {W} r.

(** The content types of other packages and the limits of the gov module. *)
Class GovTypes := {
  MaxTitleLength : Z;
  MaxDescriptionLength : Z;
  foreign_ValidateBasic : Content → outcome ();
  foreign_ProposalRoute : Content → string;
  (** [wasmkeeper.ConvertWasmCoinsToSdkCoins] *)
  ConvertWasmCoinsToSdkCoins : list WasmCoin → outcome (list Coin);
}.

(** [paramproposal.RouterKey] and [baseapp.Paramspace] *)
Definition params_RouterKey : string := "params".
Definition baseapp_Paramspace : string := "baseapp".

(** ** strings.TrimSpace *)

(** The UTF-8 encodings of the white space characters. *)
Definition bytes_of (l : list Z) : bytes := foldr (λ z s, String (byte_of z) s) "" l.
Definition white_spaces : list bytes :=
  bytes_of <$>
    [[9]; [10]; [11]; [12]; [13]; [32]; [194; 133]; [194; 160]; [225; 154; 128];
     [226; 128; 128]; [226; 128; 129]; [226; 128; 130]; [226; 128; 131]; [226; 128; 132];
     [226; 128; 133]; [226; 128; 134]; [226; 128; 135]; [226; 128; 136]; [226; 128; 137];
     [226; 128; 138]; [226; 128; 168]; [226; 128; 169]; [226; 128; 175]; [226; 129; 159];
     [227; 128; 128]].

Fixpoint strip_any (ws : list bytes) (s : bytes) : option bytes :=
  match ws with
  | [] => None
  | w :: ws' => match strip_prefix w s with Some r => Some r | None => strip_any ws' s end
  end.

Fixpoint trim_left (fuel : nat) (ws : list bytes) (s : bytes) : bytes :=
  match fuel with
  | O => s
  | S n => match strip_any ws s with Some r => trim_left n ws r | None => s end
  end.

Fixpoint str_rev_app (s acc : bytes) : bytes :=
  match s with "" => acc | String a s' => str_rev_app s' (String a acc) end.
Definition str_rev (s : bytes) : bytes := str_rev_app s "".
Definition TrimSpace (s : bytes) : bytes :=
  let l := trim_left (String.length s) white_spaces s in
  str_rev (trim_left (String.length l) (str_rev <$> white_spaces) (str_rev l)).

(** ** Proposals of this module *)
Section proposal_types.
Context `{Bech32, GovTypes}.

Definition validateProposalCommons (title description : string) : outcome () :=
  check (bool_decide (TrimSpace title ≠ title))
    (Wrap ErrInvalidProposalContent "proposal title must not start/end with white spaces") ;;
  check (String.length title =? 0)%nat
    (Wrap ErrInvalidProposalContent "proposal title cannot be blank") ;;
  check (MaxTitleLength <? Z.of_nat (String.length title))
    (Wrap ErrInvalidProposalContent "proposal title is longer than max length of %d") ;;
  check (bool_decide (TrimSpace description ≠ description))
    (Wrap ErrInvalidProposalContent "proposal description must not start/end with white spaces") ;;
  check (String.length description =? 0)%nat
    (Wrap ErrInvalidProposalContent "proposal description cannot be blank") ;;
  check (MaxDescriptionLength <? Z.of_nat (String.length description))
    (Wrap ErrInvalidProposalContent "proposal description is longer than max length of %d").

Definition PromoteProposal_ValidateBasic (p : Titled string) : outcome () :=
  validateProposalCommons (Title p) (Description p) ;;
  _ ← wrap "contract" (AccAddressFromBech32 (payload p));
  Ok ().

Definition DemoteProposal_ValidateBasic (p : Titled string) : outcome () :=
  validateProposalCommons (Title p) (Description p) ;;
  _ ← wrap "contract" (AccAddressFromBech32 (payload p));
  Ok ().

(** [content.ValidateBasic()] and [content.ProposalRoute()], by dynamic type *)
Definition Content_ValidateBasic (c : Content) : outcome () :=
  match c with
  | CPromote p => PromoteProposal_ValidateBasic p
  | CDemote p => DemoteProposal_ValidateBasic p
  | _ => foreign_ValidateBasic c
  end.

Definition ProposalRoute (c : Content) : string :=
  match c with
  | CPromote _ | CDemote _ => RouterKey
  | _ => foreign_ProposalRoute c
  end.
End proposal_types.

(** ** The proposal handler *)
Section proposal_handler.
Context `{KVStore W, WasmKeeper W, WasmVM W, Bech32, GovTypes}.

Definition handlePromoteContractProposal (p : Titled string) : M W () :=
  lift (PromoteProposal_ValidateBasic p) ;;
  contractAddr ← lift (wrap "contract address" (AccAddressFromBech32 (payload p)));
  SetPrivileged contractAddr.

Definition handleDemoteContractProposal (p : Titled string) : M W () :=
  lift (DemoteProposal_ValidateBasic p) ;;
  contractAddr ← lift (wrap "contract address" (AccAddressFromBech32 (payload p)));
  UnsetPrivileged contractAddr.

(** The nested handler is wasmd's; a nil content is [None]. *)
Definition NewProposalHandlerX (wasmProposalHandler : option Content → M W ())
    (content : option Content) : M W () :=
  r ← try (wasmProposalHandler content);
  match r with
  | inl _ => mret ()
  | inr err =>
      if negb (ErrIs ErrUnknownRequest err) then fail_with err
      else match content with
      | None => fail_with (Wrap ErrUnknownRequest "content must not be empty")
      | Some (CPromote c) => handlePromoteContractProposal c
      | Some (CDemote c) => handleDemoteContractProposal c
      | Some _ => fail_with (Wrap ErrUnknownRequest "unrecognized twasm srcProposal content type: %T")
      end
  end.
End proposal_handler.

(** ** The router that protects the consensus parameters *)
Section router.
Context {W : Type}.

Definition restrictParamsDecorator (nested : Router W) : Router W :=
  {| HasRoute r := HasRoute nested r;
     GetRoute path :=
       r ← GetRoute nested path;
       if decide (path = params_RouterKey) then
         Ok (λ content,
           match content with
           | CParameterChange p =>
               if existsb (λ c, Subspace c =? baseapp_Paramspace)%string (payload p)
               then fail_with (Wrap ErrUnauthorized "base params can not be modified via params proposal")
               else r content
           | _ => r content
           end)
       else Ok r;
     AddRoute _ _ := Panic "not supported";
     Seal := Panic "not supported" |}.
End router.

(** ** Custom messages *)
Definition mergeConsensusParamsUpdate (src : option ConsensusParams) (delta : ConsensusParamsUpdate) :
    outcome (option ConsensusParams) :=
  src1 ←
    match CPU_Block delta with
    | None => Ok src
    | Some b =>
        s ← match BP_MaxBytes b with
            | None => Ok src
            | Some v =>
                match src with
                | Some (mkConsensusParams (Some blk) e r) =>
                    Ok (Some (mkConsensusParams (Some (mkAbciBlock v (AB_MaxGas blk))) e r))
                | _ => Panic "nil pointer dereference"
                end
            end;
        match BP_MaxGas b with
        | None => Ok s
        | Some v =>
            match s with
            | Some (mkConsensusParams (Some blk) e r) =>
                Ok (Some (mkConsensusParams (Some (mkAbciBlock (AB_MaxBytes blk) v)) e r))
            | _ => Panic "nil pointer dereference"
            end
        end
    end;
  match CPU_Evidence delta with
  | None => Ok src1
  | Some ev =>
      let set (f : AbciEvidenceParams → AbciEvidenceParams) (s : option ConsensusParams) :=
        match s with
        | Some (mkConsensusParams b (Some e) r) => Ok (Some (mkConsensusParams b (Some (f e)) r))
        | _ => Panic "nil pointer dereference"
        end in
      s1 ← match EP_MaxAgeNumBlocks ev with
           | None => Ok src1
           | Some v => set (λ e, mkAbciEvidence v (AE_MaxAgeDuration e) (AE_MaxBytes e)) src1
           end;
      s2 ← match EP_MaxAgeDuration ev with
           | None => Ok s1
           | Some v => set (λ e, mkAbciEvidence (AE_MaxAgeNumBlocks e) (int64 (v * 1000000000))
                                   (AE_MaxBytes e)) s1
           end;
      match EP_MaxBytes ev with
      | None => Ok s2
      | Some v => set (λ e, mkAbciEvidence (AE_MaxAgeNumBlocks e) (AE_MaxAgeDuration e) v) s2
      end
  end.

Section handler.
Context `{KVStore W, WasmKeeper W, Bech32, SdkCoins, ForeignDecoders, GovTypes,
          BankKeeper W, ConsensusParamsUpdater W}.

Definition assertHasPrivilege (contractAddr : AccAddress) (requiredPrivilege : Z) : M W () :=
  info ← gets (λ w, GetContractInfo w contractAddr);
  match info with
  | None => fail_with (Wrap ErrNotFound "contract info")
  | Some contractInfo =>
      details ← lift (ReadExtension contractInfo);
      lift (check (negb (HasRegisteredPrivilege requiredPrivilege details))
              (Wrap ErrUnauthorized "requires: %s"))
  end.

(** The closures of [handlePrivilege]. *)
Definition register (contractAddr : AccAddress) (details : PetriContractDetails) (c : Z) : M W () :=
  if HasRegisteredPrivilege c details then mret ()
  else
    pos ← wrapM "privilege registration" (appendToPrivilegedContracts c contractAddr);
    wrapM "store details" (setContractDetails contractAddr (AddRegisteredPrivilege c pos details)).

Definition unregister (contractAddr : AccAddress) (details : PetriContractDetails) (tp : Z) : M W () :=
  if negb (HasRegisteredPrivilege tp details) then mret ()
  else
    remaining ← IterateRegisteredPrivileges
      (λ c pos s,
         if negb (c =? tp) then mret (false, s)
         else
           _ ← removePrivilegeRegistration c pos contractAddr;
           s' ← lift (RemoveRegisteredPrivilege c pos s);
           mret (false, s'))
      (of_list (RegisteredPrivileges details));
    wrapM "store details" (setContractDetails contractAddr (mkDetails (view remaining))).

Definition handlePrivilege (contractAddr : AccAddress) (msg : PrivilegeMsg) : M W () :=
  info ← gets (λ w, GetContractInfo w contractAddr);
  match info with
  | None => fail_with (Wrap ErrNotFound "contract info")
  | Some contractInfo =>
      details ← lift (ReadExtension contractInfo);
      if negb (Release msg =? PrivilegeTypeEmpty) then unregister contractAddr details (Release msg)
      else if negb (Request msg =? PrivilegeTypeEmpty) then register contractAddr details (Request msg)
      else fail_with ErrUnknownMsg
  end.

Definition handleGovProposalExecution (govRouter : Router W) (contractAddr : AccAddress)
    (exec : ExecuteGovProposal) : M W () :=
  assertHasPrivilege contractAddr PrivilegeTypeGovProposalExecutor ;;
  match GetProposalContent AccAddress_String exec contractAddr with
  | None => fail_with (Wrap ErrUnknownMsg "unsupported content type")
  | Some content =>
      lift (wrap "content" (Content_ValidateBasic content)) ;;
      lift (check (negb (HasRoute govRouter (ProposalRoute content)))
              (Wrap ErrNoProposalHandlerExists (ProposalRoute content))) ;;
      govHandler ← lift (GetRoute govRouter (ProposalRoute content));
      govHandler content
  end.

Definition handleMintToken (contractAddr : AccAddress) (mint : MintTokens) : M W (list Event) :=
  assertHasPrivilege contractAddr PrivilegeTypeTokenMinter ;;
  match AccAddressFromBech32 (Mint_RecipientAddr mint) with
  | Err _ => fail_with (Wrap ErrInvalidAddress "recipient")
  | Panic p => panic p
  | Ok recipient =>
      match NewIntFromString (Mint_Amount mint) with
      | None => fail_with (Wrap ErrInvalidCoins (Mint_Amount mint +:+ Mint_Denom mint))
      | Some amount =>
          let token := mkCoin (Mint_Denom mint) amount in
          match Coin_Validate token with
          | Err _ => fail_with (Wrap ErrInvalidCoins "mint tokens handler")
          | Panic p => panic p
          | Ok _ =>
              coins ← lift (NewCoins [token]);
              wrapM "mint" (MintCoins ModuleName coins) ;;
              wrapM "send to recipient" (SendCoinsFromModuleToAccount ModuleName recipient coins) ;;
              mret [NewEvent EventTypeMintTokens
                      [(AttributeKeyContractAddr, AccAddress_String contractAddr);
                       (AttributeKeyAmount, Coin_String token);
                       (AttributeKeyRecipient, Mint_RecipientAddr mint)]]
          end
      end
  end.

Definition handleConsensusParamsUpdate (contractAddr : AccAddress) (pUpdate : ConsensusParamsUpdate) :
    M W (list Event) :=
  assertHasPrivilege contractAddr PrivilegeConsensusParamChanger ;;
  lift (ConsensusParamsUpdate_ValidateBasic pUpdate) ;;
  params ← gets GetConsensusParams;
  merged ← lift (mergeConsensusParamsUpdate params pUpdate);
  StoreConsensusParams merged ;;
  mret [].

Definition handleDelegate (contractAddr : AccAddress) (delegate : Delegate) : M W (list Event) :=
  assertHasPrivilege contractAddr PrivilegeDelegator ;;
  match AccAddressFromBech32 (StakerAddr delegate) with
  | Err _ => fail_with (Wrap ErrInvalidAddress "fromAddr")
  | Panic p => panic p
  | Ok fromAddr =>
      amt ← lift (as_json_error (ConvertWasmCoinsToSdkCoins [Delegate_Funds delegate]));
      wrapM "delegate" (DelegateCoinsFromAccountToModule fromAddr BondedPoolName amt) ;;
      wrapM "module to contract" (SendCoinsFromModuleToAccount BondedPoolName contractAddr amt) ;;
      mret [NewEvent EventTypeDelegateTokens
              [(AttributeKeyContractAddr, AccAddress_String contractAddr);
               (AttributeKeyAmount, Coins_String amt);
               (AttributeKeySender, StakerAddr delegate)]]
  end.

Definition handleUndelegate (contractAddr : AccAddress) (undelegate : Undelegate) : M W (list Event) :=
  assertHasPrivilege contractAddr PrivilegeDelegator ;;
  match AccAddressFromBech32 (Undelegate_RecipientAddr undelegate) with
  | Err _ => fail_with (Wrap ErrInvalidAddress "recipient")
  | Panic p => panic p
  | Ok recipient =>
      amt ← lift (as_json_error (ConvertWasmCoinsToSdkCoins [Undelegate_Funds undelegate]));
      wrapM "contract to module" (SendCoinsFromAccountToModule contractAddr BondedPoolName amt) ;;
      wrapM "undelegate" (UndelegateCoinsFromModuleToAccount BondedPoolName recipient amt) ;;
      mret [NewEvent EventTypeUndelegateTokens
              [(AttributeKeyContractAddr, AccAddress_String contractAddr);
               (AttributeKeyAmount, Coins_String amt);
               (AttributeKeyRecipient, Undelegate_RecipientAddr undelegate)]]
  end.

(** A handler under [ctx.WithEventManager(em)]: its own events, then those of [em]. *)
Definition with_em (m : M W (list Event)) : M W (list Event) := λ c,
  let '(o, evs, c') := with_fresh_events m c in
  (evts ← o; Ok (evts ++ evs), c').

Definition dispatch (govRouter : Router W) (contractAddr : AccAddress) (tMsg : PetriMsg) :
    M W (list Event) :=
  match PM_Privilege tMsg with
  | Some m => handlePrivilege contractAddr m ;; mret []
  | None =>
  match PM_ExecuteGovProposal tMsg with
  | Some m => handleGovProposalExecution govRouter contractAddr m ;; mret []
  | None =>
  match PM_MintTokens tMsg with
  | Some m => handleMintToken contractAddr m
  | None =>
  match PM_ConsensusParams tMsg with
  | Some m => handleConsensusParamsUpdate contractAddr m
  | None =>
  match PM_Delegate tMsg with
  | Some m => handleDelegate contractAddr m
  | None =>
  match PM_Undelegate tMsg with
  | Some m => handleUndelegate contractAddr m
  | None => fail_with (Wrap ErrUnknownMsg "unknown type: %T")
  end end end end end end.

(** [NewPetriHandler] keeps the router behind the decorator. *)
Definition DispatchMsg (govRouter : Router W) (contractAddr : AccAddress) (custom : json_bytes) :
    M W (list Event) :=
  match custom with
  | JNil => fail_with ErrUnknownMsg
  | _ =>
      privileged ← gets (λ w, IsPrivileged w contractAddr);
      if negb privileged then fail_with ErrUnknownMsg
      else with_em (
        match UnmarshalWithAny custom with
        | Err _ => fail_with ErrJSONUnmarshal
        | Panic p => panic p
        | Ok tMsg => dispatch (restrictParamsDecorator govRouter) contractAddr tMsg
        end)
  end.
End handler.

(** ** What the privilege messages do *)
Section privilege_lemmas.
Context `{!KVStore W, !KVLaws W, !WasmKeeper W, !WasmLaws W, !Bech32}.
Implicit Types w : W.

Lemma register_ok a d t c c' :
  priv_inv (store c) → details_of (store c) a = Some d → register a d t c = (Ok (), c') →
  (HasRegisteredPrivilege t d = true ∧ c' = c) ∨
  (HasRegisteredPrivilege t d = false ∧ known t ∧
   ∃ p, p = next_pos (store c) t ∧ 1 ≤ p ≤ 255 ∧
     updated (store c) (store c') a (AddRegisteredPrivilege t p d) ∧
     priv_inv (store c') ∧ queue (store c') t = queue (store c) t ++ [(p, a)]).
Proof.
  intros Hinv Hd Hrun. unfold register in Hrun.
  destruct (HasRegisteredPrivilege t d) eqn:Hhas; [by injection Hrun as <-; left|].
  right. split; [done|].
  apply M_bind_ok in Hrun as (p & c1 & Happ%wrapM_ok & Hset%wrapM_ok).
  pose proof (inv_valid _ _ _ Hinv Hd) as Hval.
  assert (known t) as Ht.
  { apply SetExtension_spec in Hset as [Hv _]. by apply Add_known in Hv. }
  split; [done|]. exists p.
  destruct (append_ok t a c p c1) as (Hp & Hr & _); [done|by apply known_byte|done|].
  split; [done|]. split; [done|]. eapply register_spec; [done..| |done|done].
  intros Hin. apply (Has_valid t d) in Hin; [congruence|done..].
Qed.

Lemma unregister_iterate a l1 x l2 c :
  valid_details (mkDetails (l1 ++ x :: l2)) →
  ∃ tl, IterateRegisteredPrivileges
    (λ c pos s,
       if negb (c =? ptype x) then mret (false, s)
       else
         _ ← removePrivilegeRegistration c pos a;
         s' ← lift (RemoveRegisteredPrivilege c pos s);
         mret (false, s')) (of_list (l1 ++ x :: l2)) c =
    (remove_reg a x ;; mret (mkSlice ((l1 ++ l2) ++ tl) (length (l1 ++ l2)))) c.
Proof.
  intros [Hok Hnd]. destruct (iterate_type (λ t p, _ ← removePrivilegeRegistration t p a; mret ())
    l1 x l2 c Hok Hnd) as [tl Htl].
  exists tl. etrans; [|exact Htl]. unfold IterateRegisteredPrivileges. apply iterate_privileges_ext.
  intros t p s c1. unfold remove_type, remove_each.
  destruct (Z.eqb_spec t (ptype x)); [rewrite decide_True by done|by rewrite decide_False by done].
  cbn. unfold mbind, M_bind. by destruct (removePrivilegeRegistration t p a c1) as [[?|?|?] ?].
Qed.

Lemma unregister_steps a d t c c' :
  valid_details d → unregister a d t c = (Ok (), c') → HasRegisteredPrivilege t d = true →
  ∃ l1 x l2 c1, RegisteredPrivileges d = l1 ++ x :: l2 ∧ ptype x = t ∧ known t ∧
    remove_reg a x c = (Ok (), c1) ∧ setContractDetails a (mkDetails (l1 ++ l2)) c1 = (Ok (), c').
Proof.
  intros Hval Hrun Hhas. unfold unregister in Hrun. rewrite Hhas in Hrun.
  pose proof (Has_known t d Hval Hhas) as Ht.
  destruct (valid_split d t Hval Ht Hhas) as (l1 & x & l2 & Hl & <-).
  apply M_bind_ok in Hrun as (s & c1 & Hit & Hset%wrapM_ok). destruct d as [l]. cbn in Hl. subst l.
  destruct (unregister_iterate a l1 x l2 c Hval) as [tl Htl]. cbn [RegisteredPrivileges] in Hit. rewrite Htl in Hit.
  apply M_bind_ok in Hit as ([] & c1' & Hrem & [= <- <-]).
  unfold view in Hset. cbn in Hset. rewrite take_app_length in Hset.
  by exists l1, x, l2, c1'.
Qed.

Lemma unregister_ok a d t c c' :
  priv_inv (store c) → details_of (store c) a = Some d → unregister a d t c = (Ok (), c') →
  (HasRegisteredPrivilege t d = false ∧ c' = c) ∨
  (HasRegisteredPrivilege t d = true ∧ known t ∧
   ∃ l1 x l2, RegisteredPrivileges d = l1 ++ x :: l2 ∧ ptype x = t ∧
     updated (store c) (store c') a (mkDetails (l1 ++ l2)) ∧ priv_inv (store c')).
Proof.
  intros Hinv Hd Hrun. destruct (HasRegisteredPrivilege t d) eqn:Hhas; cycle 1.
  { unfold unregister in Hrun. rewrite Hhas in Hrun. by injection Hrun as <-; left. }
  right. split; [done|]. pose proof (inv_valid _ _ _ Hinv Hd) as Hval.
  destruct (unregister_steps a d t c c' Hval Hrun Hhas) as (l1 & x & l2 & c1 & Hl & Hx & Ht & Hrem & Hset).
  split; [done|]. exists l1, x, l2. split; [done|]. split; [done|].
  destruct (remove_reg_spec a x c) as (w1 & evs & Hrem' & Hc1 & Hk1).
  rewrite Hrem' in Hrem. injection Hrem as <-.
  assert (NoDup (l1 ++ x :: l2)) as Hnd by (rewrite <-Hl; by apply valid_details_nodup).
  assert (updated (store c) (store c') a (mkDetails (l1 ++ l2))) as Hupd.
  { eapply (set_details_updated _ (mkCtx w1 _)); [done| |done]. intros k b. cbn.
    apply (remove_index (store c) w1 a d [x]); [done|done|..].
    - intros v. rewrite Hl, list_elem_of_singleton, !elem_of_app, elem_of_cons.
      apply NoDup_app in Hnd as (_ & Hdis & [Hx2 _]%NoDup_cons).
      split; [intros ->|naive_solver]. split; [auto|]. intros [Hin|Hin]; [|done].
      destruct (Hdis x Hin). by left.
    - rewrite Hl. cbn. set_solver.
    - intros sk k0. rewrite Hk1. cbn. repeat case_decide; set_solver. }
  split; [done|]. eapply priv_inv_update; [done|done| |done|].
  - eapply (valid_sublist (l1 ++ x :: l2)); [|by rewrite <-Hl; destruct d].
    apply sublist_app; [done|]. by apply sublist_cons.
  - intros v p b Hv Hnot. destruct Hnot. rewrite Hl. cbn in Hv. set_solver.
Qed.
End privilege_lemmas.
