(* ===== verification/TwasmSteps.v ===== *)
(** The life of the registrations: contracts register and release privileges,
    governance promotes and demotes them, contract code runs in between.

    [priv_step] are the steps by which the registrations change, [priv_inv] holds
    in every state they reach, and per privilege type the holders form a list that
    registration extends at the end and release shortens ([spec_privilege]). *)
From stdpp Require Import base list strings gmap sets sorting relations.
From Stdlib Require Import ZArith Lia.
From S2P Require Import Prelude Sdk Slice Json Privilege TwasmMsgs Wasm TwasmKeeper TwasmHandler.
Open Scope Z_scope.

(** The contracts registered for a type, in the order of their callbacks. *)
Definition subscribers `{KVStore W} (w : W) (t : Z) : list AccAddress := (queue w t).*2.

(** ** The abstract specification of a privilege message

    Registering appends to the list of the type unless already on it; releasing
    takes the contract off; no other list changes. *)
Definition spec_privilege (a : AccAddress) (m : PrivilegeMsg) (f : Z → list AccAddress) (t : Z) :
    list AccAddress :=
  if decide (Release m ≠ PrivilegeTypeEmpty) then
    if decide (t = Release m) then filter (λ b, b ≠ a) (f t) else f t
  else if decide (t = Request m ∧ a ∉ f t) then f t ++ [a] else f t.

(** ** Steps *)

(** A step of the rest of the chain: contracts may be created, without
    privileges, or migrated, and keep the extensions they have. *)
Definition other_step `{KVStore W, WasmKeeper W} (w w' : W) : Prop :=
  same_index w w' ∧
  (∀ a d, details_of w a = Some d → details_of w' a = Some d) ∧
  (∀ a i, GetContractInfo w' a = Some i → ∃ d, ReadExtension i = Ok d ∧
     (details_of w a = Some d ∨ RegisteredPrivileges d = [])).

Inductive priv_step `{KVStore W, WasmKeeper W, Bech32} : W → W → Prop :=
  | step_other w w' : other_step w w' → priv_step w w'
  | step_privilege a m c c' :
      IsPrivileged (store c) a = true → handlePrivilege a m c = (Ok (), c') →
      priv_step (store c) (store c')
  | step_promote a c c' : promote a c = (Ok (), c') → priv_step (store c) (store c')
  | step_demote a c c' : demote a c = (Ok (), c') → priv_step (store c) (store c').

(** Contract code reaches the state only through the messages it dispatches. *)
Class WasmVMLaws (W : Type) `{KVStore W, WasmKeeper W, Bech32, WasmVM W} := {
  Sudo_steps a m c r c' : Sudo a m c = (Ok r, c') → rtc priv_step (store c) (store c');
}.

(** A chain without registrations. *)
Definition no_privileges `{KVStore W, WasmKeeper W} (w : W) : Prop :=
  (∀ k, kv_get w StoreKey (contractCallbacksSecondaryIndexPrefix +:+ k) = None) ∧
  (∀ a i, GetContractInfo w a = Some i → ReadExtension i = Ok (mkDetails [])).

Section steps.
Context `{!KVStore W, !KVLaws W, !WasmKeeper W, !WasmLaws W, !Bech32}.
Implicit Types w : W.

Lemma priv_inv_init w : no_privileges w → priv_inv w.
Proof.
  intros [Hk Hc]. split.
  - intros a i Hi. exists (mkDetails []). split; [by eapply Hc|]. split; constructor.
  - intros a d v (i & Hi & Hr)%details_of_Some. rewrite (Hc _ _ Hi) in Hr. simplify_eq. set_solver.
  - intros k a. by rewrite Hk.
  - intros t p1 p2 a1 a2 _ _ _ H1. unfold getPrivilegedContract in H1.
    change (contractPrivilegesSecondaryIndexKey t p1)
      with (contractCallbacksSecondaryIndexPrefix +:+ (bytes1 t +:+ bytes1 p1)) in H1.
    by rewrite Hk in H1.
Qed.

Lemma other_step_inv w w' : other_step w w' → priv_inv w → priv_inv w'.
Proof.
  intros (Hx & Hkeep & Hnew) Hinv.
  assert (∀ k, kv_get w' StoreKey (contractCallbacksSecondaryIndexPrefix +:+ k) =
               kv_get w StoreKey (contractCallbacksSecondaryIndexPrefix +:+ k)) as Hk
    by (intros k; apply Hx; by eexists; right).
  assert (∀ t p, getPrivilegedContract w' t p = getPrivilegedContract w t p) as Hg
    by (intros t p; apply (Hk (bytes1 t +:+ bytes1 p))).
  split.
  - intros a i Hi. destruct (Hnew a i Hi) as (d & Hr & [Hd|Hd]); exists d; split; try done.
    + by eapply inv_valid.
    + split; rewrite Hd; constructor.
  - intros a d v (i & Hi & Hr)%details_of_Some Hv. rewrite Hg.
    destruct (Hnew a i Hi) as (d' & Hr' & [Hd|Hd]); rewrite Hr in Hr'; simplify_eq; [by eapply (inv_index w Hinv)|].
    rewrite Hd in Hv. by apply not_elem_of_nil in Hv.
  - intros k a. rewrite Hk. intros (t & p & d & ?)%(inv_keys w Hinv). exists t, p, d. naive_solver.
  - intros t p1 p2 a1 a2. rewrite !Hg. by apply inv_singleton.
Qed.

Lemma handlePrivilege_cases a m c c' :
  priv_inv (store c) → handlePrivilege a m c = (Ok (), c') →
  ∃ d, details_of (store c) a = Some d ∧
    if decide (Release m ≠ PrivilegeTypeEmpty) then unregister a d (Release m) c = (Ok (), c')
    else register a d (Request m) c = (Ok (), c').
Proof.
  intros Hinv. unfold handlePrivilege. unfold mbind at 1, M_bind at 1, gets.
  destruct (GetContractInfo (store c) a) as [i|] eqn:Hi; [|done].
  destruct (inv_details _ Hinv a i Hi) as (d & Hr & _).
  unfold mbind, M_bind, lift. rewrite Hr. intros Hrun. exists d.
  split; [unfold details_of; rewrite Hi; cbn; by rewrite Hr|].
  destruct (Z.eqb_spec (Release m) PrivilegeTypeEmpty); cbn in Hrun.
  - rewrite decide_False by tauto. by destruct (Request m =? PrivilegeTypeEmpty).
  - by rewrite decide_True.
Qed.

Lemma handlePrivilege_inv a m c c' :
  priv_inv (store c) → handlePrivilege a m c = (Ok (), c') → priv_inv (store c').
Proof.
  intros Hinv Hrun. destruct (handlePrivilege_cases a m c c' Hinv Hrun) as (d & Hd & Hcase).
  case_decide.
  - destruct (unregister_ok a d _ c c' Hinv Hd Hcase) as [[_ ->]|(_ & _ & l1 & x & l2 & ?)]; naive_solver.
  - destruct (register_ok a d _ c c' Hinv Hd Hcase) as [[_ ->]|(_ & _ & p & ?)]; naive_solver.
Qed.

Lemma priv_step_inv w w' : priv_step w w' → priv_inv w → priv_inv w'.
Proof.
  intros [v v' Ho|a m c c' _ Hrun|a c c' Hrun|a c c' Hrun] Hinv.
  - by eapply other_step_inv.
  - by eapply handlePrivilege_inv.
  - apply promote_frame in Hrun as [Hp _]. by eapply priv_inv_frame.
  - by eapply demote_inv.
Qed.

Lemma priv_steps_inv w w' : rtc priv_step w w' → priv_inv w → priv_inv w'.
Proof. induction 1 as [|w w1 w2 Hs _ IH]; [done|]. intros Hinv. by eapply IH, priv_step_inv. Qed.

(** *** Holders *)
Lemma subscribers_elem w t a :
  priv_inv w → is_u 8 t →
  a ∈ subscribers w t ↔ ∃ p, 1 ≤ p ≤ 255 ∧ getPrivilegedContract w t p = Some a.
Proof.
  intros Hinv Ht. unfold subscribers. rewrite list_elem_of_fmap. split.
  - intros ([p b] & -> & Hin%queue_elem); eauto.
  - intros (p & Hp). exists (p, a). split; [done|]. by apply queue_elem.
Qed.

Lemma subscribers_has w t a d :
  priv_inv w → known t → details_of w a = Some d →
  a ∈ subscribers w t ↔ HasRegisteredPrivilege t d = true.
Proof.
  intros Hinv Ht Hd. pose proof (inv_valid _ _ _ Hinv Hd) as Hval.
  rewrite subscribers_elem by (done || by apply known_byte). rewrite Has_valid, list_elem_of_fmap by done.
  split.
  - intros (p & Hp & Hget).
    destruct (inv_get w t p a) as (_ & _ & d' & Hd' & Hin); [done|by apply known_byte| |done|].
    { unfold is_u. lia. }
    simplify_eq. exists (mkRP p (PrivilegeType_String t)). by rewrite ptype_mk.
  - intros (v & -> & Hv). exists (Position v). split; [by eapply valid_rp_ok|]. by eapply inv_index.
Qed.

Lemma updated_refl w a d : priv_inv w → details_of w a = Some d → updated w w a d.
Proof.
  intros Hinv Hd. split; [done|by apply details_of_Some|]. intros k b.
  destruct (decide (b = a)) as [->|]; [|naive_solver]. rewrite (inv_entry_iff w a d) by done. naive_solver.
Qed.

(** The types an update of [a] does not touch keep their queues. *)
Lemma queue_upd_same w w' a d d' t :
  priv_inv w → priv_inv w' → details_of w a = Some d → updated w w' a d' → valid_details d' →
  known t → (∀ v, ptype v = t → v ∈ RegisteredPrivileges d' ↔ v ∈ RegisteredPrivileges d) →
  queue w' t = queue w t.
Proof.
  intros Hinv Hinv' Hd Hupd Hval Ht Hsame. apply queue_ext; [done|done|by apply known_byte|].
  intros q Hq. apply option_eq. intros b. rewrite (upd_get_iff w w' a d') by done.
  rewrite Hsame by (by apply ptype_mk).
  pose proof (inv_valid w a d Hinv Hd). rewrite (upd_get_iff w w a d) by (try done; by apply updated_refl). tauto.
Qed.

Lemma Add_ptype d t p v :
  valid_details d → 1 ≤ p ≤ 255 → known t → ptype v ≠ t →
  v ∈ RegisteredPrivileges (AddRegisteredPrivilege t p d) ↔ v ∈ RegisteredPrivileges d.
Proof.
  intros Hval Hp Ht Hne. rewrite Add_spec, elem_of_app, list_elem_of_singleton by done.
  split; [|by auto]. intros [?| ->]; [done|]. by rewrite ptype_mk in Hne.
Qed.

Lemma filter_snd (P : AccAddress → Prop) `{∀ b, Decision (P b)} (l : list (Z * AccAddress)) :
  (filter (λ e, P e.2) l).*2 = filter P l.*2.
Proof.
  induction l as [|[p b] l IH]; [done|]. rewrite fmap_cons, !filter_cons. cbn [snd].
  case_decide; cbn; by rewrite IH.
Qed.

Lemma list_filter_all (P : AccAddress → Prop) `{∀ b, Decision (P b)} (l : list AccAddress) :
  (∀ b, b ∈ l → P b) → filter P l = l.
Proof.
  induction l as [|b l IH]; intros Hl; [done|]. rewrite filter_cons, decide_True by (apply Hl; by left).
  f_equal. apply IH. intros b' Hb'. apply Hl. by right.
Qed.

(** Registrations of other types survive the release of one. *)
Lemma release_ptype l1 x l2 v :
  valid_details (mkDetails (l1 ++ x :: l2)) →
  v ∈ l1 ++ l2 ↔ v ∈ l1 ++ x :: l2 ∧ ptype v ≠ ptype x.
Proof.
  intros Hval. rewrite !elem_of_app, elem_of_cons. split.
  - intros Hv. split; [tauto|]. intros E.
    assert (v = x) as ->.
    { apply (valid_same_type _ v x Hval); cbn; [set_solver..|done]. }
    apply valid_details_nodup in Hval. cbn in Hval.
    apply NoDup_app in Hval as (_ & Hdis & [Hx2 _]%NoDup_cons).
    destruct Hv as [Hv|Hv]; [|done]. destruct (Hdis x Hv). by left.
  - intros [[?|[->|?]] ?]; tauto.
Qed.

Lemma register_subscribers a d t0 c c' t :
  priv_inv (store c) → details_of (store c) a = Some d → register a d t0 c = (Ok (), c') → known t →
  subscribers (store c') t =
  if decide (t = t0 ∧ a ∉ subscribers (store c) t) then subscribers (store c) t ++ [a]
  else subscribers (store c) t.
Proof.
  intros Hinv Hd Hrun Ht. pose proof (inv_valid _ _ _ Hinv Hd) as Hval.
  destruct (register_ok a d t0 c c' Hinv Hd Hrun) as
    [[Hhas ->]|(Hhas & Ht0 & p & Hp & Hr & Hupd & Hinv' & Hq)].
  - rewrite decide_False; [done|]. intros [-> Hno]. apply Hno. by apply (subscribers_has _ _ _ d).
  - destruct (decide (t = t0)) as [->|Hne].
    + unfold subscribers at 1. rewrite Hq, fmap_app. rewrite decide_True; [done|].
      split; [done|]. rewrite (subscribers_has _ _ _ d) by done. by rewrite Hhas.
    + rewrite decide_False by tauto. unfold subscribers. f_equal.
      eapply queue_upd_same; [done..| |done|].
      * apply Add_valid; [done..| |done]. intros Hin. apply (Has_valid t0 d) in Hin; [congruence|done..].
      * intros v <-. by apply Add_ptype.
Qed.

Lemma unregister_subscribers a d t0 c c' t :
  priv_inv (store c) → details_of (store c) a = Some d → unregister a d t0 c = (Ok (), c') → known t →
  subscribers (store c') t =
  if decide (t = t0) then filter (λ b, b ≠ a) (subscribers (store c) t) else subscribers (store c) t.
Proof.
  intros Hinv Hd Hrun Ht. pose proof (inv_valid _ _ _ Hinv Hd) as Hval.
  destruct (unregister_ok a d t0 c c' Hinv Hd Hrun) as
    [[Hhas ->]|(Hhas & Ht0 & l1 & x & l2 & Hl & Hx & Hupd & Hinv')].
  - case_decide as E; [|done]. subst t0. symmetry. apply list_filter_all. intros b Hb ->.
    apply (subscribers_has _ _ _ d) in Hb; [congruence|done..].
  - destruct d as [l]. cbn in Hl. subst l.
    assert (valid_details (mkDetails (l1 ++ l2))) as Hval2.
    { eapply valid_sublist; [|done]. apply sublist_app; [done|]. by apply sublist_cons. }
    case_decide as E.
    + unfold subscribers. rewrite <-filter_snd. f_equal.
      rewrite (queue_remove (store c) (store c') a (mkDetails (l1 ++ x :: l2)) _ t Hinv Hinv' Hd Hupd Hval2);
        [|cbn; set_solver|done].
      apply list_filter_iff. intros [q b]. cbn. split; [|tauto]. intros Himp Hb.
      apply Himp, (release_ptype l1 x l2) in Hb as [_ Hne]; [|done]. apply Hne.
      rewrite ptype_mk by done. congruence.
    + unfold subscribers. f_equal. eapply queue_upd_same; [done..|]. intros v <-. cbn.
      rewrite (release_ptype l1 x l2 v) by done. split; [tauto|]. intros. split; [done|congruence].
Qed.
End steps.
