(* ===== verification/RefWorld.v ===== *)
(** A concrete chain: stores as in [RefStore], contracts with a scripted
    behaviour, a bank that keeps balances. It satisfies the laws of the interfaces
    and is where the theorems are evaluated. *)
From stdpp Require Import base list strings gmap sets sorting relations.
From Stdlib Require Import ZArith Lia.
From S2P Require Import Prelude Sdk RefStore Slice Json Privilege TwasmMsgs Wasm TwasmKeeper TwasmHandler TwasmSteps.
Open Scope Z_scope.

(** What a contract does when it is called with sudo: on promotion it requests
    privileges; a broken contract fails or panics. *)
Inductive Behaviour := Requests (types : list Z) | Fails | Panics.

Record World := mkWorld {
  w_kv : RefKV;
  w_infos : gmap string ContractInfo;
  w_pinned : gset Z;
  w_code : gmap string Behaviour;
  w_balances : gmap (string * string) Z;
  w_params : option ConsensusParams }.

Definition upd_kv (f : RefKV → RefKV) (w : World) : World :=
  mkWorld (f (w_kv w)) (w_infos w) (w_pinned w) (w_code w) (w_balances w) (w_params w).
Definition upd_infos (f : gmap string ContractInfo → gmap string ContractInfo) (w : World) : World :=
  mkWorld (w_kv w) (f (w_infos w)) (w_pinned w) (w_code w) (w_balances w) (w_params w).
Definition upd_pinned (f : gset Z → gset Z) (w : World) : World :=
  mkWorld (w_kv w) (w_infos w) (f (w_pinned w)) (w_code w) (w_balances w) (w_params w).
Definition upd_balances (f : gmap (string * string) Z → gmap (string * string) Z) (w : World) : World :=
  mkWorld (w_kv w) (w_infos w) (w_pinned w) (w_code w) (f (w_balances w)) (w_params w).
Definition upd_params (p : option ConsensusParams) (w : World) : World :=
  mkWorld (w_kv w) (w_infos w) (w_pinned w) (w_code w) (w_balances w) p.

#[export] Instance World_store : KVStore World := {
  kv_get w := kv_get (w_kv w);
  kv_set sk k v := upd_kv (kv_set sk k v);
  kv_delete sk k := upd_kv (kv_delete sk k);
  kv_iterate w := kv_iterate (w_kv w);
}.

#[export] Instance World_kv_laws : KVLaws World.
Proof.
  constructor; intros; cbn [kv_get kv_set kv_delete kv_iterate World_store upd_kv w_kv].
  - apply (kv_get_set (W:=RefKV)).
  - apply (kv_get_delete (W:=RefKV)).
  - apply (kv_iterate_elem (W:=RefKV)).
  - apply (kv_iterate_sorted (W:=RefKV)).
Qed.

(** ** Extensions: two bytes per registration *)
Definition enc_details (d : PetriContractDetails) : bytes :=
  foldr (λ v s, entry_key v +:+ s) "" (RegisteredPrivileges d).

Fixpoint dec_entries (s : bytes) : option (list RegisteredPrivilege) :=
  match s with
  | "" => Some []
  | String t (String p s') =>
      r ← dec_entries s';
      Some (mkRP (of_byte p) (PrivilegeType_String (of_byte t)) :: r)
  | _ => None
  end.

Lemma dec_enc_details d :
  valid_details d → dec_entries (enc_details d) = Some (RegisteredPrivileges d).
Proof.
  destruct d as [l]. intros [Hok _]. cbn in *. unfold enc_details. cbn.
  induction Hok as [|v l Hv Hok IH]; [done|]. cbn [foldr].
  change (entry_key v +:+ ?s) with (String (byte_of (ptype v)) (String (byte_of (Position v)) s)).
  cbn [dec_entries]. rewrite IH. cbn.
  rewrite (of_byte_of (Position v)) by (destruct Hv; unfold is_u; lia).
  rewrite (of_byte_of (ptype v)) by (by apply known_byte, rp_ok_known).
  rewrite <-rp_ok_name by done. by destruct v.
Qed.

Definition furyaExtension (d : PetriContractDetails) : Any :=
  mkAny "/confio.twasm.v1beta1.PetriContractDetails" (enc_details d).

#[export] Instance World_wasm : WasmKeeper World := {
  GetContractInfo w a := w_infos w !! a;
  ReadExtension i :=
    match Extension i with
    | None => Ok (mkDetails [])
    | Some any => match dec_entries (AnyValue any) with
                  | Some l => Ok (mkDetails l)
                  | None => Err (new_err "proto") end
    end;
  PinCode id := modify (upd_pinned (λ p, {[id]} ∪ p));
  UnpinCode id := modify (upd_pinned (λ p, p ∖ {[id]}));
  IterateContractsByCode w id :=
    fst <$> filter (λ e : string * ContractInfo, CodeID e.2 = id) (map_to_list (w_infos w));
  SetContractInfoExtension a d := λ c,
    match w_infos (store c) !! a with
    | None => (Err (Wrap ErrNotFound "contract info"), c)
    | Some i =>
        match PetriContractDetails_ValidateBasic d with
        | Ok _ =>
            if decide (Forall (λ v, 0 ≤ Position v < 2 ^ 32) (RegisteredPrivileges d)) then
              (Ok (), mkCtx (upd_infos <[a := mkContractInfo (CodeID i) (Admin i) (Some (furyaExtension d))]>
                               (store c)) (events c))
            else (Err (new_err "proto"), c)
        | Err e => (Err e, c)
        | Panic p => (Panic p, c)
        end
    end;
}.

#[export] Instance World_wasm_laws : WasmLaws World.
Proof.
  constructor; cbn.
  - done.
  - done.
  - intros id c c' [= <-]. done.
  - intros id c c' [= <-]. done.
  - intros a d c i Hi Hv Hu. rewrite Hi, Hv. rewrite decide_True by done. eauto.
  - intros a d c c'. destruct (w_infos (store c) !! a) as [i|] eqn:Hi; [|done].
    destruct (PetriContractDetails_ValidateBasic d) as [[]|?|?] eqn:Hv; [|done|done].
    case_decide as Hu; [|done]. intros [= <-]. cbn. split; [done|]. split; [done|]. split.
    + eexists _, _. split; [done|]. rewrite lookup_insert_eq. split; [done|]. cbn.
      apply (proj1 (validate_details d Hu)) in Hv. rewrite dec_enc_details by done. by destruct d.
    + intros b Hb. by rewrite lookup_insert_ne by done.
Qed.

(** ** Addresses and coins *)
#[export] Instance Ref_bech32 : Bech32 := {
  AccAddressFromBech32 s :=
    match strip_prefix "furya1" s with
    | Some "" | None => Err (new_err "bech32")
    | Some a => Ok a
    end;
  AccAddress_String a := "furya1" +:+ a;
}.

#[export] Instance Ref_bech32_laws : Bech32Laws.
Proof.
  constructor. intros a Ha _. cbn [AccAddressFromBech32 AccAddress_String Ref_bech32].
  rewrite (proj2 (strip_prefix_Some "furya1" ("furya1" +:+ a) a)) by done. by destruct a.
Qed.

(** Decimal digits. *)
Fixpoint parse_digits (acc : Z) (s : string) : option Z :=
  match s with
  | "" => Some acc
  | String a s' =>
      if decide (48 ≤ of_byte a ≤ 57) then parse_digits (10 * acc + (of_byte a - 48)) s' else None
  end.

#[export] Instance Ref_coins : SdkCoins := {
  NewIntFromString s := match s with "" => None | _ => parse_digits 0 s end;
  Coin_Validate c :=
    if decide (Denom c = "" ∨ Amount c < 0) then Err (new_err "coin") else Ok ();
  NewCoins cs :=
    if forallb (λ c, bool_decide (0 ≤ Amount c)) cs then Ok (filter (λ c, Amount c ≠ 0) cs)
    else Panic "invalid coins";
  Coin_String c := Denom c;
  Coins_String cs := foldr (λ c s, Denom c +:+ s) "" cs;
}.

#[export] Instance Ref_coins_laws : SdkCoinsLaws.
Proof.
  constructor; cbn.
  - intros c. case_decide; [done|]. intros _. lia.
  - intros c. case_decide; [done|]. intros _. rewrite bool_decide_true by lia. cbn.
    by repeat case_decide.
Qed.

(** ** Contract code *)

(** Every message passes the check of [DispatchMsg]. *)
Fixpoint request_all (a : AccAddress) (ts : list Z) : M World () :=
  match ts with
  | [] => mret ()
  | t :: ts' =>
      privileged ← gets (λ w, IsPrivileged w a);
      if (privileged : bool) then handlePrivilege a (mkPrivilegeMsg t 0) ;; request_all a ts'
      else fail_with ErrUnknownMsg
  end.

(** A contract that updates the validator set always names one validator. *)
Definition one_validator : json_bytes :=
  JText (JObj [("diffs", JArr [JObj [("pubkey", JObj [("ed25519", JStr "AAEC")]); ("power", JNum 10)]])]).

#[export] Instance World_vm : WasmVM World := {
  Sudo a msg :=
    code ← gets (λ w, w_code w !! a);
    match code with
    | Some Fails => fail_with (new_err "contract")
    | Some Panics => panic "contract"
    | Some (Requests ts) =>
        match msg with
        | JObj [("privilege_change", JObj [("promoted", _)])] => request_all a ts ;; mret JNil
        | JObj [("end_with_validator_update", _)] =>
            mret (if decide (PrivilegeTypeValidatorSetUpdate ∈ ts) then one_validator else JNil)
        | _ => mret JNil
        end
    | None => mret JNil
    end;
}.

Lemma request_all_steps a ts (c : Ctx World) c' :
  request_all a ts c = (Ok (), c') → rtc priv_step (store c) (store c').
Proof.
  revert c. induction ts as [|t ts IH]; intros c; cbn; [by intros [= <-]|].
  unfold mbind at 1, M_bind at 1, gets. destruct (IsPrivileged (store c) a) eqn:Hp; [|done].
  intros ([] & c1 & Hh & Hr)%M_bind_ok. eapply rtc_l; [by eapply step_privilege|]. by eapply IH.
Qed.

#[export] Instance World_vm_laws : WasmVMLaws World.
Proof.
  constructor. intros a m c r c' Hrun. cbn in Hrun. unfold mbind at 1, M_bind at 1, gets in Hrun.
  destruct (w_code (store c) !! a) as [[ts| |]|]; [|done|done|by injection Hrun as <- <-].
  repeat case_match; try (by injection Hrun as <- <-).
  apply M_bind_ok in Hrun as ([] & c1 & Hreq%request_all_steps & [= <- <-]). done.
Qed.

(** ** Bank, consensus parameters, governance *)
Definition module_account (m : string) : string := "module/" +:+ m.
Definition balance (w : World) (owner denom : string) : Z := default 0 (w_balances w !! (owner, denom)).
Definition add_balance (owner : string) (c : Coin) (w : World) : World :=
  upd_balances <[(owner, Denom c) := balance w owner (Denom c) + Amount c]> w.

Definition send (from to : string) (cs : list Coin) : M World () :=
  forM cs (λ c,
    enough ← gets (λ w, bool_decide (Amount c ≤ balance w from (Denom c)));
    if (enough : bool) then
      modify (add_balance from (mkCoin (Denom c) (- Amount c))) ;; modify (add_balance to c)
    else fail_with (new_err "insufficient funds")).

#[export] Instance World_bank : BankKeeper World := {
  MintCoins m cs := forM cs (λ c, modify (add_balance (module_account m) c));
  SendCoinsFromModuleToAccount m to cs := send (module_account m) to cs;
  SendCoinsFromAccountToModule from m cs := send from (module_account m) cs;
  DelegateCoinsFromAccountToModule from m cs := send from (module_account m) cs;
  UndelegateCoinsFromModuleToAccount m to cs := send (module_account m) to cs;
}.

#[export] Instance World_params : ConsensusParamsUpdater World := {
  GetConsensusParams := w_params;
  StoreConsensusParams p := modify (upd_params p);
}.

#[export] Instance Ref_gov : GovTypes := {
  MaxTitleLength := 140;
  MaxDescriptionLength := 10000;
  foreign_ValidateBasic _ := Ok ();
  foreign_ProposalRoute c :=
    match c with
    | CParameterChange _ => params_RouterKey
    | CText _ => "gov"
    | _ => "other"
    end;
  ConvertWasmCoinsToSdkCoins cs := convertWasmCoinsToSdkCoins cs;
}.

(** Struct types of other packages, as far as the examples send them. *)
Definition dec_titled {P} (zero : P) (fields : list (string * decoder (Titled P))) : decoder (Titled P) :=
  dec_struct (field "title" Title (λ x p, mkTitled x (Description p) (payload p)) dec_string ::
              field "description" Description (λ x p, mkTitled (Title p) x (payload p)) dec_string :: fields).

#[export] Instance Ref_decoders : ForeignDecoders := {
  dec_TextProposal := dec_titled () [];
  dec_Plan := λ j p, Err ErrJSON;
  dec_CancelSoftwareUpgradeProposal := dec_titled () [];
  dec_ParamChange := dec_struct
    [ field "subspace" Subspace (λ x p, mkParamChange x (ParamKey p) (ParamValue p)) dec_string;
      field "key" ParamKey (λ x p, mkParamChange (Subspace p) x (ParamValue p)) dec_string;
      field "value" ParamValue (λ x p, mkParamChange (Subspace p) (ParamKey p) x) dec_string ];
  dec_ClientUpdateProposal := λ j p, Err ErrJSON;
  dec_InstantiateContractProposal := λ j p, Err ErrJSON;
  dec_StoreCodeProposal := λ j p, Err ErrJSON;
  dec_MigrateContractProposal := λ j p, Err ErrJSON;
  dec_UpdateAdminProposal := λ j p, Err ErrJSON;
  dec_ClearAdminProposal := λ j p, Err ErrJSON;
  dec_PinCodesProposal := λ j p, Err ErrJSON;
  dec_UnpinCodesProposal := λ j p, Err ErrJSON;
  dec_InstantiateMsg := λ j p, Err ErrJSON;
  dec_WasmCoin := dec_struct
    [ field "denom" WC_Denom (λ x c, mkWasmCoin x (WC_Amount c)) dec_string;
      field "amount" WC_Amount (λ x c, mkWasmCoin (WC_Denom c) x) dec_string ];
}.
