(* ===== verification/TwasmMsgProps.v ===== *)
(** What a message of a contract looks like once it is decoded. *)
From stdpp Require Import base list strings gmap.
From Stdlib Require Import ZArith Lia.
From S2P Require Import Prelude Sdk Slice Json JsonProps Privilege TwasmMsgs Wasm TwasmKeeper TwasmHandler TwasmSteps RefWorld.
Open Scope Z_scope.

(** A privilege that is requested or released: none, or a registered type. *)
Definition privilege_typed (t : Z) : Prop := t = PrivilegeTypeEmpty ∨ known t.
Definition PrivilegeMsg_typed (m : PrivilegeMsg) : Prop := privilege_typed (Request m) ∧ privilege_typed (Release m).
Definition BlockParams_typed (p : BlockParams) : Prop :=
  on_ptr (is_s 64) (BP_MaxBytes p) ∧ on_ptr (is_s 64) (BP_MaxGas p).
Definition EvidenceParams_typed (p : EvidenceParams) : Prop :=
  on_ptr (is_s 64) (EP_MaxAgeNumBlocks p) ∧ on_ptr (is_s 64) (EP_MaxAgeDuration p) ∧ on_ptr (is_s 64) (EP_MaxBytes p).
Definition ConsensusParamsUpdate_typed (u : ConsensusParamsUpdate) : Prop :=
  on_ptr BlockParams_typed (CPU_Block u) ∧ on_ptr EvidenceParams_typed (CPU_Evidence u).
(** No upgraded client state comes with an upgrade plan. *)
Definition ExecuteGovProposal_typed (e : ExecuteGovProposal) : Prop :=
  on_ptr (λ plan, UpgradedClientState plan = None) (GP_RegisterUpgrade (EGP_Proposal e)).

Definition decoded_typed (m : PetriMsg) : Prop :=
  on_ptr PrivilegeMsg_typed (PM_Privilege m) ∧ on_ptr ConsensusParamsUpdate_typed (PM_ConsensusParams m).
Definition PetriMsg_typed (m : PetriMsg) : Prop :=
  decoded_typed m ∧ on_ptr ExecuteGovProposal_typed (PM_ExecuteGovProposal m).

Section typed.
Context `{SdkCoins, ForeignDecoders}.

Lemma privilege_decoded : keeps privilege_typed dec_PrivilegeType.
Proof.
  intros j t t' Ht Hd. unfold dec_PrivilegeType, PrivilegeType_UnmarshalJSON in Hd.
  apply outcome_bind_ok in Hd as (s & _ & Hd). case_decide; [done|].
  destruct (PrivilegeTypeFrom s) as [v|] eqn:Hv; injection Hd as <-; [|done].
  right. apply (From_in_Some registry) in Hv. unfold known. rewrite Hv. eauto.
Qed.

(** [field_keeps Q]: the field's decoder keeps [Q], which is part of the struct's property. *)
Ltac field_keeps Q := apply (keeps_field _ Q); [|intros a Ha; hnf in Ha; tauto|intros b a Ha Hb; hnf in Ha |- *; cbn; tauto].
(** One goal per field. *)
Ltac by_fields :=
  lazymatch goal with
  | |- keeps _ (dec_struct _) => apply keeps_struct; by_fields
  | |- keeps _ _ => unfold dec_PrivilegeMsg, dec_BlockParams, dec_EvidenceParams, dec_ConsensusParamsUpdate, dec_PetriMsg; by_fields
  | |- Forall _ (_ :: _) => apply Forall_cons; split; [|by_fields]
  | |- Forall _ [] => by constructor
  end.

Lemma PrivilegeMsg_decoded : keeps PrivilegeMsg_typed dec_PrivilegeMsg.
Proof. by_fields; field_keeps privilege_typed; apply privilege_decoded. Qed.

Lemma int64_ptr : keeps (on_ptr (is_s 64)) (dec_ptr 0 dec_int64).
Proof. apply keeps_ptr; [done|apply keeps_int64]. Qed.

Lemma BlockParams_decoded : keeps BlockParams_typed dec_BlockParams.
Proof. by_fields; field_keeps (on_ptr (is_s 64)); apply int64_ptr. Qed.

Lemma EvidenceParams_decoded : keeps EvidenceParams_typed dec_EvidenceParams.
Proof. by_fields; field_keeps (on_ptr (is_s 64)); apply int64_ptr. Qed.

Lemma ConsensusParamsUpdate_decoded : keeps ConsensusParamsUpdate_typed dec_ConsensusParamsUpdate.
Proof.
  by_fields; [field_keeps (on_ptr BlockParams_typed)|field_keeps (on_ptr EvidenceParams_typed)];
    (apply keeps_ptr; [by repeat split|]); [apply BlockParams_decoded|apply EvidenceParams_decoded].
Qed.

Lemma PetriMsg_decoded : keeps decoded_typed dec_PetriMsg.
Proof.
  by_fields.
  1: apply (keeps_field _ (on_ptr PrivilegeMsg_typed)); [apply keeps_ptr; [by repeat split; left|apply PrivilegeMsg_decoded]|by intros a [? ?]|by intros b [] [? ?]].
  3: apply (keeps_field _ (on_ptr ConsensusParamsUpdate_typed)); [apply keeps_ptr; [by repeat split|apply ConsensusParamsUpdate_decoded]|by intros a [? ?]|by intros b [] [? ?]].
  all: apply (keeps_field _ (λ _, True)); [done|done|by intros b []].
Qed.

(** C28: Whatever JSON a contract sends, a message that is decoded is well-typed: the
    privileges it requests or releases are registered types or none (an unknown name counts
    as none), the consensus parameters are 64-bit integers, and an upgrade plan
    carries no client state. *)
Theorem UnmarshalWithAny_typed bz m : UnmarshalWithAny bz = Ok m → PetriMsg_typed m.
Proof.
  unfold UnmarshalWithAny. intros (p & Hp & Hrest)%outcome_bind_ok.
  assert (decoded_typed p) as Hty.
  { destruct (Unmarshal dec_PetriMsg bz empty_PetriMsg) as [q|?|?] eqn:Hu; [|done..]. injection Hp as ->.
    destruct bz as [|j|]; [done| |done]. by apply (PetriMsg_decoded j empty_PetriMsg). }
  destruct (PM_ExecuteGovProposal p) as [e|] eqn:He.
  - apply outcome_bind_ok in Hrest as ([] & Hun%wrap_ok & [= <-]). split; [done|]. rewrite He.
    intros e' [= <-] plan Hplan. unfold unpackInterfaces in Hun. rewrite Hplan in Hun.
    by destruct (UpgradedClientState plan).
  - injection Hrest as <-. split; [done|]. rewrite He. done.
Qed.
End typed.

(** C28: a request with a known name, and one with an unknown name, which counts as none. *)
Lemma UnmarshalWithAny_typed_witness :
  (∃ m, UnmarshalWithAny (JText (JObj [("privilege", JObj [("request", JStr "begin_blocker")])])) = Ok m ∧
        PM_Privilege m = Some (mkPrivilegeMsg PrivilegeTypeBeginBlock 0) ∧ PetriMsg_typed m) ∧
  (∃ m, UnmarshalWithAny (JText (JObj [("privilege", JObj [("request", JStr "root")])])) = Ok m ∧
        PM_Privilege m = Some (mkPrivilegeMsg 0 0) ∧ PetriMsg_typed m).
Proof.
  split; eexists; (split; [vm_compute; reflexivity|]); (split; [reflexivity|]).
  - apply (UnmarshalWithAny_typed (JText (JObj [("privilege", JObj [("request", JStr "begin_blocker")])]))).
    vm_compute. reflexivity.
  - apply (UnmarshalWithAny_typed (JText (JObj [("privilege", JObj [("request", JStr "root")])]))).
    vm_compute. reflexivity.
Defined.
