(* ===== verification/TwasmProps.v ===== *)
(** The theorems about privileges, with the concrete chains they are evaluated on. *)
From stdpp Require Import base list strings gmap sets sorting relations.
From Stdlib Require Import ZArith Lia.
From S2P Require Import Prelude Sdk RefStore Slice Json Privilege TwasmMsgs Wasm TwasmKeeper TwasmHandler TwasmSteps RefWorld.
Open Scope Z_scope.

(** ** Concrete chains *)

(** Three contracts of two codes, nothing privileged. *)
Definition w0 : World :=
  mkWorld ∅
    (<["alice" := mkContractInfo 1 "" None]>
      (<["bob" := mkContractInfo 1 "" None]> (<["carol" := mkContractInfo 2 "" None]> ∅)))
    ∅
    (<["alice" := Requests [1; 2]]>
      (<["bob" := Requests [2; 3]]> (<["carol" := Requests [1; 2; 5; 6]]> ∅)))
    ∅
    (Some (mkConsensusParams (Some (mkAbciBlock 100 200)) (Some (mkAbciEvidence 1 2 3)) "")).

Definition run {A} (m : M World A) (w : World) : World := store (m (mkCtx w [])).2.

Lemma run_ok (m : M World ()) w :
  is_ok (m (mkCtx w [])).1 = true → m (mkCtx w []) = (Ok (), (m (mkCtx w [])).2).
Proof. by destruct (m (mkCtx w [])) as [[[]|e|e] c]. Qed.

Lemma run_okA {A} (m : M World A) w :
  is_ok (m (mkCtx w [])).1 = true → ∃ a, m (mkCtx w []) = (Ok a, (m (mkCtx w [])).2).
Proof. destruct (m (mkCtx w [])) as [[a|e|e] c]; [by exists a|done|done]. Qed.

(** alice promoted; then bob; then carol, who asks for four privileges. *)
Definition w1 : World := run (SetPrivileged "alice") w0.
Definition w2 : World := run (SetPrivileged "bob") w1.
Definition w3 : World := run (SetPrivileged "carol") w2.

Lemma w0_no_privileges : no_privileges w0.
Proof.
  split; [done|]. intros a i. unfold w0. cbn.
  rewrite !lookup_insert, lookup_empty. repeat case_decide; intros; by simplify_eq.
Qed.

Section set_unset.
Context `{!KVStore W, !KVLaws W, !WasmKeeper W, !WasmLaws W, !Bech32, !WasmVM W, !WasmVMLaws W}.

Lemma sudo_msg_steps a m (c : Ctx W) r c' :
  sudo_msg a m c = (Ok r, c') → rtc priv_step (store c) (store c').
Proof.
  unfold sudo_msg. destruct (PetriSudoMsg_Marshal m); [|done|done].
  intros Hrun%wrapM_ok. by eapply Sudo_steps.
Qed.

Lemma SetPrivileged_steps a (c c' : Ctx W) :
  SetPrivileged a c = (Ok (), c') → rtc priv_step (store c) (store c').
Proof.
  intros ([] & c1 & Hp & (r & c2 & Hs & [= <-])%M_bind_ok)%M_bind_ok. cbn.
  eapply rtc_l; [by eapply step_promote|]. by eapply sudo_msg_steps.
Qed.

Lemma UnsetPrivileged_steps a (c c' : Ctx W) :
  UnsetPrivileged a c = (Ok (), c') → rtc priv_step (store c) (store c').
Proof.
  intros (r & c1 & Hs & Hd)%M_bind_ok. eapply rtc_r; [by eapply sudo_msg_steps|].
  by eapply step_demote.
Qed.

(** C1: from a chain without registrations, any sequence of registrations,
    releases, promotions, demotions and steps of other modules leads to a state
    where contract extensions and index agree, every registration is valid and
    singleton privileges have one holder. *)
Theorem reachable_priv_inv (w w' : W) :
  no_privileges w → rtc priv_step w w' → priv_inv w'.
Proof. intros H0 Hs. eapply priv_steps_inv; [done|]. by apply priv_inv_init. Qed.

(** C8: Promoting and demoting a contract keeps the extensions of all contracts and the index of
    registrations in agreement, every registration valid and singleton privileges with one holder, although
    the contract is called on the way and may register and release privileges while it is promoted, and although the
    demotion deletes from the slice it iterates over. *)
Theorem SetUnset_priv_inv a (c c' : Ctx W) :
  priv_inv (store c) →
  SetPrivileged a c = (Ok (), c') ∨ UnsetPrivileged a c = (Ok (), c') →
  priv_inv (store c').
Proof.
  intros Hinv [Hrun|Hrun]; (eapply priv_steps_inv; [|done]).
  - by eapply SetPrivileged_steps.
  - by eapply UnsetPrivileged_steps.
Qed.
End set_unset.

Lemma w3_reachable : rtc priv_step w0 w3.
Proof.
  assert (∀ a w, is_ok (SetPrivileged a (mkCtx w [])).1 = true → rtc priv_step w (run (SetPrivileged a) w)) as H.
  { intros a w Hok. unfold run. destruct (SetPrivileged a (mkCtx w [])) as [[[]|e|e] c'] eqn:E; [|done|done].
    by eapply SetPrivileged_steps in E. }
  trans w1; [|trans w2]; apply H; vm_compute; reflexivity.
Qed.

Lemma w3_inv : priv_inv w3.
Proof. eapply priv_steps_inv; [apply w3_reachable|]. apply priv_inv_init, w0_no_privileges. Qed.

(** C1 at the chain where three contracts were promoted. *)
Lemma reachable_priv_inv_witness : priv_inv w3.
Proof. apply (reachable_priv_inv w0 w3); [apply w0_no_privileges|apply w3_reachable]. Defined.

(** C8: carol is demoted. *)
Lemma SetUnset_priv_inv_witness : priv_inv (run (UnsetPrivileged "carol") w3).
Proof.
  apply (SetUnset_priv_inv "carol" (mkCtx w3 []) (UnsetPrivileged "carol" (mkCtx w3 [])).2 w3_inv).
  right. apply run_ok. vm_compute. reflexivity.
Defined.

(** ** Messages of contracts and the lists of holders *)
Section messages.
Context `{!KVStore W, !KVLaws W, !WasmKeeper W, !WasmLaws W, !Bech32}.

(** C2: a privilege message does to the lists of holders exactly what
    [spec_privilege] says: registration appends the contract to the list of the
    type unless it is on it, release takes it off, nothing else changes. *)
Theorem handlePrivilege_refines a m (c c' : Ctx W) t :
  priv_inv (store c) → handlePrivilege a m c = (Ok (), c') → known t →
  subscribers (store c') t = spec_privilege a m (subscribers (store c)) t.
Proof.
  intros Hinv Hrun Ht. destruct (handlePrivilege_cases a m c c' Hinv Hrun) as (d & Hd & Hcase).
  unfold spec_privilege. case_decide.
  - by eapply unregister_subscribers.
  - by eapply register_subscribers.
Qed.

(** Storing the extension of a new registration succeeds. *)
Lemma register_stored a d t (c : Ctx W) :
  priv_inv (store c) → details_of (store c) a = Some d → known t →
  HasRegisteredPrivilege t d = false → next_pos (store c) t ≤ 255 →
  ∃ c', setContractDetails a (AddRegisteredPrivilege t (next_pos (store c) t) d)
    (mkCtx (kv_set StoreKey (contractPrivilegesSecondaryIndexKey t (next_pos (store c) t)) a (store c))
       (events c ++ [privilege_event EventTypeRegisterPrivilege a t])) = (Ok (), c').
Proof.
  intros Hinv Hd Ht Hhas Hn. destruct (details_of_Some _ _ _ Hd) as (i & Hi & _).
  pose proof (inv_valid _ _ _ Hinv Hd) as Hval.
  pose proof (next_pos_range _ t Hinv (known_byte t Ht)) as Hr.
  assert (valid_details (AddRegisteredPrivilege t (next_pos (store c) t) d)) as Hv.
  { apply Add_valid; [done..| |lia]. intros Hin. apply (Has_valid t d) in Hin; [congruence|done..]. }
  eapply (SetExtension_ok _ _ _ i); [|by apply valid_ValidateBasic|by apply valid_positions].
  cbn. by rewrite GetContractInfo_set.
Qed.

(** Every outcome of a request for a privilege the contract does not have:
    refused when the type is a singleton that is taken, a panic when position 255
    is used up, and otherwise success. *)
Lemma request_outcome a d t (c : Ctx W) :
  priv_inv (store c) → details_of (store c) a = Some d → known t →
  HasRegisteredPrivilege t d = false →
  let r := (handlePrivilege a (mkPrivilegeMsg t PrivilegeTypeEmpty) c).1 in
  if decide (IsSingleton t = true ∧ subscribers (store c) t ≠ [])
  then r = Err (Wrap ErrDuplicate "privilege registration")
  else if decide (next_pos (store c) t = 256)
  then r = Panic "Overflow in privilege positions"
  else r = Ok ().
Proof.
  intros Hinv Hd Ht Hhas. destruct (details_of_Some _ _ _ Hd) as (i & Hi & Hr).
  pose proof (known_byte t Ht) as Hb. pose proof (next_pos_range _ t Hinv Hb) as Hn.
  assert (t ≠ 0) by (apply known_range in Ht; lia).
  unfold handlePrivilege. unfold mbind, M_bind, gets, lift. rewrite Hi, Hr. cbn.
  destruct (Z.eqb_spec t PrivilegeTypeEmpty); [done|]. cbn. unfold register. rewrite Hhas.
  unfold mbind, M_bind, wrapM. rewrite append_spec by done.
  assert (subscribers (store c) t = [] ↔ queue (store c) t = []) as Hnil
    by (unfold subscribers; split; [apply fmap_nil_inv|by intros ->]).
  pose proof (register_stored a d t c Hinv Hd Ht Hhas) as Hset.
  case_decide as Hs.
  - destruct Hs as [-> Hne]. by rewrite bool_decide_false by tauto.
  - assert (IsSingleton t && negb (bool_decide (queue (store c) t = [])) = false) as ->.
    { destruct (IsSingleton t); [|done]. destruct (bool_decide_reflect (queue (store c) t = [])); tauto. }
    case_decide; (destruct (Z.ltb_spec 255 (next_pos (store c) t)); [|try lia]); try done; [lia|].
    cbn. destruct Hset as [c' ->]; [lia|done].
Qed.
End messages.

(** C2: bob releases the end-blocker privilege between alice and carol. *)
Lemma handlePrivilege_refines_witness :
  let m := mkPrivilegeMsg 0 PrivilegeTypeEndBlock in
  subscribers (run (handlePrivilege "bob" m) w3) PrivilegeTypeEndBlock = ["alice"; "carol"].
Proof.
  intros m. unfold run.
  rewrite (handlePrivilege_refines "bob" m (mkCtx w3 []) (handlePrivilege "bob" m (mkCtx w3 [])).2
             PrivilegeTypeEndBlock w3_inv);
    [vm_compute; reflexivity|apply run_ok; vm_compute; reflexivity|by apply known_range].
Defined.

(** Alice asks for the singleton privilege that bob has. *)
Lemma request_outcome_witness :
  (handlePrivilege "alice" (mkPrivilegeMsg PrivilegeTypeValidatorSetUpdate PrivilegeTypeEmpty)
     (mkCtx w3 [])).1 = Err (Wrap ErrDuplicate "privilege registration").
Proof.
  assert (known PrivilegeTypeValidatorSetUpdate) as Hk by (by apply known_range).
  pose proof (request_outcome "alice"
    (mkDetails [mkRP 1 "begin_blocker"; mkRP 1 "end_blocker"]) PrivilegeTypeValidatorSetUpdate
    (mkCtx w3 []) w3_inv eq_refl Hk eq_refl) as Hr.
  cbv zeta in Hr. rewrite decide_True in Hr; [exact Hr|]. clear Hr.
  split; [vm_compute; reflexivity|vm_compute; discriminate].
Defined.

(** ** Demotion *)
Section demotion.
Context `{!KVStore W, !KVLaws W, !WasmKeeper W, !WasmLaws W, !Bech32}.

(** The entries of a list of holders after the demotion of [a]. *)
Lemma demote_subscribers_gen a d (c c' : Ctx W) t :
  priv_inv (store c) → details_of (store c) a = Some d → demote a c = (Ok (), c') → known t →
  subscribers (store c') t =
  filter (λ b, b = a → t ∈ ptype <$> survivors (RegisteredPrivileges d)) (subscribers (store c) t).
Proof.
  intros Hinv Hd Hrun Ht. pose proof (inv_valid _ _ _ Hinv Hd) as Hval.
  destruct (demote_spec a c c' d Hinv Hd Hrun) as [Hupd _].
  unfold subscribers. rewrite <-filter_snd. f_equal.
  assert (valid_details (mkDetails (survivors (RegisteredPrivileges d)))) as Hval'.
  { destruct d. eapply valid_sublist; [apply survivors_sublist|done]. }
  rewrite (queue_remove (store c) (store c') a d (mkDetails (survivors (RegisteredPrivileges d))) t);
    [|done|by eapply demote_inv|done|done|done| |done]; cycle 1.
  { intros v Hv. eapply sublist_elem; [apply survivors_sublist|done]. }
  apply filter_ext_in. intros [p b] (Hp & Hget)%queue_elem; [|done|by apply known_byte]. cbn.
  split; intros Himp Hb; specialize (Himp Hb); subst b.
  - apply list_elem_of_fmap. exists (mkRP p (PrivilegeType_String t)). by rewrite ptype_mk.
  - apply list_elem_of_fmap in Himp as (v & Ht' & Hv).
    destruct (inv_get (store c) t p a Hinv) as (_ & _ & d' & Hd' & Hin);
      [by apply known_byte|unfold is_u; lia|done|].
    assert (v = mkRP p (PrivilegeType_String t)) as <-; [|done].
    apply (valid_same_type d); [done| |congruence|by rewrite ptype_mk].
    eapply sublist_elem; [apply survivors_sublist|done].
Qed.

(** Demoting a contract that has at most two privileges left clears its
    flag, its registrations and its place in every list of holders, and leaves
    the other holders in order. *)
Lemma demote_clears a d (c c' : Ctx W) t :
  priv_inv (store c) → details_of (store c) a = Some d →
  (length (RegisteredPrivileges d) ≤ 2)%nat → demote a c = (Ok (), c') → known t →
  IsPrivileged (store c') a = false ∧ details_of (store c') a = Some (mkDetails []) ∧
  subscribers (store c') t = filter (λ b, b ≠ a) (subscribers (store c) t).
Proof.
  intros Hinv Hd Hlen Hrun Ht. destruct (demote_spec a c c' d Hinv Hd Hrun) as [Hupd Hflag].
  apply survivors_short in Hlen. rewrite Hlen in Hupd. split_and!.
  - by rewrite Hflag, decide_True.
  - by eapply upd_details_of.
  - rewrite (demote_subscribers_gen a d c c') by done. rewrite Hlen.
    apply filter_ext_in. intros b _. set_solver.
Qed.

(** C30: with three or more privileges left, a demoted contract loses its flag
    but stays in the list of holders of some privilege: the loop that removes
    the privileges deletes from the slice it iterates over. *)
Theorem demote_leaves_privileges a d (c c' : Ctx W) :
  priv_inv (store c) → details_of (store c) a = Some d →
  (3 ≤ length (RegisteredPrivileges d))%nat → demote a c = (Ok (), c') →
  IsPrivileged (store c') a = false ∧ ∃ t, known t ∧ a ∈ subscribers (store c') t.
Proof.
  intros Hinv Hd Hlen Hrun. destruct (demote_spec a c c' d Hinv Hd Hrun) as [Hupd Hflag].
  split; [by rewrite Hflag, decide_True|].
  destruct (survivors (RegisteredPrivileges d)) as [|v l] eqn:E.
  { apply survivors_short in E. lia. }
  assert (rp_ok v) as Hok.
  { eapply valid_rp_ok; [by eapply inv_valid|]. eapply sublist_elem; [apply survivors_sublist|].
    rewrite E. by left. }
  exists (ptype v). split; [by apply rp_ok_known|].
  apply subscribers_elem; [by eapply demote_inv|by apply known_byte, rp_ok_known|].
  exists (Position v). split; [apply Hok|]. apply (upd_get _ _ _ _ v Hupd). by left.
Qed.

(** Demotion of a known contract does not fail or panic as long as wasmd
    unpins the code. *)
Theorem demote_total a (c : Ctx W) i :
  priv_inv (store c) → GetContractInfo (store c) a = Some i →
  (∀ c0 : Ctx W, ∃ c1, UnpinCode (CodeID i) c0 = (Ok (), c1)) →
  ∃ c', demote a c = (Ok (), c').
Proof.
  intros Hinv Hi Hunpin. destruct (inv_details _ Hinv a i Hi) as (d & Hr & Hval).
  unfold demote. unfold mbind at 1, M_bind at 1, gets. rewrite Hi.
  unfold mbind at 1, M_bind at 1, gets.
  assert (∀ b : bool, ∃ c1, (if b then wrapM "unpin" (UnpinCode (CodeID i)) else mret ()) c = (Ok (), c1) ∧
    same_contracts (store c) (store c1)) as Hstep.
  { intros []; [|by exists c]. destruct (Hunpin c) as [c1 Hc1]. exists c1. unfold wrapM. rewrite Hc1.
    split; [done|]. by eapply UnpinCode_frame. }
  destruct (Hstep (forallb (λ address, (a =? address)%string)
    (IterateContractsByCode (store c) (CodeID i)))) as (c1 & Hc1 & Hs1).
  unfold mbind at 1, M_bind at 1. rewrite Hc1.
  destruct (clear_flag_spec a c1) as (w2 & Hc2 & Hs2 & _).
  unfold mbind at 1, M_bind at 1. rewrite Hc2. unfold mbind at 1, M_bind at 1, lift at 1. rewrite Hr.
  destruct (demote_iterate a d (mkCtx w2 (events c1)) Hval) as [tl Htl].
  unfold mbind at 1, M_bind at 1. rewrite Htl.
  destruct (remove_regs_spec a (visited (RegisteredPrivileges d) 0) (mkCtx w2 (events c1)))
    as (w3 & evs & Hfor & Hs3 & _).
  unfold mbind at 1, M_bind at 1. rewrite Hfor. cbn [mret M_ret].
  unfold view. cbn [len arr]. rewrite take_app_length.
  assert (valid_details (mkDetails (survivors (RegisteredPrivileges d)))) as Hval'.
  { destruct d. eapply valid_sublist; [apply survivors_sublist|done]. }
  destruct (SetExtension_ok a (mkDetails (survivors (RegisteredPrivileges d)))
    (mkCtx w3 (events (mkCtx w2 (events c1)) ++ evs)) i) as [c4 Hc4].
  - cbn. rewrite Hs3. cbn. by rewrite Hs2, Hs1.
  - by apply valid_ValidateBasic.
  - by apply valid_positions.
  - unfold mbind, M_bind, wrapM, setContractDetails. rewrite Hc4. by eexists.
Qed.
End demotion.

(** alice and carol have two and four privileges. *)
Definition alice_details : PetriContractDetails :=
  mkDetails [mkRP 1 "begin_blocker"; mkRP 1 "end_blocker"].
Definition carol_details : PetriContractDetails :=
  mkDetails [mkRP 2 "begin_blocker"; mkRP 3 "end_blocker"; mkRP 1 "token_minter";
             mkRP 1 "consensus_param_changer"].

(** Alice is demoted. *)
Lemma demote_clears_witness :
  subscribers (run (demote "alice") w3) PrivilegeTypeEndBlock = ["bob"; "carol"].
Proof.
  assert (known PrivilegeTypeEndBlock) as Hk by (by apply known_range).
  destruct (demote_clears "alice" alice_details (mkCtx w3 []) (demote "alice" (mkCtx w3 [])).2
    PrivilegeTypeEndBlock w3_inv) as (_ & _ & Hs);
    [vm_compute; reflexivity|done|apply run_ok; vm_compute; reflexivity|done|].
  unfold run. rewrite Hs. vm_compute. reflexivity.
Defined.

(** C30: carol is demoted. *)
Lemma demote_leaves_privileges_witness :
  ∃ t, known t ∧ "carol" ∈ subscribers (run (demote "carol") w3) t.
Proof.
  assert (3 ≤ length (RegisteredPrivileges carol_details))%nat as Hlen by (cbn; lia).
  destruct (demote_leaves_privileges "carol" carol_details (mkCtx w3 [])
    (demote "carol" (mkCtx w3 [])).2 w3_inv) as [_ Ht];
    [vm_compute; reflexivity|done|apply run_ok; vm_compute; reflexivity|].
  exact Ht.
Defined.

(** The reference chain always unpins. *)
Lemma demote_total_witness : ∃ c', demote "carol" (mkCtx w3 []) = (Ok (), c').
Proof.
  apply (demote_total "carol" (mkCtx w3 []) (mkContractInfo 2 "" (Some (furyaExtension carol_details))) w3_inv).
  - vm_compute. reflexivity.
  - intros c0. by eexists.
Defined.

(** ** Privilege types *)

(** The package initialisation registers all privilege types without
    panicking; names and numbers are in one-to-one correspondence, zero is no
    type, and only the validator set updater is a singleton. *)
Theorem registry_initialised :
  register_all privilege_types empty_registry = Ok registry ∧ registry_wf registry ∧
  (∀ t, known t ↔ 1 ≤ t ≤ 8) ∧
  (∀ t, IsSingleton t = true ↔ t = PrivilegeTypeValidatorSetUpdate) ∧
  (∀ t n, PrivilegeTypeFrom n = Some t ↔ known t ∧ PrivilegeType_String t = n).
Proof.
  split; [apply registry_init|]. split; [apply registry_is_wf|]. split; [apply known_range|]. split.
  - intros t. unfold IsSingleton. rewrite bool_decide_eq_true.
    assert (singleInstanceCallbackTypes registry = {[PrivilegeTypeValidatorSetUpdate]}) as ->
      by (by vm_compute). apply elem_of_singleton.
  - intros t n. split; [apply From_known|]. intros [Ht <-]. by apply From_String.
Qed.

(** A privilege type written as JSON reads back as itself; the empty type is
    written as nothing, an unknown type is refused, an empty name is refused and an
    unknown name leaves the target as it was. *)
Theorem privilege_type_json t t0 n :
  (known t → PrivilegeType_MarshalJSON t = Ok (Some (PrivilegeType_String t)) ∧
             PrivilegeType_UnmarshalJSON t0 (Ok (PrivilegeType_String t)) = Ok t) ∧
  (¬ known t → PrivilegeType_MarshalJSON t = if decide (t = 0) then Ok None else Err ErrInvalid) ∧
  PrivilegeType_UnmarshalJSON t0 (Ok "") = Err ErrInvalid ∧
  (n ≠ "" → (∀ t', PrivilegeType_String t' ≠ n) → PrivilegeType_UnmarshalJSON t0 (Ok n) = Ok t0).
Proof.
  unfold PrivilegeType_MarshalJSON, PrivilegeType_UnmarshalJSON, PrivilegeType_ValidateBasic. split_and!.
  - intros Ht. pose proof Ht as Hr%known_range. rewrite decide_False by lia.
    unfold known in Ht. rewrite decide_True by done. split; [done|]. cbn.
    rewrite decide_False by (by apply String_known_nonempty). by rewrite From_String.
  - intros Hn. case_decide; [done|]. unfold known in Hn. by rewrite decide_False.
  - by cbn.
  - intros Hne Hno. cbn. rewrite decide_False by done.
    destruct (PrivilegeTypeFrom n) as [t'|] eqn:E; [|done]. apply From_known in E as [_ E].
    by destruct (Hno t').
Qed.

(** [ValidateBasic] accepts exactly the registrations with positions from 1
    to 255 and known types, each type at most once, and never panics. *)
Theorem details_ValidateBasic_spec d :
  Forall (λ v, is_u 32 (Position v)) (RegisteredPrivileges d) →
  (PetriContractDetails_ValidateBasic d = Ok () ↔
   Forall (λ v, 1 ≤ Position v ≤ 255 ∧ known (ptype v) ∧ PrivilegeTypeName v = PrivilegeType_String (ptype v))
     (RegisteredPrivileges d) ∧ NoDup (ptype <$> RegisteredPrivileges d)) ∧
  is_panic (PetriContractDetails_ValidateBasic d) = false.
Proof.
  intros Hu. split.
  - rewrite validate_details by done. unfold valid_details.
    assert (Forall rp_ok (RegisteredPrivileges d) ↔ Forall (λ v, 1 ≤ Position v ≤ 255 ∧ known (ptype v) ∧
      PrivilegeTypeName v = PrivilegeType_String (ptype v)) (RegisteredPrivileges d)) as ->; [|done].
    apply Forall_proper; [|done]. intros v. split.
    + intros Hv. split; [apply Hv|]. split; [by apply rp_ok_known|by apply rp_ok_name].
    + intros (Hp & Hk & Hn). split; [done|]. rewrite Hn, From_String by done. eauto.
  - unfold PetriContractDetails_ValidateBasic. generalize (∅ : gset Z). clear Hu.
    induction (RegisteredPrivileges d) as [|v l IH]; intros u; [done|]. cbn.
    unfold RegisteredPrivilege_ValidateBasic, check.
    destruct (MaxUint8 <? Position v); [done|]. destruct (Position v =? 0); [done|]. cbn.
    destruct (PrivilegeTypeFrom (PrivilegeTypeName v)); [|done]. cbn. case_decide; [done|apply IH].
Qed.

(** C25 at two registrations of one type. *)
Lemma details_ValidateBasic_spec_witness :
  PetriContractDetails_ValidateBasic (mkDetails [mkRP 1 "end_blocker"; mkRP 2 "end_blocker"]) ≠ Ok ().
Proof.
  assert (Forall (λ v, is_u 32 (Position v)) [mkRP 1 "end_blocker"; mkRP 2 "end_blocker"]) as Hu
    by (apply (bool_decide_unpack _); by vm_compute).
  rewrite (proj1 (details_ValidateBasic_spec (mkDetails [mkRP 1 "end_blocker"; mkRP 2 "end_blocker"]) Hu)).
  intros [_ Hnd]. vm_compute in Hnd. apply NoDup_cons in Hnd as [Hnot _]. apply Hnot. by left.
Defined.

Section lookups.
Context `{!KVStore W, !KVLaws W, !WasmKeeper W, !WasmLaws W, !Bech32}.

(** Asking whether a contract has a privilege agrees with the list of
    holders; an unknown contract is an error; nothing changes. *)
Theorem HasPrivilegedContract_spec a t (c : Ctx W) :
  priv_inv (store c) → known t →
  HasPrivilegedContract a t c =
  (match GetContractInfo (store c) a with
   | Some _ => Ok (bool_decide (a ∈ subscribers (store c) t))
   | None => Err (Wrap ErrNotFound "contract info")
   end, c).
Proof.
  intros Hinv Ht. unfold HasPrivilegedContract, getContractDetails. unfold mbind, M_bind, gets.
  destruct (GetContractInfo (store c) a) as [i|] eqn:Hi; [|done].
  destruct (inv_details _ Hinv a i Hi) as (d & Hr & _). unfold lift. rewrite Hr.
  unfold mret, M_ret. do 2 f_equal.
  assert (details_of (store c) a = Some d) as Hd by (unfold details_of; rewrite Hi; cbn; by rewrite Hr).
  pose proof (subscribers_has _ _ _ _ Hinv Ht Hd) as Hiff.
  destruct (HasRegisteredPrivilege t d); symmetry;
    [by apply bool_decide_eq_true, Hiff|apply bool_decide_eq_false; rewrite Hiff; done].
Qed.

(** The existence check sees every holder but one at position 255, the end
    of its exclusive range: it is true exactly when a position up to 254 is held. *)
Lemma ExistsAny_spec (w : W) t :
  priv_inv w → known t →
  ExistsAnyPrivilegedContract w t = true ↔
  ∃ p a, 1 ≤ p ≤ 254 ∧ getPrivilegedContract w t p = Some a.
Proof.
  intros Hinv Ht. pose proof (known_byte t Ht) as Hb.
  unfold ExistsAnyPrivilegedContract, kv_iterate_range.
  set (l := kv_iterate w StoreKey (getContractPrivilegesSecondaryIndexPrefix t)).
  assert ((∃ p a, 1 ≤ p ≤ 254 ∧ getPrivilegedContract w t p = Some a) ↔
    ∃ e, e ∈ filter (λ kv : bytes * bytes, bytes_le (bytes1 0) kv.1 ∧ bytes_lt kv.1 (bytes1 MaxUint8)) l) as ->.
  - split.
    + intros (p & a & Hp & Hget). exists (bytes1 p, a). apply list_elem_of_filter. split.
      * cbn. split; [apply bytes_le_lt_eq; left|]; apply bytes1_lt; unfold is_u, MaxUint8; lia.
      * unfold l. by apply kv_iterate_elem.
    + intros ([k a] & [[Hle Hlt] Hin]%list_elem_of_filter).
      pose proof Hin as Hget%kv_iterate_elem.
      destruct (inv_entry w t k a Hinv Hb Hin) as (_ & Hp & Hk). rewrite Hk in Hlt, Hget. cbn in Hlt.
      apply bytes1_lt in Hlt; [|unfold is_u, MaxUint8; lia..].
      exists (key_pos k), a. unfold MaxUint8 in Hlt. split; [lia|done].
  - destruct (filter _ l) as [|e l'].
    + split; [done|]. by intros [e He%not_elem_of_nil].
    + split; [|done]. intros _. exists e. by left.
Qed.
End lookups.

#[local] Opaque w3.

(** Carol and the end blockers. *)
Lemma HasPrivilegedContract_spec_witness :
  HasPrivilegedContract "carol" PrivilegeTypeEndBlock (mkCtx w3 []) = (Ok true, mkCtx w3 []).
Proof.
  assert (known PrivilegeTypeEndBlock) as Hk by (by apply known_range).
  rewrite (HasPrivilegedContract_spec "carol" PrivilegeTypeEndBlock (mkCtx w3 []) w3_inv Hk).
  apply (f_equal (λ o, (o, mkCtx w3 []))). vm_compute. reflexivity.
Defined.

(** There are end blockers on [w3]. *)
Lemma ExistsAny_spec_witness : ExistsAnyPrivilegedContract w3 PrivilegeTypeEndBlock = true.
Proof.
  assert (known PrivilegeTypeEndBlock) as Hk by (by apply known_range).
  apply (ExistsAny_spec w3 PrivilegeTypeEndBlock w3_inv Hk). exists 1, "alice".
  split; [lia|]. vm_compute. reflexivity.
Defined.
