(* ===== verification/TwasmHandlerProps.v ===== *)
(** Theorems about the handlers of custom messages: who may do what, what a
    proposal becomes, which parameters can change. *)
From stdpp Require Import base list strings gmap sets sorting relations.
From Stdlib Require Import ZArith Lia.
From S2P Require Import Prelude Sdk RefStore Slice Json Privilege TwasmMsgs Wasm TwasmKeeper TwasmHandler TwasmSteps RefWorld TwasmProps.
Open Scope Z_scope.

(** ** Authorisation *)

(** The privilege a message needs beyond the privileged flag; the first field
    that is set decides. *)
Definition required_privilege (m : PetriMsg) : option Z :=
  match PM_Privilege m, PM_ExecuteGovProposal m, PM_MintTokens m, PM_ConsensusParams m,
        PM_Delegate m, PM_Undelegate m with
  | Some _, _, _, _, _, _ => None
  | None, Some _, _, _, _, _ => Some PrivilegeTypeGovProposalExecutor
  | None, None, Some _, _, _, _ => Some PrivilegeTypeTokenMinter
  | None, None, None, Some _, _, _ => Some PrivilegeConsensusParamChanger
  | None, None, None, None, Some _, _ | None, None, None, None, None, Some _ => Some PrivilegeDelegator
  | None, None, None, None, None, None => None
  end.

Section authorisation.
Context `{!KVStore W, !WasmKeeper W, !Bech32, !SdkCoins, !ForeignDecoders, !GovTypes,
          !BankKeeper W, !ConsensusParamsUpdater W}.

Definition has_privilege (w : W) (a : AccAddress) (t : Z) : Prop :=
  ∃ d, details_of w a = Some d ∧ HasRegisteredPrivilege t d = true.

(** The message is readable, comes from a privileged contract, and the contract
    has the privilege for it. *)
Definition authorised (w : W) (a : AccAddress) (custom : json_bytes) : Prop :=
  IsPrivileged w a = true ∧
  ∃ m, UnmarshalWithAny custom = Ok m ∧ from_option (has_privilege w a) True (required_privilege m).

(** Without the privilege a guarded handler stops before it does anything. *)
Lemma assert_cases a t (c : Ctx W) :
  has_privilege (store c) a t ∨
  (∃ e, assertHasPrivilege a t c = (Err e, c)) ∨ (∃ p, assertHasPrivilege a t c = (Panic p, c)).
Proof.
  unfold has_privilege, details_of, assertHasPrivilege.
  unfold mbind, M_bind, gets. destruct (GetContractInfo (store c) a) as [i|]; [|by right; left; eauto].
  cbn. unfold lift. destruct (ReadExtension i) as [d|e|e]; [|by right; left; eauto|by right; right; eauto].
  cbn. destruct (HasRegisteredPrivilege t d) eqn:Hh; [left; eauto|by right; left; eauto].
Qed.

Lemma assert_pure a t (c : Ctx W) : (assertHasPrivilege a t c).2 = c.
Proof.
  unfold assertHasPrivilege, mbind, M_bind, gets, lift.
  destruct (GetContractInfo (store c) a) as [i|]; [|done]. by destruct (ReadExtension i).
Qed.

Lemma dispatch_guarded router a m (c : Ctx W) :
  from_option (has_privilege (store c) a) True (required_privilege m) ∨
  (dispatch router a m c).2 = c ∧ is_ok (dispatch router a m c).1 = false.
Proof.
  unfold required_privilege, dispatch. destruct m as [[]  [] [] [] [] []]; cbn;
    try (by left); try (by right);
  match goal with |- has_privilege _ _ ?t ∨ _ =>
    destruct (assert_cases a t c) as [?|[[? He]|[? He]]]; [by left|right|right] end;
  unfold handleGovProposalExecution, handleMintToken, handleConsensusParamsUpdate, handleDelegate,
    handleUndelegate, mbind, M_bind; by rewrite He.
Qed.

(** C3: whatever a contract sends, either it is authorised, or the call fails
    and neither the state nor the events change. *)
Theorem DispatchMsg_authorised router a custom (c : Ctx W) :
  authorised (store c) a custom ∨
  (DispatchMsg router a custom c).2 = c ∧ is_ok (DispatchMsg router a custom c).1 = false.
Proof.
  unfold authorised, DispatchMsg. destruct custom as [|j|b]; [by right| |];
  (unfold mbind at 1 2, M_bind at 1 2, gets;
   destruct (IsPrivileged (store c) a); cbn [negb]; [|by right];
   unfold with_em, with_fresh_events;
   destruct (UnmarshalWithAny _) as [m|e|e] eqn:Em; [|by right; destruct c|by right; destruct c]).
  all: destruct (dispatch_guarded (restrictParamsDecorator router) a m (mkCtx (store c) [])) as [Hp|[Hc Ho]];
    [left; by eauto|right].
  all: destruct (dispatch _ _ _ _) as [o c']; cbn in *; subst c'; cbn; split; [by destruct c|by destruct o].
Qed.
End authorisation.

(** ** The parameter router *)

(** The proposal changes a parameter of the baseapp subspace. *)
Definition touches_baseapp (content : Content) : bool :=
  match content with
  | CParameterChange p => existsb (λ c, Subspace c =? baseapp_Paramspace)%string (payload p)
  | _ => false
  end.

Section router_props.
Context {W : Type}.

Lemma restricted_router (nested : Router W) path h content (c : Ctx W) :
  GetRoute nested path = Ok h →
  ∃ h', GetRoute (restrictParamsDecorator nested) path = Ok h' ∧
    h' content c =
    if decide (path = params_RouterKey ∧ touches_baseapp content = true)
    then (Err (Wrap ErrUnauthorized "base params can not be modified via params proposal"), c)
    else h content c.
Proof.
  intros Hh. cbn. rewrite Hh. cbn. destruct (decide (path = params_RouterKey)) as [->|Hne].
  - eexists. split; [done|]. destruct content; cbn; try (rewrite decide_False by naive_solver; done).
    destruct (existsb _ _) eqn:E; [by rewrite decide_True|by rewrite decide_False by naive_solver].
  - exists h. split; [done|]. by rewrite decide_False by tauto.
Qed.

Context `{!KVStore W, !WasmKeeper W, !Bech32, !SdkCoins, !ForeignDecoders, !GovTypes,
          !BankKeeper W, !ConsensusParamsUpdater W}.

(** C31: a contract that executes a governance proposal cannot change the
    parameters of baseapp: such a proposal fails without any effect, whatever
    router the chain has; every other proposal runs as with the chain's router. *)
Theorem gov_params_restricted (nested : Router W) a exec content (c : Ctx W) :
  GetProposalContent AccAddress_String exec a = Some content →
  (∀ p, content = CParameterChange p → ProposalRoute content = params_RouterKey) →
  let r := handleGovProposalExecution (restrictParamsDecorator nested) a exec c in
  if touches_baseapp content then is_ok r.1 = false ∧ r.2 = c
  else r = handleGovProposalExecution nested a exec c.
Proof.
  intros Hc Hroute. unfold handleGovProposalExecution. unfold mbind, M_bind.
  pose proof (assert_pure a PrivilegeTypeGovProposalExecutor c) as Hpure.
  destruct (assertHasPrivilege _ _ c) as [[[]|e|e] c1]; cbn in Hpure; subst c1;
    [|by destruct (touches_baseapp content)..].
  rewrite Hc. unfold lift. destruct (wrap _ _) as [[]|e|e]; [|by destruct (touches_baseapp content)..].
  change (HasRoute (restrictParamsDecorator nested)) with (HasRoute nested).
  destruct (check _ _) as [[]|e|e]; [|by destruct (touches_baseapp content)..].
  destruct (GetRoute nested (ProposalRoute content)) as [h|e|e] eqn:Eh.
  - destruct (restricted_router nested (ProposalRoute content) h content c Eh) as (h' & -> & Hh').
    cbn zeta beta. rewrite Hh'. destruct (touches_baseapp content) eqn:Et.
    + destruct content; try done. by rewrite decide_True by eauto.
    + by rewrite decide_False by naive_solver.
  - cbn. rewrite Eh. cbn. by destruct (touches_baseapp content).
  - cbn. rewrite Eh. cbn. by destruct (touches_baseapp content).
Qed.
End router_props.

(** ** Consensus parameters *)
Section consensus.

(** The block and evidence parameters after an update. *)
Definition merged_block (delta : option BlockParams) (b : AbciBlockParams) : AbciBlockParams :=
  mkAbciBlock (default (AB_MaxBytes b) (delta ≫= BP_MaxBytes)) (default (AB_MaxGas b) (delta ≫= BP_MaxGas)).
Definition merged_evidence (delta : option EvidenceParams) (e : AbciEvidenceParams) : AbciEvidenceParams :=
  mkAbciEvidence
    (default (AE_MaxAgeNumBlocks e) (delta ≫= EP_MaxAgeNumBlocks))
    (default (AE_MaxAgeDuration e) ((λ s, int64 (s * 1000000000)) <$> (delta ≫= EP_MaxAgeDuration)))
    (default (AE_MaxBytes e) (delta ≫= EP_MaxBytes)).

Lemma merge_complete b e r delta :
  mergeConsensusParamsUpdate (Some (mkConsensusParams (Some b) (Some e) r)) delta =
  Ok (Some (mkConsensusParams (Some (merged_block (CPU_Block delta) b))
              (Some (merged_evidence (CPU_Evidence delta) e)) r)).
Proof.
  destruct delta as [[[[mb|] [mg|]]|] [[[ma|] [md|] [me|]]|]], b, e; reflexivity.
Qed.

Context `{!KVStore W, !WasmKeeper W, !Bech32, !SdkCoins, !ForeignDecoders, !GovTypes,
          !BankKeeper W, !ConsensusParamsUpdater W}.

(** The update has a section, and every section it has names a field. *)
Definition names_fields (delta : ConsensusParamsUpdate) : Prop :=
  (is_Some (CPU_Block delta) ∨ is_Some (CPU_Evidence delta)) ∧
  (∀ p, CPU_Block delta = Some p → is_Some (BP_MaxBytes p) ∨ is_Some (BP_MaxGas p)) ∧
  (∀ p, CPU_Evidence delta = Some p →
     is_Some (EP_MaxAgeNumBlocks p) ∨ is_Some (EP_MaxAgeDuration p) ∨ is_Some (EP_MaxBytes p)).

Lemma validate_update delta :
  names_fields delta ∧ ConsensusParamsUpdate_ValidateBasic delta = Ok () ∨
  ¬ names_fields delta ∧ ∃ err, ConsensusParamsUpdate_ValidateBasic delta = Err err.
Proof.
  unfold names_fields.
  destruct delta as [[[[mb|] [mg|]]|] [[[ma|] [md|] [me|]]|]];
    ((left; split; [|reflexivity]; split_and!; cbn; [eauto|intros ? [= <-]; eauto|intros ? [= <-]; eauto]) ||
     (right; split; [|by eexists])); cbn; intros (Hs & Hb & He);
    try (destruct (Hb _ eq_refl) as [[? [=]]|[? [=]]]);
    try (destruct (He _ eq_refl) as [[? [=]]|[[? [=]]|[? [=]]]]); by destruct Hs as [[]|[]].
Qed.

Lemma consensus_update_run a delta b e r (c : Ctx W) :
  has_privilege (store c) a PrivilegeConsensusParamChanger →
  GetConsensusParams (store c) = Some (mkConsensusParams (Some b) (Some e) r) →
  handleConsensusParamsUpdate a delta c =
  match ConsensusParamsUpdate_ValidateBasic delta with
  | Ok _ =>
      (StoreConsensusParams
         (Some (mkConsensusParams (Some (merged_block (CPU_Block delta) b))
                  (Some (merged_evidence (CPU_Evidence delta) e)) r)) ;; mret []) c
  | Err err => (Err err, c)
  | Panic p => (Panic p, c)
  end.
Proof.
  intros (d & Hd & Hp) Hcp. unfold handleConsensusParamsUpdate. unfold mbind at 1, M_bind at 1.
  assert (assertHasPrivilege a PrivilegeConsensusParamChanger c = (Ok (), c)) as ->.
  { unfold assertHasPrivilege, details_of in *. unfold mbind, M_bind, gets, lift.
    destruct (GetContractInfo (store c) a) as [i|]; [|done]. cbn in Hd |- *.
    destruct (ReadExtension i); simplify_eq. by rewrite Hp. }
  unfold mbind at 1, M_bind at 1, lift.
  destruct (ConsensusParamsUpdate_ValidateBasic delta) as [[]|?|?]; [|done|done].
  unfold mbind at 1, M_bind at 1, gets. rewrite Hcp. by rewrite merge_complete.
Qed.

(** C32: On a chain with block and evidence parameters, an update of the consensus parameters by a contract with the
    privilege stores the old parameters with exactly the named fields replaced (the evidence age, given in seconds, in
    nanoseconds) when it has a section for the block or for the evidence and every section it has names a field; without
    a section, or with a section that names no field, it is refused and nothing is stored. *)
Theorem consensus_update_fields a delta b e r (c : Ctx W) :
  has_privilege (store c) a PrivilegeConsensusParamChanger →
  GetConsensusParams (store c) = Some (mkConsensusParams (Some b) (Some e) r) →
  (names_fields delta →
     handleConsensusParamsUpdate a delta c =
     (StoreConsensusParams
        (Some (mkConsensusParams (Some (merged_block (CPU_Block delta) b))
                 (Some (merged_evidence (CPU_Evidence delta) e)) r)) ;; mret []) c) ∧
  (¬ names_fields delta → ∃ err, handleConsensusParamsUpdate a delta c = (Err err, c)).
Proof.
  intros Hp Hcp. rewrite (consensus_update_run a delta b e r c Hp Hcp).
  destruct (validate_update delta) as [[Hn ->]|[Hn [err ->]]]; split; intros Hn'; try done. by exists err.
Qed.

(** C33: the evidence age arrives in seconds and is stored in nanoseconds as an
    int64: the stored value is the intended one exactly when the product fits. *)
Theorem evidence_duration_overflow b e r delta ev s :
  CPU_Evidence delta = Some ev → EP_MaxAgeDuration ev = Some s →
  ∃ e', mergeConsensusParamsUpdate (Some (mkConsensusParams (Some b) (Some e) r)) delta =
    Ok (Some (mkConsensusParams (Some (merged_block (CPU_Block delta) b)) (Some e') r)) ∧
    (AE_MaxAgeDuration e' = s * 1000000000 ↔ - 2 ^ 63 ≤ s * 1000000000 < 2 ^ 63).
Proof.
  intros Hev Hs. rewrite merge_complete. eexists. split; [done|].
  rewrite Hev. cbn. rewrite Hs. cbn. split.
  - intros <-. by apply (wrap_s_range 64).
  - intros Hr. by apply (wrap_s_small 64).
Qed.
End consensus.

(** ** Proposals *)
Definition content_texts (c : Content) : string * string :=
  match c with
  | CText p | CCancelUpgrade p => (Title p, Description p)
  | CSoftwareUpgrade p => (Title p, Description p)
  | CParameterChange p => (Title p, Description p)
  | CClientUpdate p => (Title p, Description p)
  | CPromote p | CDemote p => (Title p, Description p)
  | CInstantiate p => (Title p, Description p)
  | CStoreCode p => (Title p, Description p)
  | CMigrate p => (Title p, Description p)
  | CUpdateAdmin p | CClearAdmin p | CPinCodes p | CUnpinCodes p => (Title p, Description p)
  end.

(** Who a proposal runs as, where it says. *)
Definition content_run_as (c : Content) : option string :=
  match c with
  | CInstantiate p => Some (RunAs (payload p))
  | CStoreCode p => Some (Store_RunAs (payload p))
  | _ => None
  end.

(** The content built from a message carries the title and description of
    the message, and instantiations and code uploads run as the sending contract,
    whatever the message says; there is no content exactly when no proposal is set. *)
Theorem GetProposalContent_spec addr_string p sender :
  match GetProposalContent addr_string p sender with
  | Some c =>
      content_texts c = (EGP_Title p, EGP_Description p) ∧
      from_option (λ r, r = addr_string sender) True (content_run_as c)
  | None => EGP_Proposal p = empty_proposal
  end.
Proof.
  unfold GetProposalContent. destruct p as [t d [a b c e f g h i j k l m n o]]. cbn.
  destruct a; [by split|]. destruct b; [by split|]. destruct c; [by split|]. destruct e; [by split|].
  destruct f; [by split|]. destruct g; [by split|]. destruct h; [by split|]. destruct i; [by split|].
  destruct j; [by split|]. destruct k; [by split|]. destruct l; [by split|]. destruct m; [by split|].
  destruct n; [by split|]. destruct o; [by split|]. done.
Qed.

(** The number of proposals that are set. *)
Definition proposals_set (p : proposalContent) : nat :=
  let s {A} (o : option A) : nat := match o with Some _ => 1%nat | None => 0%nat end in
  (s (GP_Text p) + s (GP_RegisterUpgrade p) + s (GP_CancelUpgrade p) + s (GP_ChangeParams p)
   + s (GP_IBCClientUpdate p) + s (GP_PromoteToPrivilegedContract p) + s (GP_DemotePrivilegedContract p)
   + s (GP_InstantiateContract p) + s (GP_StoreCode p) + s (GP_MigrateContract p)
   + s (GP_SetContractAdmin p) + s (GP_ClearContractAdmin p) + s (GP_PinCodes p) + s (GP_UnpinCodes p))%nat.

Section proposal_json.
Context `{!SdkCoins, !ForeignDecoders}.

Lemma as_json_error_ok {A} (m : outcome A) a : as_json_error m = Ok a ↔ m = Ok a.
Proof. destruct m; naive_solver. Qed.

Lemma custom_single name u j p :
  (name, u) ∈ customUnmarshalers → u j = Ok p →
  proposals_set p = 1%nat ∧
  match name with
  | "ibc_client_update" => is_Some (GP_IBCClientUpdate p)
  | "instantiate_contract" => is_Some (GP_InstantiateContract p)
  | "migrate_contract" => is_Some (GP_MigrateContract p)
  | _ => is_Some (GP_RegisterUpgrade p)
  end.
Proof.
  unfold customUnmarshalers. rewrite !elem_of_cons, elem_of_nil.
  intros [[= -> ->]|[[= -> ->]|[[= -> ->]|[[= -> ->]|[]]]]] Hp;
    unfold unmarshal_ibc_client_update, unmarshal_instantiate_contract, unmarshal_migrate_contract,
      unmarshal_register_upgrade in Hp; rewrite as_json_error_ok in Hp; go_inv; (split; [done|by eexists]).
Qed.

Lemma first_custom_Some raws us r :
  first_custom raws us = Some r →
  ∃ us1 name u us2 j, us = us1 ++ (name, u) :: us2 ∧ raws !! name = Some j ∧ r = as_json_error (u j) ∧
    ∀ n, n ∈ us1.*1 → raws !! n = None.
Proof.
  induction us as [|[n u] us IH]; cbn; [done|]. destruct (raws !! n) as [j|] eqn:E.
  - intros [= <-]. exists [], n, u, us, j. split_and!; [done..|]. set_solver.
  - intros (us1 & n' & u' & us2 & j & -> & Hj & -> & Hno)%IH. exists ((n, u) :: us1), n', u', us2, j.
    split_and!; [done..|]. intros m [->|Hm]%elem_of_cons; auto.
Qed.

Lemma first_custom_None raws us n :
  first_custom raws us = None → n ∈ us.*1 → raws !! n = None.
Proof.
  induction us as [|[n' u] us IH]; cbn; [set_solver|]. destruct (raws !! n') eqn:E; [done|].
  intros Hn [->|Hin]%elem_of_cons; auto.
Qed.

Lemma raws_None (ms : list (string * json)) n :
  (list_to_map (reverse ms) : gmap string json) !! n = None → n ∉ ms.*1.
Proof.
  intros Hn Hin. apply not_elem_of_list_to_map in Hn. apply Hn.
  by rewrite fmap_reverse, elem_of_reverse.
Qed.

Lemma customUnmarshalers_sorted :
  StronglySorted (λ a b, String.ltb a b = true) customUnmarshalers.*1.
Proof. repeat constructor. Qed.

Lemma StronglySorted_mid {A} (R : relation A) l1 x l2 y :
  StronglySorted R (l1 ++ x :: l2) → y ∈ l2 → R x y.
Proof.
  intros Hs%StronglySorted_app Hy. destruct Hs as (_ & _ & Hs).
  inversion Hs as [|? ? _ Hall]; subst. rewrite Forall_forall in Hall. auto.
Qed.

(** A proposal object with one of the members that need a custom reader is
    read as exactly one proposal, that of the alphabetically first such member;
    all other members are ignored. *)
Theorem custom_proposal_single ms p acc name1 :
  GovProposal_UnmarshalJSON (JObj ms) acc = Ok p →
  name1 ∈ ms.*1 → name1 ∈ customUnmarshalers.*1 →
  proposals_set p = 1%nat ∧
  ∃ name u j, (name, u) ∈ customUnmarshalers ∧ (name, j) ∈ ms ∧ u j = Ok p ∧
    ∀ name', name' ∈ customUnmarshalers.*1 → name' ∈ ms.*1 → name' = name ∨ String.ltb name name' = true.
Proof.
  unfold GovProposal_UnmarshalJSON. cbn [dec_raw_map as_json_error mbind outcome_bind].
  intros Hrun Hms Hcustom. pose proof customUnmarshalers_sorted as Hsorted.
  destruct (first_custom _ _) as [r|] eqn:E; cycle 1.
  { by apply (first_custom_None _ _ name1 E), raws_None in Hcustom. }
  destruct (first_custom_Some _ _ _ E) as (us1 & name & u & us2 & j & Hus & Hj & -> & Hno).
  rewrite as_json_error_ok in Hrun.
  assert ((name, u) ∈ customUnmarshalers) as Hin by (rewrite Hus; set_solver).
  split; [by eapply custom_single|]. exists name, u, j. split_and!; [done| |done|].
  - apply elem_of_list_to_map_2 in Hj. by rewrite elem_of_reverse in Hj.
  - intros name' Hn Hm. rewrite Hus, fmap_app, fmap_cons in Hn, Hsorted.
    apply elem_of_app in Hn as [Hn|[->|Hn]%elem_of_cons]; [|by left|].
    + by apply Hno, raws_None in Hn.
    + right. by eapply (StronglySorted_mid (λ a b, String.ltb a b = true)).
Qed.
End proposal_json.

(** ** Tokens *)
Section tokens.
Context `{!KVStore W, !WasmKeeper W, !Bech32, !SdkCoins, !SdkCoinsLaws, !ForeignDecoders, !GovTypes,
          !BankKeeper W, !ConsensusParamsUpdater W}.

(** A successful mint message comes from a contract with the privilege,
    mints a non-negative amount and sends exactly what was minted to the recipient. *)
Lemma mint_exact a mint (c c' : Ctx W) evs :
  handleMintToken a mint c = (Ok evs, c') →
  has_privilege (store c) a PrivilegeTypeTokenMinter ∧
  ∃ recipient amount c1,
    AccAddressFromBech32 (Mint_RecipientAddr mint) = Ok recipient ∧
    NewIntFromString (Mint_Amount mint) = Some amount ∧ 0 ≤ amount ∧
    let coins := if decide (amount = 0) then [] else [mkCoin (Mint_Denom mint) amount] in
    MintCoins ModuleName coins c = (Ok (), c1) ∧
    SendCoinsFromModuleToAccount ModuleName recipient coins c1 = (Ok (), c').
Proof.
  intros Hrun. unfold handleMintToken in Hrun.
  apply M_bind_ok in Hrun as ([] & c0 & Ha & Hrun).
  pose proof (assert_pure a PrivilegeTypeTokenMinter c) as Hp. rewrite Ha in Hp. cbn in Hp. subst c0.
  split; [by destruct (assert_cases a PrivilegeTypeTokenMinter c) as [?|[[e He]|[e He]]];
            [|rewrite He in Ha..]|].
  destruct (AccAddressFromBech32 (Mint_RecipientAddr mint)) as [recipient|e|e]; [|done|done].
  destruct (NewIntFromString (Mint_Amount mint)) as [amount|]; [|done].
  destruct (Coin_Validate (mkCoin (Mint_Denom mint) amount)) as [[]|e|e] eqn:Ev; [|done|done].
  pose proof (Coin_Validate_nonneg _ Ev). pose proof (NewCoins_single _ Ev) as Hn. cbn in *.
  apply M_bind_ok in Hrun as (coins & c1 & [Hcoins ->]%lift_ok & Hrun).
  rewrite Hn in Hcoins. injection Hcoins as <-. go_inv. eexists _, _, _. split_and!; done.
Qed.

(** Delegated funds go from the staker through the bonded pool to the
    contract, undelegated funds go from the contract through the same pool to the
    recipient, the same coins at every hop. *)
Lemma delegate_undelegate_paths a (c c' : Ctx W) evs :
  (∀ d, handleDelegate a d c = (Ok evs, c') →
     has_privilege (store c) a PrivilegeDelegator ∧
     ∃ staker coins c1, AccAddressFromBech32 (StakerAddr d) = Ok staker ∧
       ConvertWasmCoinsToSdkCoins [Delegate_Funds d] = Ok coins ∧
       DelegateCoinsFromAccountToModule staker BondedPoolName coins c = (Ok (), c1) ∧
       SendCoinsFromModuleToAccount BondedPoolName a coins c1 = (Ok (), c')) ∧
  (∀ u, handleUndelegate a u c = (Ok evs, c') →
     has_privilege (store c) a PrivilegeDelegator ∧
     ∃ recipient coins c1, AccAddressFromBech32 (Undelegate_RecipientAddr u) = Ok recipient ∧
       ConvertWasmCoinsToSdkCoins [Undelegate_Funds u] = Ok coins ∧
       SendCoinsFromAccountToModule a BondedPoolName coins c = (Ok (), c1) ∧
       UndelegateCoinsFromModuleToAccount BondedPoolName recipient coins c1 = (Ok (), c')).
Proof.
  assert (∀ c0, assertHasPrivilege a PrivilegeDelegator c = (Ok (), c0) →
    c0 = c ∧ has_privilege (store c) a PrivilegeDelegator) as Hassert.
  { intros c0 Ha. pose proof (assert_pure a PrivilegeDelegator c) as Hp. rewrite Ha in Hp.
    split; [done|]. by destruct (assert_cases a PrivilegeDelegator c) as [?|[[e He]|[e He]]];
      [|rewrite He in Ha..]. }
  split; intros m Hrun; apply M_bind_ok in Hrun as ([] & c0 & [-> Hp]%Hassert & Hrun); (split; [done|]);
    (destruct (AccAddressFromBech32 _) as [x|e|e]; [|done|done]); go_inv;
    match goal with H : as_json_error _ = Ok _ |- _ => rewrite as_json_error_ok in H end; eauto 10.
Qed.

(** Coins move along two hops of the bank, the same coins at both. *)
Definition two_hops (send receive : list Coin → M W ()) (coins : list Coin) (c c' : Ctx W) : Prop :=
  ∃ c1, send coins c = (Ok (), c1) ∧ receive coins c1 = (Ok (), c').

(** The messages of contracts that create or move tokens need their privilege
    and move exactly the coins of the message. A mint creates a non-negative amount
    and sends what was minted to the recipient, delegated funds go from the staker
    through the bonded pool to the contract, undelegated funds from the contract
    through the same pool to the recipient. *)
Lemma token_messages_exact a (c c' : Ctx W) evs :
  (∀ mint, handleMintToken a mint c = (Ok evs, c') →
     has_privilege (store c) a PrivilegeTypeTokenMinter ∧
     ∃ recipient amount, AccAddressFromBech32 (Mint_RecipientAddr mint) = Ok recipient ∧
       NewIntFromString (Mint_Amount mint) = Some amount ∧ 0 ≤ amount ∧
       two_hops (MintCoins ModuleName) (SendCoinsFromModuleToAccount ModuleName recipient)
         (if decide (amount = 0) then [] else [mkCoin (Mint_Denom mint) amount]) c c') ∧
  (∀ d, handleDelegate a d c = (Ok evs, c') →
     has_privilege (store c) a PrivilegeDelegator ∧
     ∃ staker coins, AccAddressFromBech32 (StakerAddr d) = Ok staker ∧
       ConvertWasmCoinsToSdkCoins [Delegate_Funds d] = Ok coins ∧
       two_hops (DelegateCoinsFromAccountToModule staker BondedPoolName)
         (SendCoinsFromModuleToAccount BondedPoolName a) coins c c') ∧
  (∀ u, handleUndelegate a u c = (Ok evs, c') →
     has_privilege (store c) a PrivilegeDelegator ∧
     ∃ recipient coins, AccAddressFromBech32 (Undelegate_RecipientAddr u) = Ok recipient ∧
       ConvertWasmCoinsToSdkCoins [Undelegate_Funds u] = Ok coins ∧
       two_hops (SendCoinsFromAccountToModule a BondedPoolName)
         (UndelegateCoinsFromModuleToAccount BondedPoolName recipient) coins c c').
Proof.
  destruct (delegate_undelegate_paths a c c' evs) as [Hd Hu]. split_and!.
  - intros mint (Hp & recipient & amount & c1 & ?)%mint_exact. split; [done|].
    exists recipient, amount. unfold two_hops. naive_solver.
  - intros d Hrun. apply Hd in Hrun as (Hp & staker & coins & c1 & ?). unfold two_hops. naive_solver.
  - intros u Hrun. apply Hu in Hrun as (Hp & recipient & coins & c1 & ?). unfold two_hops. naive_solver.
Qed.
End tokens.

(** ** Concrete messages *)

(** Only carol holds privileges 5 and 6 (minting, consensus parameters) on [w3];
    on [w3d] bob is also a delegator and a governance executor. *)
Definition w3d : World :=
  run (handlePrivilege "bob" (mkPrivilegeMsg PrivilegeDelegator 0) ;;
       handlePrivilege "bob" (mkPrivilegeMsg PrivilegeTypeGovProposalExecutor 0))
    (upd_balances <[("staker", "ufur") := 50]> w3).

#[local] Opaque w3 w3d.

(** A router with one handler that accepts everything. *)
Definition open_router : Router World :=
  mkRouter (λ _, true) (λ _, Ok (λ _, modify (upd_params None))) (λ _ _, Ok ()) (Ok ()).

Definition base_change : Titled (list ParamChange) :=
  mkTitled "t" "d" [mkParamChange "baseapp" "BlockParams" "{}"].
Definition exec_base : ExecuteGovProposal :=
  mkExecute "t" "d" (mkProposal None None None (Some (payload base_change)) None None None None None
    None None None None None).

(** C31: bob executes a proposal on the block parameters. *)
Lemma gov_params_restricted_witness :
  is_ok (handleGovProposalExecution (restrictParamsDecorator open_router) "bob" exec_base (mkCtx w3d [])).1
    = false.
Proof.
  apply (gov_params_restricted open_router "bob" exec_base (CParameterChange base_change) (mkCtx w3d []));
    [reflexivity|]. by intros p [= <-].
Defined.

(** C32: carol raises the block size; an update with an empty section is refused. *)
Lemma consensus_update_fields_witness :
  GetConsensusParams (run (handleConsensusParamsUpdate "carol"
    (mkCPU (Some (mkBlockParams (Some 7) None)) None)) w3) =
  Some (mkConsensusParams (Some (mkAbciBlock 7 200)) (Some (mkAbciEvidence 1 2 3)) "") ∧
  ∃ err, handleConsensusParamsUpdate "carol"
    (mkCPU (Some (mkBlockParams (Some 7) None)) (Some (mkEvidenceParams None None None))) (mkCtx w3 []) = (Err err, mkCtx w3 []).
Proof.
  assert (has_privilege w3 "carol" PrivilegeConsensusParamChanger) as Hp by (exists carol_details; split; vm_compute; reflexivity).
  assert (GetConsensusParams w3 = Some (mkConsensusParams (Some (mkAbciBlock 100 200)) (Some (mkAbciEvidence 1 2 3)) "")) as Hc
    by (vm_compute; reflexivity).
  split.
  - unfold run. rewrite (proj1 (consensus_update_fields "carol" (mkCPU (Some (mkBlockParams (Some 7) None)) None)
      (mkAbciBlock 100 200) (mkAbciEvidence 1 2 3) "" (mkCtx w3 []) Hp Hc)); [reflexivity|].
    split_and!; [left; by eexists|intros p [= <-]; left; by eexists|intros p [=]].
  - apply (proj2 (consensus_update_fields "carol" (mkCPU (Some (mkBlockParams (Some 7) None)) (Some (mkEvidenceParams None None None)))
      (mkAbciBlock 100 200) (mkAbciEvidence 1 2 3) "" (mkCtx w3 []) Hp Hc)).
    intros (_ & _ & He). destruct (He _ eq_refl) as [[? [=]]|[[? [=]]|[? [=]]]].
Defined.

(** C33: 300 years of evidence age become a negative duration. *)
Lemma evidence_duration_overflow_witness :
  ∃ e', mergeConsensusParamsUpdate
      (Some (mkConsensusParams (Some (mkAbciBlock 1 1)) (Some (mkAbciEvidence 1 2 3)) ""))
      (mkCPU None (Some (mkEvidenceParams None (Some 9467280000) None))) =
    Ok (Some (mkConsensusParams (Some (mkAbciBlock 1 1)) (Some e') "")) ∧
    AE_MaxAgeDuration e' ≠ 9467280000 * 1000000000.
Proof.
  destruct (evidence_duration_overflow (mkAbciBlock 1 1) (mkAbciEvidence 1 2 3) ""
    (mkCPU None (Some (mkEvidenceParams None (Some 9467280000) None)))
    (mkEvidenceParams None (Some 9467280000) None) 9467280000 eq_refl eq_refl) as (e' & He & Hiff).
  exists e'. split; [exact He|]. rewrite Hiff. lia.
Defined.

(** An upgrade next to a text is read as an upgrade. *)
Lemma custom_proposal_single_witness :
  let ms := [("text", JObj []); ("register_upgrade", JObj [("name", JStr "v2"); ("height", JNum 7)])] in
  GovProposal_UnmarshalJSON (JObj ms) empty_proposal =
    Ok (mkProposal None (Some (mkPlan "v2" 7 "" None)) None None None None None None None None None None None None)
  ∧ proposals_set (mkProposal None (Some (mkPlan "v2" 7 "" None)) None None None None None None None None
       None None None None) = 1%nat.
Proof.
  intros ms. assert (GovProposal_UnmarshalJSON (JObj ms) empty_proposal = Ok (mkProposal None
    (Some (mkPlan "v2" 7 "" None)) None None None None None None None None None None None None)) as Hrun
    by (vm_compute; reflexivity).
  split; [exact Hrun|].
  apply (custom_proposal_single ms _ empty_proposal "register_upgrade" Hrun).
  - apply (bool_decide_unpack _). by vm_compute.
  - apply (bool_decide_unpack _). by vm_compute.
Defined.

(** Carol mints seven tokens for alice, bob takes nine of the staker's. *)
Lemma token_messages_exact_witness :
  let m := mkMint "ufur" "7" "furya1alice" in
  let d := mkDelegate (mkWasmCoin "ufur" "9") "furya1staker" in
  balance (run (handleMintToken "carol" m) w3) "alice" "ufur" = 7 ∧
  has_privilege w3 "carol" PrivilegeTypeTokenMinter ∧
  balance (run (handleDelegate "bob" d) w3d) "bob" "ufur" = 9 ∧
  has_privilege w3d "bob" PrivilegeDelegator.
Proof.
  intros m d. split; [vm_compute; reflexivity|]. split.
  { destruct (run_okA (handleMintToken "carol" m) w3) as [evs E]; [vm_compute; reflexivity|].
    exact (proj1 (proj1 (token_messages_exact "carol" (mkCtx w3 []) _ evs) m E)). }
  split; [vm_compute; reflexivity|].
  destruct (run_okA (handleDelegate "bob" d) w3d) as [evs E]; [vm_compute; reflexivity|].
  exact (proj1 (proj1 (proj2 (token_messages_exact "bob" (mkCtx w3d []) _ evs)) d E)).
Defined.
