(* ===== verification/TwasmAbci.v ===== *)
(** The block callbacks of x/twasm (x/twasm/abci.go) and its queries
    (x/twasm/keeper/querier.go). *)
From stdpp Require Import base list strings gmap sets sorting.
From Stdlib Require Import ZArith Lia.
From S2P Require Import Prelude Sdk RefStore Slice Json Privilege TwasmMsgs Wasm TwasmKeeper TwasmHandler TwasmSteps RefWorld TwasmProps.
Open Scope Z_scope.

(** Tendermint's evidence; [AE_Type] is a protobuf enumeration, [AE_Time] what
    [Time.Unix()] returns. *)
Record AbciEvidence := mkAbciEv {
  AEv_Type : Z; AEv_ValAddress : bytes; AEv_ValPower : Z; AEv_Height : Z; AEv_Time : Z; AEv_TotalVotingPower : Z }.
Definition EvidenceType_DUPLICATE_VOTE : Z := 1.
Definition EvidenceType_LIGHT_CLIENT_ATTACK : Z := 2.

Definition convUint64 (s : Z) : outcome Z :=
  if s <? 0 then Panic "must not be negative" else Ok (uint64 s).

(** One round of the loop of [BeginBlocker]; [None] for an ignored type. *)
Definition convert_evidence (e : AbciEvidence) : outcome (option Evidence) :=
  match (if AEv_Type e =? EvidenceType_DUPLICATE_VOTE then Some EvidenceDuplicateVote
         else if AEv_Type e =? EvidenceType_LIGHT_CLIENT_ATTACK then Some EvidenceLightClientAttack
         else None) with
  | None => Ok None
  | Some et =>
      power ← convUint64 (AEv_ValPower e);
      height ← convUint64 (AEv_Height e);
      time ← convUint64 (AEv_Time e);
      total ← convUint64 (AEv_TotalVotingPower e);
      Ok (Some (mkEvidence et (mkValidator (AEv_ValAddress e) power) height time total))
  end.

Fixpoint collect_evidence (es : list AbciEvidence) : outcome (list Evidence) :=
  match es with
  | [] => Ok []
  | e :: es' =>
      o ← convert_evidence e;
      r ← collect_evidence es';
      Ok (option_list o ++ r)
  end.

Section abci.
Context `{!KVStore W, !WasmKeeper W, !WasmVM W}.
(** What [commit()] of a cached context adds to the events of its parent. *)
Variable commit_events : list Event → list Event → list Event.

(** The cached context starts without events; a panic is recovered and logged,
    and then the callback returns false like in the other cases. *)
Definition abciContractCallback (msgBz : json) (pos : Z) (contractAddr : AccAddress) : M W bool := λ c,
  match Sudo contractAddr msgBz (mkCtx (store c) []) with
  | (Ok _, cached) => (Ok false, mkCtx (store cached) (commit_events (events c) (events cached)))
  | (Err _, _) => (Ok false, c)
  | (Panic _, _) => (Ok false, c)
  end.

Definition BeginBlocker (byzantine : list AbciEvidence) : M W () :=
  evidence ← lift (collect_evidence byzantine);
  match PetriSudoMsg_Marshal (BeginBlock evidence) with
  | Ok msgBz => IteratePrivilegedContractsByType PrivilegeTypeBeginBlock (abciContractCallback msgBz)
  | Err _ => panic "json.Marshal"
  | Panic p => panic p
  end.

(** Returns no validator updates, whose type is of no importance here. *)
Definition EndBlocker {Update : Type} : M W (list Update) :=
  match PetriSudoMsg_Marshal EndBlock with
  | Ok msgBz =>
      IteratePrivilegedContractsByType PrivilegeTypeEndBlock (abciContractCallback msgBz) ;;
      mret []
  | Err _ => panic "json.Marshal"
  | Panic p => panic p
  end.
End abci.

(** ** Queries *)
Section querier.
Context `{!KVStore W, !WasmKeeper W, !Bech32}.

(** The callbacks append to a result; [iterate_collect] is that result. *)
Definition PrivilegedContracts (w : W) : list string :=
  AccAddress_String <$> (kv_iterate w StoreKey privilegedContractsSecondaryIndexPrefix).*1.

Definition status_NotFound : error := new_err "grpc/NotFound".

Fixpoint collect_contracts (es : list (bytes * bytes)) : outcome (list string) :=
  match es with
  | [] => Ok []
  | e :: es' =>
      _ ← parseContractPosition e.1;
      r ← collect_contracts es';
      Ok (AccAddress_String e.2 :: r)
  end.

Definition ContractsByPrivilegeType (w : W) (privilegeType : string) : outcome (list string) :=
  match PrivilegeTypeFrom privilegeType with
  | None => Err (Wrap status_NotFound "privilege type")
  | Some cType =>
      collect_contracts (kv_iterate w StoreKey (getContractPrivilegesSecondaryIndexPrefix cType))
  end.
End querier.

(** ** Theorems *)
Section abci_props.
Context `{!KVStore W, !KVLaws W, !WasmKeeper W, !WasmLaws W, !WasmVM W, !Bech32}.
Variable commit_events : list Event → list Event → list Event.

(** One callback, as a function on contexts: the effects of the contract when it
    succeeds, none when it returns an error or panics. *)
Definition callback_effect (msg : json) (c : Ctx W) (a : AccAddress) : Ctx W :=
  match Sudo a msg (mkCtx (store c) []) with
  | (Ok _, cached) => mkCtx (store cached) (commit_events (events c) (events cached))
  | _ => c
  end.

Lemma callbacks_fold msg (q : list (Z * AccAddress)) c :
  iterM q (λ e, abciContractCallback commit_events msg e.1 e.2) c =
  (Ok (), foldl (callback_effect msg) c q.*2).
Proof.
  revert c. induction q as [|[p a] q IH]; intros c; [done|]. cbn. unfold mbind, M_bind.
  unfold abciContractCallback at 1, callback_effect at 2.
  destruct (Sudo a msg _) as [[r|e|e] cached]; cbn; apply IH.
Qed.

(** The contracts that are registered for the end of the block are called in order. *)
Lemma EndBlocker_run {Update} (c : Ctx W) :
  priv_inv (store c) →
  EndBlocker (Update := Update) commit_events c =
  (Ok [], foldl (callback_effect (JObj [("end_block", JObj [])])) c
            (subscribers (store c) PrivilegeTypeEndBlock)).
Proof.
  intros Hinv. unfold EndBlocker. cbn [PetriSudoMsg_Marshal]. unfold mbind, M_bind.
  rewrite Iterate_queue by (done || by apply (known_byte 2), known_range).
  by rewrite callbacks_fold.
Qed.

(** C9: the end blocker always returns normally; it calls the contracts that
    are registered when the block ends, in the order of their registration, and
    keeps the effects of exactly those calls that neither fail nor panic. *)
Theorem EndBlocker_isolates {Update} (c : Ctx W) :
  priv_inv (store c) →
  EndBlocker (Update := Update) commit_events c =
  (Ok [], foldl (callback_effect (JObj [("end_block", JObj [])])) c
            (subscribers (store c) PrivilegeTypeEndBlock)).
Proof. apply EndBlocker_run. Qed.

(** What a contract is told about an offence, and the evidence nothing can be told of. *)
Definition reported (e : AbciEvidence) : option Evidence :=
  let mk et := mkEvidence et (mkValidator (AEv_ValAddress e) (uint64 (AEv_ValPower e)))
                 (uint64 (AEv_Height e)) (uint64 (AEv_Time e)) (uint64 (AEv_TotalVotingPower e)) in
  if AEv_Type e =? 1 then Some (mk EvidenceDuplicateVote)
  else if AEv_Type e =? 2 then Some (mk EvidenceLightClientAttack) else None.
Definition negative (e : AbciEvidence) : bool :=
  ((AEv_Type e =? 1) || (AEv_Type e =? 2)) &&
  ((AEv_ValPower e <? 0) || (AEv_Height e <? 0) || (AEv_Time e <? 0) || (AEv_TotalVotingPower e <? 0)).

Lemma convert_evidence_spec e :
  convert_evidence e = if negative e then Panic "must not be negative" else Ok (reported e).
Proof.
  unfold convert_evidence, negative, reported, convUint64,
    EvidenceType_DUPLICATE_VOTE, EvidenceType_LIGHT_CLIENT_ATTACK.
  destruct (AEv_Type e =? 1), (AEv_Type e =? 2); cbn; try done;
    destruct (AEv_ValPower e <? 0), (AEv_Height e <? 0), (AEv_Time e <? 0),
      (AEv_TotalVotingPower e <? 0); reflexivity.
Qed.

Lemma collect_evidence_spec es :
  collect_evidence es =
  if existsb negative es then Panic "must not be negative" else Ok (omap reported es).
Proof.
  induction es as [|e es IH]; [done|]. cbn. rewrite convert_evidence_spec, IH.
  destruct (negative e); [done|]. cbn. destruct (existsb negative es); [done|]. cbn.
  by destruct (reported e).
Qed.

(** The evidence and the contracts that are told of it. *)
Lemma BeginBlocker_run byzantine (c : Ctx W) :
  priv_inv (store c) →
  BeginBlocker commit_events byzantine c =
  if existsb negative byzantine then (Panic "must not be negative", c)
  else (Ok (), foldl (callback_effect (JObj [("begin_block",
                  JObj [("evidence", JArr (enc_Evidence <$> omap reported byzantine))])])) c
                 (subscribers (store c) PrivilegeTypeBeginBlock)).
Proof.
  intros Hinv. unfold BeginBlocker. rewrite collect_evidence_spec. unfold mbind, M_bind, lift.
  destruct (existsb negative byzantine); [done|]. cbn [PetriSudoMsg_Marshal].
  rewrite Iterate_queue by (done || by apply (known_byte 1), known_range).
  by rewrite callbacks_fold.
Qed.

(** C35: the begin blocker panics, before any contract is called, exactly when
    evidence of a known type has a negative number; otherwise it calls the
    registered contracts with the evidence of known types, in order, and keeps the
    effects of exactly the calls that succeed. *)
Theorem BeginBlocker_evidence byzantine (c : Ctx W) :
  priv_inv (store c) →
  BeginBlocker commit_events byzantine c =
  if existsb negative byzantine then (Panic "must not be negative", c)
  else (Ok (), foldl (callback_effect (JObj [("begin_block",
                  JObj [("evidence", JArr (enc_Evidence <$> omap reported byzantine))])])) c
                 (subscribers (store c) PrivilegeTypeBeginBlock)).
Proof. apply BeginBlocker_run. Qed.

(** The query by privilege type lists the holders in the order of their
    callbacks, and is refused exactly for a name that is no privilege type. *)
Theorem ContractsByPrivilegeType_spec (w : W) name :
  priv_inv w →
  ContractsByPrivilegeType w name =
  match PrivilegeTypeFrom name with
  | Some t => Ok (AccAddress_String <$> subscribers w t)
  | None => Err (Wrap status_NotFound "privilege type")
  end.
Proof.
  intros Hinv. unfold ContractsByPrivilegeType, subscribers, queue.
  destruct (PrivilegeTypeFrom name) as [t|] eqn:Et; [|done]. apply From_known in Et as [Ht _].
  assert (∀ k a, (k, a) ∈ kv_iterate w StoreKey (getContractPrivilegesSecondaryIndexPrefix t) →
    k = bytes1 (key_pos k)) as Hkeys.
  { intros k a Hin. by apply (inv_entry w t k a Hinv (known_byte t Ht)) in Hin as (_ & _ & ?). }
  induction (kv_iterate _ _ _) as [|[k a] l IH]; [done|]. cbn.
  rewrite (Hkeys k a) by (by left). cbn. rewrite IH by (intros; eapply Hkeys; by right). done.
Qed.
End abci_props.

(** ** Concrete blocks *)

(** A chain where bob's contract panics and carol's fails when they are called. *)
Definition w3_broken : World :=
  mkWorld (w_kv w3) (w_infos w3) (w_pinned w3) (<["bob" := Panics]> (<["carol" := Fails]> (w_code w3)))
    (w_balances w3) (w_params w3).
#[local] Opaque w3.

Lemma w3_broken_inv : priv_inv w3_broken.
Proof. apply (priv_inv_frame w3); [|apply w3_inv]. split; intros ?; reflexivity. Qed.
#[local] Opaque w3_broken.

(** C9: all contracts of the end block are called, the broken ones leave no trace. *)
Lemma EndBlocker_isolates_witness :
  subscribers w3_broken PrivilegeTypeEndBlock = ["alice"; "bob"; "carol"] ∧
  is_ok (EndBlocker (Update := Z) (λ a b, a ++ b) (mkCtx w3_broken [])).1 = true.
Proof.
  split; [vm_compute; reflexivity|].
  rewrite (EndBlocker_isolates (λ a b, a ++ b) (mkCtx w3_broken []) w3_broken_inv). reflexivity.
Defined.

(** C35: a duplicate vote with a negative height. *)
Lemma BeginBlocker_evidence_witness :
  BeginBlocker (λ a b, a ++ b) [mkAbciEv 7 "" (-1) 0 0 0; mkAbciEv 1 "" 10 (-5) 0 0] (mkCtx w3 []) =
  (Panic "must not be negative", mkCtx w3 []).
Proof. rewrite (BeginBlocker_evidence (λ a b, a ++ b) _ (mkCtx w3 []) w3_inv). reflexivity. Defined.

(** The end blockers of [w3]. *)
Lemma ContractsByPrivilegeType_witness :
  ContractsByPrivilegeType w3 "end_blocker" = Ok ["furya1alice"; "furya1bob"; "furya1carol"].
Proof. rewrite (ContractsByPrivilegeType_spec w3 "end_blocker" w3_inv). vm_compute. reflexivity. Defined.
