(* ===== verification/TwasmGenesis.v ===== *)
(** Genesis of x/twasm (x/twasm/types/genesis.go, x/twasm/keeper/genesis.go):
    validation, the conversion to wasmd's genesis state, import and export. *)
From stdpp Require Import base list strings gmap sets sorting relations.
From Stdlib Require Import ZArith Lia.
From S2P Require Import Prelude Sdk RefStore Slice Json Privilege TwasmMsgs Wasm TwasmKeeper TwasmHandler TwasmSteps RefWorld TwasmProps.
Open Scope Z_scope.

(** ** Data *)

(** [wasmtypes.Model], [wasmtypes.Code]: the parts this module looks at. *)
Record Model := mkModel { Model_Key : bytes; Model_Value : bytes }.
Record Code := mkCode { Code_CodeID : Z; Code_rest : bytes }.

(** The oneof of [types.Contract]; absent in the zero value. *)
Inductive ContractState :=
  | NoState
  | KvModel (models : list Model)
  | CustomModel (msg : json_bytes).

Record Contract := mkContract {
  ContractAddress : string; Contract_Info : ContractInfo; Contract_State : ContractState }.

Definition GetKvModel (m : Contract) : option (list Model) :=
  match Contract_State m with KvModel ms => Some ms | _ => None end.
Definition GetCustomModel (m : Contract) : option json_bytes :=
  match Contract_State m with CustomModel msg => Some msg | _ => None end.

Record GenesisState := mkGenesis {
  Params : bytes; Codes : list Code; Contracts : list Contract; Sequences : bytes; GenMsgs : bytes;
  PrivilegedContractAddresses : list string; PinnedCodeIDs : list Z }.

(** wasmd's genesis state. *)
Record WasmContract := mkWasmContract {
  WC_Address : string; WC_Info : ContractInfo; WC_State : list Model }.
Record WasmGenesisState := mkWasmGenesis {
  WG_Params : bytes; WG_Codes : list Code; WG_Contracts : list WasmContract; WG_Sequences : bytes;
  WG_GenMsgs : bytes }.

(** wasmd's part of genesis. *)
Class WasmGenesis (W : Type) := {
  wasm_ValidateBasic : WasmGenesisState → outcome ();
  (** [wasmcli.GetAllCodes], [wasmcli.GetAllContracts]: ids and addresses of what
      the state holds and of what its genesis messages create. *)
  GetAllCodes : WasmGenesisState → list Z;
  GetAllContracts : WasmGenesisState → list string;
  (** The first argument is the [ApplyAndReturnValidatorSetUpdates] of the set source. *)
  wasm_InitGenesis {Update : Type} : M W (list Update) → WasmGenesisState → M W (list Update);
  wasm_ExportGenesis : W → WasmGenesisState;
}.

(** ** Operations *)
Definition furyaExtType : string := "/confio.twasm.v1beta1.PetriContractDetails".

Definition RawWasmState (g : GenesisState) : WasmGenesisState :=
  mkWasmGenesis (Params g) (Codes g)
    ((λ v, mkWasmContract (ContractAddress v) (Contract_Info v) (default [] (GetKvModel v))) <$> Contracts g)
    (Sequences g) (GenMsgs g).

Section genesis.
Context `{!KVStore W, !WasmKeeper W, !WasmVM W, !Bech32, !WasmGenesis W}.

Fixpoint check_extensions (cs : list WasmContract) : outcome () :=
  match cs with
  | [] => Ok ()
  | c :: cs' =>
      match Extension (WC_Info c) with
      | Some any =>
          if decide (furyaExtType ≠ TypeUrl any)
          then Err (Wrap ErrInvalidGenesis "invalid extension type: %s, contract %s")
          else check_extensions cs'
      | None => check_extensions cs'
      end
  end.

Definition unique_addresses (as_ : list string) (uniqueAddr : gset string) : outcome (gset string) :=
  unique_loop
    (λ a, match AccAddressFromBech32 a with
          | Err _ => Err (Wrap ErrInvalidAddress "privileged contract [%d, %s]: %s")
          | Panic p => Panic p
          | Ok _ => Ok ()
          end) id (Wrap ErrDuplicate "privileged contract %s") as_ uniqueAddr.

Definition unique_pinned (ids : list Z) (unique : gset Z) : outcome (gset Z) :=
  unique_loop (λ _, Ok ()) id (Wrap ErrDuplicate "pinned codeID %d") ids unique.

Definition GenesisState_ValidateBasic (g : GenesisState) : outcome () :=
  let wasmState := RawWasmState g in
  wrap "wasm" (wasm_ValidateBasic wasmState) ;;
  check_extensions (WG_Contracts wasmState) ;;
  uniqueAddr ← unique_addresses (PrivilegedContractAddresses g) ∅;
  uniquePinnedCodeIDs ← unique_pinned (PinnedCodeIDs g) ∅;
  check (bool_decide (uniquePinnedCodeIDs ∖ list_to_set (GetAllCodes wasmState) ≠ ∅))
    (Wrap ErrInvalidGenesis "%d pinned codeIDs not found in genesis codeIDs") ;;
  check (bool_decide (uniqueAddr ∖ list_to_set (GetAllContracts wasmState) ≠ ∅))
    (Wrap ErrInvalidGenesis "%d privileged contract addresses not found in genesis contract addresses").

(** One round of the first loop of [InitGenesis]. *)
Definition import_contract (m : Contract) : M W () :=
  let info := Contract_Info m in
  d ← lift (wrap "extension contract: %d, %s" (ReadExtension info));
  if decide (RegisteredPrivileges d = []) then mret ()
  else
    addr ← lift (wrap "contract: %d" (AccAddressFromBech32 (ContractAddress m)));
    wrapM "privilege registration for contract: %s" (importPrivileged addr (CodeID info) d) ;;
    if HasRegisteredPrivilege PrivilegeStateExporterImporter d then
      match GetCustomModel m with
      | None => fail_with (Wrap ErrInvalidGenesis "custom state model not set for %s")
      | Some model =>
          bz ← lift (wrap "marshal state import for %s" (PetriSudoMsg_Marshal (Import model)));
          _ ← wrapM "init custom state for %s" (Sudo addr bz);
          mret ()
      end
    else mret ().

Definition set_privileged (a : string) : M W () :=
  addr ← lift (wrap "privileged contract: %d" (AccAddressFromBech32 a));
  wrapM "set privileged flag for contract %s" (SetPrivileged addr).

(** [noopValsetUpdater.ApplyAndReturnValidatorSetUpdates] *)
Definition noopValsetUpdater {Update : Type} : M W (list Update) := mret [].

Definition InitGenesis {Update : Type} (data : GenesisState) : M W (list Update) :=
  result ← wrapM "wasm" (wasm_InitGenesis noopValsetUpdater (RawWasmState data));
  forM (Contracts data) import_contract ;;
  forM (PrivilegedContractAddresses data) set_privileged ;;
  forM (PinnedCodeIDs data) (λ codeID, wrapM "pin code with ID %d" (PinCode codeID)) ;;
  mret result.

Definition export_contract (v : WasmContract) : M W Contract :=
  match ReadExtension (WC_Info v) with
  | Err _ => panic "read contract info extension"
  | Panic p => panic p
  | Ok details =>
      if negb (HasRegisteredPrivilege PrivilegeStateExporterImporter details) then
        mret (mkContract (WC_Address v) (WC_Info v) (KvModel (WC_State v)))
      else
        match AccAddressFromBech32 (WC_Address v), PetriSudoMsg_Marshal Export with
        | Ok c, Ok bz =>
            r ← try (Sudo c bz);
            match r with
            | inl got => mret (mkContract (WC_Address v) (WC_Info v) (CustomModel got))
            | inr _ => panic "export custom state"
            end
        | Err _, _ => panic "address"
        | Panic p, _ => panic p
        | _, _ => panic "marshal state export"
        end
  end.

Fixpoint export_contracts (cs : list WasmContract) : M W (list Contract) :=
  match cs with
  | [] => mret []
  | v :: cs' => c ← export_contract v; r ← export_contracts cs'; mret (c :: r)
  end.

Definition ExportGenesis : M W GenesisState :=
  wasmState ← gets wasm_ExportGenesis;
  contracts ← export_contracts (WG_Contracts wasmState);
  mret (mkGenesis (WG_Params wasmState) (WG_Codes wasmState) contracts (WG_Sequences wasmState)
          (WG_GenMsgs wasmState) [] []).
End genesis.

(** ** Validation *)
Section validation.
Context `{!Bech32, !WasmGenesis W}.

Lemma unique_addresses_ok l acc s :
  unique_addresses l acc = Ok s ↔
  Forall (λ a, is_ok (AccAddressFromBech32 a) = true) l ∧ NoDup l ∧ (∀ a, a ∈ l → a ∉ acc) ∧
  s = list_to_set l ∪ acc.
Proof.
  unfold unique_addresses. rewrite unique_loop_ok, list_fmap_id.
  f_equiv. apply Forall_proper; [|done]. intros a. destruct (AccAddressFromBech32 a); naive_solver.
Qed.

Lemma unique_pinned_ok l acc s :
  unique_pinned l acc = Ok s ↔ NoDup l ∧ (∀ a, a ∈ l → a ∉ acc) ∧ s = list_to_set l ∪ acc.
Proof.
  unfold unique_pinned. rewrite unique_loop_ok, list_fmap_id.
  split; [naive_solver|]. intros Hl. split; [by apply Forall_true|done].
Qed.

Lemma check_extensions_ok cs :
  check_extensions cs = Ok () ↔
  Forall (λ c, from_option (λ any, TypeUrl any = furyaExtType) True (Extension (WC_Info c))) cs.
Proof.
  induction cs as [|c cs IH]; cbn; [split; [constructor|done]|]. rewrite Forall_cons.
  destruct (Extension (WC_Info c)) as [any|]; cbn; [|naive_solver].
  case_decide; [split; [done|naive_solver]|]. rewrite IH.
  naive_solver.
Qed.

Lemma check_missing `{Countable A} (l m : list A) e :
  check (bool_decide ((list_to_set l ∪ ∅ : gset A) ∖ list_to_set m ≠ ∅)) e = Ok () ↔ l ⊆ m.
Proof.
  rewrite check_ok, bool_decide_eq_false. split.
  - intros Hn%dec_stable x Hx. apply dec_stable. intros Hm.
    assert (x ∈ (list_to_set l ∪ ∅ : gset A) ∖ list_to_set m) as Hin by set_solver.
    rewrite Hn in Hin. set_solver.
  - intros Hsub Hne. apply Hne. set_solver.
Qed.

Lemma check_raw_extensions (cs : list Contract) :
  check_extensions ((λ v, mkWasmContract (ContractAddress v) (Contract_Info v) (default [] (GetKvModel v))) <$> cs)
    = Ok () ↔
  Forall (λ c, from_option (λ any, TypeUrl any = furyaExtType) True (Extension (Contract_Info c))) cs.
Proof. by rewrite check_extensions_ok, Forall_fmap. Qed.

(** The conditions, one by one. *)
Lemma ValidateBasic_iff (g : GenesisState) :
  GenesisState_ValidateBasic g = Ok () ↔
  wasm_ValidateBasic (RawWasmState g) = Ok () ∧
  Forall (λ c, from_option (λ any, TypeUrl any = furyaExtType) True (Extension (Contract_Info c))) (Contracts g) ∧
  Forall (λ a, is_ok (AccAddressFromBech32 a) = true) (PrivilegedContractAddresses g) ∧
  NoDup (PrivilegedContractAddresses g) ∧
  PrivilegedContractAddresses g ⊆ GetAllContracts (RawWasmState g) ∧
  NoDup (PinnedCodeIDs g) ∧ PinnedCodeIDs g ⊆ GetAllCodes (RawWasmState g).
Proof.
  unfold GenesisState_ValidateBasic. rewrite outcome_bind_ok. split.
  - intros ([] & Hw%wrap_ok & ([] & He%check_raw_extensions & Hrun)%outcome_bind_ok).
    apply outcome_bind_ok in Hrun as (s & Hs & Hrun). apply unique_addresses_ok in Hs as (Ha & Hnd & _ & ->).
    apply outcome_bind_ok in Hrun as (s & Hs & Hrun). apply unique_pinned_ok in Hs as (Hnp & _ & ->).
    apply outcome_bind_ok in Hrun as ([] & Hp & Hc). rewrite check_missing in Hp. rewrite check_missing in Hc. by split_and!.
  - intros (Hw & He & Ha & Hnd & Hc & Hnp & Hp). exists (). split; [by rewrite wrap_ok|].
    apply outcome_bind_ok. exists (). split; [by apply check_raw_extensions|].
    apply outcome_bind_ok. eexists. split; [apply unique_addresses_ok; split_and!; [done..|set_solver|done]|].
    apply outcome_bind_ok. eexists. split; [apply unique_pinned_ok; split_and!; [done..|set_solver|done]|].
    apply outcome_bind_ok. exists (). split; [by rewrite check_missing|by rewrite check_missing].
Qed.

(** What is privileged or pinned is in the genesis state. *)
Lemma ValidateBasic_members (g : GenesisState) :
  GenesisState_ValidateBasic g = Ok () →
  PinnedCodeIDs g ⊆ GetAllCodes (RawWasmState g) ∧ PrivilegedContractAddresses g ⊆ GetAllContracts (RawWasmState g).
Proof. by intros (_ & _ & _ & _ & ? & _ & ?)%ValidateBasic_iff. Qed.

(** C36: the genesis state is valid exactly when its wasm part is, extensions are
    of this chain's type, the privileged addresses are well-formed, distinct and
    all created by genesis, and the pinned codes are distinct and all in genesis. *)
Theorem genesis_ValidateBasic_spec (g : GenesisState) :
  GenesisState_ValidateBasic g = Ok () ↔
  wasm_ValidateBasic (RawWasmState g) = Ok () ∧
  Forall (λ c, from_option (λ any, TypeUrl any = furyaExtType) True (Extension (Contract_Info c))) (Contracts g) ∧
  Forall (λ a, is_ok (AccAddressFromBech32 a) = true) (PrivilegedContractAddresses g) ∧
  NoDup (PrivilegedContractAddresses g) ∧
  PrivilegedContractAddresses g ⊆ GetAllContracts (RawWasmState g) ∧
  NoDup (PinnedCodeIDs g) ∧ PinnedCodeIDs g ⊆ GetAllCodes (RawWasmState g).
Proof. apply ValidateBasic_iff. Qed.
End validation.

(** ** Import *)

(** What wasmd promises of its import: it leaves the indexes of this module
    alone, stores the contracts of the genesis state as they are, contracts
    created by genesis messages have no extension, and validator updates come
    from the set source. *)
Class WasmGenesisLaws (W : Type) `{KVStore W, WasmKeeper W, Bech32, WasmGenesis W} := {
  wasm_InitGenesis_updates {Update} src gs c (r : list Update) c' :
    wasm_InitGenesis src gs c = (Ok r, c') → r = [] ∨ ∃ c1 c2, src c1 = (Ok r, c2);
  wasm_InitGenesis_index {Update} gs c (r : list Update) c' :
    wasm_InitGenesis noopValsetUpdater gs c = (Ok r, c') → same_index (store c) (store c');
  wasm_InitGenesis_contracts {Update} gs c (r : list Update) c' m a :
    wasm_InitGenesis noopValsetUpdater gs c = (Ok r, c') → m ∈ WG_Contracts gs → AccAddressFromBech32 (WC_Address m) = Ok a →
    GetContractInfo (store c') a = Some (WC_Info m);
  wasm_InitGenesis_others {Update} gs c (r : list Update) c' a i :
    (∀ b, GetContractInfo (store c) b = None) →
    wasm_InitGenesis noopValsetUpdater gs c = (Ok r, c') → GetContractInfo (store c') a = Some i →
    (∃ m, m ∈ WG_Contracts gs ∧ AccAddressFromBech32 (WC_Address m) = Ok a ∧ WC_Info m = i) ∨
    ReadExtension i = Ok (mkDetails []);
}.

Section import_lemmas.
Context `{!KVStore W, !KVLaws W, !WasmKeeper W, !WasmLaws W, !WasmVM W, !Bech32, !WasmVMLaws W}.
Implicit Types w : W.

Definition in_index w (k : bytes) (b : AccAddress) : Prop :=
  kv_get w StoreKey (contractCallbacksSecondaryIndexPrefix +:+ k) = Some b.

Lemma importRegistrations_spec a cs (c c' : Ctx W) :
  Forall rp_ok cs → importRegistrations a cs c = (Ok (), c') →
  same_contracts (store c) (store c') ∧
  ∀ k b, in_index (store c') k b ↔ in_index (store c) k b ∨ (b = a ∧ ∃ v, v ∈ cs ∧ k = entry_key v).
Proof.
  intros Hok. revert c. induction Hok as [|v cs Hv Hok IH]; intros c; cbn.
  { intros [= <-]. split; [done|]. set_solver. }
  rewrite (rp_ok_From v Hv), (rp_ok_uint8 v Hv). unfold mbind at 1, M_bind at 1, gets.
  destruct (kv_has _ _ _) eqn:Hhas; [done|]. apply kv_has_false in Hhas.
  intros ([] & c1 & [= <-] & Hrun)%M_bind_ok. destruct (IH _ Hrun) as [Hs Hk]. cbn in *.
  split; [eapply same_contracts_trans; [|exact Hs]; by apply GetContractInfo_set|].
  intros k b. rewrite Hk. unfold in_index.
  destruct (decide (k = entry_key v)) as [->|Hne].
  - change (contractCallbacksSecondaryIndexPrefix +:+ entry_key v)
      with (contractPrivilegesSecondaryIndexKey (ptype v) (Position v)).
    rewrite kv_get_set_eq, Hhas. set_solver.
  - rewrite kv_get_set_ne by (intros E; apply Hne; by injection E). set_solver.
Qed.

Lemma importPrivileged_spec a id d (c c' : Ctx W) :
  valid_details d → importPrivileged a id d c = (Ok (), c') →
  same_contracts (store c) (store c') ∧
  ∀ k b, in_index (store c') k b ↔
    in_index (store c) k b ∨ (b = a ∧ ∃ v, v ∈ RegisteredPrivileges d ∧ k = entry_key v).
Proof.
  intros [Hok _] ([] & c1 & [Hx Hc]%wrapM_ok%PinCode_frame & Hrun)%M_bind_ok.
  apply M_bind_ok in Hrun as ([] & c2 & Hf & Hrun).
  destruct (set_flag_spec a c1) as (w2 & Hf' & _ & _ & Hp). rewrite Hf' in Hf. injection Hf as <-.
  assert (same_privileges (store c) w2) as [Hs2 Hk2]
    by (eapply same_privileges_trans; [by apply same_privileges_frame|done]).
  destruct (importRegistrations_spec _ _ _ _ Hok Hrun) as [Hs3 Hk3]. cbn in *.
  split; [by eapply same_contracts_trans|]. intros k b. rewrite Hk3. unfold in_index. by rewrite Hk2.
Qed.

(** A contract with a valid extension that does not import its own state. *)
Definition plain (m : Contract) (d : PetriContractDetails) : Prop :=
  ReadExtension (Contract_Info m) = Ok d ∧ valid_details d ∧
  HasRegisteredPrivilege PrivilegeStateExporterImporter d = false.

Lemma import_contract_spec m d (c c' : Ctx W) :
  plain m d → import_contract m c = (Ok (), c') →
  same_contracts (store c) (store c') ∧
  ∀ k b, in_index (store c') k b ↔ in_index (store c) k b ∨
    (AccAddressFromBech32 (ContractAddress m) = Ok b ∧ ∃ v, v ∈ RegisteredPrivileges d ∧ k = entry_key v).
Proof.
  intros (Hr & Hval & Hno) Hrun. unfold import_contract in Hrun.
  apply M_bind_ok in Hrun as (d' & c0 & [Hd ->]%lift_ok & Hrun). rewrite Hr in Hd. injection Hd as <-.
  case_decide as Hnil.
  { injection Hrun as <-. split; [done|]. rewrite Hnil. set_solver. }
  apply M_bind_ok in Hrun as (addr & c1 & [Haddr ->]%lift_ok & Hrun). rewrite wrap_ok in Haddr.
  apply M_bind_ok in Hrun as ([] & c2 & Himp & Hrun). rewrite Hno in Hrun. injection Hrun as <-.
  rewrite wrapM_ok in Himp. destruct (importPrivileged_spec _ _ _ _ _ Hval Himp) as [Hs Hk].
  split; [done|]. intros k b. rewrite Hk. rewrite Haddr. naive_solver.
Qed.

Lemma import_contracts_spec ms (c c' : Ctx W) :
  (∀ m, m ∈ ms → ∃ d, plain m d) → forM ms import_contract c = (Ok (), c') →
  same_contracts (store c) (store c') ∧
  ∀ k b, in_index (store c') k b ↔ in_index (store c) k b ∨
    ∃ m d v, m ∈ ms ∧ plain m d ∧ AccAddressFromBech32 (ContractAddress m) = Ok b ∧
      v ∈ RegisteredPrivileges d ∧ k = entry_key v.
Proof.
  revert c. induction ms as [|m ms IH]; intros c Hpl.
  { cbn. intros [= <-]. split; [done|]. set_solver. }
  intros ([] & c1 & Hm & Hrun)%M_bind_ok. destruct (Hpl m) as [d Hd]; [by left|].
  destruct (import_contract_spec m d c c1 Hd Hm) as [Hs1 Hk1].
  destruct (IH c1) as [Hs2 Hk2]; [intros; apply Hpl; by right|done|].
  split; [by eapply same_contracts_trans|]. intros k b. rewrite Hk2, Hk1.
  assert (∀ d', plain m d' → d' = d) as Huniq.
  { intros d' [Hr' _]. destruct Hd as [Hr _]. congruence. }
  split.
  - intros [[?|(? & v & ? & ?)]|(m' & d' & v & ? & ?)]; [by left| |].
    + right. exists m, d, v. split_and!; try done. by left.
    + right. exists m', d', v. split; [by right|done].
  - intros [?|(m' & d' & v & [->|?]%elem_of_cons & Hp & Ha & Hv & Hk)]; [tauto| |].
    + left. right. apply Huniq in Hp as ->. eauto.
    + right. exists m', d', v. done.
Qed.
End import_lemmas.

Section import_props.
Context `{!KVStore W, !KVLaws W, !WasmKeeper W, !WasmLaws W, !WasmVM W, !Bech32, !WasmVMLaws W,
          !WasmGenesis W, !WasmGenesisLaws W}.
Implicit Types w : W.

(** What the import takes for granted: known privilege types, each once, at positions from 1 to 255 in the extensions; *)
Definition valid_extensions (ms : list Contract) : Prop :=
  ∀ m d, m ∈ ms → ReadExtension (Contract_Info m) = Ok d → valid_details d.
(** no contract that imports its own state, and so is called before the import is done; *)
Definition no_own_state (ms : list Contract) : Prop :=
  ∀ m d, m ∈ ms → ReadExtension (Contract_Info m) = Ok d → HasRegisteredPrivilege PrivilegeStateExporterImporter d = false.
(** and no two contracts that register the same singleton privilege. *)
Definition singletons_once (ms : list Contract) : Prop :=
  ∀ m1 m2 d1 d2 v1 v2, m1 ∈ ms → m2 ∈ ms →
    ReadExtension (Contract_Info m1) = Ok d1 → ReadExtension (Contract_Info m2) = Ok d2 →
    v1 ∈ RegisteredPrivileges d1 → v2 ∈ RegisteredPrivileges d2 →
    IsSingleton (ptype v1) = true → ptype v1 = ptype v2 → v1 = v2.

(** The state after the contracts were imported. *)
Lemma imported_inv ms w :
  (∀ m, m ∈ ms → ∃ d, plain m d) → singletons_once ms →
  (∀ m a, m ∈ ms → AccAddressFromBech32 (ContractAddress m) = Ok a →
     GetContractInfo w a = Some (Contract_Info m)) →
  (∀ a i, GetContractInfo w a = Some i →
     (∃ m, m ∈ ms ∧ AccAddressFromBech32 (ContractAddress m) = Ok a ∧ Contract_Info m = i) ∨
     ReadExtension i = Ok (mkDetails [])) →
  (∀ k b, in_index w k b ↔ ∃ m d v, m ∈ ms ∧ plain m d ∧
     AccAddressFromBech32 (ContractAddress m) = Ok b ∧ v ∈ RegisteredPrivileges d ∧ k = entry_key v) →
  priv_inv w.
Proof.
  intros Hpl Hsing Hget Hinv Hidx. split.
  - intros a i Hi. destruct (Hinv a i Hi) as [(m & Hm & _ & <-)|Hr].
    + destruct (Hpl m Hm) as (d & Hr & Hval & _). eauto.
    + exists (mkDetails []). split; [done|]. split; constructor.
  - intros a d v (i & Hi & Hr)%details_of_Some Hv.
    destruct (Hinv a i Hi) as [(m & Hm & Ha & <-)|Hr']; cycle 1.
    { rewrite Hr' in Hr. simplify_eq. by apply not_elem_of_nil in Hv. }
    destruct (Hpl m Hm) as (d' & Hp). pose proof Hp as (Hr' & _).
    assert (d' = d) as -> by congruence.
    change (in_index w (entry_key v) a). apply Hidx. eauto 10.
  - intros k a (m & d & v & Hm & Hp & Ha & Hv & ->)%Hidx. pose proof Hp as (Hr & Hval & _).
    pose proof (valid_rp_ok _ _ Hval Hv) as Hok.
    exists (ptype v), (Position v), d. split; [done|]. split; [by apply rp_ok_known|].
    split; [apply Hok|]. split.
    + unfold details_of. rewrite (Hget m a Hm Ha). cbn. by rewrite Hr.
    + rewrite <-rp_ok_name by done. by destruct v.
  - intros t p1 p2 a1 a2 Hs Hp1 Hp2 G1 G2.
    change (in_index w (bytes1 t +:+ bytes1 p1) a1) in G1.
    change (in_index w (bytes1 t +:+ bytes1 p2) a2) in G2.
    apply Hidx in G1 as (m1 & d1 & v1 & Hm1 & Pl1 & _ & Hv1 & E1).
    apply Hidx in G2 as (m2 & d2 & v2 & Hm2 & Pl2 & _ & Hv2 & E2).
    assert (∀ m d v p, plain m d → v ∈ RegisteredPrivileges d → is_u 8 p →
      bytes1 t +:+ bytes1 p = entry_key v → ptype v = t ∧ Position v = p) as Hkey.
    { intros m d v p (_ & Hval & _) Hv Hp [= B1 B2]. pose proof (valid_rp_ok _ _ Hval Hv) as Hok.
      split; symmetry; apply byte_of_inj; try done.
      - by apply known_byte, IsSingleton_known.
      - by apply known_byte, rp_ok_known.
      - destruct Hok. unfold is_u. lia. }
    destruct (Hkey _ _ _ _ Pl1 Hv1 Hp1 E1) as [T1 <-]. destruct (Hkey _ _ _ _ Pl2 Hv2 Hp2 E2) as [T2 <-].
    f_equal. apply (Hsing m1 m2 d1 d2); [done|done|apply Pl1|apply Pl2|done|done| |]; congruence.
Qed.

(** Every extension was read. *)
Lemma import_plain ms (c c' : Ctx W) :
  valid_extensions ms → no_own_state ms → forM ms import_contract c = (Ok (), c') → ∀ m, m ∈ ms → ∃ d, plain m d.
Proof.
  revert c. induction ms as [|m ms IH]; intros c Hv Hn; [by intros _ m ?%not_elem_of_nil|].
  intros ([] & c1 & Hm & Hrun)%M_bind_ok m' [->|Hin]%elem_of_cons.
  - apply M_bind_ok in Hm as (d & c0 & [Hd _]%lift_ok & _). rewrite wrap_ok in Hd. exists d.
    split; [done|]. split; [apply (Hv m d); [left|done]|apply (Hn m d); [left|done]].
  - eapply IH; [..|exact Hrun|exact Hin]; intros x d Hx; [apply Hv|apply Hn]; by right.
Qed.

Lemma set_privileged_steps a (c c' : Ctx W) :
  set_privileged a c = (Ok (), c') → rtc priv_step (store c) (store c').
Proof.
  intros (addr & c1 & [_ ->]%lift_ok & Hrun%wrapM_ok)%M_bind_ok. by eapply SetPrivileged_steps.
Qed.

Lemma forM_steps {A} (xs : list A) (f : A → M W ()) (P : W → Prop) (c c' : Ctx W) :
  (∀ x c c', f x c = (Ok (), c') → P (store c) → P (store c')) →
  forM xs f c = (Ok (), c') → P (store c) → P (store c').
Proof.
  intros Hf. revert c. induction xs as [|x xs IH]; intros c; cbn; [by intros [= <-]|].
  intros ([] & c1 & Hx & Hrun)%M_bind_ok HP. eapply IH; [done|]. by eapply Hf.
Qed.

(** The import agrees with the index it builds. *)
Lemma InitGenesis_inv {Update} data (c c' : Ctx W) (r : list Update) :
  (∀ k b, ¬ in_index (store c) k b) → (∀ b, GetContractInfo (store c) b = None) →
  valid_extensions (Contracts data) → no_own_state (Contracts data) → singletons_once (Contracts data) →
  InitGenesis data c = (Ok r, c') →
  priv_inv (store c').
Proof.
  intros Hempty Hnone Hval Hown Hsing Hrun. unfold InitGenesis in Hrun.
  apply M_bind_ok in Hrun as (res & c1 & Hw%wrapM_ok & Hrun).
  apply M_bind_ok in Hrun as ([] & c2 & Himp & Hrun).
  apply M_bind_ok in Hrun as ([] & c3 & Hset & Hrun).
  apply M_bind_ok in Hrun as ([] & c4 & Hpin & [= -> ->]).
  pose proof (import_plain _ _ _ Hval Hown Himp) as Hpl.
  destruct (import_contracts_spec _ _ _ Hpl Himp) as [Hs Hk].
  assert (priv_inv (store c2)) as Hinv2.
  { apply (imported_inv (Contracts data)); [done..| | |].
    - intros m a Hm Ha. rewrite Hs.
      eapply (wasm_InitGenesis_contracts _ _ _ _ (mkWasmContract (ContractAddress m) (Contract_Info m) _) _ Hw);
        [|done]. cbn. apply list_elem_of_fmap. by exists m.
    - intros a i. rewrite Hs. intros Hi.
      destruct (wasm_InitGenesis_others _ _ _ _ _ _ Hnone Hw Hi) as [(m & Hm & Ha & <-)|?]; [left|by right].
      apply list_elem_of_fmap in Hm as (m' & -> & Hm'). by exists m'.
    - intros k b. rewrite Hk. apply wasm_InitGenesis_index in Hw. unfold in_index at 1.
      rewrite Hw by (by eexists; right). specialize (Hempty k b). unfold in_index in Hempty. tauto. }
  eapply (forM_steps _ _ priv_inv); [|exact Hpin|].
  { intros x d d' [Hx Hc]%wrapM_ok%PinCode_frame. apply priv_inv_frame. by apply same_privileges_frame. }
  eapply (forM_steps _ _ priv_inv); [|exact Hset|done].
  intros x d d' Hx. apply priv_steps_inv. by eapply set_privileged_steps.
Qed.

(** C37: Importing a genesis state on an empty chain, with contracts promoted
    and codes pinned afterwards, ends with extensions and index in agreement,
    provided that the extensions of the contracts are valid (known privilege types, each once, at positions
    from 1 to 255), that no two contracts carry the same singleton privilege, and that none
    imports its own state. The import itself checks neither the range of the positions, which are cut to eight bits, nor
    the singletons. *)
Theorem InitGenesis_priv_inv {Update} data (c c' : Ctx W) (r : list Update) :
  (∀ k b, ¬ in_index (store c) k b) → (∀ b, GetContractInfo (store c) b = None) →
  valid_extensions (Contracts data) → no_own_state (Contracts data) → singletons_once (Contracts data) →
  InitGenesis data c = (Ok r, c') →
  priv_inv (store c').
Proof. apply InitGenesis_inv. Qed.
End import_props.

(** ** Neither singletons nor positions are checked on import *)
Section import_singleton.
Context `{!KVStore W, !KVLaws W, !WasmKeeper W, !WasmLaws W, !WasmVM W, !Bech32}.

(** The import of a contract with one registration: it is indexed at the last eight bits of its position. *)
Lemma import_registration (a : AccAddress) id t p (c c1 : Ctx W) :
  known t → getPrivilegedContract (store c) t (uint8 p) = None → PinCode id c = (Ok (), c1) →
  ∃ c', importPrivileged a id (mkDetails [mkRP p (PrivilegeType_String t)]) c = (Ok (), c') ∧
    getPrivilegedContract (store c') t (uint8 p) = Some a ∧
    ∀ q, is_u 8 q → q ≠ uint8 p → getPrivilegedContract (store c') t q = getPrivilegedContract (store c) t q.
Proof.
  intros Ht Hfree Hpin. destruct (PinCode_frame _ _ _ Hpin) as [Hx _].
  destruct (set_flag_spec a c1) as (w2 & Hf & _ & _ & [_ Hk]).
  assert (∀ p, getPrivilegedContract w2 t p = getPrivilegedContract (store c) t p) as Hg.
  { intros q. etrans; [apply (Hk (bytes1 t +:+ bytes1 q))|].
    apply (Hx (contractPrivilegesSecondaryIndexKey t q)). eauto. }
  unfold importPrivileged. unfold mbind, M_bind, wrapM. rewrite Hpin. cbn [wrap]. rewrite Hf.
  cbn [importRegistrations RegisteredPrivileges PrivilegeTypeName Position].
  rewrite From_String by done. unfold mbind, M_bind, gets. cbn [store].
  assert (kv_has w2 StoreKey (contractPrivilegesSecondaryIndexKey t (uint8 p)) = false)
    as -> by (apply kv_has_false; by rewrite <-Hfree, <-Hg).
  eexists. split; [done|]. cbn [store]. unfold getPrivilegedContract in *. split; [apply kv_get_set_eq|].
  intros q Hq Hne. assert (is_u 8 t) as Htb by (by apply known_byte).
  rewrite kv_get_set_ne by (intros [_ E]%privilege_key_inj; [congruence|done|apply wrap_u_range; lia|done..]). apply Hg.
Qed.

(** The import of a contract from genesis succeeds although its singleton
    privilege has another holder, as long as the positions differ; both contracts
    are then registered. *)
Lemma import_singleton_unchecked (a b : AccAddress) id p1 p2 (c c1 : Ctx W) :
  1 ≤ p1 ≤ 255 → 1 ≤ p2 ≤ 255 → p1 ≠ p2 →
  getPrivilegedContract (store c) PrivilegeTypeValidatorSetUpdate p1 = Some b →
  getPrivilegedContract (store c) PrivilegeTypeValidatorSetUpdate p2 = None →
  PinCode id c = (Ok (), c1) →
  IsSingleton PrivilegeTypeValidatorSetUpdate = true ∧
  ∃ c', importPrivileged a id
          (mkDetails [mkRP p2 (PrivilegeType_String PrivilegeTypeValidatorSetUpdate)]) c = (Ok (), c') ∧
    getPrivilegedContract (store c') PrivilegeTypeValidatorSetUpdate p1 = Some b ∧
    getPrivilegedContract (store c') PrivilegeTypeValidatorSetUpdate p2 = Some a.
Proof.
  intros H1 H2 Hne Hb Hfree Hpin. split; [by vm_compute|].
  assert (uint8 p2 = p2) as Ep by (apply (wrap_u_small 8); unfold is_u; lia).
  destruct (import_registration a id PrivilegeTypeValidatorSetUpdate p2 c c1) as (c' & Hrun & Ha & Hq);
    [by apply known_range|by rewrite Ep|done|]. exists c'. rewrite Ep in *. split; [done|]. split; [|done].
  rewrite Hq; [done|unfold is_u; lia|done].
Qed.

(** The extension names the position 261, which is not valid; the index has the contract at 5. *)
Lemma import_position_cut (a : AccAddress) id (c c1 : Ctx W) :
  getPrivilegedContract (store c) PrivilegeTypeEndBlock 5 = None → PinCode id c = (Ok (), c1) →
  let d := mkDetails [mkRP 261 (PrivilegeType_String PrivilegeTypeEndBlock)] in
  is_ok (PetriContractDetails_ValidateBasic d) = false ∧
  ∃ c', importPrivileged a id d c = (Ok (), c') ∧ getPrivilegedContract (store c') PrivilegeTypeEndBlock 5 = Some a.
Proof.
  intros Hfree Hpin d. split; [by vm_compute|].
  destruct (import_registration a id PrivilegeTypeEndBlock 261 c c1) as (c' & Hrun & Ha & _); [by apply known_range|done|done|].
  by exists c'.
Qed.
End import_singleton.

(** ** Export *)
Section export.
Context `{!KVStore W, !WasmKeeper W, !WasmVM W, !Bech32, !WasmGenesis W}.

(** The contract dumps its own state. *)
Definition exports_itself (v : WasmContract) : bool :=
  match ReadExtension (WC_Info v) with
  | Ok d => HasRegisteredPrivilege PrivilegeStateExporterImporter d
  | _ => false
  end.

Lemma export_contract_spec v (c c' : Ctx W) m :
  export_contract v c = (Ok m, c') →
  mkWasmContract (ContractAddress m) (Contract_Info m) (default [] (GetKvModel m)) =
    (if exports_itself v then mkWasmContract (WC_Address v) (WC_Info v) [] else v) ∧
  bool_decide (is_Some (GetCustomModel m)) = exports_itself v ∧
  (exports_itself v = false → c' = c).
Proof.
  unfold export_contract, exports_itself. destruct (ReadExtension (WC_Info v)) as [d|e|e]; [|done|done].
  destruct (HasRegisteredPrivilege _ d); cbn.
  - destruct (AccAddressFromBech32 (WC_Address v)) as [a|e|e]; [|done|done].
    intros ([got|e] & c1 & _ & [= <- <-])%M_bind_ok; done.
  - intros [= <- <-]. by destruct v.
Qed.

Lemma export_contracts_spec vs (c c' : Ctx W) ms :
  export_contracts vs c = (Ok ms, c') →
  ((λ v, mkWasmContract (ContractAddress v) (Contract_Info v) (default [] (GetKvModel v))) <$> ms) =
    ((λ v, if exports_itself v then mkWasmContract (WC_Address v) (WC_Info v) [] else v) <$> vs) ∧
  ((λ m, bool_decide (is_Some (GetCustomModel m))) <$> ms) = (exports_itself <$> vs) ∧
  (Forall (λ v, exports_itself v = false) vs → c' = c).
Proof.
  revert c ms. induction vs as [|v vs IH]; intros c ms.
  { by intros [-> ->]%mret_ok. }
  intros (m & c1 & Hm%export_contract_spec & (ms' & c2 & Hms & [-> ->]%mret_ok)%M_bind_ok)%M_bind_ok.
  destruct Hm as (E1 & E2 & E3). destruct (IH _ _ Hms) as (F1 & F2 & F3). cbn.
  rewrite E1, E2, F1, F2. split_and!; [done|done|]. intros [Hv Hvs]%Forall_cons. rewrite F3 by done. auto.
Qed.

(** Read as wasmd's genesis state, an export is wasmd's own export, except
    that contracts with the state exporter privilege carry the answer to the export
    callback instead of their key/value state; the lists of contracts to promote
    and codes to pin are empty; without such contracts the state is unchanged. *)
Lemma ExportGenesis_raw (c c' : Ctx W) g :
  ExportGenesis c = (Ok g, c') →
  let ws := wasm_ExportGenesis (store c) in
  RawWasmState g =
    mkWasmGenesis (WG_Params ws) (WG_Codes ws)
      ((λ v, if exports_itself v then mkWasmContract (WC_Address v) (WC_Info v) [] else v) <$> WG_Contracts ws)
      (WG_Sequences ws) (WG_GenMsgs ws) ∧
  (λ m, bool_decide (is_Some (GetCustomModel m))) <$> Contracts g = exports_itself <$> WG_Contracts ws ∧
  PrivilegedContractAddresses g = [] ∧ PinnedCodeIDs g = [] ∧
  (Forall (λ v, exports_itself v = false) (WG_Contracts ws) → c' = c).
Proof.
  intros Hrun. unfold ExportGenesis in Hrun.
  apply M_bind_ok in Hrun as (ws & c0 & [-> ->]%gets_ok & Hrun).
  apply M_bind_ok in Hrun as (ms & c1 & Hms & [-> ->]%mret_ok).
  destruct (export_contracts_spec _ _ _ _ Hms) as (H1 & H2 & H3).
  unfold RawWasmState. cbn [Contracts Params Codes Sequences GenMsgs PrivilegedContractAddresses PinnedCodeIDs].
  by rewrite H1.
Qed.
End export.

(** ** The reference chain *)
Definition import_info (m : WasmContract) : M World () :=
  a ← lift (AccAddressFromBech32 (WC_Address m));
  known ← gets (λ w, w_infos w !! a);
  match known with
  | Some _ => fail_with ErrDuplicate
  | None => modify (upd_infos <[a := WC_Info m]>)
  end.

#[export] Instance World_genesis : WasmGenesis World := {
  wasm_ValidateBasic _ := Ok ();
  GetAllCodes gs := Code_CodeID <$> WG_Codes gs;
  GetAllContracts gs := WC_Address <$> WG_Contracts gs;
  wasm_InitGenesis Update src gs := forM (WG_Contracts gs) import_info ;; src;
  wasm_ExportGenesis w :=
    mkWasmGenesis "" []
      ((λ e : string * ContractInfo, mkWasmContract (AccAddress_String e.1) e.2 []) <$> map_to_list (w_infos w))
      "" "";
}.

Lemma import_infos_spec ms (c c' : Ctx World) :
  forM ms import_info c = (Ok (), c') →
  w_kv (store c') = w_kv (store c) ∧
  (∀ a i, w_infos (store c) !! a = Some i → w_infos (store c') !! a = Some i) ∧
  (∀ m a, m ∈ ms → AccAddressFromBech32 (WC_Address m) = Ok a → w_infos (store c') !! a = Some (WC_Info m)) ∧
  (∀ a i, w_infos (store c') !! a = Some i → w_infos (store c) !! a = Some i ∨
     ∃ m, m ∈ ms ∧ AccAddressFromBech32 (WC_Address m) = Ok a ∧ WC_Info m = i).
Proof.
  revert c. induction ms as [|m ms IH]; intros c.
  { intros [_ ->]%mret_ok. split_and!; [done|done|set_solver|by left]. }
  intros ([] & c1 & Hm & Hrun)%M_bind_ok. destruct (IH _ Hrun) as (Hkv & Hkeep & Hin & Hout).
  unfold import_info in Hm. apply M_bind_ok in Hm as (a & c2 & [Ha ->]%lift_ok & Hm).
  unfold mbind, M_bind, gets in Hm. destruct (w_infos (store c) !! a) as [j|] eqn:Ej; [done|].
  injection Hm as <-. cbn in *. split_and!; [done|..].
  - intros b i Hi. apply Hkeep. rewrite lookup_insert_ne; [done|]. congruence.
  - intros m' b [->|Hm']%elem_of_cons Hb; [|by apply Hin].
    assert (b = a) as -> by congruence. apply Hkeep, lookup_insert_eq.
  - intros b i [Hi|(m' & Hm' & Hrest)]%Hout; [|by right; exists m'; split; [by right|]].
    apply lookup_insert_Some in Hi as [[<- <-]|[_ Hi]]; [|by left]. right. exists m. split; [by left|done].
Qed.

Lemma import_then {U} gs (c c' : Ctx World) (r : list U) :
  wasm_InitGenesis noopValsetUpdater gs c = (Ok r, c') → forM (WG_Contracts gs) import_info c = (Ok (), c').
Proof. by intros ([] & c1 & ? & [_ ->]%mret_ok)%M_bind_ok. Qed.

#[export] Instance World_genesis_laws : WasmGenesisLaws World.
Proof.
  constructor.
  - intros U src gs c r c' ([] & c1 & _ & Hs)%M_bind_ok. right. by exists c1, c'.
  - intros U gs c r c' (Hkv & _)%import_then%import_infos_spec k _. cbn. by rewrite Hkv.
  - intros U gs c r c' m a (_ & _ & Hin & _)%import_then%import_infos_spec Hm Ha. by eapply Hin.
  - intros U gs c r c' a i Hnone (_ & _ & _ & Hout)%import_then%import_infos_spec Hi. apply Hout in Hi as [Hi|?]; [|by left].
    specialize (Hnone a). cbn in Hnone. congruence.
Qed.

(** A genesis state with one contract that is an end blocker and one to promote. *)
Definition gen_bob : Contract :=
  mkContract "furya1bob" (mkContractInfo 1 "" (Some (furyaExtension (mkDetails [mkRP 4 "end_blocker"])))) NoState.
Definition gen_alice : Contract := mkContract "furya1alice" (mkContractInfo 2 "" None) NoState.
Definition gen0 : GenesisState :=
  mkGenesis "" [mkCode 1 ""; mkCode 2 ""] [gen_bob; gen_alice] "" "" ["furya1alice"] [2].
Definition w_empty : World := mkWorld ∅ ∅ ∅ (<["alice" := Requests [2; 3]]> ∅) ∅ None.
Definition w_gen : World := run (InitGenesis (Update := Z) gen0) w_empty.

Lemma gen0_plain m : m ∈ Contracts gen0 → ∃ d, plain m d.
Proof.
  intros [->|[->|[]%elem_of_nil]%elem_of_cons]%elem_of_cons.
  - exists (mkDetails [mkRP 4 "end_blocker"]). split; [by vm_compute|]. split; [|by vm_compute].
    split; [|apply NoDup_singleton]. apply Forall_singleton. split; [cbn; lia|]. vm_compute. eauto.
  - exists (mkDetails []). split; [done|]. split; [split; constructor|done].
Qed.

Lemma gen0_valid : valid_extensions (Contracts gen0).
Proof. intros m d Hm Hd. destruct (gen0_plain m Hm) as (d' & Hr & Hv & _). congruence. Qed.
Lemma gen0_no_own_state : no_own_state (Contracts gen0).
Proof. intros m d Hm Hd. destruct (gen0_plain m Hm) as (d' & Hr & _ & Hn). congruence. Qed.

Lemma gen0_details m d v :
  m ∈ Contracts gen0 → ReadExtension (Contract_Info m) = Ok d → v ∈ RegisteredPrivileges d → v = mkRP 4 "end_blocker".
Proof.
  intros Hm Hr Hv. apply elem_of_cons in Hm as [->|Hm].
  - vm_compute in Hr. injection Hr as <-. cbn in Hv. set_solver.
  - apply elem_of_cons in Hm as [->|Hm]; [|set_solver].
    vm_compute in Hr. injection Hr as <-. cbn in Hv. set_solver.
Qed.

(** C37: importing [gen0] on an empty chain. *)
Lemma InitGenesis_priv_inv_witness :
  priv_inv w_gen ∧ subscribers w_gen PrivilegeTypeEndBlock = ["bob"; "alice"].
Proof.
  split; [|vm_compute; reflexivity].
  destruct (run_okA (InitGenesis (Update := Z) gen0) w_empty) as [r Hr]; [vm_compute; reflexivity|].
  apply (InitGenesis_priv_inv gen0 (mkCtx w_empty []) (InitGenesis (Update := Z) gen0 (mkCtx w_empty [])).2 r).
  - intros k b. unfold in_index. cbn. rewrite lookup_empty. done.
  - intros b. cbn. apply lookup_empty.
  - exact gen0_valid.
  - exact gen0_no_own_state.
  - intros m1 m2 d1 d2 v1 v2 H1 H2 P1 P2 V1 V2 _ _.
    rewrite (gen0_details m1 d1 v1), (gen0_details m2 d2 v2) by done. done.
  - exact Hr.
Defined.

(** On [w_gen] alice holds the singleton at position 1; bob is imported at 2. *)
Lemma import_singleton_unchecked_witness :
  ∃ c', importPrivileged "bob" 1
      (mkDetails [mkRP 2 (PrivilegeType_String PrivilegeTypeValidatorSetUpdate)]) (mkCtx w_gen []) = (Ok (), c') ∧
    getPrivilegedContract (store c') PrivilegeTypeValidatorSetUpdate 1 = Some "alice" ∧
    getPrivilegedContract (store c') PrivilegeTypeValidatorSetUpdate 2 = Some "bob".
Proof.
  apply (import_singleton_unchecked "bob" "alice" 1 1 2 (mkCtx w_gen [])
    (mkCtx (upd_pinned (λ p, {[1]} ∪ p) w_gen) [])); try lia; vm_compute; reflexivity.
Defined.

(** What the chain exports after the import. *)
Lemma ExportGenesis_raw_witness :
  ∃ g, (ExportGenesis (mkCtx w_gen [])).1 = Ok g ∧ PrivilegedContractAddresses g = [].
Proof.
  destruct (run_okA ExportGenesis w_gen) as [g Hg]; [vm_compute; reflexivity|].
  exists g. split; [by rewrite Hg|]. apply (ExportGenesis_raw _ _ g Hg).
Defined.
