(* ===== verification/TwasmGenesisIO.v ===== *)
(** The commands that change the genesis file of x/twasm (x/twasm/client/cli/genesisio.go): wasmd's
    commands get the state of the module as their own genesis state and change it.

    The file and the codec of the state are parameters; the callback of a command, which changes the
    state and the map of the application's state, returns both. *)
From stdpp Require Import base list strings gmap.
From Stdlib Require Import ZArith.
From S2P Require Import Prelude Sdk Slice Json Privilege TwasmMsgs Wasm TwasmKeeper TwasmHandler TwasmSteps RefWorld TwasmGenesis.
Open Scope Z_scope.

Section genesis_io.
Context `{!KVStore W, !WasmKeeper W, !WasmVM W, !Bech32, !WasmGenesis W}.
(** [GenesisStateFromGenFile] and [ExportGenesisFile], and the codec, whose decoder panics. *)
Variables (file : outcome (gmap string json)) (ExportGenesisFile : gmap string json → outcome ())
  (MustUnmarshalJSON : json → outcome GenesisState) (MarshalJSON : GenesisState → outcome json).

Definition zero_genesis : GenesisState := mkGenesis "" [] [] "" "" [] [].

(** The application's state and the module's part of it. *)
Definition ReadTWasmGenesis : outcome (gmap string json * GenesisState) :=
  appState ← wrap "failed to unmarshal genesis state" file;
  match appState !! ModuleName with
  | Some j => g ← MustUnmarshalJSON j; Ok (appState, g)
  | None => Ok (appState, zero_genesis)
  end.

(** What wasmd's commands that only read get to see. *)
Definition ReadWasmGenesis : outcome (gmap string json * WasmGenesisState) :=
  r ← ReadTWasmGenesis; Ok (r.1, RawWasmState r.2).

Definition AlterTWasmModuleState
    (callback : GenesisState → gmap string json → outcome (GenesisState * gmap string json)) : outcome (gmap string json) :=
  g ← ReadTWasmGenesis;
  r ← callback g.2 g.1;
  GenesisState_ValidateBasic (W := W) r.1 ;;
  twasmGenStateBz ← wrap "marshal twasm genesis state" (MarshalJSON r.1);
  let appState := <[ModuleName := twasmGenStateBz]> r.2 in
  ExportGenesisFile appState ;;
  Ok appState.

(** [state.GenMsgs = wasmState.GenMsgs] *)
Definition set_gen_msgs (g : GenesisState) (msgs : bytes) : GenesisState :=
  mkGenesis (Params g) (Codes g) (Contracts g) (Sequences g) msgs (PrivilegedContractAddresses g) (PinnedCodeIDs g).

Definition AlterWasmModuleState
    (callback : WasmGenesisState → gmap string json → outcome (WasmGenesisState * gmap string json)) : outcome (gmap string json) :=
  AlterTWasmModuleState (λ state appState,
    r ← callback (RawWasmState state) appState;
    Ok (set_gen_msgs state (WG_GenMsgs r.1), r.2)).

(** *** The commands that set privileges and pins (x/twasm/client/cli/genesis_flags.go) *)
Definition with_privileged (g : GenesisState) (addrs : list string) : GenesisState :=
  mkGenesis (Params g) (Codes g) (Contracts g) (Sequences g) (GenMsgs g) addrs (PinnedCodeIDs g).
Definition with_pinned (g : GenesisState) (ids : list Z) : GenesisState :=
  mkGenesis (Params g) (Codes g) (Contracts g) (Sequences g) (GenMsgs g) (PrivilegedContractAddresses g) ids.

Definition GenesisSetPrivileged (arg : string) : outcome (gmap string json) :=
  _ ← wrap "contract address" (AccAddressFromBech32 arg);
  AlterTWasmModuleState (λ state appState,
    if decide (arg ∈ PrivilegedContractAddresses state) then Err (Wrap ErrDuplicate "contract address already privileged")
    else Ok (with_privileged state (PrivilegedContractAddresses state ++ [arg]), appState)).

Definition GenesisSetPinned (arg : string) : outcome (gmap string json) :=
  codeID ← match ParseUint arg with Ok id => Ok id | _ => Err (new_err "code ID is not a valid number: %w") end;
  AlterTWasmModuleState (λ state appState,
    if decide (codeID ∈ PinnedCodeIDs state) then Err (Wrap ErrDuplicate "code already pinned")
    else Ok (with_pinned state (PinnedCodeIDs state ++ [codeID]), appState)).

(** ** Only the messages of wasmd's part change *)
Hypothesis codec : ∀ g j, MarshalJSON g = Ok j → MustUnmarshalJSON j = Ok g.

(** What is written is a valid state that reads back as the old one with the messages of the
    changed wasm state; whatever else the command changed in the wasm state is dropped. *)
Lemma AlterWasm_messages callback appState g app' :
  ReadTWasmGenesis = Ok (appState, g) → AlterWasmModuleState callback = Ok app' →
  ∃ ws app1 j, callback (RawWasmState g) appState = Ok (ws, app1) ∧ app' = <[ModuleName := j]> app1 ∧
    MustUnmarshalJSON j = Ok (set_gen_msgs g (WG_GenMsgs ws)) ∧
    GenesisState_ValidateBasic (W := W) (set_gen_msgs g (WG_GenMsgs ws)) = Ok () ∧
    RawWasmState (set_gen_msgs g (WG_GenMsgs ws)) =
      mkWasmGenesis (Params g) (Codes g) (WG_Contracts (RawWasmState g)) (Sequences g) (WG_GenMsgs ws).
Proof using codec.
  intros Hread Hrun. unfold AlterWasmModuleState, AlterTWasmModuleState in Hrun. rewrite Hread in Hrun.
  cbn [mbind outcome_bind fst snd] in Hrun.
  apply outcome_bind_ok in Hrun as (r & Hcb & Hrun).
  apply outcome_bind_ok in Hcb as ([ws app1] & Hcb & [= <-]).
  apply outcome_bind_ok in Hrun as ([] & Hv & Hrun). apply outcome_bind_ok in Hrun as (j & Hj%wrap_ok%codec & Hrun).
  apply outcome_bind_ok in Hrun as ([] & _ & [= <-]). by exists ws, app1, j.
Qed.

(** A successful change of the module's state is written and reads back, and the new state is valid. *)
Lemma AlterTWasm_written callback appState g app' :
  ReadTWasmGenesis = Ok (appState, g) → AlterTWasmModuleState callback = Ok app' →
  ∃ g' app1 j, callback g appState = Ok (g', app1) ∧ app' = <[ModuleName := j]> app1 ∧
    MustUnmarshalJSON j = Ok g' ∧ GenesisState_ValidateBasic (W := W) g' = Ok ().
Proof using codec.
  intros Hread Hrun. unfold AlterTWasmModuleState in Hrun. rewrite Hread in Hrun. cbn [mbind outcome_bind fst snd] in Hrun.
  apply outcome_bind_ok in Hrun as ([g' app1] & Hcb & Hrun).
  apply outcome_bind_ok in Hrun as ([] & Hv & Hrun). apply outcome_bind_ok in Hrun as (j & Hj%wrap_ok%codec & Hrun).
  apply outcome_bind_ok in Hrun as ([] & _ & [= <-]). by exists g', app1, j.
Qed.

(** A contract is marked once, and only one that the genesis state has: the written state has the
    address at the end of the list, and is otherwise as before. *)
Lemma SetPrivileged_written arg appState g app' :
  ReadTWasmGenesis = Ok (appState, g) → GenesisSetPrivileged arg = Ok app' →
  (arg ∉ PrivilegedContractAddresses g) ∧ arg ∈ GetAllContracts (RawWasmState g) ∧
  ∃ j, app' = <[ModuleName := j]> appState ∧
    MustUnmarshalJSON j = Ok (with_privileged g (PrivilegedContractAddresses g ++ [arg])).
Proof using codec.
  intros Hread (a & _ & Hrun)%outcome_bind_ok.
  destruct (AlterTWasm_written _ _ _ _ Hread Hrun) as (g' & app1 & j & Hcb & -> & Hj & Hv).
  case_decide as Hin; [done|]. injection Hcb as <- <-. split; [done|]. split; [|by exists j].
  apply ValidateBasic_members in Hv as [_ Hall]. apply Hall. cbn. set_solver.
Qed.
Lemma SetPinned_written arg appState g app' :
  ReadTWasmGenesis = Ok (appState, g) → GenesisSetPinned arg = Ok app' →
  ∃ id, ParseUint arg = Ok id ∧ (id ∉ PinnedCodeIDs g) ∧ id ∈ GetAllCodes (RawWasmState g) ∧
  ∃ j, app' = <[ModuleName := j]> appState ∧ MustUnmarshalJSON j = Ok (with_pinned g (PinnedCodeIDs g ++ [id])).
Proof using codec.
  intros Hread (id & Hid & Hrun)%outcome_bind_ok. exists id. split; [by destruct (ParseUint arg)|].
  destruct (AlterTWasm_written _ _ _ _ Hread Hrun) as (g' & app1 & j & Hcb & -> & Hj & Hv).
  case_decide as Hin; [done|]. injection Hcb as <- <-. split; [done|]. split; [|by exists j].
  apply ValidateBasic_members in Hv as [Hall _]. apply Hall. cbn. set_solver.
Qed.
End genesis_io.
