(* ===== verification/GlobalFee.v ===== *)
(** The global minimum fee (x/globalfee): the ante decorator (ante.go), the
    parameters (types/params.go), genesis (module.go) and the query (querier.go).

    A decimal of the SDK is its integer representation, scaled by 10^18. *)
From stdpp Require Import base list strings gmap sets sorting.
From Stdlib Require Import ZArith Lia.
From S2P Require Import Prelude Sdk.
Open Scope Z_scope.

Definition ErrTxDecode : error := new_err "sdk/tx parse error".
Definition ErrInsufficientFee : error := new_err "sdk/insufficient fee".

Record DecCoin := mkDecCoin { Dec_Denom : string; Dec_Amount : Z }.
#[export] Instance DecCoin_eq_dec : EqDecision DecCoin.
Proof. solve_decision. Defined.

Definition precision : Z := 10 ^ 18.

(** ** The SDK's decimals and coins *)
Class SdkDec := {
  Dec_Mul : Z → Z → outcome Z;
  Dec_Ceil : Z → Z;
  Dec_RoundInt : Z → outcome Z;
  NewCoin : string → Z → outcome Coin;
  (** [Coins.IsAnyGTE] *)
  IsAnyGTE : list Coin → list Coin → bool;
  (** [DecCoins.Validate] *)
  DecCoins_Validate : list DecCoin → outcome ();
}.

(** [sdk.NewDec] *)
Definition NewDec (n : Z) : Z := n * precision.

Definition ceil_div (a b : Z) : Z := - ((- a) / b).

Class SdkDecLaws `{SdkDec} := {
  (** Multiplication by an integer is exact as long as the result has at most 315 bits. *)
  Dec_Mul_int x n : Z.abs (x * n) < 2 ^ 315 → Dec_Mul x (NewDec n) = Ok (x * n);
  Dec_Ceil_spec x : Dec_Ceil x = NewDec (ceil_div x precision);
  Dec_RoundInt_int n : Z.abs n < 2 ^ 256 → Dec_RoundInt (NewDec n) = Ok n;
  (** A coin of a valid denom is built for amounts that are not negative, otherwise it panics. *)
  NewCoin_neg d a : a < 0 → ∃ p, NewCoin d a = Panic p;
  DecCoins_Validate_ok cs :
    DecCoins_Validate cs = Ok () →
    StronglySorted (λ a b, bytes_lt (Dec_Denom a) (Dec_Denom b)) cs ∧
    Forall (λ c, 0 < Dec_Amount c ∧ ∀ a, 0 ≤ a → NewCoin (Dec_Denom c) a = Ok (mkCoin (Dec_Denom c) a)) cs;
  (** Some coin is worth at least a positive amount of the other, sorted, set. *)
  IsAnyGTE_spec cs bs :
    StronglySorted bytes_lt (Denom <$> bs) →
    IsAnyGTE cs bs = true ↔
    ∃ c b, c ∈ cs ∧ b ∈ bs ∧ Denom c = Denom b ∧ Amount b ≠ 0 ∧ Amount b ≤ Amount c;
}.

(** [paramSource], the parameter subspace of the module. *)
Class FeeParams (W : Type) := {
  HasMinGasPrices : W → bool;
  GetMinGasPrices : W → outcome (list DecCoin);
  SetParamSet : list DecCoin → M W ();
  GetParamSet : W → outcome (list DecCoin);
}.

(** A transaction; only some implement [sdk.FeeTx]. *)
Record FeeTx := mkFeeTx { GetGas : Z; GetFee : list Coin }.
Inductive Tx := TxFee (tx : FeeTx) | TxOther.

(** ** The module *)
Section globalfee.
Context {W : Type} `{SdkDec, !FeeParams W}.

(** [DecCoins.IsZero] *)
Definition DecCoins_IsZero (cs : list DecCoin) : bool := forallb (λ c, Dec_Amount c =? 0) cs.

Fixpoint required_fees (gas : Z) (prices : list DecCoin) : outcome (list Coin) :=
  match prices with
  | [] => Ok []
  | gp :: prices' =>
      fee ← Dec_Mul (Dec_Amount gp) (NewDec (int64 gas));
      amount ← Dec_RoundInt (Dec_Ceil fee);
      coin ← NewCoin (Dec_Denom gp) amount;
      rest ← required_fees gas prices';
      Ok (coin :: rest)
  end.

Definition AnteHandle {A} (tx : Tx) (simulate : bool) (next : M W A) : M W A :=
  has ← gets HasMinGasPrices;
  if negb simulate && has then
    match tx with
    | TxOther => fail_with (Wrap ErrTxDecode "tx must be a sdk FeeTx")
    | TxFee feeTx =>
        minGasPrices ← (λ c, (GetMinGasPrices (store c), c));
        if negb (DecCoins_IsZero minGasPrices) then
          requiredFees ← lift (required_fees (GetGas feeTx) minGasPrices);
          if negb (IsAnyGTE (GetFee feeTx) requiredFees)
          then fail_with (Wrap ErrInsufficientFee "got: %s required: %s")
          else next
        else next
    end
  else next.

Definition DefaultParams : list DecCoin := [].
Definition validateMinimumGasPrices (v : list DecCoin) : outcome () := DecCoins_Validate v.
Definition Params_ValidateBasic (p : list DecCoin) : outcome () := validateMinimumGasPrices p.

(** The genesis message, as the codec reads it. *)
Definition ValidateGenesis (data : outcome (list DecCoin)) : outcome () :=
  p ← data; wrap "params" (Params_ValidateBasic p).

Definition InitGenesis (genesisState : list DecCoin) : M W () := SetParamSet genesisState.
Definition ExportGenesis (w : W) : outcome (list DecCoin) := GetParamSet w.

Definition MinimumGasPrices (w : W) : outcome (list DecCoin) :=
  if HasMinGasPrices w then GetMinGasPrices w else Ok [].
End globalfee.

(** ** The fee rule *)

(** What a transaction must offer in the denom of a price: the price times the
    gas limit, as an int64, rounded up. *)
Definition required_amount (gas : Z) (gp : DecCoin) : Z := ceil_div (Dec_Amount gp * int64 gas) precision.

(** The fee covers the required amount of one of the prices. *)
Definition fee_sufficient (tx : FeeTx) (prices : list DecCoin) : bool :=
  existsb (λ gp, existsb (λ c, (Denom c =? Dec_Denom gp)%string &&
      negb (required_amount (GetGas tx) gp =? 0) && (required_amount (GetGas tx) gp <=? Amount c))
    (GetFee tx)) prices.

Lemma int64_bound z : Z.abs (int64 z) ≤ 2 ^ 63.
Proof. pose proof (wrap_s_range 64 z ltac:(lia)) as [? ?]. unfold int64. lia. Qed.

Lemma ceil_div_abs a b : 0 < b → Z.abs (ceil_div a b) ≤ Z.abs a.
Proof.
  intros Hb. unfold ceil_div.
  pose proof (Z.div_mod (- a) b ltac:(lia)). pose proof (Z.mod_pos_bound (- a) b ltac:(lia)). nia.
Qed.

Section fee_rule.
Context {W : Type} `{SdkDecLaws, !FeeParams W}.

(** Prices below this bound cannot overflow the decimals. *)
Definition price_bound : Z := 2 ^ 192.

Lemma required_bound gas gp :
  0 < Dec_Amount gp < price_bound →
  Z.abs (Dec_Amount gp * int64 gas) < 2 ^ 315 ∧ Z.abs (required_amount gas gp) < 2 ^ 256.
Proof.
  intros Hp. pose proof (int64_bound gas). unfold price_bound in Hp.
  assert (Z.abs (Dec_Amount gp * int64 gas) ≤ 2 ^ 192 * 2 ^ 63) as Hm by (rewrite Z.abs_mul; nia).
  pose proof (ceil_div_abs (Dec_Amount gp * int64 gas) precision ltac:(done)) as Hc.
  unfold required_amount. change (2 ^ 192 * 2 ^ 63) with (2 ^ 255) in Hm. lia.
Qed.

Lemma required_fees_spec gas prices :
  Forall (λ gp, 0 < Dec_Amount gp < price_bound ∧
    ∀ a, 0 ≤ a → NewCoin (Dec_Denom gp) a = Ok (mkCoin (Dec_Denom gp) a)) prices →
  if existsb (λ gp, required_amount gas gp <? 0) prices then ∃ p, required_fees gas prices = Panic p
  else required_fees gas prices = Ok ((λ gp, mkCoin (Dec_Denom gp) (required_amount gas gp)) <$> prices).
Proof.
  induction prices as [|gp prices IH]; cbn; [done|].
  intros [[Hp Hcoin] Hall]%Forall_cons. specialize (IH Hall).
  destruct (required_bound gas gp Hp) as [Hb1 Hb2].
  rewrite Dec_Mul_int by done. cbn. rewrite Dec_Ceil_spec, Dec_RoundInt_int by done. cbn.
  fold (required_amount gas gp). destruct (Z.ltb_spec (required_amount gas gp) 0); cbn.
  - destruct (NewCoin_neg (Dec_Denom gp) (required_amount gas gp)) as [p ->]; [done|]. by exists p.
  - rewrite Hcoin by done. cbn. destruct (existsb _ prices).
    + destruct IH as [p ->]. by exists p.
    + by rewrite IH.
Qed.

Lemma sorted_denoms gas prices :
  StronglySorted (λ a b, bytes_lt (Dec_Denom a) (Dec_Denom b)) prices →
  StronglySorted bytes_lt (Denom <$> ((λ gp, mkCoin (Dec_Denom gp) (required_amount gas gp)) <$> prices)).
Proof.
  induction 1 as [|gp prices Hs IH Hall]; cbn; [constructor|]. constructor; [done|].
  rewrite !Forall_fmap. done.
Qed.

Lemma fee_sufficient_spec tx prices :
  StronglySorted (λ a b, bytes_lt (Dec_Denom a) (Dec_Denom b)) prices →
  IsAnyGTE (GetFee tx) ((λ gp, mkCoin (Dec_Denom gp) (required_amount (GetGas tx) gp)) <$> prices) =
  fee_sufficient tx prices.
Proof.
  intros Hs. apply eq_true_iff_eq. rewrite IsAnyGTE_spec by (by apply sorted_denoms).
  unfold fee_sufficient. rewrite existsb_exists. setoid_rewrite existsb_exists.
  setoid_rewrite andb_true_iff. setoid_rewrite andb_true_iff. setoid_rewrite negb_true_iff.
  setoid_rewrite Z.eqb_neq. setoid_rewrite Z.leb_le. setoid_rewrite String.eqb_eq.
  setoid_rewrite <-list_elem_of_In. split.
  - intros (c & b & Hc & (gp & -> & Hgp)%list_elem_of_fmap & Hd & Hne & Hle). cbn in *. eauto 10.
  - intros (gp & Hgp & c & Hc & (Hd & Hne) & Hle). exists c, (mkCoin (Dec_Denom gp) (required_amount (GetGas tx) gp)).
    split_and!; try done. apply list_elem_of_fmap. by exists gp.
Qed.

Lemma AnteHandle_prices {A} tx prices (next : M W A) (c : Ctx W) :
  HasMinGasPrices (store c) = true → GetMinGasPrices (store c) = Ok prices →
  AnteHandle (TxFee tx) false next c =
  if DecCoins_IsZero prices then next c
  else match required_fees (GetGas tx) prices with
       | Ok fees => if IsAnyGTE (GetFee tx) fees then next c
                    else (Err (Wrap ErrInsufficientFee "got: %s required: %s"), c)
       | Err e => (Err e, c)
       | Panic p => (Panic p, c)
       end.
Proof.
  intros Hhas Hget. unfold AnteHandle. unfold mbind, M_bind, gets, lift. rewrite Hhas. cbn [negb andb].
  rewrite Hget. destruct (DecCoins_IsZero prices); [done|]. cbn [negb].
  destruct (required_fees _ _) as [fees|e|e]; [|done|done]. by destruct (IsAnyGTE _ _).
Qed.

Lemma valid_prices prices :
  DecCoins_Validate prices = Ok () → Forall (λ gp, Dec_Amount gp < price_bound) prices →
  Forall (λ gp, 0 < Dec_Amount gp < price_bound ∧
    ∀ a, 0 ≤ a → NewCoin (Dec_Denom gp) a = Ok (mkCoin (Dec_Denom gp) a)) prices.
Proof.
  intros [_ Hpos]%DecCoins_Validate_ok Hb. rewrite Forall_forall in *. intros x Hx.
  destruct (Hpos x Hx). specialize (Hb x Hx). done.
Qed.

(** A transaction that passes has paid. *)
Lemma AnteHandle_paid {A} tx prices (next : M W A) (c c' : Ctx W) r :
  HasMinGasPrices (store c) = true → GetMinGasPrices (store c) = Ok prices →
  DecCoins_Validate prices = Ok () → Forall (λ gp, Dec_Amount gp < price_bound) prices → prices ≠ [] →
  AnteHandle (TxFee tx) false next c = (Ok r, c') → fee_sufficient tx prices = true ∧ next c = (Ok r, c').
Proof.
  intros Hhas Hget Hval Hbound Hne. destruct (DecCoins_Validate_ok _ Hval) as [Hsort Hpos].
  rewrite (AnteHandle_prices tx prices) by done.
  pose proof (required_fees_spec (GetGas tx) prices (valid_prices _ Hval Hbound)) as Hreq.
  assert (DecCoins_IsZero prices = false) as ->.
  { destruct prices as [|gp prices]; [done|]. cbn. apply Forall_cons in Hpos as [[? _] _].
    destruct (Z.eqb_spec (Dec_Amount gp) 0); [lia|done]. }
  destruct (existsb _ prices); [by destruct Hreq as [p ->]|].
  rewrite Hreq, fee_sufficient_spec by done. by destruct (fee_sufficient tx prices).
Qed.

(** C13: with valid prices set, a transaction passes exactly when its fee covers,
    in the denom of some price, the price times the gas limit rounded up, a
    positive amount; without prices everything passes. The gas limit counts as an
    int64: a limit of 2^63 or more gives negative amounts, and then the decorator
    panics as soon as one of them rounds to less than zero. *)
Theorem fee_rule {A} tx prices (next : M W A) (c : Ctx W) :
  HasMinGasPrices (store c) = true → GetMinGasPrices (store c) = Ok prices →
  DecCoins_Validate prices = Ok () → Forall (λ gp, Dec_Amount gp < price_bound) prices →
  let r := AnteHandle (TxFee tx) false next c in
  if decide (prices = []) then r = next c
  else if existsb (λ gp, required_amount (GetGas tx) gp <? 0) prices then ∃ p, r = (Panic p, c)
  else if fee_sufficient tx prices then r = next c
  else r = (Err (Wrap ErrInsufficientFee "got: %s required: %s"), c).
Proof.
  intros Hhas Hget Hval Hbound. destruct (DecCoins_Validate_ok _ Hval) as [Hsort Hpos].
  cbv zeta. rewrite (AnteHandle_prices tx prices) by done.
  pose proof (required_fees_spec (GetGas tx) prices (valid_prices _ Hval Hbound)) as Hreq.
  destruct prices as [|gp prices]; [by rewrite decide_True|]. rewrite decide_False by done.
  assert (DecCoins_IsZero (gp :: prices) = false) as ->.
  { cbn. apply Forall_cons in Hpos as [[? _] _]. destruct (Z.eqb_spec (Dec_Amount gp) 0); [lia|done]. }
  destruct (existsb _ (gp :: prices)).
  - destruct Hreq as [p ->]. by exists p.
  - rewrite Hreq, fee_sufficient_spec by done. by destruct (fee_sufficient tx (gp :: prices)).
Qed.

(** A transaction with a gas limit below 2^63 never makes the decorator
    panic, and one that asks for no gas at all is refused whenever prices are set. *)
Theorem fee_gas_limits {A} tx prices (next : M W A) (c : Ctx W) :
  HasMinGasPrices (store c) = true → GetMinGasPrices (store c) = Ok prices →
  DecCoins_Validate prices = Ok () → Forall (λ gp, Dec_Amount gp < price_bound) prices → prices ≠ [] →
  0 ≤ GetGas tx < 2 ^ 63 →
  AnteHandle (TxFee tx) false next c =
    (if fee_sufficient tx prices then next c
     else (Err (Wrap ErrInsufficientFee "got: %s required: %s"), c)) ∧
  (GetGas tx = 0 → fee_sufficient tx prices = false).
Proof.
  intros Hhas Hget Hval Hbound Hne Hgas. destruct (DecCoins_Validate_ok _ Hval) as [Hsort Hpos].
  assert (int64 (GetGas tx) = GetGas tx) as Hint by (apply (wrap_s_small 64); [lia|unfold is_s; lia]).
  assert (existsb (λ gp, required_amount (GetGas tx) gp <? 0) prices = false) as Hneg.
  { apply not_true_is_false. rewrite existsb_exists. intros (gp & Hin%list_elem_of_In & Hlt%Z.ltb_lt).
    rewrite Forall_forall in Hpos. destruct (Hpos gp Hin) as [Hp _]. unfold required_amount, ceil_div in Hlt.
    rewrite Hint in Hlt. pose proof (Z.div_le_upper_bound (- (Dec_Amount gp * GetGas tx)) precision 0
      ltac:(done) ltac:(nia)). lia. }
  split.
  - rewrite (AnteHandle_prices tx prices) by done.
    pose proof (required_fees_spec (GetGas tx) prices (valid_prices _ Hval Hbound)) as Hreq.
    rewrite Hneg in Hreq. rewrite Hreq, fee_sufficient_spec by done. destruct prices as [|gp prices]; [done|].
    cbn. apply Forall_cons in Hpos as [[? _] _]. destruct (Z.eqb_spec (Dec_Amount gp) 0); [lia|]. cbn.
    by destruct (fee_sufficient tx (gp :: prices)).
  - intros Hz. apply not_true_is_false. unfold fee_sufficient. rewrite existsb_exists.
    intros (gp & _ & (c' & _ & Hc)%existsb_exists). unfold required_amount in Hc. rewrite Hint, Hz in Hc.
    rewrite Z.mul_0_r in Hc. cbn in Hc. by rewrite andb_false_r in Hc.
Qed.
End fee_rule.

(** ** A concrete instance *)
#[export] Instance Ref_dec : SdkDec := {
  Dec_Mul x y :=
    if decide (Z.abs (x * y / precision) < 2 ^ 315) then Ok (x * y / precision) else Panic "Int overflow";
  Dec_Ceil x := NewDec (ceil_div x precision);
  Dec_RoundInt x :=
    if decide (Z.abs (x / precision) < 2 ^ 256) then Ok (x / precision) else Panic "Int overflow";
  NewCoin d a := if decide (a < 0 ∨ d = "") then Panic "negative coin" else Ok (mkCoin d a);
  IsAnyGTE cs bs :=
    existsb (λ c, existsb (λ b, (Denom c =? Denom b)%string && negb (Amount b =? 0) && (Amount b <=? Amount c)) bs) cs;
  DecCoins_Validate cs :=
    if decide (StronglySorted (λ a b, bytes_lt (Dec_Denom a) (Dec_Denom b)) cs ∧
               Forall (λ c, 0 < Dec_Amount c ∧ Dec_Denom c ≠ "") cs)
    then Ok () else Err (new_err "deccoins");
}.

#[export] Instance Ref_dec_laws : SdkDecLaws.
Proof.
  constructor; cbn.
  - intros x n Hb. unfold NewDec. rewrite Z.mul_assoc, Z.div_mul by done. by rewrite decide_True.
  - done.
  - intros n Hb. unfold NewDec. rewrite Z.div_mul by done. by rewrite decide_True.
  - intros d a Ha. rewrite decide_True by auto. eauto.
  - intros cs. case_decide as Hv; [|done]. destruct Hv as [Hs Hf]. intros _. split; [done|].
    eapply Forall_impl; [exact Hf|]. intros x [Hx Hd]. split; [done|]. intros a Ha.
    rewrite decide_False; [done|]. intros [?|?]; [lia|done].
  - intros cs bs _. rewrite existsb_exists. setoid_rewrite existsb_exists.
    setoid_rewrite andb_true_iff. setoid_rewrite andb_true_iff. setoid_rewrite negb_true_iff.
    setoid_rewrite Z.eqb_neq. setoid_rewrite Z.leb_le. setoid_rewrite String.eqb_eq.
    setoid_rewrite <-list_elem_of_In. naive_solver.
Qed.

(** The state is the stored prices. *)
#[export] Instance Ref_fee_params : FeeParams (list DecCoin) := {
  HasMinGasPrices _ := true;
  GetMinGasPrices w := Ok w;
  SetParamSet ps := modify (λ _, ps);
  GetParamSet w := Ok w;
}.

(** A price of 0.5 and one of 2. *)
Definition ref_prices : list DecCoin := [mkDecCoin "ufoo" (5 * 10 ^ 17); mkDecCoin "ufur" (2 * 10 ^ 18)].

Lemma ref_prices_bound : Forall (λ gp, Dec_Amount gp < price_bound) ref_prices.
Proof. apply (bool_decide_unpack _). by vm_compute. Qed.

Lemma ref_prices_valid : DecCoins_Validate ref_prices = Ok ().
Proof. vm_compute. reflexivity. Qed.

(** C13: three gas cost two ufoo, rounded up from 1.5; one is too little. *)
Lemma fee_rule_witness :
  AnteHandle (TxFee (mkFeeTx 3 [mkCoin "ufoo" 2])) false (mret 7) (mkCtx ref_prices []) =
    (Ok 7, mkCtx ref_prices []) ∧
  (AnteHandle (TxFee (mkFeeTx 3 [mkCoin "ufoo" 1])) false (mret 7) (mkCtx ref_prices [])).1 =
    Err (Wrap ErrInsufficientFee "got: %s required: %s").
Proof.
  split.
  - pose proof (fee_rule (mkFeeTx 3 [mkCoin "ufoo" 2]) ref_prices (mret 7) (mkCtx ref_prices [])
      eq_refl eq_refl ref_prices_valid ref_prices_bound) as Hr.
    vm_compute in Hr. vm_compute. exact Hr.
  - pose proof (fee_rule (mkFeeTx 3 [mkCoin "ufoo" 1]) ref_prices (mret 7) (mkCtx ref_prices [])
      eq_refl eq_refl ref_prices_valid ref_prices_bound) as Hr.
    vm_compute in Hr. vm_compute. exact (f_equal fst Hr).
Defined.

(** No gas, no fee. *)
Lemma fee_gas_limits_witness :
  AnteHandle (TxFee (mkFeeTx 0 [])) false (mret 7) (mkCtx ref_prices []) =
    (Err (Wrap ErrInsufficientFee "got: %s required: %s"), mkCtx ref_prices []).
Proof.
  pose proof (fee_gas_limits (mkFeeTx 0 []) ref_prices (mret 7) (mkCtx ref_prices [])
    eq_refl eq_refl ref_prices_valid ref_prices_bound ltac:(done) ltac:(cbn; lia)) as [Hr _].
  rewrite Hr. vm_compute. reflexivity.
Defined.
