(* ===== verification/GoTime.v ===== *)
(** Go durations: [time.Duration] is an int64 of nanoseconds.

    [Duration.Seconds] returns a float64. The genesis checks convert it back to
    an integer, so the rounding is modelled: a non-negative float64 of the range
    in question is an integer multiple of [2^-83], and [round53] rounds to 53
    significant bits, ties to even. *)
From stdpp Require Import base tactics numbers.
From Stdlib Require Import ZArith Lia.
From S2P Require Import Prelude.
Open Scope Z_scope.

Definition Second : Z := 10 ^ 9.
Definition Minute : Z := 60 * Second.
Definition Hour : Z := 60 * Minute.

(** [Duration.Truncate] *)
Definition Truncate (d m : Z) : Z := if m <=? 0 then d else d - Z.rem d m.

(** The integer nearest to [a / b]; of two the even one. *)
Definition rne (a b : Z) : Z :=
  let q := a / b in
  let r := a mod b in
  if 2 * r <? b then q else if b <? 2 * r then q + 1 else if Z.even q then q else q + 1.

(** [a / b] with 53 significant bits, for a quotient of 2^52 or more, or an integer. *)
Definition round53 (a b : Z) : Z :=
  let e := Z.max 0 (Z.log2 (a / b) - 52) in
  rne a (b * 2 ^ e) * 2 ^ e.

Definition scale : Z := 2 ^ 83.

(** [float64(sec) + float64(nsec)/1e9], as a multiple of [1/scale]. *)
Definition Seconds_abs (d : Z) : Z :=
  let sec := d / Second in
  let nsec := d mod Second in
  round53 (sec * scale + round53 (nsec * scale) Second) 1.

(** The integer part of [d.Seconds()], which is how Go converts a float to an integer. *)
Definition Seconds_int (d : Z) : Z := Z.sgn d * (Seconds_abs (Z.abs d) / scale).

(** ** Rounding *)
Lemma rne_exact q b : 0 < b → rne (q * b) b = q.
Proof.
  intros Hb. unfold rne. rewrite Z.div_mul, Z.mod_mul by lia.
  by destruct (Z.ltb_spec (2 * 0) b); [|lia].
Qed.

Lemma rne_bound a b : 0 < b → a / b ≤ rne a b ≤ a / b + 1.
Proof. intros Hb. unfold rne. repeat case_match; lia. Qed.

Lemma round53_exact n k : 0 ≤ n < 2 ^ 53 → 0 ≤ k → round53 (n * 2 ^ k) 1 = n * 2 ^ k.
Proof.
  intros Hn Hk. unfold round53. rewrite Z.div_1_r, Z.mul_1_l.
  set (e := Z.max 0 _). assert (0 ≤ e ≤ k) as He.
  { subst e. split; [lia|]. destruct (Z.eq_dec n 0) as [->|Hn0]; [rewrite Z.mul_0_l; cbn; lia|].
    rewrite Z.log2_mul_pow2 by lia. assert (Z.log2 n < 53) by (apply Z.log2_lt_pow2; lia). lia. }
  assert (n * 2 ^ k = n * 2 ^ (k - e) * 2 ^ e) as ->.
  { rewrite <-Z.mul_assoc, <-Z.pow_add_r by lia. do 2 f_equal. lia. }
  by rewrite rne_exact by (apply Z.pow_pos_nonneg; lia).
Qed.

Lemma round53_bound a b : 0 ≤ a → 0 < b → 0 ≤ round53 a b ≤ 2 * (a / b) + 1.
Proof.
  intros Ha Hb. unfold round53. set (q := a / b). set (e := Z.max 0 (Z.log2 q - 52)).
  assert (0 ≤ q) as Hq by (by apply Z.div_pos).
  assert (0 < 2 ^ e) as Hp by (apply Z.pow_pos_nonneg; lia).
  pose proof (rne_bound a (b * 2 ^ e) ltac:(nia)) as Hr.
  rewrite <-Z.div_div in Hr by lia. fold q in Hr.
  assert (0 ≤ q / 2 ^ e) by (by apply Z.div_pos).
  pose proof (Z.mul_div_le q (2 ^ e) Hp) as Hle.
  assert (2 ^ e ≤ q + 1) as Hep.
  { subst e. destruct (Z.max_spec 0 (Z.log2 q - 52)) as [[H1 ->]|[H1 ->]]; [|cbn; lia].
    assert (q ≠ 0) by (intros ->; cbn in H1; lia).
    pose proof (Z.log2_spec q ltac:(lia)) as [Hl _].
    assert (2 ^ (Z.log2 q - 52) ≤ 2 ^ Z.log2 q) by (apply Z.pow_le_mono_r; lia). lia. }
  nia.
Qed.

Lemma Seconds_abs_whole n : 0 ≤ n < 2 ^ 53 → Seconds_abs (n * Second) = n * scale.
Proof.
  intros Hn. unfold Seconds_abs. rewrite Z.div_mul, Z.mod_mul by done.
  change (round53 (0 * scale) Second) with 0. rewrite Z.add_0_r. unfold scale. by apply round53_exact.
Qed.

Lemma Seconds_abs_bound d : 0 ≤ d → 0 ≤ Seconds_abs d / scale ≤ 2 * (d / Second) + 5.
Proof.
  intros Hd. unfold Seconds_abs.
  assert (0 ≤ d / Second) by (by apply Z.div_pos).
  pose proof (Z.mod_pos_bound d Second ltac:(done)) as Hm.
  pose proof (round53_bound (d mod Second * scale) Second ltac:(unfold scale; lia) ltac:(done)) as [H1 H2].
  set (x := round53 (d mod Second * scale) Second) in *.
  assert (d mod Second * scale / Second ≤ scale) as H3.
  { apply Z.div_le_upper_bound; [done|]. unfold scale. nia. }
  pose proof (round53_bound (d / Second * scale + x) 1 ltac:(unfold scale in *; lia) ltac:(done)) as [H4 H5].
  rewrite Z.div_1_r in H5. split; [apply Z.div_pos; [lia|done]|].
  apply Z.div_le_upper_bound; [done|]. unfold scale in *. lia.
Qed.

Lemma Seconds_int_whole n : Z.abs n < 2 ^ 53 → Seconds_int (n * Second) = n.
Proof.
  intros Hn. unfold Seconds_int. rewrite Z.abs_mul. change (Z.abs Second) with Second.
  rewrite Seconds_abs_whole by lia. rewrite Z.div_mul by done.
  rewrite Z.sgn_mul. change (Z.sgn Second) with 1. rewrite Z.mul_1_r. lia.
Qed.

(** The integer part of the seconds is close enough to the duration that no
    wrap-around of the product can hide a difference. *)
Lemma Seconds_int_close d : is_s 64 d → Z.abs (Seconds_int d * Second - d) < 2 ^ 64.
Proof.
  unfold is_s. intros Hd. unfold Seconds_int.
  pose proof (Seconds_abs_bound (Z.abs d) ltac:(lia)) as Hb.
  pose proof (Z.mul_div_le (Z.abs d) Second ltac:(done)) as Hl.
  set (s := Seconds_abs (Z.abs d) / scale) in *. unfold Second in *.
  destruct (Z.sgn_spec d) as [[? ->]|[[? ->]|[? ->]]]; lia.
Qed.

Lemma int64_eq_close x d : is_s 64 d → Z.abs (x - d) < 2 ^ 64 → int64 x = d ↔ x = d.
Proof.
  intros Hd Hx. split; [|intros ->; apply wrap_s_small; [lia|done]].
  unfold int64, wrap_s. intros He.
  pose proof (Z.div_mod (x + 2 ^ (64 - 1)) (2 ^ 64) ltac:(done)) as Hdm.
  set (k := (x + 2 ^ (64 - 1)) / 2 ^ 64) in *. assert (x - d = 2 ^ 64 * k) by lia.
  assert (k = 0) by lia. lia.
Qed.

(** [time.Duration(d.Seconds())*time.Second == d] holds for whole seconds only. *)
Lemma whole_seconds_int64 d :
  is_s 64 d → int64 (Seconds_int d * Second) = d ↔ (Second | d).
Proof.
  intros Hd. rewrite int64_eq_close by (done || by apply Seconds_int_close). split.
  - intros <-. apply Z.divide_factor_r.
  - intros [n ->]. rewrite Seconds_int_whole; [done|]. unfold is_s, Second in Hd. lia.
Qed.

(** [d.Truncate(time.Second) == d] *)
Lemma Truncate_Second d : Truncate d Second = d ↔ (Second | d).
Proof.
  unfold Truncate. change (Second <=? 0) with false. cbn.
  rewrite <-Z.rem_divide by done. lia.
Qed.
