(* ===== verification/PoETypes.v ===== *)
(** The types of x/poe (x/poe/types): contract types (poe.go), parameters
    (params.go), the configurations of the genesis state and their validation
    (genesis.go). *)
From stdpp Require Import base list strings gmap sets sorting pretty.
From Stdlib Require Import ZArith Lia.
From S2P Require Import Prelude Sdk Json Privilege Wasm GoTime.
Open Scope Z_scope.

Definition poe_ErrDeliverGenTXFailed : error := new_err "poe/tx failed".
Definition poe_ErrEmpty : error := new_err "poe/empty".
Definition poe_ErrInvalid : error := new_err "poe/invalid".
Definition poe_ErrNotFound : error := new_err "poe/not found".

(** ** Contract types *)

(** [PoEContractType] is an int32; the generated maps name the defined values. *)
Definition PoEContractType_name : list (Z * string) :=
  [(0, "UNDEFINED"); (1, "STAKING"); (2, "VALSET"); (3, "ENGAGEMENT"); (4, "MIXER");
   (5, "DISTRIBUTION"); (6, "OVERSIGHT_COMMUNITY"); (7, "OVERSIGHT_COMMUNITY_PROPOSALS");
   (8, "COMMUNITY_POOL"); (9, "VALIDATOR_VOTING"); (10, "ARBITER_POOL"); (11, "ARBITER_POOL_VOTING")].

Definition PoEContractTypeUndefined : Z := 0.
Definition PoEContractTypeStaking : Z := 1.
Definition PoEContractTypeValset : Z := 2.
Definition PoEContractTypeEngagement : Z := 3.
Definition PoEContractTypeMixer : Z := 4.
Definition PoEContractTypeDistribution : Z := 5.
Definition PoEContractTypeOversightCommunity : Z := 6.
Definition PoEContractTypeOversightCommunityGovProposals : Z := 7.
Definition PoEContractTypeCommunityPool : Z := 8.
Definition PoEContractTypeValidatorVoting : Z := 9.
Definition PoEContractTypeArbiterPool : Z := 10.
Definition PoEContractTypeArbiterPoolVoting : Z := 11.

Fixpoint name_in (l : list (Z * string)) (t : Z) : option string :=
  match l with [] => None | (v, n) :: l' => if decide (v = t) then Some n else name_in l' t end.
Fixpoint value_in (l : list (Z * string)) (s : string) : option Z :=
  match l with [] => None | (v, n) :: l' => if decide (n = s) then Some v else value_in l' s end.

(** [proto.EnumName]: the name, or the number in decimal. *)
Definition PoEContractType_String (t : Z) : string :=
  default (pretty t) (name_in PoEContractType_name t).

Definition PoEContractType_ValidateBasic (t : Z) : outcome () :=
  check (bool_decide (t = PoEContractTypeUndefined)) ErrInvalid ;;
  check (bool_decide (name_in PoEContractType_name t = None)) ErrNotFound.

Definition PoEContractTypeFrom (s : string) : Z :=
  default PoEContractTypeUndefined (value_in PoEContractType_name s).

#[global] Arguments PoEContractType_String t : simpl never.
#[global] Arguments PoEContractTypeFrom s : simpl never.

(** The types [IteratePoEContractTypes] calls back with: names are sorted first. *)
Definition PoEContractTypes : list Z :=
  PoEContractTypeFrom <$>
    merge_sort bytes_le
      (filter (λ n, n ≠ PoEContractType_String PoEContractTypeUndefined) PoEContractType_name.*2).

Definition IteratePoEContractTypes {W} (cb : Z → M W bool) : M W () := iterM PoEContractTypes cb.

(** The defined types. *)
Definition contract_types : list Z := [1; 2; 3; 4; 5; 6; 7; 8; 9; 10; 11].

(** ** The SDK's numbers *)

(** [sdk.Dec] and [sdk.Int] are pointers: nil, or the value, for a decimal scaled by 10^18. *)
Abbreviation Dec := (option Z) (only parsing).
Abbreviation Int := (option Z) (only parsing).
Definition IsNil (d : option Z) : bool := bool_decide (d = None).
Definition dec (n : Z) : Dec := Some (n * 10 ^ 18).

(** A coin as it comes off the wire: the amount may be nil. *)
Record WireCoin := mkWCoin { WCoin_Denom : string; WCoin_Amount : Int }.
#[export] Instance WireCoin_eq_dec : EqDecision WireCoin.
Proof. solve_decision. Defined.

Class SdkMath := {
  Dec_GT : Dec → Dec → outcome bool;
  Dec_LT : Dec → Dec → outcome bool;
  Dec_Equal : Dec → Dec → outcome bool;
  Dec_Add : Dec → Dec → outcome Dec;
  Dec_IsZero : Dec → outcome bool;
  Int_LTE : Int → Int → outcome bool;
  Int_IsPositive : Int → outcome bool;
  ValidateDenom : string → outcome ();
  Coins_Validate : list Coin → outcome ();
  WCoin_IsValid : WireCoin → outcome bool;
  WCoin_IsZero : WireCoin → outcome bool;
  WCoin_Add : WireCoin → WireCoin → outcome WireCoin;
}.

Class SdkMathLaws `{SdkMath} := {
  Dec_GT_some a b : Dec_GT (Some a) (Some b) = Ok (b <? a);
  Dec_LT_some a b : Dec_LT (Some a) (Some b) = Ok (a <? b);
  Dec_Equal_some a b : Dec_Equal (Some a) (Some b) = Ok (a =? b);
  (** A sum of at most 315 bits is exact. *)
  Dec_Add_some a b : Z.abs (a + b) < 2 ^ 315 → Dec_Add (Some a) (Some b) = Ok (Some (a + b));
  Dec_IsZero_some a : Dec_IsZero (Some a) = Ok (a =? 0);
  (** A nil pointer is dereferenced. *)
  Dec_GT_nil b : is_panic (Dec_GT None b) = true;
  Dec_LT_nil b : is_panic (Dec_LT None b) = true;
  Int_LTE_some a b : Int_LTE (Some a) (Some b) = Ok (a <=? b);
  Int_LTE_nil b : is_panic (Int_LTE None b) = true;
  Int_IsPositive_some a : Int_IsPositive (Some a) = Ok (0 <? a);
  (** A coin is valid when its denom is and its amount is not negative. *)
  WCoin_IsValid_some d a :
    WCoin_IsValid (mkWCoin d (Some a)) = Ok (is_ok (ValidateDenom d) && (0 <=? a));
  WCoin_IsZero_some d a : WCoin_IsZero (mkWCoin d (Some a)) = Ok (a =? 0);
  (** The sum of coins of one denom; a sum of more than 256 bits panics. *)
  WCoin_Add_same d a b :
    0 ≤ a → 0 ≤ b → a + b < 2 ^ 256 →
    WCoin_Add (mkWCoin d (Some a)) (mkWCoin d (Some b)) = Ok (mkWCoin d (Some (a + b)));
  WCoin_Add_overflow d a b :
    2 ^ 256 ≤ a + b → is_panic (WCoin_Add (mkWCoin d (Some a)) (mkWCoin d (Some b))) = true;
  WCoin_Add_denoms c1 c2 : WCoin_Denom c1 ≠ WCoin_Denom c2 → is_panic (WCoin_Add c1 c2) = true;
}.

(** ** Data of the genesis state *)
Record PoEParams := mkPoEParams {
  HistoricalEntries_p : Z; InitialValEngagementPoints : Z; MinDelegationAmounts : list Coin }.
#[export] Instance PoEParams_eq_dec : EqDecision PoEParams.
Proof. solve_decision. Defined.

Record VotingRules := mkVotingRules {
  VotingPeriod : Z; Quorum : Dec; Threshold : Dec; AllowEndEarly : bool }.

Record StakeContractConfig := mkStakeConfig {
  MinBond : Z; TokensPerPoint : Z; UnbondingPeriod : Z; ClaimAutoreturnLimit : Z }.

Record ValsetContractConfig := mkValsetConfig {
  MinPoints : Z; MaxValidators : Z; EpochLength : Z; EpochReward : WireCoin; Scaling : Z;
  FeePercentage : Dec; AutoUnjail : bool; DoubleSignSlashRatio : Dec; ValidatorRewardRatio : Dec;
  EngagementRewardRatio : Dec; CommunityPoolRewardRatio : Dec; VerifyValidators : bool;
  OfflineJailDuration : Z }.

Record EngagementContractConfig := mkEngagementConfig { Halflife : Z }.

Record OversightCommitteeContractConfig := mkOCConfig {
  OC_Name : string; OC_EscrowAmount : WireCoin; OC_VotingRules : VotingRules;
  OC_DenyListContractAddress : string }.

Record CommunityPoolContractConfig := mkCPConfig { CP_VotingRules : VotingRules }.
Record ValidatorVotingContractConfig := mkVVConfig { VV_VotingRules : VotingRules }.

Record ArbiterPoolContractConfig := mkAPConfig {
  AP_Name : string; AP_EscrowAmount : WireCoin; AP_VotingRules : VotingRules;
  AP_DenyListContractAddress : string; DisputeCost : WireCoin; WaitingPeriod : Z }.

Record Sigmoid := mkSigmoid { MaxPoints : Z; P : Dec; S_ : Dec }.
Record MixerContractConfig := mkMixerConfig { Mixer_Sigmoid : Sigmoid }.

Record TG4Member := mkTG4Member { Member_Address : string; Points : Z }.
Record PoEContract := mkPoEContract { ContractType : Z; PoE_Address : string }.
#[export] Instance PoEContract_eq_dec : EqDecision PoEContract.
Proof. solve_decision. Defined.

Definition DefaultBondDenom : string := "ufury".
Definition DefaultHistoricalEntries : Z := 10000.
Definition DefaultInitialValidatorEngagementPoints : Z := 1.

Definition NewParams (historicalEntries engagementPoints : Z) (min : list Coin) : PoEParams :=
  mkPoEParams historicalEntries engagementPoints min.
Definition DefaultParams : PoEParams :=
  NewParams DefaultHistoricalEntries DefaultInitialValidatorEngagementPoints [].

(** ** Validation of the configurations *)
Definition minNameLength : Z := 1.
Definition maxNameLength : Z := 100.
Definition minEscrowAmount : Z := 999999.
(** [sdk.NewDecFromIntWithPrec(sdk.OneInt(), 16)] *)
Definition minFeePercentage : Dec := Some (10 ^ (18 - 16)).

Section validation.
Context `{!Bech32, !SdkMath}.
(** What the machine makes of [uint64(f)] for a negative float [f], which Go
    leaves to the implementation, given the integer part of [f]. *)
Variable uint64_of_negative : Z → Z.

(** [uint64(d.Seconds())] *)
Definition Seconds_uint64 (d : Z) : Z :=
  if Seconds_int d <? 0 then uint64_of_negative (Seconds_int d) else uint64 (Seconds_int d).

Definition Params_Validate (p : PoEParams) : outcome () :=
  wrap "min delegation amounts" (Coins_Validate (MinDelegationAmounts p)).

(** [IsNil() || LT/GT/IsZero ...]: the second operand is not evaluated on nil. *)
Definition nil_or (d : Dec) (m : outcome bool) : outcome bool := if IsNil d then Ok true else m.
(** [if cond { return err }] where the condition may panic *)
Definition checkM (cond : outcome bool) (e : error) : outcome () := b ← cond; check b e.

Definition VotingRules_ValidateBasic (v : VotingRules) : outcome () :=
  check (VotingPeriod v =? 0) (Wrap poe_ErrEmpty "voting period") ;;
  checkM (nil_or (Quorum v) (Dec_LT (Quorum v) (dec 1))) (Wrap poe_ErrInvalid "quorum must be > 0") ;;
  checkM (Dec_GT (Quorum v) (dec 100)) (Wrap poe_ErrInvalid "quorum must be <=100") ;;
  checkM (nil_or (Threshold v) (Dec_LT (Threshold v) (dec 50))) (Wrap poe_ErrInvalid "threshold must be => 50") ;;
  checkM (Dec_GT (Threshold v) (dec 100)) (Wrap poe_ErrInvalid "threshold must be <=100").

Definition EngagementContractConfig_ValidateBasic (c : EngagementContractConfig) : outcome () :=
  check (negb (Truncate (Halflife c) Second =? Halflife c))
    (Wrap poe_ErrInvalid "halflife must not contain anything less than seconds").

Definition ValsetContractConfig_ValidateBasic (c : ValsetContractConfig) : outcome () :=
  check (VerifyValidators c) (Wrap poe_ErrInvalid "not supported currently. See https://github.com/oldfurya/furya/issues/389") ;;
  check (MaxValidators c =? 0) (Wrap poe_ErrEmpty "max validators") ;;
  check (EpochLength c =? 0) (Wrap poe_ErrEmpty "epoch length") ;;
  check (negb (EpochLength c =? int64 (Seconds_int (EpochLength c) * Second)))
    (Wrap poe_ErrInvalid "epoch length not convertible to seconds") ;;
  check (Scaling c =? 0) (Wrap poe_ErrEmpty "scaling") ;;
  let hundred := dec 100 in
  checkM (Dec_GT (CommunityPoolRewardRatio c) hundred)
    (Wrap poe_ErrInvalid "community pool reward ratio must not be greater 100") ;;
  checkM (Dec_GT (EngagementRewardRatio c) hundred)
    (Wrap poe_ErrInvalid "engagement reward ratio must not be greater 100") ;;
  checkM (Dec_GT (ValidatorRewardRatio c) hundred)
    (Wrap poe_ErrInvalid "validator reward ratio must not be greater 100") ;;
  sum ← Dec_Add (EngagementRewardRatio c) (CommunityPoolRewardRatio c);
  totalRatio ← Dec_Add sum (ValidatorRewardRatio c);
  eq ← Dec_Equal totalRatio hundred;
  check (negb eq) (Wrap poe_ErrInvalid "total reward ratio must be 100 but was %s") ;;
  checkM (Dec_LT (FeePercentage c) minFeePercentage) (Wrap poe_ErrEmpty "fee percentage") ;;
  check (OfflineJailDuration c =? 0) (Wrap poe_ErrEmpty "offline jail duration") ;;
  check (negb (OfflineJailDuration c =? int64 (Seconds_int (OfflineJailDuration c) * Second)))
    (Wrap poe_ErrInvalid "offline jail duration not convertible to seconds").

Definition StakeContractConfig_ValidateBasic (c : StakeContractConfig) : outcome () :=
  check (MinBond c =? 0) (Wrap poe_ErrEmpty "min bond") ;;
  check (TokensPerPoint c =? 0) (Wrap poe_ErrEmpty "tokens per weight") ;;
  check (UnbondingPeriod c =? 0) (Wrap poe_ErrEmpty "unbonding period") ;;
  check (negb (int64 (Seconds_uint64 (UnbondingPeriod c) * Second) =? UnbondingPeriod c))
    (Wrap poe_ErrInvalid "unbonding period not convertible to seconds").

Definition PoEContract_ValidateBasic (c : PoEContract) : outcome () :=
  _ ← wrap "address" (AccAddressFromBech32 (PoE_Address c));
  wrap "contract type" (PoEContractType_ValidateBasic (ContractType c)).

(** The part [OversightCommitteeContractConfig] and [ArbiterPoolContractConfig] share. *)
Definition validate_circle (name : string) (escrow : WireCoin) (rules : VotingRules) (deny : string) : outcome () :=
  let l := Z.of_nat (String.length name) in
  (if l <? minNameLength then Err (Wrap poe_ErrEmpty "name")
   else check (maxNameLength <? l) (Wrap poe_ErrInvalid "name length > %d")) ;;
  checkM (Int_LTE (WCoin_Amount escrow) (Some minEscrowAmount))
    (Wrap poe_ErrInvalid "escrow amount must be greater %d") ;;
  wrap "voting rules" (VotingRules_ValidateBasic rules) ;;
  if decide (deny ≠ "") then
    match AccAddressFromBech32 deny with
    | Ok _ => Ok ()
    | Err _ => Err (Wrap poe_ErrInvalid "deny list contract address")
    | Panic p => Panic p
    end
  else Ok ().

Definition OversightCommitteeContractConfig_ValidateBasic (c : OversightCommitteeContractConfig) : outcome () :=
  validate_circle (OC_Name c) (OC_EscrowAmount c) (OC_VotingRules c) (OC_DenyListContractAddress c).

Definition CommunityPoolContractConfig_ValidateBasic (c : CommunityPoolContractConfig) : outcome () :=
  wrap "voting rules" (VotingRules_ValidateBasic (CP_VotingRules c)).

Definition ValidatorVotingContractConfig_ValidateBasic (c : ValidatorVotingContractConfig) : outcome () :=
  wrap "voting rules" (VotingRules_ValidateBasic (VV_VotingRules c)).

Definition TG4Member_ValidateBasic (c : TG4Member) : outcome () :=
  _ ← wrap "address" (AccAddressFromBech32 (Member_Address c));
  check (Points c =? 0) (Wrap ErrInvalid "weight").

Definition ArbiterPoolContractConfig_ValidateBasic (c : ArbiterPoolContractConfig) : outcome () :=
  validate_circle (AP_Name c) (AP_EscrowAmount c) (AP_VotingRules c) (AP_DenyListContractAddress c) ;;
  check (negb (int64 (Seconds_uint64 (WaitingPeriod c) * Second) =? WaitingPeriod c))
    (Wrap poe_ErrInvalid "waiting period not convertible to seconds").

(** [None] is the nil pointer. *)
Definition MixerContractConfig_ValidateBasic (m : option MixerContractConfig) : outcome () :=
  match m with
  | None => Err (Wrap ErrInvalidGenesis "empty")
  | Some m =>
      check (MaxPoints (Mixer_Sigmoid m) =? 0) (Wrap poe_ErrEmpty "max rewards") ;;
      checkM (nil_or (S_ (Mixer_Sigmoid m)) (Dec_IsZero (S_ (Mixer_Sigmoid m)))) (Wrap poe_ErrEmpty "S") ;;
      checkM (nil_or (P (Mixer_Sigmoid m)) (Dec_IsZero (P (Mixer_Sigmoid m)))) (Wrap poe_ErrEmpty "P")
  end.

Definition unique_types (cs : list PoEContract) (uniqueContractTypes : gset Z) : outcome (gset Z) :=
  unique_loop (λ v, wrap "contract %d" (PoEContract_ValidateBasic v)) ContractType
    (Wrap ErrDuplicate "contract type %s") cs uniqueContractTypes.

Definition ImportDump_ValidateBasic (contracts : list PoEContract) : outcome () :=
  uniqueContractTypes ← unique_types contracts ∅;
  check (negb (size uniqueContractTypes =? length PoEContractType_name - 1)%nat)
    (Wrap ErrInvalidGenesis "PoE contract(s) missing").
End validation.
