(* ===== verification/PoEMsgs.v ===== *)
(** The messages of x/poe (x/poe/types/msg.go) and the genesis state with its
    validation (x/poe/types/genesis.go, genesisio.go). *)
From stdpp Require Import base list strings gmap sets sorting.
From Stdlib Require Import ZArith Lia.
From S2P Require Import Prelude Sdk Json Privilege Wasm GoTime PoETypes TwasmMsgs.
Open Scope Z_scope.

Definition ErrEmptyDelegatorAddr : error := new_err "staking/empty delegator address".
Definition ErrEmptyValidatorPubKey : error := new_err "staking/empty validator public key".
Definition ErrNotSupported : error := new_err "sdk/not supported".

(** [stakingtypes.Description] *)
Record StakingDescription := mkDescription {
  Moniker : string; Identity : string; Website : string; SecurityContact : string; Details : string }.
#[export] Instance StakingDescription_eq_dec : EqDecision StakingDescription.
Proof. solve_decision. Defined.
Definition DoNotModifyDesc : string := "[do-not-modify]".

(** A public key packed into an Any. *)
Record MsgCreateValidator := mkMsgCreateValidator {
  CV_Description : StakingDescription; CV_OperatorAddress : string; CV_Pubkey : option Any;
  CV_Amount : WireCoin; CV_VestingAmount : WireCoin }.
Record MsgUpdateValidator := mkMsgUpdateValidator {
  UV_Description : StakingDescription; UV_OperatorAddress : string }.
Record MsgDelegate := mkMsgDelegate {
  MD_OperatorAddress : string; MD_Amount : WireCoin; MD_VestingAmount : WireCoin }.
Record MsgUndelegate := mkMsgUndelegate { MU_OperatorAddress : string; MU_Amount : WireCoin }.

Definition poe_RouterKey : string := "poe".
Definition TypeMsgCreateValidator : string := "create_validator".
Definition TypeMsgUpdateValidator : string := "update_validator".
Definition TypeMsgUndelegate : string := "begin_unbonding".
Definition TypeMsgDelegate : string := "delegate".

Section messages.
Context `{!Bech32, !SdkMath}.
(** [codectypes.NewAnyWithValue] *)
Variable NewAnyWithValue : bytes → outcome Any.

(** [None] is a nil key. *)
Definition NewMsgCreateValidator (valAddr : AccAddress) (pubKey : option bytes) (liquid vesting : WireCoin)
    (description : StakingDescription) : outcome MsgCreateValidator :=
  pkAny ← match pubKey with None => Ok None | Some pk => a ← NewAnyWithValue pk; Ok (Some a) end;
  Ok (mkMsgCreateValidator description (AccAddress_String valAddr) pkAny liquid vesting).

Definition NewMsgUpdateValidator (valAddr : AccAddress) (description : StakingDescription) : MsgUpdateValidator :=
  mkMsgUpdateValidator description (AccAddress_String valAddr).
Definition NewMsgDelegate (delAddr : AccAddress) (amount vestingAmount : WireCoin) : MsgDelegate :=
  mkMsgDelegate (AccAddress_String delAddr) amount vestingAmount.
Definition NewMsgUndelegate (delAddr : AccAddress) (amount : WireCoin) : MsgUndelegate :=
  mkMsgUndelegate (AccAddress_String delAddr) amount.

(** [GetSigners] of every message: an error of the address is a panic. *)
Definition GetSigners (operator : string) : outcome (list AccAddress) :=
  match AccAddressFromBech32 operator with
  | Ok a => Ok [a]
  | Err _ => Panic "address"
  | Panic p => Panic p
  end.

(** [amount.IsNil() || !amount.IsValid()] *)
Definition nil_or_invalid (c : WireCoin) : outcome bool :=
  nil_or (WCoin_Amount c) (v ← WCoin_IsValid c; Ok (negb v)).

Definition MsgCreateValidator_ValidateBasic (msg : MsgCreateValidator) : outcome () :=
  delAddr ← AccAddressFromBech32 (CV_OperatorAddress msg);
  check (bool_decide (delAddr = "")) ErrEmptyDelegatorAddr ;;
  check (bool_decide (CV_Pubkey msg = None)) ErrEmptyValidatorPubKey ;;
  checkM (nil_or_invalid (CV_Amount msg)) (Wrap ErrInvalidRequest "delegation liquid amount") ;;
  checkM (nil_or_invalid (CV_VestingAmount msg)) (Wrap ErrInvalidRequest "delegation vesting amount") ;;
  sum ← WCoin_Add (CV_Amount msg) (CV_VestingAmount msg);
  checkM (WCoin_IsZero sum) (Wrap ErrInvalidRequest "empty delegation amounts") ;;
  check (bool_decide (CV_Description msg = mkDescription "" "" "" "" ""))
    (Wrap ErrInvalidRequest "empty description") ;;
  check (Z.of_nat (String.length (Moniker (CV_Description msg))) <? 3)
    (Wrap ErrInvalidRequest "moniker must be at least 3 characters").

Definition MsgUpdateValidator_ValidateBasic (msg : MsgUpdateValidator) : outcome () :=
  _ ← AccAddressFromBech32 (UV_OperatorAddress msg);
  let unchanged :=
    mkDescription DoNotModifyDesc DoNotModifyDesc DoNotModifyDesc DoNotModifyDesc DoNotModifyDesc in
  check (bool_decide (UV_Description msg = mkDescription "" "" "" "" "") ||
         bool_decide (UV_Description msg = unchanged)) (Wrap ErrInvalidRequest "empty description") ;;
  check (Z.of_nat (String.length (Moniker (UV_Description msg))) <? 3)
    (Wrap ErrInvalidRequest "moniker must be at least 3 characters").

(** The error of the address is replaced. *)
Definition operator_address (a : string) : outcome AccAddress :=
  match AccAddressFromBech32 a with
  | Err _ => Err (Wrap poe_ErrEmpty "operator address")
  | o => o
  end.

Definition MsgDelegate_ValidateBasic (msg : MsgDelegate) : outcome () :=
  _ ← operator_address (MD_OperatorAddress msg);
  valid ← WCoin_IsValid (MD_Amount msg);
  check (negb valid) (Wrap poe_ErrInvalid "delegation amount") ;;
  vvalid ← WCoin_IsValid (MD_VestingAmount msg);
  check (negb vvalid) (Wrap poe_ErrInvalid "vesting amount") ;;
  z ← WCoin_IsZero (MD_Amount msg);
  empty ← (if (z : bool) then WCoin_IsZero (MD_VestingAmount msg) else Ok false);
  check empty (Wrap poe_ErrInvalid "empty amounts").

Definition MsgUndelegate_ValidateBasic (msg : MsgUndelegate) : outcome () :=
  _ ← operator_address (MU_OperatorAddress msg);
  valid ← WCoin_IsValid (MU_Amount msg);
  bad ← (if negb valid then Ok true else p ← Int_IsPositive (WCoin_Amount (MU_Amount msg)); Ok (negb p));
  check bad (Wrap poe_ErrInvalid "delegation amount").
End messages.

(** ** The genesis state *)
Record SeedContracts := mkSeedContracts {
  GenTxs : list json_bytes; BootstrapAccountAddress : string; Engagement : list TG4Member;
  StakeConfig : option StakeContractConfig; ValsetConfig : option ValsetContractConfig;
  EngagementConfig : option EngagementContractConfig; BondDenom : string;
  OversightCommitteeConfig : option OversightCommitteeContractConfig;
  CommunityPoolConfig : option CommunityPoolContractConfig;
  ValidatorVotingConfig : option ValidatorVotingContractConfig;
  OversightCommunityMembers : list string; ArbiterPoolMembers : list string;
  ArbiterPoolConfig : option ArbiterPoolContractConfig; MixerConfig : option MixerContractConfig }.

(** The oneof [SetupMode]; the pointers inside may be nil. *)
Inductive SetupMode :=
  | NoSetup
  | GenesisState_SeedContracts (s : option SeedContracts)
  | GenesisState_ImportDump (contracts : option (list PoEContract)).

Record PoEGenesisState := mkPoEGenesis { GS_Params : PoEParams; GS_SetupMode : SetupMode }.

Definition GetSeedContracts (g : PoEGenesisState) : option SeedContracts :=
  match GS_SetupMode g with GenesisState_SeedContracts s => s | _ => None end.
Definition GetImportDump (g : PoEGenesisState) : option (list PoEContract) :=
  match GS_SetupMode g with GenesisState_ImportDump d => d | _ => None end.

(** The defaults; the random bootstrap address is an argument. *)
Definition default_rules (period quorum threshold : Z) : VotingRules :=
  mkVotingRules period (dec quorum) (dec threshold) true.

Definition DefaultSeedContracts (bootstrap : string) : SeedContracts :=
  {| GenTxs := []; BootstrapAccountAddress := bootstrap; Engagement := [];
     StakeConfig := Some (mkStakeConfig 1 1000000 (Hour * 21 * 24) 20);
     ValsetConfig := Some
       {| MinPoints := 1; MaxValidators := 100; EpochLength := 60 * Second;
          EpochReward := mkWCoin DefaultBondDenom (Some 100000); Scaling := 1; FeePercentage := dec 50;
          AutoUnjail := false; DoubleSignSlashRatio := dec 50;
          ValidatorRewardRatio := Some (475 * 10 ^ 17); EngagementRewardRatio := Some (475 * 10 ^ 17);
          CommunityPoolRewardRatio := dec 5; VerifyValidators := false; OfflineJailDuration := 24 * Hour |};
     EngagementConfig := Some (mkEngagementConfig (180 * 24 * Hour));
     BondDenom := DefaultBondDenom;
     OversightCommitteeConfig := Some
       (mkOCConfig "Oversight Community" (mkWCoin DefaultBondDenom (Some 1000000)) (default_rules 30 51 55) "");
     CommunityPoolConfig := Some (mkCPConfig (default_rules 21 10 60));
     ValidatorVotingConfig := Some (mkVVConfig (default_rules 14 40 66));
     OversightCommunityMembers := []; ArbiterPoolMembers := [];
     ArbiterPoolConfig := Some
       (mkAPConfig "Arbiter Pool" (mkWCoin DefaultBondDenom (Some 1000000)) (default_rules 30 51 55) ""
          (mkWCoin DefaultBondDenom (Some 1000000)) 0);
     MixerConfig := Some (mkMixerConfig (mkSigmoid 1000000 (Some (62 * 10 ^ 16)) (Some (10 ^ 13)))) |}.

Definition DefaultGenesisState (bootstrap : string) : PoEGenesisState :=
  mkPoEGenesis DefaultParams (GenesisState_SeedContracts (Some (DefaultSeedContracts bootstrap))).

(** A message of a genesis transaction. *)
Inductive GenMsg := GMCreateValidator (m : MsgCreateValidator) | GMOther.

Section genesis_validation.
Context `{!Bech32, !SdkMath}.
Variable uint64_of_negative : Z → Z.
(** [txJSONDecoder], then [GetMsgs]. *)
Variable decode_tx : json_bytes → outcome (list GenMsg).
(** [Pubkey.String()]; the key is a pointer, nil prints too. *)
Variable Any_String : option Any → string.

Definition unique_members (ms : list TG4Member) (acc : gset string) : outcome (gset string) :=
  unique_loop (λ v, wrap "contract %d" (TG4Member_ValidateBasic v)) Member_Address
    (Wrap ErrDuplicate "member: %s") ms acc.

Fixpoint check_gentxs (members : gset string) (txs : list json_bytes) (ops keys : gset string) : outcome () :=
  match txs with
  | [] => Ok ()
  | v :: txs' =>
      msgs ← wrap "gentx %d" (decode_tx v);
      match msgs with
      | [GMCreateValidator msg] =>
          wrap "gentx %d" (MsgCreateValidator_ValidateBasic msg) ;;
          let op := CV_OperatorAddress msg in
          check (bool_decide (op ∉ members))
            (Wrap ErrInvalidGenesis "gen tx delegator not in engagement group: %q, gentx: %d") ;;
          check (bool_decide (op ∈ ops))
            (Wrap ErrInvalidGenesis "gen tx delegator used already with another gen tx: %q, gentx: %d") ;;
          let pk := Any_String (CV_Pubkey msg) in
          check (bool_decide (pk ∈ keys))
            (Wrap ErrInvalidGenesis "gen tx public key used already with another gen tx: %q, gentx: %d") ;;
          check_gentxs members txs' ({[op]} ∪ ops) ({[pk]} ∪ keys)
      | [GMOther] => Panic "interface conversion"
      | _ => Err (Wrap ErrInvalidGenesis "tx with single message required")
      end
  end.

(** The members of the oversight community and of the arbiter pool. *)
Definition unique_accounts (kind : string) (ms : list string) (acc : gset string) : outcome (gset string) :=
  unique_loop (λ m, _ ← wrap (kind +:+ " member address") (AccAddressFromBech32 m); Ok ()) id
    (Wrap ErrDuplicate (kind +:+ " member: %s")) ms acc.

(** [if c == nil { return err }] on the pointer to a configuration *)
Definition required {A} (what : string) (c : option A) : outcome A :=
  match c with None => Err (Wrap ErrInvalidGenesis what) | Some x => Ok x end.

Definition validateSeedContracts (g : SeedContracts) : outcome () :=
  check (bool_decide (Engagement g = [])) (Wrap ErrInvalidGenesis "empty engagement group") ;;
  eng ← required "empty engagement contract config" (EngagementConfig g);
  wrap "engagement contract config" (EngagementContractConfig_ValidateBasic eng) ;;
  wrap "bond denom" (ValidateDenom (BondDenom g)) ;;
  valset ← required "empty valset contract config" (ValsetConfig g);
  wrap "valset contract config" (ValsetContractConfig_ValidateBasic valset) ;;
  stake ← required "empty stake contract config" (StakeConfig g);
  wrap "stake contract config" (StakeContractConfig_ValidateBasic uint64_of_negative stake) ;;
  check (bool_decide (WCoin_Denom (EpochReward valset) ≠ BondDenom g))
    (Wrap ErrInvalidGenesis "rewards not in bonded denom") ;;
  oc ← required "empty oversight committee contract config" (OversightCommitteeConfig g);
  wrap "oversight committee config" (OversightCommitteeContractConfig_ValidateBasic oc) ;;
  ap ← required "empty arbiter pool contract config" (ArbiterPoolConfig g);
  wrap "arbiter pool config" (ArbiterPoolContractConfig_ValidateBasic uint64_of_negative ap) ;;
  check (bool_decide (WCoin_Denom (OC_EscrowAmount oc) ≠ BondDenom g))
    (Wrap ErrInvalidGenesis "escrow not in bonded denom") ;;
  cp ← required "empty community pool contract config" (CommunityPoolConfig g);
  wrap "community pool config" (CommunityPoolContractConfig_ValidateBasic cp) ;;
  vv ← required "empty validator voting contract config" (ValidatorVotingConfig g);
  wrap "validator voting config" (ValidatorVotingContractConfig_ValidateBasic vv) ;;
  wrap "mixer config" (MixerContractConfig_ValidateBasic (MixerConfig g)) ;;
  _ ← wrap "bootstrap account address" (AccAddressFromBech32 (BootstrapAccountAddress g));
  members ← unique_members (Engagement g) ∅;
  check_gentxs members (GenTxs g) ∅ ∅ ;;
  check (bool_decide (OversightCommunityMembers g = [])) (Wrap ErrEmpty "oversight community members") ;;
  _ ← unique_accounts "oc" (OversightCommunityMembers g) ∅;
  check (bool_decide (ArbiterPoolMembers g = [])) (Wrap ErrEmpty "arbiter pool members") ;;
  _ ← unique_accounts "ap" (ArbiterPoolMembers g) ∅;
  Ok ().

Definition ValidateGenesis (g : PoEGenesisState) : outcome () :=
  wrap "params" (Params_Validate (GS_Params g)) ;;
  match GetSeedContracts g, GetImportDump g with
  | Some _, Some _ => Err (Wrap ErrInvalidGenesis "both seed and import data setup")
  | None, None => Err (Wrap ErrInvalidGenesis "neither seed or import data setup")
  | Some s, None => wrap "seed contracts" (validateSeedContracts s)
  | None, Some d => wrap "import dump" (ImportDump_ValidateBasic d)
  end.

(** [GetGenesisStateFromAppState], [SetGenTxsInAppGenesisState] and
    [SetGenesisStateInAppState] on the module's entry of the application state;
    an absent entry is the empty genesis state. *)
Fixpoint encode_txs {Tx} (txJSONEncoder : Tx → outcome json_bytes) (genTxs : list Tx) : outcome (list json_bytes) :=
  match genTxs with
  | [] => Ok []
  | tx :: txs' => bz ← txJSONEncoder tx; r ← encode_txs txJSONEncoder txs'; Ok (bz :: r)
  end.

Definition with_gentxs (s : SeedContracts) (txs : list json_bytes) : SeedContracts :=
  {| GenTxs := txs; BootstrapAccountAddress := BootstrapAccountAddress s; Engagement := Engagement s;
     StakeConfig := StakeConfig s; ValsetConfig := ValsetConfig s; EngagementConfig := EngagementConfig s;
     BondDenom := BondDenom s; OversightCommitteeConfig := OversightCommitteeConfig s;
     CommunityPoolConfig := CommunityPoolConfig s; ValidatorVotingConfig := ValidatorVotingConfig s;
     OversightCommunityMembers := OversightCommunityMembers s; ArbiterPoolMembers := ArbiterPoolMembers s;
     ArbiterPoolConfig := ArbiterPoolConfig s; MixerConfig := MixerConfig s |}.

Definition SetGenTxsInAppGenesisState {Tx} (txJSONEncoder : Tx → outcome json_bytes)
    (genesisState : PoEGenesisState) (genTxs : list Tx) : outcome PoEGenesisState :=
  genTxsBz ← encode_txs txJSONEncoder genTxs;
  match GetSeedContracts genesisState with
  | None => Err (Wrap ErrNotSupported "in state dump import mode")
  | Some s => Ok (mkPoEGenesis (GS_Params genesisState) (GenesisState_SeedContracts (Some (with_gentxs s genTxsBz))))
  end.
End genesis_validation.
