(* ===== verification/PoETypesProps.v ===== *)
(** Theorems about the types of x/poe: which configurations, messages and genesis
    states the validation accepts. *)
From stdpp Require Import base list strings gmap sets sorting fin_sets.
From Stdlib Require Import ZArith Lia.
From S2P Require Import Prelude Sdk Json Privilege Wasm RefWorld GoTime PoETypes TwasmMsgs PoEMsgs.
Open Scope Z_scope.

(** ** Contract types *)
Lemma contract_type_cases (Q : Z → Prop) t :
  Forall Q contract_types → t ∈ contract_types → Q t.
Proof. intros HQ Ht. rewrite Forall_forall in HQ. by apply HQ. Qed.

Lemma contract_type_valid t : PoEContractType_ValidateBasic t = Ok () ↔ t ∈ contract_types.
Proof.
  unfold PoEContractType_ValidateBasic. split.
  - intros H. go_inv. rewrite bool_decide_eq_false in *. unfold PoEContractTypeUndefined in *. cbn in *.
    repeat (case_decide; [subst; try done; unfold contract_types; set_solver|]). done.
  - intros Ht. pattern t. apply contract_type_cases; [|done]. by repeat constructor.
Qed.

Lemma contract_type_roundtrip t :
  t ∈ contract_types → PoEContractTypeFrom (PoEContractType_String t) = t.
Proof.
  intros Ht. apply (contract_type_cases (λ t, PoEContractTypeFrom (PoEContractType_String t) = t)); [|done].
  apply (bool_decide_unpack _). vm_compute. exact I.
Qed.

Lemma contract_type_String_inj t1 t2 :
  t1 ∈ contract_types → t2 ∈ contract_types →
  PoEContractType_String t1 = PoEContractType_String t2 → t1 = t2.
Proof.
  intros H1 H2 Heq. by rewrite <-(contract_type_roundtrip t1), <-(contract_type_roundtrip t2), Heq.
Qed.

Lemma contract_types_NoDup : NoDup contract_types.
Proof. by apply (bool_decide_unpack _). Qed.

(** The types the iteration visits, each once. *)
Lemma PoEContractTypes_perm : PoEContractTypes ≡ₚ contract_types.
Proof.
  apply NoDup_Permutation; [|apply contract_types_NoDup|].
  - apply (bool_decide_unpack _). vm_compute. exact I.
  - intros x. assert (PoEContractTypes = [10; 11; 8; 5; 3; 4; 6; 7; 1; 9; 2]) as -> by (vm_compute; reflexivity).
    unfold contract_types. set_solver.
Qed.

(** ** State dumps *)
Section dump.
Context `{!Bech32}.

Lemma PoEContract_valid c :
  PoEContract_ValidateBasic c = Ok () ↔
  is_ok (AccAddressFromBech32 (PoE_Address c)) = true ∧ ContractType c ∈ contract_types.
Proof.
  unfold PoEContract_ValidateBasic. rewrite outcome_bind_ok. setoid_rewrite wrap_ok.
  setoid_rewrite contract_type_valid. destruct (AccAddressFromBech32 (PoE_Address c)); cbn; naive_solver.
Qed.

Lemma unique_types_ok cs acc s :
  unique_types cs acc = Ok s ↔
  Forall (λ c, PoEContract_ValidateBasic c = Ok ()) cs ∧ NoDup (ContractType <$> cs) ∧
  (∀ t, t ∈ ContractType <$> cs → t ∉ acc) ∧ s = list_to_set (ContractType <$> cs) ∪ acc.
Proof.
  unfold unique_types. rewrite unique_loop_ok. f_equiv. apply Forall_proper; [|done].
  intros c. apply wrap_ok.
Qed.

(** A state dump is accepted exactly when all its addresses decode and it has
    every PoE contract type exactly once. *)
Lemma ImportDump_spec cs :
  ImportDump_ValidateBasic cs = Ok () ↔
  Forall (λ c, is_ok (AccAddressFromBech32 (PoE_Address c)) = true) cs ∧
  ContractType <$> cs ≡ₚ contract_types.
Proof.
  unfold ImportDump_ValidateBasic. rewrite outcome_bind_ok. setoid_rewrite unique_types_ok.
  setoid_rewrite check_ok. setoid_rewrite negb_false_iff. setoid_rewrite Nat.eqb_eq. split.
  - intros (s & (Hv & Hnd & _ & ->) & Hsize).
    rewrite union_empty_r_L, size_list_to_set in Hsize by done.
    split; [eapply Forall_impl; [exact Hv|]; intros c [Hc _]%PoEContract_valid; done|].
    apply submseteq_length_Permutation; [|rewrite Hsize; done].
    apply NoDup_submseteq; [done|]. intros t (c & -> & Hc)%list_elem_of_fmap.
    rewrite Forall_forall in Hv. by apply Hv, PoEContract_valid in Hc as [_ ?].
  - intros [Ha Hperm]. eexists. split.
    + split_and!; [| |set_solver|done].
      * rewrite Forall_forall in *. intros c Hc. apply PoEContract_valid. split; [by apply Ha|].
        rewrite <-Hperm. by apply list_elem_of_fmap_2.
      * rewrite Hperm. apply contract_types_NoDup.
    + rewrite union_empty_r_L, size_list_to_set by (rewrite Hperm; apply contract_types_NoDup).
      by rewrite Hperm.
Qed.
End dump.

(** ** Configurations *)

(** A chain of guards as the conjunction of its conditions. *)
Lemma check_then b e (k : outcome ()) : (check b e ;; k) = Ok () ↔ b = false ∧ k = Ok ().
Proof. destruct b; cbn; naive_solver. Qed.
Lemma checkM_ok m e : checkM m e = Ok () ↔ m = Ok false.
Proof. unfold checkM. destruct m as [[]|?|?]; cbn; naive_solver. Qed.
Lemma checkM_then m e (k : outcome ()) : (checkM m e ;; k) = Ok () ↔ m = Ok false ∧ k = Ok ().
Proof. unfold checkM. destruct m as [[]|?|?]; cbn; naive_solver. Qed.
Lemma unit_then (m : outcome ()) (k : outcome ()) : (m ;; k) = Ok () ↔ m = Ok () ∧ k = Ok ().
Proof. destruct m as [[]|?|?]; cbn; naive_solver. Qed.
Lemma wrap_then {A} msg (m : outcome A) (k : outcome ()) :
  (_ ← wrap msg m; k) = Ok () ↔ is_ok m = true ∧ k = Ok ().
Proof. destruct m; cbn; naive_solver. Qed.
Lemma required_then {A} msg (c : option A) (f : A → outcome ()) :
  (required msg c ≫= f) = Ok () ↔ ∃ x, c = Some x ∧ f x = Ok ().
Proof. destruct c; cbn; naive_solver. Qed.
Lemma nil_or_ok d m : nil_or d m = Ok false ↔ d ≠ None ∧ m = Ok false.
Proof. unfold nil_or, IsNil. case_bool_decide; naive_solver. Qed.
Lemma is_ok_unit (m : outcome ()) : is_ok m = true ↔ m = Ok ().
Proof. destruct m as [[]|?|?]; naive_solver. Qed.

Create Rewrite HintDb guard_db.
#[export] Hint Rewrite check_then checkM_then @wrap_then @required_then check_ok checkM_ok @wrap_ok nil_or_ok is_ok_unit
  Z.eqb_neq Z.ltb_ge Z.leb_gt negb_false_iff Z.eqb_eq @bool_decide_eq_false @bool_decide_eq_true : guard_db.
(** [guards]: turn "the chain of guards passes" into its conditions. *)
Ltac guards := autorewrite with guard_db.

Definition one : Z := 10 ^ 18.

Definition rules_valid (v : VotingRules) : Prop :=
  VotingPeriod v ≠ 0 ∧ (∃ q, Quorum v = Some q ∧ one ≤ q ≤ 100 * one) ∧
  (∃ t, Threshold v = Some t ∧ 50 * one ≤ t ≤ 100 * one).

(** A duration of whole seconds. What becomes of a negative one depends on the machine. *)
Definition period_valid (conv : Z → Z) (d : Z) : Prop :=
  if decide (0 ≤ d) then (Second | d) else int64 (Seconds_uint64 conv d * Second) = d.

Section configs.
Context `{!Bech32, SdkMathLaws}.

Lemma Dec_GT_false d b : Dec_GT d (Some b) = Ok false ↔ ∃ a, d = Some a ∧ a ≤ b.
Proof.
  destruct d as [a|].
  - rewrite Dec_GT_some. split; [intros [= Hb%Z.ltb_ge]; by exists a|].
    intros (a' & [= <-] & Hb). f_equal. by apply Z.ltb_ge.
  - pose proof (Dec_GT_nil (Some b)). destruct (Dec_GT None (Some b)); naive_solver.
Qed.

Lemma Dec_LT_false d b : Dec_LT d (Some b) = Ok false ↔ ∃ a, d = Some a ∧ b ≤ a.
Proof.
  destruct d as [a|].
  - rewrite Dec_LT_some. split; [intros [= Hb%Z.ltb_ge]; by exists a|].
    intros (a' & [= <-] & Hb). f_equal. by apply Z.ltb_ge.
  - pose proof (Dec_LT_nil (Some b)). destruct (Dec_LT None (Some b)); naive_solver.
Qed.

Lemma rules_valid_spec v : VotingRules_ValidateBasic v = Ok () ↔ rules_valid v.
Proof.
  unfold VotingRules_ValidateBasic, rules_valid, dec, one. guards.
  rewrite !Dec_GT_false, !Dec_LT_false. naive_solver lia.
Qed.

Lemma period_valid_spec conv d :
  is_s 64 d → int64 (Seconds_uint64 conv d * Second) = d ↔ period_valid conv d.
Proof.
  intros Hd. unfold period_valid. case_decide as Hn; [|done]. rewrite <-whole_seconds_int64 by done.
  unfold Seconds_uint64. pose proof (Seconds_int_close d Hd) as Hc.
  assert (0 ≤ Seconds_int d) as Hs.
  { unfold Seconds_int. pose proof (Seconds_abs_bound (Z.abs d) ltac:(lia)). lia. }
  destruct (Z.ltb_spec (Seconds_int d) 0); [lia|]. unfold uint64. rewrite wrap_u_small; [done|].
  unfold is_u, is_s, Second in *. lia.
Qed.

Definition circle_valid (name : string) (escrow : WireCoin) (rules : VotingRules) (deny : string) : Prop :=
  (1 ≤ String.length name ≤ 100)%nat ∧ (∃ a, WCoin_Amount escrow = Some a ∧ 1000000 ≤ a) ∧
  rules_valid rules ∧ (deny ≠ "" → is_ok (AccAddressFromBech32 deny) = true).

Lemma circle_valid_spec name escrow rules deny :
  validate_circle name escrow rules deny = Ok () ↔ circle_valid name escrow rules deny.
Proof.
  unfold validate_circle, circle_valid. rewrite unit_then. guards. rewrite rules_valid_spec.
  assert ((if Z.of_nat (String.length name) <? minNameLength then Err (Wrap poe_ErrEmpty "name")
    else check (maxNameLength <? Z.of_nat (String.length name)) (Wrap poe_ErrInvalid "name length > %d")) = Ok ()
    ↔ (1 ≤ String.length name ≤ 100)%nat) as ->.
  { unfold minNameLength, maxNameLength. case_match; guards; [split; [done|lia]|lia]. }
  assert (Int_LTE (WCoin_Amount escrow) (Some minEscrowAmount) = Ok false ↔
          ∃ x, WCoin_Amount escrow = Some x ∧ 1000000 ≤ x) as ->.
  { unfold minEscrowAmount. destruct (WCoin_Amount escrow) as [a|].
    - rewrite Int_LTE_some. split; [intros [= ?%Z.leb_gt]; eexists; split; [done|lia]|].
      intros (x & [= <-] & ?). f_equal. lia.
    - pose proof (Int_LTE_nil (Some 999999)). destruct (Int_LTE None _); naive_solver. }
  assert ((if decide (deny ≠ "") then
      match AccAddressFromBech32 deny with
      | Ok _ => Ok () | Err _ => Err (Wrap poe_ErrInvalid "deny list contract address") | Panic p => Panic p end
    else Ok ()) = Ok () ↔ (deny ≠ "" → is_ok (AccAddressFromBech32 deny) = true)) as ->; [|done].
  clear. destruct (AccAddressFromBech32 deny); case_decide; cbn; naive_solver.
Qed.

(** Whole seconds, and not none at all; negative durations included. *)
Definition nonzero_seconds (d : Z) : Prop := d ≠ 0 ∧ (Second | d).

Definition valset_valid (c : ValsetContractConfig) : Prop :=
  VerifyValidators c = false ∧ MaxValidators c ≠ 0 ∧ Scaling c ≠ 0 ∧
  nonzero_seconds (EpochLength c) ∧ nonzero_seconds (OfflineJailDuration c) ∧
  (∃ e p v f, EngagementRewardRatio c = Some e ∧ CommunityPoolRewardRatio c = Some p ∧
     ValidatorRewardRatio c = Some v ∧ FeePercentage c = Some f ∧
     e ≤ 100 * one ∧ p ≤ 100 * one ∧ v ≤ 100 * one ∧ e + p + v = 100 * one ∧ 100 ≤ f).

Definition small (d : Dec) : Prop := ∀ x, d = Some x → Z.abs x < 2 ^ 300.

Lemma ratios_valid e p v k :
  small (Some e) → small (Some p) → small (Some v) →
  (sum ← Dec_Add (Some e) (Some p); totalRatio ← Dec_Add sum (Some v);
   eq ← Dec_Equal totalRatio (dec 100); check (negb eq) (Wrap poe_ErrInvalid "total reward ratio must be 100 but was %s") ;; k)
  = Ok () ↔ e + p + v = 100 * one ∧ k = Ok ().
Proof.
  intros He Hp Hv. specialize (He _ eq_refl). specialize (Hp _ eq_refl). specialize (Hv _ eq_refl).
  rewrite Dec_Add_some by lia. cbn. rewrite Dec_Add_some by lia. cbn. unfold dec. rewrite Dec_Equal_some. cbn.
  rewrite check_then, negb_false_iff, Z.eqb_eq. done.
Qed.

(** A valset configuration is accepted exactly when validators are not to be
    verified, the numbers are set, epoch and jail time are whole seconds (of any
    sign), and the three reward ratios are present, none above 100, with sum 100;
    a negative ratio is not refused. *)
Lemma ValsetConfig_spec (c : ValsetContractConfig) :
  is_s 64 (EpochLength c) → is_s 64 (OfflineJailDuration c) →
  small (EngagementRewardRatio c) → small (CommunityPoolRewardRatio c) → small (ValidatorRewardRatio c) →
  ValsetContractConfig_ValidateBasic c = Ok () ↔ valset_valid c.
Proof.
  intros He Hj Hse Hsp Hsv. unfold ValsetContractConfig_ValidateBasic, valset_valid, nonzero_seconds.
  cbv zeta. guards. unfold dec at 1 2 3. rewrite !Dec_GT_false.
  rewrite <-!whole_seconds_int64 by done. change (100 * 10 ^ 18) with (100 * one).
  split.
  - intros (Hv & Hm & Hel & Hes & Hsc & (p & Hp & Hp') & (e & Ee & He') & (v & Ev & Hv') & Hrest).
    rewrite Ee, Hp, Ev in *. rewrite ratios_valid in Hrest by done. revert Hrest. guards.
    unfold minFeePercentage. rewrite Dec_LT_false. intros (Hsum & (f & Hf & Hf') & Hj0 & Hjs).
    split_and!; try done. exists e, p, v, f. by split_and!.
  - intros (Hv & Hm & Hsc & [Hel Hes] & [Hj0 Hjs] & e & p & v & f & Ee & Hp & Ev & Hf & He' & Hp' & Hv' & Hsum & Hf').
    split_and!; try done; [by exists p|by exists e|by exists v|].
    rewrite Ee, Hp, Ev in *. rewrite ratios_valid by done. split; [done|]. guards.
    unfold minFeePercentage. rewrite Dec_LT_false. split_and!; try done. by exists f.
Qed.

Definition stake_valid (conv : Z → Z) (c : StakeContractConfig) : Prop :=
  MinBond c ≠ 0 ∧ TokensPerPoint c ≠ 0 ∧ UnbondingPeriod c ≠ 0 ∧ period_valid conv (UnbondingPeriod c).

Lemma stake_valid_spec conv c :
  is_s 64 (UnbondingPeriod c) →
  StakeContractConfig_ValidateBasic conv c = Ok () ↔ stake_valid conv c.
Proof.
  intros Hd. unfold StakeContractConfig_ValidateBasic, stake_valid. guards.
  by rewrite period_valid_spec by done.
Qed.

Definition mixer_valid (m : option MixerContractConfig) : Prop :=
  ∃ x s p, m = Some (mkMixerConfig (mkSigmoid x (Some p) (Some s))) ∧ x ≠ 0 ∧ s ≠ 0 ∧ p ≠ 0.

Lemma mixer_valid_spec m : MixerContractConfig_ValidateBasic m = Ok () ↔ mixer_valid m.
Proof.
  unfold MixerContractConfig_ValidateBasic, mixer_valid. destruct m as [[[x [p|] [s|]]]|];
    cbn [MaxPoints Mixer_Sigmoid P S_];
    [|(split; [guards; intuition congruence|intros (? & ? & ? & [=] & _)])..].
  guards. rewrite !Dec_IsZero_some. split.
  - intros (Hx & (_ & [= Hs%Z.eqb_neq]) & (_ & [= Hp%Z.eqb_neq])). by exists x, s, p.
  - intros (x' & s' & p' & [= -> -> ->] & Hx & Hs%Z.eqb_neq & Hp%Z.eqb_neq). by rewrite Hs, Hp.
Qed.
End configs.

(** ** Messages *)
Section messages.
Context `{!Bech32, SdkMathLaws}.

Lemma nil_or_invalid_ok c :
  nil_or_invalid c = Ok false ↔
  ∃ a, WCoin_Amount c = Some a ∧ is_ok (ValidateDenom (WCoin_Denom c)) = true ∧ 0 ≤ a.
Proof.
  unfold nil_or_invalid. guards. destruct c as [d [a|]]; cbn; [|naive_solver].
  rewrite WCoin_IsValid_some. cbn. destruct (is_ok (ValidateDenom d)); cbn; [|naive_solver].
  destruct (Z.leb_spec 0 a); cbn; naive_solver lia.
Qed.

(** What a validator must send to be created. *)
Definition create_validator_valid (m : MsgCreateValidator) : Prop :=
  ∃ a pk d x y, AccAddressFromBech32 (CV_OperatorAddress m) = Ok a ∧ a ≠ "" ∧ CV_Pubkey m = Some pk ∧
    CV_Amount m = mkWCoin d (Some x) ∧ CV_VestingAmount m = mkWCoin d (Some y) ∧
    is_ok (ValidateDenom d) = true ∧ 0 ≤ x ∧ 0 ≤ y ∧ 0 < x + y < 2 ^ 256 ∧
    (3 ≤ String.length (Moniker (CV_Description m)))%nat.

Lemma add_not_zero c1 c2 a b k :
  WCoin_Amount c1 = Some a → WCoin_Amount c2 = Some b → 0 ≤ a → 0 ≤ b →
  (sum ← WCoin_Add c1 c2; checkM (WCoin_IsZero sum) (Wrap ErrInvalidRequest "empty delegation amounts") ;; k) = Ok ()
  ↔ WCoin_Denom c1 = WCoin_Denom c2 ∧ 0 < a + b < 2 ^ 256 ∧ k = Ok ().
Proof.
  destruct c1 as [d1 x], c2 as [d2 y]. cbn [WCoin_Amount WCoin_Denom]. intros -> -> Ha Hb.
  destruct (decide (d1 = d2)) as [->|Hd].
  2:{ pose proof (WCoin_Add_denoms (mkWCoin d1 (Some a)) (mkWCoin d2 (Some b)) Hd) as Hp.
      destruct (WCoin_Add _ _); naive_solver. }
  destruct (decide (a + b < 2 ^ 256)) as [Hs|Hs].
  - rewrite WCoin_Add_same by done. cbn [mbind outcome_bind]. rewrite WCoin_IsZero_some, checkM_then.
    destruct (Z.eqb_spec (a + b) 0); naive_solver lia.
  - pose proof (WCoin_Add_overflow d2 a b ltac:(lia)) as Hp. destruct (WCoin_Add _ _); naive_solver lia.
Qed.

Lemma moniker_not_empty (d : StakingDescription) :
  (3 ≤ String.length (Moniker d))%nat ↔
  d ≠ mkDescription "" "" "" "" "" ∧ 3 ≤ Z.of_nat (String.length (Moniker d)).
Proof. split; [|intros [_ ?]; lia]. intros Hl. split; [|lia]. intros ->. cbn in Hl. lia. Qed.

Lemma create_validator_ok m :
  MsgCreateValidator_ValidateBasic m = Ok () ↔ create_validator_valid m.
Proof.
  unfold MsgCreateValidator_ValidateBasic, create_validator_valid. rewrite outcome_bind_ok. split.
  - intros (a & Ha & Hrest). revert Hrest. guards. rewrite !nil_or_invalid_ok.
    intros (Hne & Hpk & (x & Hx & Hd & Hx0) & (y & Hy & _ & Hy0) & Hrest).
    rewrite (add_not_zero _ _ x y) in Hrest by done. revert Hrest. guards. intros (Heq & [Hs1 Hs2] & Hm1 & Hm2).
    destruct (CV_Pubkey m) as [pk|] eqn:Epk; [|done].
    exists a, pk, (WCoin_Denom (CV_Amount m)), x, y. rewrite moniker_not_empty.
    destruct (CV_Amount m), (CV_VestingAmount m). cbn in *. subst. by split_and!.
  - intros (a & pk & d & x & y & Ha & Hne & Hpk & Hx & Hy & Hd & Hx0 & Hy0 & Hs & Hm).
    exists a. split; [done|]. guards. rewrite !nil_or_invalid_ok, (add_not_zero _ _ x y) by (by rewrite ?Hx, ?Hy).
    rewrite Hx, Hy, Hpk. cbn. apply moniker_not_empty in Hm as [Hm1 Hm2]. guards.
    split_and!; try done; [by exists x|by exists y|lia..].
Qed.

(** A create-validator message is valid exactly when its operator address
    decodes, it has a key, both amounts are valid coins of one denom with a
    positive sum of at most 256 bits, and the moniker has three bytes or more.
    With two valid amounts of different denoms the validation panics. *)
Lemma create_validator_spec m :
  (MsgCreateValidator_ValidateBasic m = Ok () ↔ create_validator_valid m) ∧
  (∀ a, AccAddressFromBech32 (CV_OperatorAddress m) = Ok a → a ≠ "" → CV_Pubkey m ≠ None →
     nil_or_invalid (CV_Amount m) = Ok false → nil_or_invalid (CV_VestingAmount m) = Ok false →
     WCoin_Denom (CV_Amount m) ≠ WCoin_Denom (CV_VestingAmount m) →
     is_panic (MsgCreateValidator_ValidateBasic m) = true).
Proof.
  split; [apply create_validator_ok|]. intros a Ha Hne Hpk Hliq Hves Hd.
  unfold MsgCreateValidator_ValidateBasic, checkM. rewrite Ha, Hliq, Hves. cbn [mbind outcome_bind].
  rewrite (bool_decide_eq_false_2 (a = "")), (bool_decide_eq_false_2 (CV_Pubkey m = None)) by done.
  cbn [check mbind outcome_bind].
  pose proof (WCoin_Add_denoms _ _ Hd) as Hp. by destruct (WCoin_Add _ _).
Qed.
End messages.

(** ** The seed of a chain *)
Section seed.
Context `{!Bech32, SdkMathLaws}.
Variable conv : Z → Z.
Variable decode_tx : json_bytes → outcome (list GenMsg).
Variable Any_String : option Any → string.

(** [ms] are the validators the genesis transactions create. *)
Definition gentxs_of (txs : list json_bytes) (ms : list MsgCreateValidator) : Prop :=
  Forall2 (λ v m, decode_tx v = Ok [GMCreateValidator m] ∧ create_validator_valid m) txs ms.

Lemma check_gentxs_ok members txs ops keys :
  check_gentxs decode_tx Any_String members txs ops keys = Ok () ↔
  ∃ ms, gentxs_of txs ms ∧ Forall (λ m, CV_OperatorAddress m ∈ members) ms ∧
    NoDup (CV_OperatorAddress <$> ms) ∧ (∀ x, x ∈ CV_OperatorAddress <$> ms → x ∉ ops) ∧
    NoDup (Any_String ∘ CV_Pubkey <$> ms) ∧ (∀ x, x ∈ Any_String ∘ CV_Pubkey <$> ms → x ∉ keys).
Proof.
  revert ops keys. induction txs as [|v txs IH]; intros ops keys; cbn.
  { split; [intros _; exists []; unfold gentxs_of; cbn; split_and!; try constructor; set_solver|done]. }
  destruct (decode_tx v) as [msgs|e|p] eqn:Hdec; cbn.
  2,3: split; [done|intros (ms & Htx & _); apply Forall2_cons_inv_l in Htx as (? & ? & [? _] & _); congruence].
  assert (¬ (∃ m, msgs = [GMCreateValidator m]) → ¬ ∃ ms, gentxs_of (v :: txs) ms) as Hno.
  { intros Hm (ms & Htx). apply Forall2_cons_inv_l in Htx as (m & ? & [? _] & _). apply Hm. exists m. congruence. }
  destruct msgs as [|[msg|] [|? ?]]; try (split; [done|intros (ms & ? & _); destruct Hno; [naive_solver|by exists ms]]).
  guards. rewrite create_validator_ok, IH. unfold gentxs_of. split.
  - intros (Hv & Hmem%dec_stable & Hop & Hpk & ms & Htx & Hin & Hnd & Hdis & Hnk & Hdk).
    exists (msg :: ms). cbn. rewrite Forall2_cons, Forall_cons, !NoDup_cons. split_and!; try done; set_solver.
  - intros (ms & Htx & Hrest). apply Forall2_cons_inv_l in Htx as (m & ms' & [Hd Hv] & Htx & ->).
    assert (m = msg) as -> by congruence. cbn in Hrest. rewrite Forall_cons, !NoDup_cons in Hrest.
    destruct Hrest as ((Hmem & Hin) & (Hop & Hnd) & Hdis & (Hpk & Hnk) & Hdk).
    split_and!; [done|by intros ?|set_solver|set_solver|]. exists ms'. split_and!; try done; set_solver.
Qed.

(** The values have the width of their Go types, the ratios a size that cannot overflow. *)
Definition typed (g : SeedContracts) : Prop :=
  (∀ c, ValsetConfig g = Some c →
     is_s 64 (EpochLength c) ∧ is_s 64 (OfflineJailDuration c) ∧ small (EngagementRewardRatio c) ∧
     small (CommunityPoolRewardRatio c) ∧ small (ValidatorRewardRatio c)) ∧
  (∀ c, StakeConfig g = Some c → is_s 64 (UnbondingPeriod c)) ∧
  (∀ c, ArbiterPoolConfig g = Some c → is_s 64 (WaitingPeriod c)).

(** Distinct well-formed addresses, at least one. *)
Definition members_valid (ms : list string) : Prop :=
  ms ≠ [] ∧ Forall (λ m, is_ok (AccAddressFromBech32 m) = true) ms ∧ NoDup ms.

Definition configs_valid (g : SeedContracts) : Prop :=
  ∃ eng valset stake oc ap cp vv,
    EngagementConfig g = Some eng ∧ (Second | Halflife eng) ∧
    ValsetConfig g = Some valset ∧ valset_valid valset ∧ WCoin_Denom (EpochReward valset) = BondDenom g ∧
    StakeConfig g = Some stake ∧ stake_valid conv stake ∧
    OversightCommitteeConfig g = Some oc ∧ WCoin_Denom (OC_EscrowAmount oc) = BondDenom g ∧
    circle_valid (OC_Name oc) (OC_EscrowAmount oc) (OC_VotingRules oc) (OC_DenyListContractAddress oc) ∧
    ArbiterPoolConfig g = Some ap ∧ period_valid conv (WaitingPeriod ap) ∧
    circle_valid (AP_Name ap) (AP_EscrowAmount ap) (AP_VotingRules ap) (AP_DenyListContractAddress ap) ∧
    CommunityPoolConfig g = Some cp ∧ rules_valid (CP_VotingRules cp) ∧
    ValidatorVotingConfig g = Some vv ∧ rules_valid (VV_VotingRules vv) ∧ mixer_valid (MixerConfig g).

Definition seed_valid (g : SeedContracts) : Prop :=
  configs_valid g ∧ is_ok (ValidateDenom (BondDenom g)) = true ∧
  is_ok (AccAddressFromBech32 (BootstrapAccountAddress g)) = true ∧
  members_valid (Member_Address <$> Engagement g) ∧ Forall (λ m, Points m ≠ 0) (Engagement g) ∧
  (∃ ms, gentxs_of (GenTxs g) ms ∧ CV_OperatorAddress <$> ms ⊆ Member_Address <$> Engagement g ∧
     NoDup (CV_OperatorAddress <$> ms) ∧ NoDup (Any_String ∘ CV_Pubkey <$> ms)) ∧
  members_valid (OversightCommunityMembers g) ∧ members_valid (ArbiterPoolMembers g).

Lemma TG4Member_valid m :
  TG4Member_ValidateBasic m = Ok () ↔ is_ok (AccAddressFromBech32 (Member_Address m)) = true ∧ Points m ≠ 0.
Proof. unfold TG4Member_ValidateBasic. by guards. Qed.

Lemma engagement_valid ms (f : gset string → outcome ()) :
  (unique_members ms ∅ ≫= f) = Ok () ↔
  Forall (λ m, is_ok (AccAddressFromBech32 m) = true) (Member_Address <$> ms) ∧
  NoDup (Member_Address <$> ms) ∧ Forall (λ m, Points m ≠ 0) ms ∧ f (list_to_set (Member_Address <$> ms)) = Ok ().
Proof.
  rewrite outcome_bind_ok. unfold unique_members. setoid_rewrite unique_loop_ok.
  setoid_rewrite wrap_ok. setoid_rewrite TG4Member_valid. setoid_rewrite Forall_and. rewrite Forall_fmap.
  setoid_rewrite union_empty_r_L. split; [naive_solver|].
  intros (Ha & Hnd & Hp & Hf). eexists. split; [|exact Hf]. by split_and!.
Qed.

Lemma accounts_valid kind ms k :
  ms ≠ [] → (_ ← unique_accounts kind ms ∅; k) = Ok () ↔ members_valid ms ∧ k = Ok ().
Proof.
  intros Hne. rewrite outcome_bind_ok. unfold unique_accounts, members_valid.
  setoid_rewrite unique_loop_ok. setoid_rewrite wrap_then. setoid_rewrite list_fmap_id. split.
  - intros (s & (Hf & Hnd & _ & _) & Hk). split; [|done]. split_and!; try done.
    eapply Forall_impl; [exact Hf|]. by intros x [? _].
  - intros ((_ & Hf & Hnd) & Hk). eexists. split; [|done]. split_and!; [|done|set_solver|done].
    eapply Forall_impl; [exact Hf|]. done.
Qed.

(** Walk down a chain of guards that passed, or that is to pass. *)
Ltac chain_in H := repeat first
  [ rewrite check_then in H; let H' := fresh in destruct H as [H' H]; apply bool_decide_eq_false in H'
  | rewrite required_then in H; destruct H as (? & ? & H)
  | rewrite wrap_then in H; destruct H as [? H]
  | rewrite engagement_valid in H; destruct H as (? & ? & ? & H) ].
Ltac chain := repeat first
  [ rewrite check_then; split; [apply bool_decide_eq_false; first [done|intros Hx; by apply Hx]|]
  | rewrite required_then; eexists; split; [eassumption|]
  | rewrite wrap_then; split; [first [done|rewrite is_ok_unit; done]|]
  | rewrite engagement_valid; split_and!; [done|done|done|] ].

Lemma seed_tail_ok g :
  ((check_gentxs decode_tx Any_String (list_to_set (Member_Address <$> Engagement g)) (GenTxs g) ∅ ∅ ;;
    check (bool_decide (OversightCommunityMembers g = [])) (Wrap ErrEmpty "oversight community members") ;;
    _ ← unique_accounts "oc" (OversightCommunityMembers g) ∅;
    check (bool_decide (ArbiterPoolMembers g = [])) (Wrap ErrEmpty "arbiter pool members") ;;
    _ ← unique_accounts "ap" (ArbiterPoolMembers g) ∅; Ok ()) = Ok ()) ↔
  (∃ ms, gentxs_of (GenTxs g) ms ∧ CV_OperatorAddress <$> ms ⊆ Member_Address <$> Engagement g ∧
     NoDup (CV_OperatorAddress <$> ms) ∧ NoDup (Any_String ∘ CV_Pubkey <$> ms)) ∧
  members_valid (OversightCommunityMembers g) ∧ members_valid (ArbiterPoolMembers g).
Proof.
  rewrite unit_then, check_gentxs_ok, check_then, bool_decide_eq_false.
  assert (∀ ms, Forall (λ m, CV_OperatorAddress m ∈ (list_to_set (Member_Address <$> Engagement g) : gset string)) ms
    ↔ CV_OperatorAddress <$> ms ⊆ Member_Address <$> Engagement g) as Hsub.
  { intros ms. rewrite Forall_forall. set_solver. }
  setoid_rewrite Hsub. split.
  - intros ((ms & Htx & Hin & Hnd & _ & Hnk & _) & Hoc & Hrest). rewrite accounts_valid in Hrest by done.
    destruct Hrest as [Hov Hrest]. rewrite check_then, bool_decide_eq_false in Hrest. destruct Hrest as [Hap Hrest].
    rewrite accounts_valid in Hrest by done. destruct Hrest as [Hav _]. split; [|done]. by exists ms.
  - intros ((ms & Htx & Hin & Hnd & Hnk) & Hov & Hav). split; [exists ms; split_and!; try done; set_solver|].
    split; [apply Hov|]. rewrite accounts_valid by apply Hov. split; [done|].
    rewrite check_then, bool_decide_eq_false. split; [apply Hav|]. rewrite accounts_valid by apply Hav. done.
Qed.

Lemma arbiter_valid_spec c :
  is_s 64 (WaitingPeriod c) →
  ArbiterPoolContractConfig_ValidateBasic conv c = Ok () ↔
  circle_valid (AP_Name c) (AP_EscrowAmount c) (AP_VotingRules c) (AP_DenyListContractAddress c) ∧
  period_valid conv (WaitingPeriod c).
Proof.
  intros Hd. unfold ArbiterPoolContractConfig_ValidateBasic.
  rewrite unit_then, circle_valid_spec. guards. by rewrite period_valid_spec by done.
Qed.

Lemma seed_spec g :
  typed g → validateSeedContracts conv decode_tx Any_String g = Ok () ↔ seed_valid g.
Proof.
  intros (Hvt & Hst & Hat). unfold seed_valid, configs_valid. split.
  - unfold validateSeedContracts. intros Hg. chain_in Hg. apply seed_tail_ok in Hg.
    repeat match goal with E : is_ok _ = true |- _ => apply is_ok_unit in E end.
    edestruct Hvt as (? & ? & ? & ? & ?); [eassumption|].
    rewrite ValsetConfig_spec in * by done. rewrite stake_valid_spec in * by eauto.
    rewrite arbiter_valid_spec, mixer_valid_spec, !is_ok_unit in * by eauto.
    unfold OversightCommitteeContractConfig_ValidateBasic, CommunityPoolContractConfig_ValidateBasic,
      ValidatorVotingContractConfig_ValidateBasic, EngagementContractConfig_ValidateBasic in *.
    rewrite circle_valid_spec, !wrap_ok, !rules_valid_spec, check_ok, negb_false_iff, Z.eqb_eq, Truncate_Second in *.
    repeat match goal with E : ¬ (_ ≠ _) |- _ => apply dec_stable in E end. destruct_and!.
    split; [|split_and!; try done; by destruct (Engagement g)].
    do 7 eexists. split_and!; eassumption.
  - intros ((eng & valset & stake & oc & ap & cp & vv & He & Hh & Hv & Hvv & Hrd & Hs & Hsv & Ho & Hed & Hov & Ha &
      Hap & Hav & Hc & Hcv & Hvo & Hvov & Hm) & Hd & Hb & (Hne & Hok & Hnd) & Hp & Htail).
    unfold validateSeedContracts.
    destruct (Hvt _ Hv) as (? & ? & ? & ? & ?).
    apply ValsetConfig_spec in Hvv; [|done..]. apply stake_valid_spec in Hsv; [|by apply Hst].
    pose proof (proj2 (arbiter_valid_spec ap (Hat _ Ha)) (conj Hav Hap)) as Hav'.
    rewrite <-circle_valid_spec in Hov. rewrite <-rules_valid_spec in Hcv, Hvov. rewrite <-mixer_valid_spec in Hm.
    assert (EngagementContractConfig_ValidateBasic eng = Ok ()) as Heng.
    { unfold EngagementContractConfig_ValidateBasic. by rewrite check_ok, negb_false_iff, Z.eqb_eq, Truncate_Second. }
    assert (CommunityPoolContractConfig_ValidateBasic cp = Ok ()) as Hcp by (by apply wrap_ok).
    assert (ValidatorVotingContractConfig_ValidateBasic vv = Ok ()) as Hvvt by (by apply wrap_ok).
    assert (Engagement g ≠ []) as Hne' by (by intros Hnil; apply Hne; rewrite Hnil).
    chain. by apply seed_tail_ok.
Qed.

(** C5: a genesis state is accepted exactly when its parameters are valid and it
    holds either the seed of a chain, with all configurations in range, distinct
    members, and genesis transactions that each create one validator, of a
    different member and with a different key; or the dump of a chain, with every
    PoE contract type exactly once and well-formed addresses. *)
Theorem ValidateGenesis_spec g :
  (∀ s, GetSeedContracts g = Some s → typed s) →
  ValidateGenesis conv decode_tx Any_String g = Ok () ↔
  is_ok (Coins_Validate (MinDelegationAmounts (GS_Params g))) = true ∧
  ((∃ s, GS_SetupMode g = GenesisState_SeedContracts (Some s) ∧ seed_valid s) ∨
   (∃ cs, GS_SetupMode g = GenesisState_ImportDump (Some cs) ∧
      Forall (λ c, is_ok (AccAddressFromBech32 (PoE_Address c)) = true) cs ∧
      ContractType <$> cs ≡ₚ contract_types)).
Proof.
  intros Hty. unfold ValidateGenesis. rewrite wrap_then, is_ok_unit. unfold Params_Validate.
  rewrite wrap_ok, <-is_ok_unit. apply and_iff_compat_l. revert Hty. unfold GetSeedContracts, GetImportDump.
  destruct (GS_SetupMode g) as [|[s|]|[cs|]]; cbn; intros Hty; rewrite ?wrap_ok, ?ImportDump_spec, ?seed_spec by auto;
    naive_solver.
Qed.
End seed.

(** ** A concrete instance *)
#[export] Instance Ref_math : SdkMath := {
  Dec_GT a b := match a, b with Some x, Some y => Ok (y <? x) | _, _ => Panic "nil" end;
  Dec_LT a b := match a, b with Some x, Some y => Ok (x <? y) | _, _ => Panic "nil" end;
  Dec_Equal a b := match a, b with Some x, Some y => Ok (x =? y) | _, _ => Panic "nil" end;
  Dec_Add a b :=
    match a, b with
    | Some x, Some y => if Z.abs (x + y) <? 2 ^ 315 then Ok (Some (x + y)) else Panic "overflow"
    | _, _ => Panic "nil" end;
  Dec_IsZero a := match a with Some x => Ok (x =? 0) | None => Panic "nil" end;
  Int_LTE a b := match a, b with Some x, Some y => Ok (x <=? y) | _, _ => Panic "nil" end;
  Int_IsPositive a := match a with Some x => Ok (0 <? x) | None => Panic "nil" end;
  ValidateDenom d := if decide (d = "") then Err (new_err "denom") else Ok ();
  Coins_Validate cs := if forallb (λ c, 0 <? Amount c) cs then Ok () else Err (new_err "coins");
  WCoin_IsValid c :=
    match WCoin_Amount c with
    | Some a => Ok (negb (bool_decide (WCoin_Denom c = "")) && (0 <=? a))
    | None => Panic "nil" end;
  WCoin_IsZero c := match WCoin_Amount c with Some a => Ok (a =? 0) | None => Panic "nil" end;
  WCoin_Add c1 c2 :=
    match WCoin_Amount c1, WCoin_Amount c2 with
    | Some a, Some b =>
        if bool_decide (WCoin_Denom c1 = WCoin_Denom c2) && (a + b <? 2 ^ 256)
        then Ok (mkWCoin (WCoin_Denom c1) (Some (a + b))) else Panic "invalid coin denominations"
    | _, _ => Panic "nil" end;
}.

#[export] Instance Ref_math_laws : SdkMathLaws.
Proof.
  constructor; cbn; try done.
  - intros a b Hs%Z.ltb_lt. by rewrite Hs.
  - intros d a. case_bool_decide; case_decide; by simplify_eq.
  - intros d a b Ha Hb Hs%Z.ltb_lt. by rewrite bool_decide_true, Hs.
  - intros d a b Hs%Z.ltb_ge. by rewrite bool_decide_true, Hs.
  - intros [d1 [a|]] [d2 [b|]] Hd; cbn in *; try done. by rewrite bool_decide_false.
Qed.

Definition ref_decode (tx : json_bytes) : outcome (list GenMsg) :=
  match tx with
  | JText (JStr op) => Ok [GMCreateValidator (mkMsgCreateValidator (mkDescription "validator" "" "" "" "") op
                     (Some (mkAny "/key" op)) (mkWCoin "ufury" (Some 5)) (mkWCoin "ufury" (Some 0)))]
  | _ => Err ErrJSON
  end.
Definition ref_key (k : option Any) : string := from_option AnyValue "" k.

(** The default genesis state with members and two genesis transactions. *)
Definition ref_seed : SeedContracts :=
  let s := with_gentxs (DefaultSeedContracts "furya1boot") [JText (JStr "furya1alice"); JText (JStr "furya1bob")] in
  {| GenTxs := GenTxs s; BootstrapAccountAddress := BootstrapAccountAddress s;
     Engagement := [mkTG4Member "furya1alice" 7; mkTG4Member "furya1bob" 2; mkTG4Member "furya1carl" 1];
     StakeConfig := StakeConfig s; ValsetConfig := ValsetConfig s; EngagementConfig := EngagementConfig s;
     BondDenom := BondDenom s; OversightCommitteeConfig := OversightCommitteeConfig s;
     CommunityPoolConfig := CommunityPoolConfig s; ValidatorVotingConfig := ValidatorVotingConfig s;
     OversightCommunityMembers := ["furya1carl"]; ArbiterPoolMembers := ["furya1dora"];
     ArbiterPoolConfig := ArbiterPoolConfig s; MixerConfig := MixerConfig s |}.
Definition ref_genesis : PoEGenesisState :=
  mkPoEGenesis DefaultParams (GenesisState_SeedContracts (Some ref_seed)).

Lemma ref_seed_typed : typed ref_seed.
Proof.
  unfold typed, is_s, small. split; [|split]; intros c Hc; injection Hc as <-;
    [|(split; vm_compute; [discriminate|reflexivity])..].
  split; [split; vm_compute; [discriminate|reflexivity]|].
  split; [split; vm_compute; [discriminate|reflexivity]|].
  split_and!; intros x Hx; injection Hx as <-; reflexivity.
Qed.

(** C5: the default configuration with members and genesis transactions is accepted. *)
Lemma ValidateGenesis_spec_witness :
  ValidateGenesis id ref_decode ref_key ref_genesis = Ok () ∧ seed_valid id ref_decode ref_key ref_seed.
Proof.
  assert (ValidateGenesis id ref_decode ref_key ref_genesis = Ok ()) as Hok by (vm_compute; reflexivity).
  split; [exact Hok|].
  apply (proj1 (ValidateGenesis_spec id ref_decode ref_key ref_genesis ltac:(intros s [= <-]; exact ref_seed_typed)))
    in Hok as [_ [(s & [= <-] & Hs)|(cs & [=] & _)]]. exact Hs.
Defined.

(** A message with amounts of two denoms. *)
Definition two_denoms : MsgCreateValidator :=
  mkMsgCreateValidator (mkDescription "validator" "" "" "" "") "furya1alice" (Some (mkAny "/key" "k"))
    (mkWCoin "ufury" (Some 5)) (mkWCoin "uother" (Some 1)).

(** The amounts of two denoms cannot be added. *)
Lemma create_validator_spec_witness :
  is_panic (MsgCreateValidator_ValidateBasic two_denoms) = true ∧ ¬ create_validator_valid two_denoms.
Proof.
  destruct (create_validator_spec two_denoms) as [Hiff Hpanic].
  specialize (Hpanic "alice" eq_refl ltac:(discriminate) ltac:(discriminate) eq_refl eq_refl ltac:(discriminate)).
  split; [exact Hpanic|]. intros Hv%Hiff. rewrite Hv in Hpanic. discriminate.
Defined.
