(* ===== verification/PoEKeeper.v ===== *)
(** The keeper of x/poe (x/poe/keeper: keeper.go, params.go, historical_info.go,
    genesis.go).

    The module's store maps contract types to addresses (0x01|name) and heights
    to historical info (0x02|height in decimal). Beside the store the keeper has
    memory that no transaction rolls back: the cache of contract addresses and
    the votes of the last commit. [KState] is the store with that memory. *)
From stdpp Require Import base list strings gmap sets sorting pretty.
From Stdlib Require Import ZArith Lia.
From S2P Require Import Prelude Sdk Json Privilege Wasm PoETypes PoEMsgs.
Open Scope Z_scope.

Definition poe_StoreKey : string := "poe".
Definition ContractPrefix : bytes := bytes1 0x01.
Definition HistoricalInfoKey : bytes := bytes1 0x02.

(** [abci.VoteInfo] *)
Record VoteInfo := mkVoteInfo { Vote_Address : bytes; Vote_Power : Z; SignedLastBlock : bool }.

(** [tmproto.Header] as bytes, and [stakingtypes.HistoricalInfo]. *)
Abbreviation Header := string (only parsing).
Record HistoricalInfo := mkHistoricalInfo { HI_Header : Header; HI_Valset : list bytes }.

Record KState (W : Type) := mkKState {
  world : W; contractAddrCache : gmap Z AccAddress; validatorVotes : list VoteInfo }.
Arguments mkKState {W} world contractAddrCache validatorVotes.
Arguments world {W} k.
Arguments contractAddrCache {W} k.
Arguments validatorVotes {W} k.

Definition set_world {W} (w : W) (k : KState W) : KState W :=
  mkKState w (contractAddrCache k) (validatorVotes k).

(** A call into another module: it sees the store only. *)
Definition on_world {W A} (m : M W A) : M (KState W) A := λ c,
  let '(o, c') := m (mkCtx (world (store c)) (events c)) in
  (o, mkCtx (set_world (store c') (store c)) (events c')).

(** The parameter subspace of the module, and the codec of historical infos. *)
Class PoEParamStore (W : Type) := {
  param_HistoricalEntries : W → outcome Z;
  param_InitialValEngagementPoints : W → outcome Z;
  param_MinDelegationAmounts : W → outcome (list Coin);
  poe_SetParamSet : PoEParams → M W ();
}.

Class HistoryCodec := {
  NewHistoricalInfo : Header → list bytes → HistoricalInfo;
  MustMarshal_HI : HistoricalInfo → bytes;
  MustUnmarshalHistoricalInfo : bytes → outcome HistoricalInfo;
}.

Definition poeContractAddressKey (ctype : Z) : bytes := ContractPrefix +:+ PoEContractType_String ctype.
(** [strconv.FormatInt(height, 10)] *)
Definition getHistoricalInfoKey (height : Z) : bytes := HistoricalInfoKey +:+ pretty height.

#[global] Arguments poeContractAddressKey ctype : simpl never.
#[global] Arguments getHistoricalInfoKey height : simpl never.

Section keeper.
Context `{!KVStore W, !PoEParamStore W, !HistoryCodec, !Bech32}.
Implicit Types k : KState W.

(** *** Contract addresses *)
Definition SetPoEContractAddress (ctype : Z) (contractAddr : AccAddress) : M (KState W) () :=
  modify (λ k, mkKState (kv_set poe_StoreKey (poeContractAddressKey ctype) contractAddr (world k))
                 (<[ctype := contractAddr]> (contractAddrCache k)) (validatorVotes k)).

Definition IteratePoEContracts (cb : Z → AccAddress → M (KState W) bool) : M (KState W) () :=
  entries ← gets (λ k, kv_iterate (world k) poe_StoreKey ContractPrefix);
  iterM entries (λ e, cb (PoEContractTypeFrom e.1) e.2).

Definition InitContractAddressCache : M (KState W) () :=
  IteratePoEContracts (λ contractType address,
    modify (λ k, mkKState (world k) (<[contractType := address]> (contractAddrCache k)) (validatorVotes k)) ;;
    mret false).

Definition GetPoEContractAddress (k : KState W) (ctype : Z) : outcome AccAddress :=
  wrap "contract type" (PoEContractType_ValidateBasic ctype) ;;
  match contractAddrCache k !! ctype with
  | Some addr => Ok addr
  | None =>
      let addr := default "" (kv_get (world k) poe_StoreKey (poeContractAddressKey ctype)) in
      if decide (addr = "") then Err ErrNotFound else Ok addr
  end.

Definition GetBondDenom : string := DefaultBondDenom.

Definition UpdateValidatorVotes (votes : list VoteInfo) : M (KState W) () :=
  modify (λ k, mkKState (world k) (contractAddrCache k) votes).
Definition GetValidatorVotes (k : KState W) : list VoteInfo := validatorVotes k.

(** *** Parameters *)
Definition HistoricalEntries (k : KState W) : outcome Z := param_HistoricalEntries (world k).
Definition GetInitialValidatorEngagementPoints (k : KState W) : outcome Z :=
  param_InitialValEngagementPoints (world k).
Definition MinimumDelegationAmounts (k : KState W) : outcome (list Coin) := param_MinDelegationAmounts (world k).

Definition GetParams (k : KState W) : outcome PoEParams :=
  h ← HistoricalEntries k;
  e ← GetInitialValidatorEngagementPoints k;
  m ← MinimumDelegationAmounts k;
  Ok (NewParams h e m).

Definition setParams (params : PoEParams) : M (KState W) () := on_world (poe_SetParamSet params).

(** *** Historical info *)
Definition GetHistoricalInfo (k : KState W) (height : Z) : outcome (option HistoricalInfo) :=
  match kv_get (world k) poe_StoreKey (getHistoricalInfoKey height) with
  | None => Ok None
  | Some value => hi ← MustUnmarshalHistoricalInfo value; Ok (Some hi)
  end.

Definition SetHistoricalInfo (height : Z) (hi : HistoricalInfo) : M (KState W) () :=
  modify (λ k, set_world (kv_set poe_StoreKey (getHistoricalInfoKey height) (MustMarshal_HI hi) (world k)) k).

Definition DeleteHistoricalInfo (height : Z) : M (KState W) () :=
  modify (λ k, set_world (kv_delete poe_StoreKey (getHistoricalInfoKey height) (world k)) k).

Definition iterateHistoricalInfo (cb : HistoricalInfo → M (KState W) bool) : M (KState W) () :=
  entries ← gets (λ k, kv_iterate (world k) poe_StoreKey HistoricalInfoKey);
  iterM entries (λ e, histInfo ← lift (MustUnmarshalHistoricalInfo e.2); cb histInfo).

Fixpoint unmarshal_infos (vs : list bytes) : outcome (list HistoricalInfo) :=
  match vs with
  | [] => Ok []
  | v :: vs' => hi ← MustUnmarshalHistoricalInfo v; r ← unmarshal_infos vs'; Ok (hi :: r)
  end.
Definition getAllHistoricalInfo (k : KState W) : outcome (list HistoricalInfo) :=
  unmarshal_infos (kv_iterate (world k) poe_StoreKey HistoricalInfoKey).*2.

(** The loop [for i := start; i >= 0; i--]; [fuel] is the number of rounds it may take. *)
Fixpoint prune (fuel : nat) (i : Z) : M (KState W) () :=
  match fuel with
  | O => mret ()
  | S n =>
      if i <? 0 then mret ()
      else
        found ← (λ c, (GetHistoricalInfo (store c) i, c));
        match found with
        | Some _ => DeleteHistoricalInfo i ;; prune n (i - 1)
        | None => mret ()
        end
  end.

(** [height] and [header] are those of the block. *)
Definition TrackHistoricalInfo (height : Z) (header : Header) : M (KState W) () :=
  entryNum ← (λ c, (HistoricalEntries (store c), c));
  let start := height - entryNum in
  prune (Z.to_nat (start + 1)) start ;;
  if entryNum =? 0 then mret ()
  else SetHistoricalInfo height (NewHistoricalInfo header []).

(** *** Genesis *)
Definition import_contract_address (v : PoEContract) : M (KState W) () :=
  addr ← lift (wrap "decode address: %s" (AccAddressFromBech32 (PoE_Address v)));
  SetPoEContractAddress (ContractType v) addr.

(** The transaction pipeline: decode, [ValidateBasic], encode, deliver; the
    delivery reports a failure as a response that is not OK. *)
Context {Tx : Type} (TxJSONDecoder : json_bytes → outcome Tx) (Tx_ValidateBasic : Tx → outcome ())
  (TxEncoder : Tx → outcome bytes) (deliverTx : bytes → M (KState W) bool).

Definition deliver_gentx (genTx : json_bytes) : M (KState W) () :=
  tx ← lift (wrap "json decode gentx" (TxJSONDecoder genTx));
  lift (wrap "gentx %d" (Tx_ValidateBasic tx)) ;;
  bz ← lift (wrap "encode tx" (TxEncoder tx));
  isOK ← deliverTx bz;
  if negb isOK then fail_with (Wrap poe_ErrDeliverGenTXFailed "gentx at position %d: %s") else mret ().

Definition DeliverGenTxs (genTxs : list json_bytes) : M (KState W) () := forM genTxs deliver_gentx.

Definition InitGenesis (genesisState : PoEGenesisState) : M (KState W) () :=
  setParams (GS_Params genesisState) ;;
  match GetImportDump genesisState with
  | Some contracts => forM contracts import_contract_address
  | None =>
      match GetSeedContracts genesisState with
      | Some seed => wrapM "deliver gentx" (DeliverGenTxs (GenTxs seed))
      | None => mret ()
      end
  end.

Definition ExportGenesis (k : KState W) : outcome PoEGenesisState :=
  params ← GetParams k;
  Ok (mkPoEGenesis params (GenesisState_ImportDump (Some
        ((λ e, mkPoEContract (PoEContractTypeFrom e.1) (AccAddress_String e.2)) <$>
           kv_iterate (world k) poe_StoreKey ContractPrefix)))).
End keeper.

(** [ctx.CacheContext()] without commit: the store is as before, the keeper's memory is not. *)
Definition discard {W A} (m : M (KState W) A) : M (KState W) A := λ c,
  let '(o, c') := m c in (o, mkCtx (set_world (world (store c)) (store c')) (events c)).
