(* ===== verification/PoEKeeperProps.v ===== *)
(** Theorems about the keeper of x/poe: the address cache agrees with the store,
    a genesis export can be imported again, and the historical infos form a
    window that ends at the current block. *)
From stdpp Require Import base list strings gmap sets sorting pretty relations.
From Stdlib Require Import ZArith Lia.
From S2P Require Import Prelude Sdk RefStore Json Privilege Wasm TwasmKeeper RefWorld GoTime PoETypes TwasmMsgs PoEMsgs PoETypesProps PoEKeeper.
Open Scope Z_scope.

(** What the parameter store and the codec promise. *)
Class PoEParamLaws (W : Type) `{KVStore W, PoEParamStore W, SdkMath} := {
  (** Parameters have a store of their own. *)
  params_set k v w :
    param_HistoricalEntries (kv_set poe_StoreKey k v w) = param_HistoricalEntries w ∧
    param_InitialValEngagementPoints (kv_set poe_StoreKey k v w) = param_InitialValEngagementPoints w ∧
    param_MinDelegationAmounts (kv_set poe_StoreKey k v w) = param_MinDelegationAmounts w;
  params_delete k w :
    param_HistoricalEntries (kv_delete poe_StoreKey k w) = param_HistoricalEntries w;
  SetParamSet_ok p c :
    Coins_Validate (MinDelegationAmounts p) = Ok () → ∃ c', poe_SetParamSet p c = (Ok (), c');
  SetParamSet_spec p c c' :
    poe_SetParamSet p c = (Ok (), c') →
    param_HistoricalEntries (store c') = Ok (HistoricalEntries_p p) ∧
    param_InitialValEngagementPoints (store c') = Ok (InitialValEngagementPoints p) ∧
    param_MinDelegationAmounts (store c') = Ok (MinDelegationAmounts p) ∧
    (∀ k, kv_get (store c') poe_StoreKey k = kv_get (store c) poe_StoreKey k);
}.

Class HistoryCodecLaws `{HistoryCodec} := {
  HI_roundtrip hi : MustUnmarshalHistoricalInfo (MustMarshal_HI hi) = Ok hi;
}.

(** ** Keys *)
Lemma app_inj_l (p a b : string) : p +:+ a = p +:+ b → a = b.
Proof. induction p as [|x p IH]; cbn; [done|]. intros [= H]. by apply IH. Qed.

Lemma address_key_inj t1 t2 :
  t1 ∈ contract_types → t2 ∈ contract_types →
  poeContractAddressKey t1 = poeContractAddressKey t2 → t1 = t2.
Proof. intros H1 H2 H%app_inj_l. by apply contract_type_String_inj. Qed.

Lemma address_history_key t i : poeContractAddressKey t ≠ getHistoricalInfoKey i.
Proof.
  intros H%(f_equal (String.get 0)). unfold poeContractAddressKey, getHistoricalInfoKey in H. cbn in H.
  apply (inj Some), byte_of_inj in H; unfold is_u in *; lia.
Qed.

Lemma history_key_inj i j : getHistoricalInfoKey i = getHistoricalInfoKey j → i = j.
Proof. intros H%app_inj_l. by apply (inj pretty). Qed.

(** ** The address cache *)
Section registry.
Context `{!KVStore W, !KVLaws W}.

(** The stored address of a contract type. *)
Definition stored (w : W) (t : Z) : option AccAddress := kv_get w poe_StoreKey (poeContractAddressKey t).

(** The store has only addresses of defined types, none empty. *)
Definition registry_ok (w : W) : Prop :=
  ∀ s a, kv_get w poe_StoreKey (ContractPrefix +:+ s) = Some a →
    a ≠ "" ∧ ∃ t, t ∈ contract_types ∧ s = PoEContractType_String t.

(** What the cache knows is what the store has. *)
Definition cache_ok (k : KState W) : Prop :=
  ∀ t a, contractAddrCache k !! t = Some a → t ∈ contract_types ∧ stored (world k) t = Some a.

Definition keeper_inv (k : KState W) : Prop := registry_ok (world k) ∧ cache_ok k.

(** Steps of the keeper, of a restarted node and of other modules. *)
Inductive keeper_step (k : KState W) : KState W → Prop :=
  | step_set t a evs c' :
      t ∈ contract_types → a ≠ "" →
      SetPoEContractAddress t a (mkCtx k evs) = (Ok (), c') → keeper_step k (store c')
  | step_init_cache evs c' :
      InitContractAddressCache (mkCtx k evs) = (Ok (), c') → keeper_step k (store c')
  | step_votes votes evs c' :
      UpdateValidatorVotes votes (mkCtx k evs) = (Ok (), c') → keeper_step k (store c')
  | step_restart : keeper_step k (mkKState (world k) ∅ [])
  | step_other w' :
      (∀ s, kv_get w' poe_StoreKey (ContractPrefix +:+ s) = kv_get (world k) poe_StoreKey (ContractPrefix +:+ s)) →
      keeper_step k (set_world w' k).

Lemma stored_set t a w t' :
  t ∈ contract_types → t' ∈ contract_types →
  stored (kv_set poe_StoreKey (poeContractAddressKey t) a w) t' = if decide (t = t') then Some a else stored w t'.
Proof.
  intros Ht Ht'. unfold stored. case_decide as Heq; [subst; apply kv_get_set_eq|].
  apply kv_get_set_ne. intros Hk. by apply Heq, address_key_inj.
Qed.

Lemma set_inv k t a evs c' :
  t ∈ contract_types → a ≠ "" → SetPoEContractAddress t a (mkCtx k evs) = (Ok (), c') →
  keeper_inv k → keeper_inv (store c').
Proof.
  intros Ht Ha [= <-] [Hreg Hc]. cbn. split; cbn.
  - intros s b. rewrite kv_get_set. case_decide as Hk; [|apply Hreg].
    intros [= <-]. split; [done|]. exists t. split; [done|]. symmetry. by eapply app_inj_l, Hk.
  - intros t' b Hb. cbn in *. destruct (decide (t = t')) as [<-|Hne].
    + rewrite lookup_insert_eq in Hb. injection Hb as <-. split; [done|]. by apply kv_get_set_eq.
    + rewrite lookup_insert_ne in Hb by done. apply Hc in Hb as [Ht' Hs]. split; [done|].
      rewrite stored_set by done. by rewrite decide_False.
Qed.

(** Filling the cache from the entries of the store. *)
Lemma init_cache_entries (es : list (bytes * bytes)) (c c' : Ctx (KState W)) :
  iterM es (λ e, modify (λ k, mkKState (world k) (<[PoEContractTypeFrom e.1 := e.2]> (contractAddrCache k))
                           (validatorVotes k)) ;; mret false) c = (Ok (), c') →
  world (store c') = world (store c) ∧
  ∀ t a, contractAddrCache (store c') !! t = Some a →
    contractAddrCache (store c) !! t = Some a ∨ ∃ s, (s, a) ∈ es ∧ t = PoEContractTypeFrom s.
Proof.
  revert c. induction es as [|[s b] es IH]; intros c; cbn; [intros [= <-]; auto|].
  unfold mbind, M_bind. cbn. intros [Hw Hc]%IH. cbn in *. split; [done|].
  intros t a [Hl|(s' & Hin & ->)]%Hc; [|right; exists s'; set_solver].
  destruct (decide (PoEContractTypeFrom s = t)) as [<-|Hne].
  - rewrite lookup_insert_eq in Hl. injection Hl as <-. right. exists s. set_solver.
  - rewrite lookup_insert_ne in Hl by done. by left.
Qed.

Lemma init_cache_inv k evs c' :
  InitContractAddressCache (mkCtx k evs) = (Ok (), c') → keeper_inv k → keeper_inv (store c').
Proof.
  intros Hinit [Hreg Hc]. unfold InitContractAddressCache, IteratePoEContracts in Hinit.
  unfold mbind at 1, M_bind at 1, gets in Hinit. apply init_cache_entries in Hinit as [Hw Hcache].
  cbn in *. unfold keeper_inv, cache_ok. rewrite Hw. split; [done|].
  intros t a [Hl|(s & Hin%kv_iterate_elem & ->)]%Hcache; [by apply Hc|].
  destruct (Hreg _ _ Hin) as (_ & t & Ht & ->). rewrite contract_type_roundtrip by done. done.
Qed.

Lemma keeper_step_inv k k' : keeper_step k k' → keeper_inv k → keeper_inv k'.
Proof.
  intros Hs Hinv. destruct Hs as [t a evs c' Ht Ha Hs|evs c' Hs|votes evs c' [= <-]| |w' Hw].
  - by eapply set_inv.
  - by eapply init_cache_inv.
  - done.
  - split; [apply Hinv|]. done.
  - destruct Hinv as [Hreg Hc]. split; cbn.
    + intros s a. rewrite Hw. apply Hreg.
    + intros t a Hl. apply Hc in Hl as [Ht Hs]. split; [done|]. unfold stored, poeContractAddressKey in *.
      cbn. by rewrite Hw.
Qed.

Lemma reachable_keeper_inv k k' : rtc keeper_step k k' → keeper_inv k → keeper_inv k'.
Proof. induction 1 as [|k1 k2 k3 Hs _ IH]; [done|]. intros Hinv. by eapply IH, keeper_step_inv. Qed.

Lemma unknown_type_fails t : t ∉ contract_types → ∃ e, PoEContractType_ValidateBasic t = Err e.
Proof.
  intros Ht. destruct (PoEContractType_ValidateBasic t) as [[]|e|p] eqn:E; [|by exists e|].
  - by apply contract_type_valid in E.
  - unfold PoEContractType_ValidateBasic, check in E. by repeat case_match.
Qed.

(** With a cache that fits the store, the lookup does not depend on it. *)
Lemma lookup_stored k t :
  keeper_inv k → t ∈ contract_types → GetPoEContractAddress k t = from_option Ok (Err ErrNotFound) (stored (world k) t).
Proof.
  intros [Hreg Hc] Ht. unfold GetPoEContractAddress. rewrite (proj2 (contract_type_valid t) Ht). cbn.
  destruct (contractAddrCache k !! t) as [a|] eqn:Hl.
  - apply Hc in Hl as [_ Hs]. by rewrite Hs.
  - unfold stored. destruct (kv_get _ _ _) as [a|] eqn:Hs; cbn; [|done].
    destruct (Hreg _ _ Hs) as [Ha _]. by rewrite decide_False.
Qed.

(** C12: whatever addresses were set, caches filled and nodes restarted, the
    lookup of a contract address returns the stored address of the type, the
    error "not found" when there is none, and an error for an undefined type. *)
Theorem address_lookup k0 k t :
  keeper_inv k0 → rtc keeper_step k0 k →
  if decide (t ∈ contract_types)
  then GetPoEContractAddress k t = from_option Ok (Err ErrNotFound) (stored (world k) t)
  else ∃ e, GetPoEContractAddress k t = Err e.
Proof.
  intros Hinv Hr. pose proof (reachable_keeper_inv _ _ Hr Hinv) as Hk. case_decide as Ht; [by apply lookup_stored|].
  unfold GetPoEContractAddress. destruct (unknown_type_fails t Ht) as [e ->]. by exists (Wrap e "contract type").
Qed.

(** An address that is set in a context whose changes are discarded stays in
    the cache: the lookup returns it although the store never keeps it. *)
Lemma discarded_address t a (c : Ctx (KState W)) :
  t ∈ contract_types → stored (world (store c)) t = None →
  let c' := (discard (SetPoEContractAddress t a) c).2 in
  world (store c') = world (store c) ∧ stored (world (store c')) t = None ∧
  GetPoEContractAddress (store c') t = Ok a.
Proof.
  intros Ht Hs. cbn. split; [done|]. split; [done|]. unfold GetPoEContractAddress.
  rewrite (proj2 (contract_type_valid t) Ht). cbn. by rewrite lookup_insert_eq.
Qed.
End registry.

(** ** Iterators *)
#[export] Instance bytes_lt_irrefl : Irreflexive bytes_lt.
Proof. intros x. unfold complement, bytes_lt. by rewrite bytes_compare_refl. Qed.

(** The entries of an iterator are determined by the values of its keys. *)
Lemma kv_iterate_ext `{!KVStore W, !KVLaws W} (w w' : W) sk pre :
  (∀ s, kv_get w' sk (pre +:+ s) = kv_get w sk (pre +:+ s)) →
  kv_iterate w' sk pre = kv_iterate w sk pre.
Proof.
  intros Hget. set (R := λ x y : bytes * bytes, bytes_lt x.1 y.1).
  assert (Irreflexive R) by (intros x; apply (irreflexivity bytes_lt)).
  assert (Transitive R) by (intros x y z; apply (transitivity (R:=bytes_lt))).
  assert (∀ v, StronglySorted R (kv_iterate v sk pre)) as Hs.
  { intros v. pose proof (kv_iterate_sorted v sk pre) as Hs. revert Hs.
    generalize (kv_iterate v sk pre). intros l. induction l as [|e l IH]; [constructor|].
    cbn. intros Hl. apply StronglySorted_inv in Hl as [Hl Ha]. constructor; [by apply IH|].
    rewrite Forall_fmap in Ha. exact Ha. }
  apply (StronglySorted_strict_ext R); [done|done|]. intros [s a]. by rewrite !kv_iterate_elem, Hget.
Qed.

Lemma kv_iterate_NoDup `{!KVStore W, !KVLaws W} (w : W) sk pre : NoDup (kv_iterate w sk pre).*1.
Proof. apply (StronglySorted_strict_NoDup bytes_lt), kv_iterate_sorted. Qed.

(** ** Genesis *)
Section genesis.
Context `{!KVStore W, !KVLaws W, !PoEParamStore W, !SdkMath, !PoEParamLaws W, !HistoryCodec, !Bech32, !Bech32Laws}.
Context {Tx : Type} (TxJSONDecoder : json_bytes → outcome Tx) (Tx_ValidateBasic : Tx → outcome ())
  (TxEncoder : Tx → outcome bytes) (deliverTx : bytes → M (KState W) bool).

Definition export_entry (e : bytes * bytes) : PoEContract :=
  mkPoEContract (PoEContractTypeFrom e.1) (AccAddress_String e.2).

(** An entry of the store that an export can carry. *)
Definition entry_ok (e : bytes * bytes) : Prop :=
  (∃ t, t ∈ contract_types ∧ e.1 = PoEContractType_String t) ∧ e.2 ≠ "" ∧ (String.length e.2 ≤ 255)%nat.

Lemma import_one t a (c : Ctx (KState W)) :
  t ∈ contract_types → a ≠ "" → (String.length a ≤ 255)%nat →
  import_contract_address (export_entry (PoEContractType_String t, a)) c =
  (Ok (), mkCtx (mkKState (kv_set poe_StoreKey (poeContractAddressKey t) a (world (store c)))
    (<[t := a]> (contractAddrCache (store c))) (validatorVotes (store c))) (events c)).
Proof.
  intros Ht Ha Hl. unfold import_contract_address, export_entry. cbn [PoE_Address ContractType fst snd].
  rewrite bech32_roundtrip, contract_type_roundtrip by done. done.
Qed.

Lemma import_entries (es : list (bytes * bytes)) (c : Ctx (KState W)) :
  Forall entry_ok es → NoDup es.*1 →
  ∃ c', forM (export_entry <$> es) import_contract_address c = (Ok (), c') ∧
    (∀ s a, (s, a) ∈ es → kv_get (world (store c')) poe_StoreKey (ContractPrefix +:+ s) = Some a) ∧
    (∀ s, s ∉ es.*1 → kv_get (world (store c')) poe_StoreKey (ContractPrefix +:+ s) =
                      kv_get (world (store c)) poe_StoreKey (ContractPrefix +:+ s)) ∧
    GetParams (store c') = GetParams (store c).
Proof.
  revert c. induction es as [|[s a] es IH]; intros c Hok Hnd; [exists c; set_solver|].
  apply Forall_cons in Hok as [((t & Ht & Hts) & Ha & Hl) Hok]. cbn in Hts, Ha, Hl. subst s.
  cbn in Hnd. apply NoDup_cons in Hnd as [Hs Hnd].
  set (k' := mkKState (kv_set poe_StoreKey (poeContractAddressKey t) a (world (store c)))
    (<[t := a]> (contractAddrCache (store c))) (validatorVotes (store c))).
  destruct (IH (mkCtx k' (events c)) Hok Hnd) as (c' & Hrun & Hin & Hout & Hp). cbn [store world k'] in *.
  exists c'. split_and!.
  - cbn [fmap list_fmap forM]. unfold mbind, M_bind. rewrite import_one by done. exact Hrun.
  - intros s b [[= -> ->]|Hb]%elem_of_cons; [|by apply Hin].
    rewrite Hout by done. apply kv_get_set_eq.
  - intros s Hns. cbn in Hns. rewrite Hout by set_solver. apply kv_get_set_ne.
    intros Hk. unfold poeContractAddressKey in Hk. apply app_inj_l in Hk. set_solver.
  - rewrite Hp. unfold GetParams, HistoricalEntries, GetInitialValidatorEngagementPoints, MinimumDelegationAmounts.
    cbn. by destruct (params_set (poeContractAddressKey t) a (world (store c))) as (-> & -> & ->).
Qed.

(** The addresses have a length that their text form can carry. *)
Definition short_addresses (w : W) : Prop :=
  ∀ s a, kv_get w poe_StoreKey (ContractPrefix +:+ s) = Some a → (String.length a ≤ 255)%nat.

Lemma entries_ok w : registry_ok w → short_addresses w → Forall entry_ok (kv_iterate w poe_StoreKey ContractPrefix).
Proof.
  intros Hreg Hshort. apply Forall_forall. intros [s a] He%kv_iterate_elem.
  destruct (Hreg s a He) as [Ha Ht]. specialize (Hshort s a He). by split_and!.
Qed.

(** An export has every contract type once when every contract is set. *)
Lemma exported_types w :
  registry_ok w → (∀ t, t ∈ contract_types → is_Some (stored w t)) →
  ContractType <$> (export_entry <$> kv_iterate w poe_StoreKey ContractPrefix) ≡ₚ contract_types.
Proof.
  intros Hreg Hall. rewrite <-list_fmap_compose. set (es := kv_iterate w poe_StoreKey ContractPrefix).
  assert (∀ e, e ∈ es → ∃ t, t ∈ contract_types ∧ e.1 = PoEContractType_String t) as Hes.
  { intros [s a] He%kv_iterate_elem. by destruct (Hreg s a He). }
  apply NoDup_Permutation; [|apply contract_types_NoDup|].
  - pose proof (kv_iterate_NoDup w poe_StoreKey ContractPrefix) as Hnd. fold es in Hnd.
    clearbody es. induction es as [|e es IH]; [constructor|]. cbn in Hnd. apply NoDup_cons in Hnd as [Hn Hnd].
    cbn. constructor; [|apply IH; set_solver].
    intros (e' & Heq & He')%list_elem_of_fmap. cbn in Heq. apply Hn.
    destruct (Hes e) as (t & Ht & E); [set_solver|]. destruct (Hes e') as (t' & Ht' & E'); [set_solver|].
    rewrite E, E', !contract_type_roundtrip in Heq by done. apply list_elem_of_fmap. exists e'.
    split; [congruence|done].
  - intros t. split.
    + intros (e & -> & He)%list_elem_of_fmap. destruct (Hes e He) as (t & Ht & E). cbn.
      by rewrite E, contract_type_roundtrip.
    + intros Ht. destruct (Hall t Ht) as [a Ha]. apply list_elem_of_fmap.
      exists (PoEContractType_String t, a). split; [cbn; by rewrite contract_type_roundtrip|].
      by apply kv_iterate_elem.
Qed.
Lemma export_valid k p conv decode_tx Any_String :
  registry_ok (world k) → short_addresses (world k) → Coins_Validate (MinDelegationAmounts p) = Ok () →
  (∀ t, t ∈ contract_types → is_Some (stored (world k) t)) →
  ValidateGenesis conv decode_tx Any_String
    (mkPoEGenesis p (GenesisState_ImportDump (Some
       (export_entry <$> kv_iterate (world k) poe_StoreKey ContractPrefix)))) = Ok ().
Proof.
  intros Hreg Hshort Hval Hall. unfold ValidateGenesis, Params_Validate. cbn. rewrite Hval. cbn.
  rewrite wrap_ok, ImportDump_spec. split; [|by apply exported_types].
  rewrite Forall_fmap. eapply Forall_impl; [by apply entries_ok|].
  intros e (_ & Ha & Hl). cbn. by rewrite bech32_roundtrip.
Qed.

(** C11: the export of a chain is a state that the import restores on a new
    chain: the import succeeds, every contract type has the same address again,
    and exporting once more gives the same genesis state. *)
Theorem genesis_roundtrip k g (c0 : Ctx (KState W)) :
  registry_ok (world k) → short_addresses (world k) → ExportGenesis k = Ok g →
  Coins_Validate (MinDelegationAmounts (GS_Params g)) = Ok () →
  (∀ s, kv_get (world (store c0)) poe_StoreKey (ContractPrefix +:+ s) = None) →
  ∃ c', InitGenesis TxJSONDecoder Tx_ValidateBasic TxEncoder deliverTx g c0 = (Ok (), c') ∧
    (∀ t, stored (world (store c')) t = stored (world k) t) ∧
    ExportGenesis (store c') = Ok g ∧
    ((∀ t, t ∈ contract_types → is_Some (stored (world k) t)) →
     ∀ conv decode_tx Any_String, ValidateGenesis conv decode_tx Any_String g = Ok ()).
Proof.
  intros Hreg Hshort Hexp Hval Hfresh. unfold ExportGenesis in Hexp.
  apply outcome_bind_ok in Hexp as (p & Hp & [= <-]). cbn in Hval.
  set (es := kv_iterate (world k) poe_StoreKey ContractPrefix).
  destruct (SetParamSet_ok p (mkCtx (world (store c0)) (events c0)) Hval) as [c1 Hset].
  pose proof (SetParamSet_spec _ _ _ Hset) as (Hp1 & Hp2 & Hp3 & Hframe). cbn in Hframe.
  set (c2 := mkCtx (set_world (store c1) (store c0)) (events c1)).
  destruct (import_entries es c2) as (c' & Hrun & Hin & Hout & Hpar);
    [by apply entries_ok|apply kv_iterate_NoDup|].
  assert (∀ s, kv_get (world (store c')) poe_StoreKey (ContractPrefix +:+ s) =
               kv_get (world k) poe_StoreKey (ContractPrefix +:+ s)) as Heq.
  { intros s. destruct (kv_get (world k) poe_StoreKey (ContractPrefix +:+ s)) as [a|] eqn:Hg.
    - by apply Hin, kv_iterate_elem.
    - rewrite Hout; [cbn; by rewrite Hframe|]. intros ([s' a] & -> & Ha%kv_iterate_elem)%list_elem_of_fmap.
      cbn in Hg. congruence. }
  exists c'. split_and!.
  - unfold InitGenesis, setParams, on_world. cbn. unfold mbind, M_bind. by rewrite Hset.
  - intros t. apply Heq.
  - unfold ExportGenesis. rewrite Hpar. unfold GetParams at 1, HistoricalEntries,
      GetInitialValidatorEngagementPoints, MinimumDelegationAmounts. cbn. rewrite Hp1, Hp2, Hp3. cbn.
    rewrite (kv_iterate_ext (world k)) by done. by destruct p.
  - intros Hall conv decode_tx Any_String. by apply export_valid.
Qed.

End genesis.

(** ** Historical info *)
Section history.
Context `{!KVStore W, !KVLaws W, !PoEParamStore W, !SdkMath, !PoEParamLaws W, !HistoryCodec, !HistoryCodecLaws}.

Definition info_at (w : W) (i : Z) : option bytes := kv_get w poe_StoreKey (getHistoricalInfoKey i).
(** Every stored info can be read. *)
Definition readable (w : W) : Prop :=
  ∀ i v, info_at w i = Some v → is_ok (MustUnmarshalHistoricalInfo v) = true.
(** The heights with an info are those from [lo] up to [hi], which is excluded. *)
Definition window (w : W) (lo hi : Z) : Prop := ∀ i, 0 ≤ i → is_Some (info_at w i) ↔ lo ≤ i < hi.

Lemma info_at_delete w i j : info_at (kv_delete poe_StoreKey (getHistoricalInfoKey i) w) j =
  if decide (i = j) then None else info_at w j.
Proof.
  unfold info_at. case_decide as Hij; [subst; apply kv_get_delete_eq|].
  apply kv_get_delete_ne. by intros ?%history_key_inj.
Qed.

Lemma info_at_set w i v j : info_at (kv_set poe_StoreKey (getHistoricalInfoKey i) v w) j =
  if decide (i = j) then Some v else info_at w j.
Proof.
  unfold info_at. case_decide as Hij; [subst; apply kv_get_set_eq|].
  apply kv_get_set_ne. by intros ?%history_key_inj.
Qed.

(** The loop removes the stored heights from [i] down to the first gap, and ends. *)
Lemma prune_spec fuel i lo (c : Ctx (KState W)) :
  readable (world (store c)) → 0 ≤ lo ≤ i + 1 ∨ i < 0 → (Z.to_nat (i + 1) ≤ fuel)%nat →
  (∀ j, lo ≤ j ≤ i → 0 ≤ j → is_Some (info_at (world (store c)) j)) →
  (0 < lo → info_at (world (store c)) (lo - 1) = None) →
  ∃ c', prune fuel i c = (Ok (), c') ∧ HistoricalEntries (store c') = HistoricalEntries (store c) ∧
    readable (world (store c')) ∧ 
    ∀ j, 0 ≤ j → info_at (world (store c')) j = if decide (lo ≤ j ≤ i) then None else info_at (world (store c)) j.
Proof.
  revert i c. induction fuel as [|fuel IH]; intros i c Hread Hlo Hfuel Hin Hgap; cbn.
  { exists c. split_and!; try done. intros j Hj. rewrite decide_False; [done|lia]. }
  destruct (Z.ltb_spec i 0) as [Hneg|Hpos].
  { exists c. split_and!; try done. intros j Hj. rewrite decide_False; [done|lia]. }
  unfold mbind, M_bind, GetHistoricalInfo. cbn. fold (info_at (world (store c)) i).
  destruct (decide (lo ≤ i)) as [Hi|Hi].
  - destruct (Hin i) as [v Hv]; [lia|lia|]. rewrite Hv.
    pose proof (Hread i v Hv) as Hok. destruct (MustUnmarshalHistoricalInfo v) as [hi|e|p] eqn:Hd; [|done|done].
    cbn. set (c1 := mkCtx (set_world (kv_delete poe_StoreKey (getHistoricalInfoKey i) (world (store c))) (store c))
                 (events c)).
    destruct (IH (i - 1) c1) as (c' & Hrun & Hent & Hread' & Hinfo); cbn [c1 store world set_world].
    + intros j x. rewrite info_at_delete. case_decide; [done|]. apply Hread.
    + lia.
    + lia.
    + intros j Hj Hj0. rewrite info_at_delete, decide_False by lia. by apply Hin; lia.
    + intros Hl. rewrite info_at_delete. case_decide; [done|]. by apply Hgap.
    + exists c'. split_and!; [exact Hrun| |done|].
      * rewrite Hent. unfold HistoricalEntries. cbn. apply params_delete.
      * intros j Hj. rewrite Hinfo by done. cbn. rewrite info_at_delete. repeat case_decide; try done; lia.
  - assert (i = lo - 1) as -> by lia. rewrite Hgap by lia. cbn.
    exists c. split_and!; try done. intros j Hj. rewrite decide_False; [done|lia].
Qed.

(** A block with a positive number of entries moves the window. *)
Lemma track_window h n header lo (c : Ctx (KState W)) :
  HistoricalEntries (store c) = Ok n → 0 < n → 0 ≤ lo ≤ h →
  readable (world (store c)) → window (world (store c)) lo h →
  ∃ c', TrackHistoricalInfo h header c = (Ok (), c') ∧ readable (world (store c')) ∧
    window (world (store c')) (Z.max lo (h - n + 1)) (h + 1) ∧
    GetHistoricalInfo (store c') h = Ok (Some (NewHistoricalInfo header [])) ∧
    HistoricalEntries (store c') = Ok n.
Proof.
  intros Hn Hpos Hlo Hread Hw. unfold window in *.
  destruct (prune_spec (Z.to_nat (h - n + 1)) (h - n) (Z.min lo (Z.max 0 (h - n + 1))) c)
    as (c1 & Hrun & Hent & Hread1 & Hinfo).
  - done.
  - lia.
  - lia.
  - intros j Hj Hj0. apply Hw; lia.
  - intros Hl. apply eq_None_not_Some. rewrite Hw by lia. lia.
  - unfold TrackHistoricalInfo, mbind, M_bind. rewrite Hn. rewrite Hrun.
    destruct (Z.eqb_spec n 0); [lia|]. eexists. split; [done|]. cbn. split_and!.
    + intros i v. rewrite info_at_set. case_decide; [intros [= <-]; by rewrite HI_roundtrip|]. apply Hread1.
    + intros i Hi. rewrite info_at_set. case_decide as Hih; [subst; split; [lia|done]|].
      rewrite Hinfo by done. case_decide; [|rewrite Hw by done; lia].
      split; [by intros [??]|lia].
    + unfold GetHistoricalInfo. cbn. fold (info_at (kv_set poe_StoreKey (getHistoricalInfoKey h)
        (MustMarshal_HI (NewHistoricalInfo header [])) (world (store c1))) h).
      rewrite info_at_set, decide_True by done. by rewrite HI_roundtrip.
    + unfold HistoricalEntries in *. cbn.
      destruct (params_set (getHistoricalInfoKey h) (MustMarshal_HI (NewHistoricalInfo header [])) (world (store c1)))
        as (-> & _ & _). by rewrite Hent.
Qed.

(** Blocks from height [h0] on, with changes of other modules and of the
    parameter in between; the number of entries stays positive. *)
Inductive chain_run (h0 : Z) (k0 : KState W) : Z → KState W → Prop :=
  | run_start : chain_run h0 k0 h0 k0
  | run_block h k header evs c' :
      chain_run h0 k0 h k → TrackHistoricalInfo h header (mkCtx k evs) = (Ok (), c') →
      chain_run h0 k0 (h + 1) (store c')
  | run_other h k w' n :
      chain_run h0 k0 h k → (∀ i, info_at w' i = info_at (world k) i) →
      param_HistoricalEntries w' = Ok n → 0 < n → chain_run h0 k0 h (set_world w' k).

Lemma chain_run_window h0 k0 lo0 n0 h k :
  0 ≤ lo0 ≤ h0 → readable (world k0) → window (world k0) lo0 h0 → HistoricalEntries k0 = Ok n0 → 0 < n0 →
  chain_run h0 k0 h k →
  readable (world k) ∧ ∃ lo n, 0 ≤ lo ≤ h ∧ window (world k) lo h ∧ HistoricalEntries k = Ok n ∧ 0 < n.
Proof.
  intros Hlo0 Hr0 Hw0 Hn0 Hp0. induction 1 as [|h k header evs c' Hrun IH Ht|h k w' n Hrun IH Hinfo Hn Hp].
  - split; [done|]. exists lo0, n0. done.
  - destruct IH as (Hr & lo & n & Hlo & Hw & Hn & Hp).
    destruct (track_window h n header lo (mkCtx k evs)) as (c1 & Ht' & Hr' & Hw' & _ & Hn'); [done..|].
    assert (c1 = c') as -> by congruence. split; [done|]. exists (Z.max lo (h - n + 1)), n. split_and!; try done; lia.
  - destruct IH as (Hr & lo & n' & Hlo & Hw & _). split.
    + intros i v. rewrite Hinfo. apply Hr.
    + exists lo, n. split_and!; try done; try lia. intros i Hi. cbn. rewrite Hinfo. by apply Hw.
Qed.

(** C10: along any run of blocks with a positive number of entries, however often
    that number changes, the next block ends with infos for the last heights
    only: an interval that ends with this block, is not longer than the number of
    entries, and has the header of this block at its end. *)
Theorem history_window h0 k0 lo0 n0 h k n header evs :
  0 ≤ lo0 ≤ h0 → readable (world k0) → window (world k0) lo0 h0 → HistoricalEntries k0 = Ok n0 → 0 < n0 →
  chain_run h0 k0 h k → HistoricalEntries k = Ok n →
  ∃ c' lo, TrackHistoricalInfo h header (mkCtx k evs) = (Ok (), c') ∧ h - n < lo ≤ h ∧
    window (world (store c')) lo (h + 1) ∧
    GetHistoricalInfo (store c') h = Ok (Some (NewHistoricalInfo header [])).
Proof.
  intros Hlo0 Hr0 Hw0 Hn0 Hp0 Hrun Hn.
  destruct (chain_run_window _ _ _ _ _ _ Hlo0 Hr0 Hw0 Hn0 Hp0 Hrun) as (Hr & lo & n' & Hlo & Hw & Hn' & Hp).
  assert (n' = n) as -> by congruence.
  destruct (track_window h n header lo (mkCtx k evs)) as (c' & Ht & _ & Hw' & Hget & _); [done..|].
  exists c', (Z.max lo (h - n + 1)). split_and!; try done; lia.
Qed.

(** When no info is stored at the height where pruning starts, nothing is
    removed, however many older infos there are. With zero entries pruning starts
    at the current height, which has no info yet, so that the infos of earlier
    blocks stay, and stay for good when the number is raised later. *)
Lemma history_gap h n header (c : Ctx (KState W)) :
  HistoricalEntries (store c) = Ok n → 0 ≤ n ≤ h → info_at (world (store c)) (h - n) = None →
  ∃ c', TrackHistoricalInfo h header c = (Ok (), c') ∧
    (∀ i, i ≠ h → info_at (world (store c')) i = info_at (world (store c)) i) ∧
    (n = 0 → store c' = store c).
Proof.
  intros Hn Hr Hgap. unfold TrackHistoricalInfo, mbind, M_bind. rewrite Hn.
  assert (prune (Z.to_nat (h - n + 1)) (h - n) c = (Ok (), c)) as ->.
  { destruct (Z.to_nat (h - n + 1)); [done|]. cbn. destruct (Z.ltb_spec (h - n) 0); [done|].
    unfold mbind, M_bind, GetHistoricalInfo. fold (info_at (world (store c)) (h - n)). by rewrite Hgap. }
  destruct (Z.eqb_spec n 0) as [Hz|Hz]; eexists; (split; [done|]); [done|].
  split; [|done]. intros i Hi. cbn. by rewrite info_at_set, decide_False.
Qed.
End history.
