(* ===== verification/PoEContractIO.v ===== *)
(** Calls into the PoE contracts (x/poe/contract: callback_msgs.go, contractio.go,
    pt4.go, pt4_stake.go and the messages of petri_valset.go).

    Contracts are reached through wasmd: [Execute] and [QuerySmart] are
    parameters. Messages are JSON values, responses JSON texts. *)
From stdpp Require Import base list strings gmap sets pretty.
From Stdlib Require Import ZArith Lia Ascii.
From S2P Require Import Prelude Sdk Slice Json Privilege Wasm TwasmKeeper GoTime PoETypes TwasmMsgs PoEMsgs.
Open Scope Z_scope.

Definition poe_ErrValidatorPubKeyTypeNotSupported : error := new_err "poe/validator pubkey type is not supported".
Definition status_InvalidArgument : error := new_err "grpc/InvalidArgument".
(** Errors of strconv. *)

Class ContractCalls (W : Type) := {
  (** [Execute(ctx, contractAddress, caller, msg, coins)] *)
  Execute : AccAddress → AccAddress → json → list Coin → M W json_bytes;
  (** [QuerySmart(ctx, contractAddr, req)] *)
  QuerySmart : W → AccAddress → json → outcome json_bytes;
}.

(** More of the SDK's numbers and their JSON form. *)
Class SdkText := {
  WCoin_IsNegative : WireCoin → outcome bool;
  Int_IsInt64 : Int → outcome bool;
  Int_Uint64 : Int → outcome Z;
  Int_String : Int → string;
  WCoin_String : WireCoin → string;
  dec_Int : decoder Int;
  (** [wasmvmtypes.NewCoin] *)
  NewWasmCoin : Z → string → WasmCoin;
}.

(** ** Keys *)

(** A []byte is nil, which is not the same as empty. *)
Record ValidatorPubkey := mkPubkey {
  Ed25519 : option bytes; Secp256k1 : option bytes; Sr25519 : option bytes }.
#[export] Instance ValidatorPubkey_eq_dec : EqDecision ValidatorPubkey.
Proof. solve_decision. Defined.

(** [cryptotypes.PubKey]: its type and its bytes. *)
Record PubKey := mkPubKey { PK_Type : string; PK_Bytes : bytes }.
Inductive TmPubKey := TmEd25519 (b : bytes) | TmSecp256K1 (b : bytes).
#[export] Instance TmPubKey_eq_dec : EqDecision TmPubKey.
Proof. solve_decision. Defined.

Definition NewValidatorPubkey (pk : PubKey) : outcome ValidatorPubkey :=
  if decide (PK_Type pk = "ed25519") then Ok (mkPubkey (Some (PK_Bytes pk)) None None)
  else if decide (PK_Type pk = "secp256k1") then Ok (mkPubkey None (Some (PK_Bytes pk)) None)
  else Err (Wrap poe_ErrValidatorPubKeyTypeNotSupported (PK_Type pk)).

Definition ConvertToTendermintPubKey (key : ValidatorPubkey) : outcome TmPubKey :=
  match Ed25519 key, Secp256k1 key with
  | Some b, _ => Ok (TmEd25519 b)
  | None, Some b => Ok (TmSecp256K1 b)
  | None, None => Err poe_ErrValidatorPubKeyTypeNotSupported
  end.

(** A []byte field tagged omitempty: nil and empty are left out. *)
Definition enc_key_bytes (b : option bytes) : option json :=
  match b with None | Some "" => None | Some s => Some (JStr (b64_encode s)) end.
Definition enc_ValidatorPubkey (k : ValidatorPubkey) : json :=
  enc_omitempty [("ed25519", enc_key_bytes (Ed25519 k)); ("secp256k1", enc_key_bytes (Secp256k1 k));
                 ("sr25519", enc_key_bytes (Sr25519 k))].

Definition dec_key_bytes : decoder (option bytes) := λ j b,
  match j with
  | JStr s => match b64_decode s with Some b' => Ok (Some b') | None => Err ErrJSON end
  | JNull => Ok None
  | _ => Err ErrJSON
  end.
Definition dec_ValidatorPubkey : decoder ValidatorPubkey := dec_struct
  [ field "ed25519" Ed25519 (λ x k, mkPubkey x (Secp256k1 k) (Sr25519 k)) dec_key_bytes;
    field "secp256k1" Secp256k1 (λ x k, mkPubkey (Ed25519 k) x (Sr25519 k)) dec_key_bytes;
    field "sr25519" Sr25519 (λ x k, mkPubkey (Ed25519 k) (Secp256k1 k) x) dec_key_bytes ].

(** ** Messages to the contracts *)
Definition nonempty (s : string) : option json := if decide (s = "") then None else Some (JStr s).

Record ValidatorMetadata := mkMetadata {
  VM_Moniker : string; VM_Identity : string; VM_Website : string; VM_SecurityContact : string; VM_Details : string }.
Definition MetadataFromDescription (d : StakingDescription) : ValidatorMetadata :=
  mkMetadata (Moniker d) (Identity d) (Website d) (SecurityContact d) (Details d).
Definition ToDescription (m : ValidatorMetadata) : StakingDescription :=
  mkDescription (VM_Moniker m) (VM_Identity m) (VM_Website m) (VM_SecurityContact m) (VM_Details m).

Definition enc_ValidatorMetadata (m : ValidatorMetadata) : json :=
  enc_omitempty [("moniker", Some (JStr (VM_Moniker m))); ("identity", nonempty (VM_Identity m));
    ("website", nonempty (VM_Website m)); ("security_contact", nonempty (VM_SecurityContact m));
    ("details", nonempty (VM_Details m))].

(** [TG4ValsetExecute], [TG4StakeExecute] and [TG4EngagementSudoMsg]: structs of
    optional messages of which the callers set one. *)
Inductive TG4ValsetExecute :=
  | RegisterValidatorKey (PubKey : ValidatorPubkey) (Metadata : ValidatorMetadata)
  | UpdateMetadata (m : ValidatorMetadata)
  | Jail (Operator : string) (Duration : Z) (Forever : bool)
  | Unjail (Operator : string)
  | ValsetUpdateAdmin (NewAdmin : option string)
  | UpdateConfig (MinPoints MaxValidators : Z).
(** A number tagged omitempty. *)
Definition nonzero (z : Z) : option json := if z =? 0 then None else Some (JNum z).
Definition enc_TG4ValsetExecute (m : TG4ValsetExecute) : json :=
  match m with
  | RegisterValidatorKey pk md =>
      JObj [("register_validator_key", JObj [("pubkey", enc_ValidatorPubkey pk); ("metadata", enc_ValidatorMetadata md)])]
  | UpdateMetadata md => JObj [("update_metadata", enc_ValidatorMetadata md)]
  | Jail op d forever =>
      JObj [("jail", JObj [("operator", JStr op);
        ("duration", enc_omitempty [("duration", nonzero d); ("forever", if forever then Some (JObj []) else None)])])]
  | Unjail op => JObj [("unjail", enc_omitempty [("operator", nonempty op)])]
  | ValsetUpdateAdmin a => JObj [("update_admin", enc_omitempty [("admin", JStr <$> a)])]
  | UpdateConfig p v => JObj [("update_config", enc_omitempty [("min_points", nonzero p); ("max_validators", nonzero v)])]
  end.

Definition enc_WasmCoin (c : WasmCoin) : json :=
  JObj [("denom", JStr (WC_Denom c)); ("amount", JStr (WC_Amount c))].
Inductive TG4StakeExecute := Bond (VestingTokens : option WasmCoin) | Unbond (Tokens : WasmCoin) | Claim.
Definition enc_TG4StakeExecute (m : TG4StakeExecute) : json :=
  match m with
  | Bond v => JObj [("bond", enc_omitempty [("vesting_tokens", enc_WasmCoin <$> v)])]
  | Unbond t => JObj [("unbond", JObj [("tokens", enc_WasmCoin t)])]
  | Claim => JObj [("claim", JObj [])]
  end.

(** [contract.TG4Member] *)
Record ContractMember := mkContractMember { CM_Addr : string; CM_Points : Z; CM_StartHeight : Z }.
Definition enc_ContractMember (m : ContractMember) : json :=
  enc_omitempty [("addr", Some (JStr (CM_Addr m))); ("points", Some (JNum (CM_Points m)));
    ("start_height", nonzero (CM_StartHeight m))].
Definition enc_UpdateMember (m : ContractMember) : json := JObj [("update_member", enc_ContractMember m)].

Definition enc_MemberQuery (addr : string) : json := JObj [("member", JObj [("addr", JStr addr)])].
Definition enc_ValidatorUpdateSudoMsg : json := JObj [("end_with_validator_update", JObj [])].

(** ** Responses *)

(** [abci.ValidatorUpdate] and the contract's form of it. *)
Record AbciValidatorUpdate := mkVU { VU_PubKey : TmPubKey; VU_Power : Z }.
#[export] Instance AbciValidatorUpdate_eq_dec : EqDecision AbciValidatorUpdate.
Proof. solve_decision. Defined.
Record ValidatorUpdate := mkDiff { Diff_PubKey : ValidatorPubkey; Diff_Power : Z }.
Definition zero_key : ValidatorPubkey := mkPubkey None None None.

Definition dec_ValidatorUpdate : decoder ValidatorUpdate := dec_struct
  [ field "pubkey" Diff_PubKey (λ x d, mkDiff x (Diff_Power d)) dec_ValidatorPubkey;
    field "power" Diff_Power (λ x d, mkDiff (Diff_PubKey d) x) dec_uint64 ].
Definition dec_EndWithValidatorUpdateResponse : decoder (list ValidatorUpdate) := dec_struct
  [ field "diffs" id (λ x _, x) (dec_list (mkDiff zero_key 0) dec_ValidatorUpdate) ].

Record TG4MemberResponse := mkMemberResponse { MR_Points : option Z; MR_StartHeight : Z }.
Definition dec_TG4MemberResponse : decoder TG4MemberResponse := dec_struct
  [ field "points" MR_Points (λ x r, mkMemberResponse x (MR_StartHeight r)) (dec_ptr 0 dec_int64);
    field "start_height" MR_StartHeight (λ x r, mkMemberResponse (MR_Points r) x) dec_uint64 ].

Definition dec_UnbondingPeriodResponse : decoder Z := dec_struct
  [ field "unbonding_period" id (λ x _, x) dec_uint64 ].

Fixpoint convert_diffs (ds : list ValidatorUpdate) : outcome (list AbciValidatorUpdate) :=
  match ds with
  | [] => Ok []
  | v :: ds' =>
      pub ← ConvertToTendermintPubKey (Diff_PubKey v);
      r ← convert_diffs ds';
      Ok (mkVU pub (int64 (Diff_Power v)) :: r)
  end.

(** ** Pagination *)
Record Paginator := mkPaginator { StartAfter : bytes; Limit : Z }.
(** [query.PageRequest] *)
Record PageRequest := mkPageRequest { PR_Key : bytes; PR_Offset : Z; PR_Limit : Z; CountTotal : bool }.

(** [int(p.Limit)] of a uint64 *)
Definition ToQuery (p : option Paginator) : string * Z :=
  match p with None => ("", 0) | Some p => (StartAfter p, int64 (Limit p)) end.

Definition NewPaginator (pag : option PageRequest) : outcome (option Paginator) :=
  match pag with
  | None => Ok None
  | Some pag =>
      if negb (PR_Offset pag =? 0) then Err (Wrap status_InvalidArgument "pagination offset not supported")
      else if CountTotal pag then Err (Wrap status_InvalidArgument "pagination count total not supported")
      else Ok (Some (mkPaginator (PR_Key pag) (PR_Limit pag)))
  end.

(** ** Calls *)
Section calls.
Context `{!ContractCalls W, !WasmVM W, !Bech32, !SdkMath, !SdkText, !SdkCoins}.

(** [doQuery]: the query's JSON, the decoder and the zero value of the result. *)
Definition doQuery {A} (w : W) (contractAddr : AccAddress) (query : json) (d : decoder A) (zero : A) : outcome A :=
  res ← QuerySmart w contractAddr query;
  Unmarshal d res zero.

Definition RegisterValidator (contractAddr : AccAddress) (pk : PubKey) (operatorAddress : AccAddress)
    (description : StakingDescription) : M W () :=
  pub ← lift (NewValidatorPubkey pk);
  wrapM "execute contract"
    (_ ← Execute contractAddr operatorAddress
           (enc_TG4ValsetExecute (RegisterValidatorKey pub (MetadataFromDescription description))) [];
     mret ()).

Definition UpdateValidator (contractAddr operatorAddress : AccAddress) (description : StakingDescription) : M W () :=
  wrapM "execute contract"
    (_ ← Execute contractAddr operatorAddress
           (enc_TG4ValsetExecute (UpdateMetadata (MetadataFromDescription description))) [];
     mret ()).

(** A response of length zero is nil or the empty text. *)
Definition CallEndBlockWithValidatorUpdate (contractAddr : AccAddress) : M W (list AbciValidatorUpdate) :=
  resp ← wrapM "sudo" (Sudo contractAddr enc_ValidatorUpdateSudoMsg);
  match resp with
  | JNil | JInvalid "" => mret []
  | _ =>
      diffs ← lift (wrap "contract response" (Unmarshal dec_EndWithValidatorUpdateResponse resp []));
      lift (convert_diffs diffs)
  end.

Definition WasmModuleEventType : string := "wasm".

(** The event has the address of the contract as an attribute. *)
Definition trusted (contractAddr : AccAddress) (e : Event) : bool :=
  existsb (λ a, bool_decide (a.1 = AttributeKeyContractAddr) && bool_decide (a.2 = AccAddress_String contractAddr))
    (ev_attrs e).

(** The first completion time of a trusted event. *)
Fixpoint completion_time (contractAddr : AccAddress) (es : list Event) : outcome Z :=
  match es with
  | [] => Err (Wrap poe_ErrInvalid "completion_time event attribute")
  | e :: es' =>
      if negb (bool_decide (ev_type e = WasmModuleEventType)) || negb (trusted contractAddr e)
      then completion_time contractAddr es'
      else match list_find (λ a : string * string, a.1 = "completion_time") (ev_attrs e) with
           | None => completion_time contractAddr es'
           | Some (_, a) => wrap "completion time value" (ParseInt a.2)
           end
  end.

(** [a || b] of conditions that may panic *)
Definition orM (a b : outcome bool) : outcome bool := x ← a; if (x : bool) then Ok true else b.

(** The events of the call go to the outer event manager in any case; the
    result is the completion time in nanoseconds. *)
Definition UnbondDelegation (contractAddr operatorAddress : AccAddress) (amount : WireCoin) : M W Z := λ c,
  match nil_or (WCoin_Amount amount) (orM (WCoin_IsZero amount) (orM (WCoin_IsNegative amount)
          (b ← Int_IsInt64 (WCoin_Amount amount); Ok (negb b)))) with
  | Ok true => (Err (Wrap poe_ErrInvalid "amount"), c)
  | Ok false =>
      match Int_Uint64 (WCoin_Amount amount) with
      | Ok n =>
          let msg := enc_TG4StakeExecute (Unbond (NewWasmCoin n (WCoin_Denom amount))) in
          let '(o, em, c') := with_fresh_events (Execute contractAddr operatorAddress msg []) c in
          (match o with
           | Ok _ => completion_time contractAddr em
           | Err e => Err (Wrap e "execute staking contract")
           | Panic p => Panic p
           end, mkCtx (store c') (events c' ++ em))
      | Err e => (Err e, c)
      | Panic p => (Panic p, c)
      end
  | Err e => (Err e, c)
  | Panic p => (Panic p, c)
  end.

Definition BondDelegation (contractAddr operatorAddress : AccAddress) (amount : list Coin)
    (vestingAmount : option WireCoin) : M W () :=
  let vestingTokens := (λ v, mkWasmCoin (WCoin_Denom v) (Int_String (WCoin_Amount v))) <$> vestingAmount in
  wrapM "execute contract"
    (_ ← Execute contractAddr operatorAddress (enc_TG4StakeExecute (Bond vestingTokens)) amount; mret ()).

Definition SetEngagementPoints (contractAddr opAddr : AccAddress) (points : Z) : M W () :=
  wrapM "sudo"
    (_ ← Sudo contractAddr (enc_UpdateMember (mkContractMember (AccAddress_String opAddr) points 0)); mret ()).

Definition QueryTG4Member (w : W) (pt4Addr member : AccAddress) : outcome (option Z) :=
  response ← doQuery w pt4Addr (enc_MemberQuery (AccAddress_String member)) dec_TG4MemberResponse
               (mkMemberResponse None 0);
  Ok (MR_Points response).

(** *** The staking contract *)
(** The address of a contract, or the error of looking it up. *)
Abbreviation Adapter := (outcome AccAddress) (only parsing).

Definition QueryStakingUnbondingPeriod (w : W) (a : Adapter) : outcome Z :=
  addr ← a;
  period ← wrap "contract query"
    (doQuery w addr (JObj [("unbonding_period", JObj [])]) dec_UnbondingPeriodResponse 0);
  Ok (int64 (int64 period * Second)).

(** *** [BaseContractAdapter] *)
Definition doExecute (a : Adapter) (msg : json) (sender : AccAddress) (coin : list Coin) : M W () :=
  addr ← lift a;
  wrapM "execute" (_ ← Execute addr sender msg coin; mret ()).

Definition adapter_doQuery {A} (w : W) (a : Adapter) (query : json) (d : decoder A) (zero : A) : outcome A :=
  addr ← a; doQuery w addr query d zero.

(** [result] decodes into the value it holds already; [cursor] is its [PaginationCursor]. *)
Definition doPageableQuery {A} (w : W) (a : Adapter) (query : json) (d : decoder A) (result : A)
    (cursor : A → bytes) : outcome (A * bytes) :=
  addr ← a;
  res ← QuerySmart w addr query;
  r ← wrap "unmarshal result" (Unmarshal d res result);
  Ok (r, cursor r).
End calls.
