(* ===== verification/PoEValset.v ===== *)
(** The valset contract (x/poe/contract/petri_valset.go): its responses, the
    queries of [ValsetContractAdapter], and the active validator set a chain
    starts with after the import of a state dump (x/poe/module.go).

    [IterateActiveValidators] decodes every page into the same response value.
    encoding/json reuses the backing array of a slice it decodes into and does
    not clear the elements, so [Buffer] is a slice with its array. *)
From stdpp Require Import base list strings gmap sets sorting pretty.
From Stdlib Require Import ZArith Lia Ascii.
From S2P Require Import Prelude Sdk RefStore Slice Json Privilege Wasm GoTime PoETypes TwasmMsgs PoEMsgs PoEContractIO.
Open Scope Z_scope.

(** ** Decoding into a slice that is in use *)

(** The cells of the backing array that were written, and the length of the slice. *)
Record Buffer (A : Type) := mkBuffer { cells : list A; len : nat }.
Arguments mkBuffer {A} cells len.
Arguments cells {A} b.
Arguments len {A} b.
Definition contents {A} (b : Buffer A) : list A := take (len b) (cells b).
Definition empty_buffer {A} : Buffer A := mkBuffer [] 0.

(** Element [i] is decoded into the cell [i] of the array, or into a new cell. *)
Fixpoint dec_cells {A} (zero : A) (d : decoder A) (js : list json) (cs : list A) : outcome (list A) :=
  match js with
  | [] => Ok []
  | j :: js' => a ← d j (hd zero cs); r ← dec_cells zero d js' (tl cs); Ok (a :: r)
  end.

Definition dec_buffer {A} (zero : A) (d : decoder A) : decoder (Buffer A) := λ j b,
  match j with
  | JArr [] => Ok empty_buffer
  | JArr js => r ← dec_cells zero d js (cells b); Ok (mkBuffer (r ++ drop (length r) (cells b)) (length r))
  | JNull => Ok empty_buffer
  | _ => Err ErrJSON
  end.

(** ** Responses *)
Record ValidatorInfo := mkValidatorInfo { VI_Operator : string; VI_Pubkey : ValidatorPubkey; VI_Power : Z }.
#[export] Instance ValidatorInfo_eq_dec : EqDecision ValidatorInfo.
Proof. solve_decision. Defined.
Definition zero_info : ValidatorInfo := mkValidatorInfo "" zero_key 0.

Definition dec_ValidatorInfo : decoder ValidatorInfo := dec_struct
  [ field "operator" VI_Operator (λ x i, mkValidatorInfo x (VI_Pubkey i) (VI_Power i)) dec_string;
    field "validator_pubkey" VI_Pubkey (λ x i, mkValidatorInfo (VI_Operator i) x (VI_Power i)) dec_ValidatorPubkey;
    field "power" VI_Power (λ x i, mkValidatorInfo (VI_Operator i) (VI_Pubkey i) x) dec_uint64 ].

Abbreviation ListActiveValidatorsResponse := (Buffer ValidatorInfo) (only parsing).
Definition dec_ListActiveValidatorsResponse : decoder ListActiveValidatorsResponse := dec_struct
  [ field "validators" id (λ x _, x) (dec_buffer zero_info dec_ValidatorInfo) ].

(** [PaginationCursor]: the operator of the last element. *)
Definition active_cursor (r : ListActiveValidatorsResponse) : bytes :=
  from_option VI_Operator "" (last (contents r)).

(** Times are nanoseconds since the epoch; [None] is the zero time. *)
Record JailingPeriod := mkJailing { JP_Start : option Z; JP_Forever : bool; JP_Until : option Z }.

Record RawJailing := mkRawJailing { RJ_Start : string; RJ_Until : string; RJ_Forever : option () }.
Definition dec_RawJailing : decoder RawJailing := dec_struct
  [ field "start" RJ_Start (λ x r, mkRawJailing x (RJ_Until r) (RJ_Forever r)) dec_string;
    field "end" id (λ x _, x) (dec_struct
      [ field "until" RJ_Until (λ x r, mkRawJailing (RJ_Start r) x (RJ_Forever r)) dec_string;
        field "forever" RJ_Forever (λ x r, mkRawJailing (RJ_Start r) (RJ_Until r) x) (dec_ptr () (dec_struct [])) ]) ].

Definition JailingPeriod_UnmarshalJSON : decoder JailingPeriod := λ data j,
  r ← dec_RawJailing data (mkRawJailing "" "" None);
  start ← (if decide (RJ_Start r = "") then Ok (JP_Start j) else s ← ParseInt (RJ_Start r); Ok (Some s));
  match RJ_Forever r with
  | Some _ => Ok (mkJailing start true (JP_Until j))
  | None =>
      if decide (RJ_Until r = "") then Err (new_err "unknown json data: ")
      else until ← ParseInt (RJ_Until r); Ok (mkJailing start (JP_Forever j) (Some until))
  end.

Record OperatorResponse := mkOperator {
  OR_Operator : string; OR_Pubkey : ValidatorPubkey; OR_Metadata : ValidatorMetadata;
  JailedUntil : option JailingPeriod; ActiveValidator : bool }.
Definition zero_operator : OperatorResponse := mkOperator "" zero_key (mkMetadata "" "" "" "" "") None false.

Definition dec_ValidatorMetadata : decoder ValidatorMetadata := dec_struct
  [ field "moniker" VM_Moniker
      (λ x m, mkMetadata x (VM_Identity m) (VM_Website m) (VM_SecurityContact m) (VM_Details m)) dec_string;
    field "identity" VM_Identity
      (λ x m, mkMetadata (VM_Moniker m) x (VM_Website m) (VM_SecurityContact m) (VM_Details m)) dec_string;
    field "website" VM_Website
      (λ x m, mkMetadata (VM_Moniker m) (VM_Identity m) x (VM_SecurityContact m) (VM_Details m)) dec_string;
    field "security_contact" VM_SecurityContact
      (λ x m, mkMetadata (VM_Moniker m) (VM_Identity m) (VM_Website m) x (VM_Details m)) dec_string;
    field "details" VM_Details
      (λ x m, mkMetadata (VM_Moniker m) (VM_Identity m) (VM_Website m) (VM_SecurityContact m) x) dec_string ].

Definition dec_OperatorResponse : decoder OperatorResponse := dec_struct
  [ field "operator" OR_Operator
      (λ x o, mkOperator x (OR_Pubkey o) (OR_Metadata o) (JailedUntil o) (ActiveValidator o)) dec_string;
    field "pubkey" OR_Pubkey
      (λ x o, mkOperator (OR_Operator o) x (OR_Metadata o) (JailedUntil o) (ActiveValidator o)) dec_ValidatorPubkey;
    field "metadata" OR_Metadata
      (λ x o, mkOperator (OR_Operator o) (OR_Pubkey o) x (JailedUntil o) (ActiveValidator o)) dec_ValidatorMetadata;
    field "jailed_until" JailedUntil
      (λ x o, mkOperator (OR_Operator o) (OR_Pubkey o) (OR_Metadata o) x (ActiveValidator o))
      (dec_ptr (mkJailing None false None) JailingPeriod_UnmarshalJSON);
    field "active_validator" ActiveValidator
      (λ x o, mkOperator (OR_Operator o) (OR_Pubkey o) (OR_Metadata o) (JailedUntil o) x) dec_bool ].

Definition dec_ValidatorResponse : decoder (option OperatorResponse) := dec_struct
  [ field "validator" id (λ x _, x) (dec_ptr zero_operator dec_OperatorResponse) ].
Definition dec_ListValidatorsResponse : decoder (list OperatorResponse) := dec_struct
  [ field "validators" id (λ x _, x) (dec_list zero_operator dec_OperatorResponse) ].
Definition operators_cursor (r : list OperatorResponse) : bytes := from_option OR_Operator "" (last r).

(** [stakingtypes.Validator], the fields that are set. *)
Inductive BondStatus := Bonded | Unbonded.
Record StakingValidator := mkStakingValidator {
  SV_OperatorAddress : string; ConsensusPubkey : Any; SV_Description : StakingDescription;
  DelegatorShares : Dec; SV_Status : BondStatus; Jailed : bool }.

Definition toCosmosPubKey (key : ValidatorPubkey) : outcome PubKey :=
  match Ed25519 key, Secp256k1 key with
  | Some b, _ => Ok (mkPubKey "ed25519" b)
  | None, Some b => Ok (mkPubKey "secp256k1" b)
  | None, None => Err poe_ErrValidatorPubKeyTypeNotSupported
  end.

(** ** Queries *)
Definition enc_ListValidatorsQuery (field startAfter : string) (limit : Z) : json :=
  JObj [(field, enc_omitempty [("start_after", nonempty startAfter);
                               ("limit", if limit =? 0 then None else Some (JNum limit))])].
Definition enc_ValidatorQuery (operator : string) : json := JObj [("validator", JObj [("operator", JStr operator)])].

Section valset.
Context `{!ContractCalls W, !Bech32}.
(** [codectypes.NewAnyWithValue] of a key *)
Variable NewAnyWithValue : PubKey → outcome Any.
Abbreviation Adapter := (outcome AccAddress) (only parsing).

Definition ToValidator (v : OperatorResponse) : outcome StakingValidator :=
  pubKey ← wrap "convert to cosmos key" (toCosmosPubKey (OR_Pubkey v));
  any ← wrap "convert to any type" (NewAnyWithValue pubKey);
  Ok (mkStakingValidator (OR_Operator v) any (ToDescription (OR_Metadata v)) (dec 1)
        (if ActiveValidator v then Bonded else Unbonded) (bool_decide (is_Some (JailedUntil v)))).

(** [None] when the contract does not know the operator. *)
Definition QueryValidator (w : W) (a : Adapter) (opAddr : AccAddress) : outcome (option StakingValidator) :=
  rsp ← wrap "contract query"
    (adapter_doQuery w a (enc_ValidatorQuery (AccAddress_String opAddr)) dec_ValidatorResponse None);
  match rsp with
  | None => Ok None
  | Some v => val ← ToValidator v; Ok (Some val)
  end.

Fixpoint to_validators (vs : list OperatorResponse) : outcome (list StakingValidator) :=
  match vs with
  | [] => Ok []
  | v :: vs' => x ← ToValidator v; r ← to_validators vs'; Ok (x :: r)
  end.

Definition ListValidators (w : W) (a : Adapter) (pagination : option Paginator) :
    outcome (list StakingValidator * bytes) :=
  let '(startAfter, limit) := ToQuery pagination in
  rsp ← wrap "contract query"
    (doPageableQuery w a (enc_ListValidatorsQuery "list_validators" startAfter limit)
       dec_ListValidatorsResponse [] operators_cursor);
  vals ← to_validators rsp.1;
  Ok (vals, rsp.2).

Definition query_active (w : W) (a : Adapter) (startAfter : string) (limit : Z) (rsp : ListActiveValidatorsResponse) :
    outcome (ListActiveValidatorsResponse * bytes) :=
  doPageableQuery w a (enc_ListValidatorsQuery "list_active_validators" startAfter limit)
    dec_ListActiveValidatorsResponse rsp active_cursor.

(** The callback is a closure over variables of type [St]; true stops. *)
Fixpoint visit {St} (callback : ValidatorInfo → St → outcome (bool * St)) (vs : list ValidatorInfo) (st : St) :
    outcome (bool * St) :=
  match vs with
  | [] => Ok (false, st)
  | v :: vs' =>
      r ← callback v st;
      if (r.1 : bool) then Ok (true, r.2) else visit callback vs' r.2
  end.

(** The loop [for !cursor.Empty()]; [None] when the fuel is used up. *)
Fixpoint iterate_pages {St} (fuel : nat) (w : W) (a : Adapter) (callback : ValidatorInfo → St → outcome (bool * St))
    (rsp : ListActiveValidatorsResponse) (cursor : bytes) (st : St) : option (outcome St) :=
  match fuel with
  | O => None
  | S n =>
      if decide (cursor = "") then Some (Ok st)
      else match visit callback (contents rsp) st with
           | Ok (true, st') => Some (Ok st')
           | Ok (false, st') =>
               match query_active w a cursor 0 rsp with
               | Ok (rsp', newCursor) => iterate_pages n w a callback rsp' newCursor st'
               | Err e => Some (Err e)
               | Panic p => Some (Panic p)
               end
           | Err e => Some (Err e)
           | Panic p => Some (Panic p)
           end
  end.

Definition IterateActiveValidators {St} (fuel : nat) (w : W) (a : Adapter)
    (callback : ValidatorInfo → St → outcome (bool * St)) (pagination : option Paginator) (st : St) :
    option (outcome St) :=
  let '(startAfter, limit) := ToQuery pagination in
  match query_active w a startAfter limit empty_buffer with
  | Ok (rsp, cursor) => iterate_pages fuel w a callback rsp cursor st
  | Err e => Some (Err e)
  | Panic p => Some (Panic p)
  end.

(** The callback of [AppModule.InitGenesis] in dump import mode. *)
Definition append_active (c : ValidatorInfo) (activeSet : list AbciValidatorUpdate) :
    outcome (bool * list AbciValidatorUpdate) :=
  match ConvertToTendermintPubKey (VI_Pubkey c) with
  | Ok pub => Ok (false, activeSet ++ [mkVU pub (int64 (VI_Power c))])
  | Err _ => Panic "convert pubkey for %s"
  | Panic p => Panic p
  end.

Definition active_set (fuel : nat) (w : W) (a : Adapter) : option (outcome (list AbciValidatorUpdate)) :=
  match IterateActiveValidators fuel w a append_active None [] with
  | None => None
  | Some (Ok []) => Some (Panic "active valset must not be empty")
  | Some (Ok s) => Some (Ok s)
  | Some (Err _) => Some (Panic "iterate active validators: %s")
  | Some (Panic p) => Some (Panic p)
  end.
End valset.
