(* ===== verification/PoEValsetProps.v ===== *)
(** Theorems about the active validator set: paging through the valset contract
    visits every validator once, as long as all keys are of one kind; with keys of
    two kinds a validator can be reported with the key of another. *)
From stdpp Require Import base list strings gmap sets sorting pretty.
From Stdlib Require Import ZArith Lia Ascii.
From S2P Require Import Prelude Sdk RefStore Slice Json JsonProps Privilege Wasm GoTime PoETypes TwasmMsgs PoEMsgs PoEContractIO PoEValset.
Open Scope Z_scope.

(** ** What the contract answers *)

(** An active validator of the contract: operator, the kind of its key, the text of the key, power. *)
Record Active := mkActive { av_op : string; av_kind : string; av_text : string; av_power : Z }.

Definition enc_active (v : Active) : json :=
  JObj [("operator", JStr (av_op v)); ("validator_pubkey", JObj [(av_kind v, JStr (av_text v))]);
        ("power", JNum (av_power v))].
Definition enc_page (vs : list Active) : json_bytes := JText (JObj [("validators", JArr (enc_active <$> vs))]).
Definition active_query (startAfter : string) : json :=
  enc_ListValidatorsQuery "list_active_validators" startAfter 0.

Definition active_ok (v : Active) : Prop :=
  av_op v ≠ "" ∧ is_Some (b64_decode (av_text v)) ∧ 0 ≤ av_power v < 2 ^ 64.
Definition key_of (v : Active) : bytes := default "" (b64_decode (av_text v)).
Definition ed25519_info (v : Active) : ValidatorInfo :=
  mkValidatorInfo (av_op v) (mkPubkey (Some (key_of v)) None None) (av_power v).
(** The elements whose key comes after [s]. *)
Definition after_by {A} (key : A → string) (s : string) (vs : list A) : list A := filter (λ v, bytes_lt s (key v)) vs.
Abbreviation after := (after_by av_op) (only parsing).

(** ** Decoding *)
Definition ed25519_only (i : ValidatorInfo) : Prop :=
  Secp256k1 (VI_Pubkey i) = None ∧ Sr25519 (VI_Pubkey i) = None.

Lemma dec_key_field kind text b (k : ValidatorPubkey) :
  b64_decode text = Some b →
  (kind = "ed25519" → dec_ValidatorPubkey (JObj [(kind, JStr text)]) k = Ok (mkPubkey (Some b) (Secp256k1 k) (Sr25519 k))) ∧
  (kind = "secp256k1" → dec_ValidatorPubkey (JObj [(kind, JStr text)]) k = Ok (mkPubkey (Ed25519 k) (Some b) (Sr25519 k))).
Proof.
  intros Hb. split; intros ->; unfold dec_ValidatorPubkey; cbn [dec_struct dec_members];
    [change (find_field _ "ed25519") with (Some (field "ed25519" Ed25519
       (λ x k, mkPubkey x (Secp256k1 k) (Sr25519 k)) dec_key_bytes).2)
    |change (find_field _ "secp256k1") with (Some (field "secp256k1" Secp256k1
       (λ x k, mkPubkey (Ed25519 k) x (Sr25519 k)) dec_key_bytes).2)];
    cbn [field snd dec_key_bytes]; by rewrite Hb.
Qed.

Lemma dec_active v (cur : ValidatorInfo) key :
  0 ≤ av_power v < 2 ^ 64 →
  dec_ValidatorPubkey (JObj [(av_kind v, JStr (av_text v))]) (VI_Pubkey cur) = Ok key →
  dec_ValidatorInfo (enc_active v) cur = Ok (mkValidatorInfo (av_op v) key (av_power v)).
Proof.
  intros Hp Hk. unfold dec_ValidatorInfo, enc_active. cbn [dec_struct dec_members].
  set (fs := [_; _; _]).
  change (find_field fs "operator") with (Some (field "operator" VI_Operator
    (λ x i, mkValidatorInfo x (VI_Pubkey i) (VI_Power i)) dec_string).2).
  change (find_field fs "validator_pubkey") with (Some (field "validator_pubkey" VI_Pubkey
    (λ x i, mkValidatorInfo (VI_Operator i) x (VI_Power i)) dec_ValidatorPubkey).2).
  change (find_field fs "power") with (Some (field "power" VI_Power
    (λ x i, mkValidatorInfo (VI_Operator i) (VI_Pubkey i) x) dec_uint64).2).
  cbn [field snd]. cbn [mbind outcome_bind dec_string VI_Operator VI_Pubkey VI_Power]. rewrite Hk. cbn.
  assert ((0 <=? av_power v) && (av_power v <? 2 ^ 64) = true) as -> by lia. done.
Qed.

Lemma dec_ed25519 v cur :
  active_ok v → av_kind v = "ed25519" → ed25519_only cur →
  dec_ValidatorInfo (enc_active v) cur = Ok (ed25519_info v).
Proof.
  intros (_ & [b Hb] & Hp) Hk [H1 H2]. unfold ed25519_info, key_of. rewrite Hb. cbn.
  apply dec_active; [done|]. rewrite (proj1 (dec_key_field _ _ b _ Hb) Hk). by rewrite H1, H2.
Qed.

(** ** Pages of a slice that is reused *)
Lemma dec_cells_ed25519 vs (cs : list ValidatorInfo) :
  Forall active_ok vs → Forall (λ v, av_kind v = "ed25519") vs → Forall ed25519_only cs →
  dec_cells zero_info dec_ValidatorInfo (enc_active <$> vs) cs = Ok (ed25519_info <$> vs).
Proof.
  revert cs. induction vs as [|v vs IH]; intros cs Hok Hk Hcs; [done|].
  apply Forall_cons in Hok as [Hv Hok], Hk as [Hkv Hk]. cbn [fmap list_fmap dec_cells].
  rewrite dec_ed25519; [|done|done|destruct cs; [done|by apply Forall_cons in Hcs as [? _]]].
  cbn [mbind outcome_bind]. rewrite IH; [done|done|done|destruct cs; [constructor|by apply Forall_cons in Hcs as [_ ?]]].
Qed.

Lemma dec_buffer_ne {A} (zero : A) d js b :
  js ≠ [] → dec_buffer zero d (JArr js) b =
  (r ← dec_cells zero d js (cells b); Ok (mkBuffer (r ++ drop (length r) (cells b)) (length r))).
Proof. by destruct js. Qed.

(** Decoding a page of ed25519 keys over cells of the same kind gives that page. *)
Lemma dec_page vs (b : Buffer ValidatorInfo) :
  Forall active_ok vs → Forall (λ v, av_kind v = "ed25519") vs → Forall ed25519_only (cells b) →
  ∃ b', Unmarshal dec_ListActiveValidatorsResponse (enc_page vs) b = Ok b' ∧
    contents b' = ed25519_info <$> vs ∧ Forall ed25519_only (cells b').
Proof.
  intros Hok Hk Hcs. unfold Unmarshal, enc_page, dec_ListActiveValidatorsResponse. cbn [dec_struct dec_members].
  change (find_field _ "validators") with (Some (field "validators" id (λ (x : Buffer ValidatorInfo) (_ : Buffer ValidatorInfo), x)
    (dec_buffer zero_info dec_ValidatorInfo)).2). cbn [field snd].
  destruct (decide (vs = [])) as [->|Hne]; [exists empty_buffer; by repeat constructor|].
  unfold id. rewrite dec_buffer_ne by (by destruct vs). rewrite dec_cells_ed25519 by done. cbn [mbind outcome_bind]. eexists. split; [done|]. unfold contents. cbn [cells len].
  split; [by rewrite take_app_length|]. apply Forall_app. split; [|by apply Forall_drop].
  apply Forall_fmap, Forall_true. done.
Qed.

Section after.
Context {A : Type} (key : A → string).
Implicit Types (pre rest : list A).

(** In a sorted list what comes after the last element of a part is the rest. *)
Lemma after_sorted pre rest v :
  StronglySorted bytes_lt (key <$> pre ++ rest) → last pre = Some v → after_by key (key v) (pre ++ rest) = rest.
Proof.
  intros Hs Hl. unfold after_by. rewrite filter_app. rewrite fmap_app in Hs.
  apply StronglySorted_app in Hs as (Hcross & Hpre & Hrest).
  assert (key v ∈ key <$> pre) as Hv by (apply list_elem_of_fmap_2, last_Some_elem_of, Hl).
  rewrite filter_none, filter_all.
  - done.
  - intros x Hx. apply Hcross; [done|]. by apply list_elem_of_fmap_2.
  - intros x Hx Hlt.
    assert (last (key <$> pre) = Some (key v)) as Hl' by (by rewrite fmap_last, Hl).
    destruct (StronglySorted_last bytes_lt _ (key x) _ Hpre Hl') as [Heq|Hxv];
      [by apply list_elem_of_fmap_2|rewrite Heq in Hlt|].
    + unfold bytes_lt in Hlt. by rewrite bytes_compare_refl in Hlt.
    + assert (bytes_lt (key x) (key x)) as Hc by (by trans (key v)).
      unfold bytes_lt in Hc. by rewrite bytes_compare_refl in Hc.
Qed.

Lemma after_all l : Forall (λ x, key x ≠ "") l → after_by key "" l = l.
Proof.
  intros Hl. apply filter_all. intros x Hx. rewrite Forall_forall in Hl. specialize (Hl x Hx). by destruct (key x).
Qed.
End after.

Lemma visit_app {St} (cb : ValidatorInfo → St → outcome (bool * St)) l1 l2 st :
  visit cb (l1 ++ l2) st =
  (r ← visit cb l1 st; if (r.1 : bool) then Ok r else visit cb l2 r.2).
Proof.
  revert st. induction l1 as [|v l1 IH]; intros st; cbn; [done|].
  destruct (cb v st) as [[[] st']|e|p]; cbn; [done|apply IH|done|done].
Qed.

(** What the iteration returns when it visits these validators. *)
Definition visited {St} (cb : ValidatorInfo → St → outcome (bool * St)) (vs : list ValidatorInfo) (st : St) :
    outcome St := r ← visit cb vs st; Ok r.2.

Section paging.
Context `{!ContractCalls W}.
Variables (w : W) (addr : AccAddress) (vals : list Active) (page : string → nat).
(** The contract lists its validators in the order of their operators, in pages
    of at least one element, each page after the operator that is given. *)
Hypothesis vals_sorted : StronglySorted bytes_lt (av_op <$> vals).
Hypothesis vals_ok : Forall active_ok vals.
Hypothesis vals_ed25519 : Forall (λ v, av_kind v = "ed25519") vals.
Hypothesis page_positive : ∀ s, (0 < page s)%nat.
Hypothesis contract_pages : ∀ s,
  QuerySmart w addr (active_query s) = Ok (enc_page (take (page s) (after s vals))).

Lemma query_page s b :
  Forall ed25519_only (cells b) →
  ∃ b', query_active w (Ok addr) s 0 b = Ok (b', from_option av_op "" (last (take (page s) (after s vals)))) ∧
    contents b' = ed25519_info <$> take (page s) (after s vals) ∧ Forall ed25519_only (cells b').
Proof using vals_ok vals_ed25519 contract_pages.
  intros Hb.
  assert (∀ Q : Active → Prop, Forall Q vals → Forall Q (take (page s) (after s vals))) as Hsub.
  { intros Q HQ. apply Forall_take, Forall_forall. intros x [_ Hx]%list_elem_of_filter.
    rewrite Forall_forall in HQ. by apply HQ. }
  destruct (dec_page (take (page s) (after s vals)) b) as (b' & Hdec & Hc & Hcells); [by apply Hsub..|done|].
  exists b'. split; [|done]. unfold query_active, doPageableQuery. cbn. unfold active_query in contract_pages.
  rewrite contract_pages. cbn [mbind outcome_bind]. rewrite Hdec. cbn. unfold active_cursor. rewrite Hc, fmap_last.
  by destruct (last _).
Qed.

Lemma iterate_pages_all {St} (cb : ValidatorInfo → St → outcome (bool * St)) fuel pre rest v b st page_vals :
  vals = pre ++ rest → last pre = Some v → last page_vals = Some v →
  contents b = ed25519_info <$> page_vals → Forall ed25519_only (cells b) → (length rest + 1 < fuel)%nat →
  iterate_pages fuel w (Ok addr) cb b (av_op v) st = Some (visited cb (ed25519_info <$> page_vals ++ rest) st).
Proof using vals_sorted vals_ok vals_ed25519 page_positive contract_pages.
  revert pre rest v b st page_vals. induction fuel as [|fuel IH]; [lia|].
  intros pre rest v b st pv Hvals Hpre Hpv Hb Hcells Hfuel. cbn [iterate_pages].
  assert (v ∈ vals) as Hin by (rewrite Hvals; apply elem_of_app; left; by apply last_Some_elem_of).
  rewrite decide_False by (rewrite Forall_forall in vals_ok; apply (vals_ok v Hin)).
  unfold visited. rewrite fmap_app, visit_app, Hb.
  destruct (visit cb (ed25519_info <$> pv) st) as [[[] st']|e|p]; cbn [mbind outcome_bind fst snd]; [done| |done|done].
  destruct (query_page (av_op v) b Hcells) as (b' & -> & Hc' & Hcells').
  assert (after (av_op v) vals = rest) as Hafter.
  { rewrite Hvals. apply (after_sorted av_op pre); [by rewrite <-Hvals|done]. }
  rewrite Hafter in *. destruct (take (page (av_op v)) rest) as [|x xs] eqn:Htake.
  - destruct rest as [|y rest]; [|pose proof (page_positive (av_op v)); destruct (page (av_op v)); [lia|done]].
    cbn. destruct fuel; [cbn in Hfuel; lia|]. done.
  - destruct (last (x :: xs)) as [u|] eqn:Hu; [|by apply last_None in Hu]. cbn [from_option].
    assert (rest = (x :: xs) ++ drop (page (av_op v)) rest) as Hsplit by (rewrite <-Htake; by rewrite take_drop).
    assert (1 ≤ length (x :: xs))%nat as Hlen by (cbn; lia).
    rewrite (IH (pre ++ x :: xs) (drop (page (av_op v)) rest) u b' st' (x :: xs)); [|..].
    + by rewrite <-Hsplit.
    + by rewrite <-app_assoc, <-Hsplit.
    + by rewrite last_app, Hu.
    + done.
    + done.
    + done.
    + apply (f_equal length) in Hsplit. rewrite length_app in Hsplit. lia.
Qed.

(** Paging through the active validators ends and calls back exactly once
    for every validator of the contract, in the contract's order, with its own
    data, until the callback asks to stop or fails. *)
Lemma IterateActiveValidators_all {St} (cb : ValidatorInfo → St → outcome (bool * St)) fuel st :
  (length vals + 1 < fuel)%nat →
  IterateActiveValidators fuel w (Ok addr) cb None st = Some (visited cb (ed25519_info <$> vals) st).
Proof using vals_sorted vals_ok vals_ed25519 page_positive contract_pages.
  intros Hfuel. unfold IterateActiveValidators. cbn [ToQuery].
  destruct (query_page "" empty_buffer) as (b & -> & Hc & Hcells); [constructor|].
  assert (after "" vals = vals) as Hall by (apply after_all; eapply Forall_impl; [exact vals_ok|by intros x [? _]]).
  rewrite Hall in *. destruct (take (page "") vals) as [|x xs] eqn:Htake.
  - destruct (page "") eqn:Hpage; [pose proof (page_positive ""); lia|].
    destruct vals; [|done]. cbn. destruct fuel; [cbn in Hfuel; lia|]. done.
  - destruct (last (x :: xs)) as [u|] eqn:Hu; [|by apply last_None in Hu]. cbn [from_option].
    pose proof (take_drop (page "") vals) as Hsplit. rewrite Htake in Hsplit.
    rewrite (iterate_pages_all cb fuel (x :: xs) (drop (page "") vals) u b st (x :: xs)); try done.
    + by rewrite Hsplit.
    + rewrite length_drop. lia.
Qed.
End paging.

(** The hypotheses on how the contract lists its validators in one. *)
Record serves_active `{ContractCalls W} (w : W) (addr : AccAddress) (vals : list Active) (page : string → nat) : Prop := {
  served_sorted : StronglySorted bytes_lt (av_op <$> vals);
  served_ok : Forall active_ok vals;
  served_positive : ∀ s, (0 < page s)%nat;
  served_pages : ∀ s, QuerySmart w addr (active_query s) = Ok (enc_page (take (page s) (after s vals)));
}.

(** ** Keys of two kinds *)
#[local] Arguments query_active : simpl never.
Section mixed.
Context `{!ContractCalls W}.
Variables (w : W) (addr : AccAddress).

Lemma dec_page_single v key (b : Buffer ValidatorInfo) :
  active_ok v →
  dec_ValidatorPubkey (JObj [(av_kind v, JStr (av_text v))]) (VI_Pubkey (hd zero_info (cells b))) = Ok key →
  Unmarshal dec_ListActiveValidatorsResponse (enc_page [v]) b =
  Ok (mkBuffer (mkValidatorInfo (av_op v) key (av_power v) :: drop 1 (cells b)) 1).
Proof.
  intros (_ & _ & Hp) Hk. unfold Unmarshal, enc_page, dec_ListActiveValidatorsResponse. cbn [dec_struct dec_members].
  change (find_field _ "validators") with (Some (field "validators" id (λ (x : Buffer ValidatorInfo) (_ : Buffer ValidatorInfo), x)
    (dec_buffer zero_info dec_ValidatorInfo)).2). cbn [field snd]. unfold id.
  rewrite dec_buffer_ne by done. cbn [fmap list_fmap dec_cells]. rewrite (dec_active v _ key) by done. done.
Qed.

Lemma query_single s v key b :
  active_ok v → QuerySmart w addr (active_query s) = Ok (enc_page [v]) →
  dec_ValidatorPubkey (JObj [(av_kind v, JStr (av_text v))]) (VI_Pubkey (hd zero_info (cells b))) = Ok key →
  query_active w (Ok addr) s 0 b =
  Ok (mkBuffer (mkValidatorInfo (av_op v) key (av_power v) :: drop 1 (cells b)) 1, av_op v).
Proof.
  intros Hv Hq Hk. unfold query_active, doPageableQuery. cbn [mbind outcome_bind]. unfold active_query in Hq. rewrite Hq.
  cbn [mbind outcome_bind]. by rewrite (dec_page_single v key) by done.
Qed.

(** When the second page has a validator with a secp256k1 key in the place
    of one with an ed25519 key, the imported chain starts with the key of the
    first validator twice: the key of the second one is lost. *)
Lemma active_set_mixed_keys a b :
  active_ok a → active_ok b → av_kind a = "ed25519" → av_kind b = "secp256k1" →
  QuerySmart w addr (active_query "") = Ok (enc_page [a]) →
  QuerySmart w addr (active_query (av_op a)) = Ok (enc_page [b]) →
  QuerySmart w addr (active_query (av_op b)) = Ok (enc_page []) →
  active_set 3 w (Ok addr) =
  Some (Ok [mkVU (TmEd25519 (key_of a)) (int64 (av_power a)); mkVU (TmEd25519 (key_of a)) (int64 (av_power b))]).
Proof.
  intros Ha Hb Hka Hkb Hqa Hqb Hq0. pose proof Ha as (Hna & [ba Hba] & _). pose proof Hb as (Hnb & [bb Hbb] & _).
  unfold key_of. rewrite Hba. cbn [default from_option id].
  unfold active_set, IterateActiveValidators. cbn [ToQuery].
  rewrite (query_single "" a (mkPubkey (Some ba) None None)); [|done|done|].
  2:{ by rewrite (proj1 (dec_key_field _ _ ba _ Hba) Hka). }
  cbn [iterate_pages cells drop]. rewrite decide_False by done. cbn.
  rewrite (query_single (av_op a) b (mkPubkey (Some ba) (Some bb) None)); [|done|done|].
  2:{ by rewrite (proj2 (dec_key_field _ _ bb _ Hbb) Hkb). }
  rewrite decide_False by done. cbn.
  unfold query_active, doPageableQuery. cbn [mbind outcome_bind]. unfold active_query in Hq0. rewrite Hq0. done.
Qed.
End mixed.

(** ** Keys *)

Lemma key_bytes_roundtrip b : b ≠ "" → enc_key_bytes (Some b) = Some (JStr (b64_encode b)) ∧
  ∀ o, dec_key_bytes (JStr (b64_encode b)) o = Ok (Some b).
Proof. intros Hb. split; [by destruct b|]. intros o. cbn. by rewrite b64_roundtrip. Qed.

(** C29: A consensus key of a validator survives its way through the valset contract: what
    the chain writes into the registration message reads back as the same key, and both
    the key handed to Tendermint and the key shown to clients are the registered one.
    Keys of other types are refused. *)
Theorem pubkey_roundtrip pk :
  PK_Bytes pk ≠ "" →
  if decide (PK_Type pk = "ed25519" ∨ PK_Type pk = "secp256k1") then
    ∃ key, NewValidatorPubkey pk = Ok key ∧
      dec_ValidatorPubkey (enc_ValidatorPubkey key) zero_key = Ok key ∧
      ConvertToTendermintPubKey key =
        Ok ((if decide (PK_Type pk = "ed25519") then TmEd25519 else TmSecp256K1) (PK_Bytes pk)) ∧
      toCosmosPubKey key = Ok pk
  else is_ok (NewValidatorPubkey pk) = false.
Proof.
  destruct pk as [ty b]. cbn [PK_Type PK_Bytes]. intros Hb. destruct (key_bytes_roundtrip b Hb) as [He Hd].
  unfold NewValidatorPubkey. cbn [PK_Type PK_Bytes]. case_decide as Hty.
  - destruct Hty as [->| ->]; cbn [decide]; (eexists; split; [done|]);
      (split; [unfold enc_ValidatorPubkey; cbn [Ed25519 Secp256k1 Sr25519]; rewrite He|done]).
    + apply (dec_key_field "ed25519" _ b); [apply b64_roundtrip|done].
    + apply (dec_key_field "secp256k1" _ b); [apply b64_roundtrip|done].
  - rewrite !decide_False by naive_solver. done.
Qed.

(** ** A concrete contract *)
Definition serve (vs : list Active) (size : nat) (q : json) : outcome json_bytes :=
  match q with
  | JObj [("list_active_validators", JObj [])] => Ok (enc_page (take size (after "" vs)))
  | JObj [("list_active_validators", JObj [("start_after", JStr s)])] => Ok (enc_page (take size (after s vs)))
  | _ => Err (new_err "contract")
  end.

(** The state of the contract is its list of validators. *)
#[export] Instance Ref_valset : ContractCalls (list Active) := {
  Execute _ _ _ _ := fail_with (new_err "contract");
  QuerySmart vs _ q := serve vs 2 q;
}.

Definition ref_vals : list Active :=
  [mkActive "furya1a" "ed25519" "AAEC" 5; mkActive "furya1b" "ed25519" "AwQF" 7; mkActive "furya1c" "ed25519" "BgcI" 9].

Definition collect (v : ValidatorInfo) (st : list ValidatorInfo) : outcome (bool * list ValidatorInfo) :=
  Ok (false, st ++ [v]).

Lemma ref_vals_ok : Forall active_ok ref_vals.
Proof. repeat constructor; vm_compute; try done; eauto. Qed.

Lemma ref_pages s :
  QuerySmart ref_vals "valset" (active_query s) = Ok (enc_page (take 2 (after s ref_vals))).
Proof. cbn. unfold active_query, enc_ListValidatorsQuery, nonempty. by case_decide as Hs; [subst|]. Qed.

(** Three validators in pages of two. *)
Lemma IterateActiveValidators_all_witness :
  IterateActiveValidators 5 ref_vals (Ok "valset") collect None [] = Some (Ok (ed25519_info <$> ref_vals)).
Proof.
  rewrite (IterateActiveValidators_all ref_vals "valset" ref_vals (λ _, 2%nat)).
  - vm_compute. reflexivity.
  - repeat constructor; vm_compute; reflexivity.
  - exact ref_vals_ok.
  - repeat constructor.
  - intros s. lia.
  - exact ref_pages.
  - vm_compute. lia.
Defined.

#[local] Instance Ref_valset1 : ContractCalls (list Active) := {
  Execute _ _ _ _ := fail_with (new_err "contract");
  QuerySmart vs _ q := serve vs 1 q;
}.

(** The second of two validators is reported with the key of the first. *)
Lemma active_set_mixed_keys_witness :
  let vs := [mkActive "furya1a" "ed25519" "AAEC" 5; mkActive "furya1b" "secp256k1" "AwQF" 7] in
  ∃ k, active_set 3 vs (Ok "valset") = Some (Ok [mkVU (TmEd25519 k) 5; mkVU (TmEd25519 k) 7]).
Proof.
  cbv zeta. exists (key_of (mkActive "furya1a" "ed25519" "AAEC" 5)).
  rewrite (active_set_mixed_keys _ "valset" (mkActive "furya1a" "ed25519" "AAEC" 5)
             (mkActive "furya1b" "secp256k1" "AwQF" 7)).
  - vm_compute. reflexivity.
  - split_and!; vm_compute; try done; eauto.
  - split_and!; vm_compute; try done; eauto.
  - reflexivity.
  - reflexivity.
  - vm_compute. reflexivity.
  - vm_compute. reflexivity.
  - vm_compute. reflexivity.
Defined.

(** C29: a secp256k1 key of three bytes. *)
Lemma pubkey_roundtrip_witness :
  ∃ key, NewValidatorPubkey (mkPubKey "secp256k1" "abc") = Ok key ∧
    dec_ValidatorPubkey (enc_ValidatorPubkey key) zero_key = Ok key ∧
    ConvertToTendermintPubKey key = Ok (TmSecp256K1 "abc").
Proof.
  pose proof (pubkey_roundtrip (mkPubKey "secp256k1" "abc") ltac:(discriminate)) as Hr.
  rewrite decide_True in Hr by (right; reflexivity). destruct Hr as (key & Hn & Hd & Ht & _).
  exists key. split; [exact Hn|]. split; [exact Hd|exact Ht].
Defined.
