(* ===== verification/PoEServer.v ===== *)
(** The operations of x/poe on a running chain: engagement points
    (keeper/engagement.go), the message server (keeper/msg_server.go), the block
    callbacks (abci.go) and the fee deduction (ante.go). *)
From stdpp Require Import base list strings gmap sets sorting pretty.
From Stdlib Require Import ZArith Lia Ascii.
From S2P Require Import Prelude Sdk Slice Json Privilege Wasm TwasmKeeper TwasmHandler GoTime PoETypes TwasmMsgs PoEMsgs PoEKeeper PoEContractIO PoEValset.
Open Scope Z_scope.

Definition sdk_ErrInvalidType : error := new_err "sdk/invalid type".
Definition sdk_ErrUnknownAddress : error := new_err "sdk/unknown address".
Definition sdk_ErrInsufficientFunds : error := new_err "sdk/insufficient funds".
Definition sdk_ErrInsufficientFee : error := new_err "sdk/insufficient fee".
Definition sdk_ErrTxDecode : error := new_err "sdk/tx parse error".
Definition staking_ErrValidatorPubKeyTypeNotSupported : error := new_err "staking/validator pubkey type is not supported".
Definition status_Internal : error := new_err "grpc/Internal".

(** What the module uses of the SDK's staking types, coins and context. *)
Class StakingTypes := {
  EnsureLength : StakingDescription → outcome StakingDescription;
  UpdateDescription : StakingDescription → StakingDescription → outcome StakingDescription;
  (** [any.GetCachedValue().(cryptotypes.PubKey)] *)
  GetCachedPubKey : Any → option PubKey;
  (** [Coins.IsAllGTE] *)
  IsAllGTE : list Coin → list Coin → bool;
  Coins_IsValid : list Coin → bool;
  Coins_IsZero : list Coin → bool;
}.

Class ConsensusCtx (W : Type) := {
  (** [ctx.ConsensusParams().Validator.PubKeyTypes]; none when a pointer on the way is nil. *)
  PubKeyTypes : W → option (list string);
}.

(** [hex.EncodeToString] *)
Definition hex_digit (z : Z) : Ascii.ascii := byte_of (if z <? 10 then 48 + z else 87 + z).
Fixpoint EncodeToString (s : bytes) : string :=
  match s with
  | "" => ""
  | String a s' => String (hex_digit (of_byte a / 16)) (String (hex_digit (of_byte a mod 16)) (EncodeToString s'))
  end.

(** A coin whose amount is used as a number: a nil amount is dereferenced. *)
Definition coin_of (c : WireCoin) : outcome Coin :=
  match WCoin_Amount c with Some a => Ok (mkCoin (WCoin_Denom c) a) | None => Panic "nil pointer" end.

Section server.
Context `{!KVStore W, !PoEParamStore W, !Bech32, !SdkMath, !SdkText, !SdkCoins, !StakingTypes,
  !ConsensusCtx W, !ContractCalls W, !WasmVM W}.

(** A read of the keeper that may fail. *)
Definition reads {A} (f : KState W → outcome A) : M (KState W) A := λ c, (f (store c), c).

(** ** Engagement points *)
Definition GetEngagementPoints (k : KState W) (opAddr : AccAddress) : outcome Z :=
  addr ← wrap "get contract addr" (GetPoEContractAddress k PoEContractTypeEngagement);
  weight ← wrap "query staking contract" (QueryTG4Member (world k) addr opAddr);
  match weight with None => Ok 0 | Some weight => Ok (uint64 weight) end.

Definition setEngagementPoints (opAddr : AccAddress) (points : Z) : M (KState W) () :=
  addr ← reads (λ k, wrap "get contract addr" (GetPoEContractAddress k PoEContractTypeEngagement));
  on_world (SetEngagementPoints addr opAddr points).

Definition SetValidatorInitialEngagementPoints (opAddr : AccAddress) (selfDelegation : WireCoin) : M (KState W) () :=
  newPoints ← reads GetInitialValidatorEngagementPoints;
  if newPoints =? 0 then mret ()
  else
    min ← reads MinimumDelegationAmounts;
    coins ← lift (c ← coin_of selfDelegation; NewCoins [c]);
    if negb (IsAllGTE coins min) then mret ()
    else
      currentPoints ← reads (λ k, wrap "get engagement points" (GetEngagementPoints k opAddr));
      if newPoints <=? currentPoints then mret ()
      else wrapM "set engagement points" (setEngagementPoints opAddr newPoints).

Definition UnbondingTime (k : KState W) : outcome Z :=
  match QueryStakingUnbondingPeriod (world k) (GetPoEContractAddress k PoEContractTypeStaking) with
  | Err _ => Panic "unboding period: %s"
  | o => o
  end.

(** ** Messages *)
Definition message_event (operator : string) : Event :=
  NewEvent "message" [("module", "poe"); ("sender", operator)].

(** [tmstrings.StringInSlice] *)
Definition StringInSlice (s : string) (l : list string) : bool := bool_decide (s ∈ l).

Definition CreateValidator (msg : MsgCreateValidator) : M (KState W) () :=
  pk ← match CV_Pubkey msg with
       | None => panic "nil pointer"
       | Some any => match GetCachedPubKey any with
                     | None => fail_with (Wrap sdk_ErrInvalidType "Expecting cryptotypes.PubKey, got %T")
                     | Some pk => mret pk
                     end
       end;
  _ ← lift (EnsureLength (CV_Description msg));
  types ← gets (λ k, PubKeyTypes (world k));
  match types with
  | Some ts => if negb (StringInSlice (PK_Type pk) ts)
               then fail_with (Wrap staking_ErrValidatorPubKeyTypeNotSupported "got: %s, expected: %s") else mret ()
  | None => mret ()
  end ;;
  valsetContractAddr ← reads (λ k, wrap "valset" (GetPoEContractAddress k PoEContractTypeValset));
  operatorAddress ← lift (wrap "operator address" (AccAddressFromBech32 (CV_OperatorAddress msg)));
  wrapM "register validator" (on_world (RegisterValidator valsetContractAddr pk operatorAddress (CV_Description msg))) ;;
  stakingContractAddr ← reads (λ k, wrap "staking contract" (GetPoEContractAddress k PoEContractTypeStaking));
  amount ← lift (c ← coin_of (CV_Amount msg); NewCoins [c]);
  wrapM "self delegation validator"
    (on_world (BondDelegation stakingContractAddr operatorAddress amount (Some (CV_VestingAmount msg)))) ;;
  totalAmount ← lift (WCoin_Add (CV_Amount msg) (CV_VestingAmount msg));
  EmitEvents
    [message_event (CV_OperatorAddress msg);
     NewEvent "create_validator"
       [("operator", CV_OperatorAddress msg); ("moniker", Moniker (CV_Description msg));
        ("pubkey", EncodeToString (PK_Bytes pk)); ("amount", Int_String (WCoin_Amount totalAmount))]] ;;
  r ← try (SetValidatorInitialEngagementPoints operatorAddress totalAmount);
  match r with
  | inl _ => mret ()
  | inr _ => fail_with status_Internal
  end.

(** [NewAnyWithValue] packs the key of the validator that is read. *)
Context (NewAnyWithValue : PubKey → outcome Any).

Definition Msg_UpdateValidator (msg : MsgUpdateValidator) : M (KState W) () :=
  _ ← lift (wrap "description" (EnsureLength (UV_Description msg)));
  valsetContractAddr ← reads (λ k, wrap "valset" (GetPoEContractAddress k PoEContractTypeValset));
  operatorAddress ← lift (wrap "operator address" (AccAddressFromBech32 (UV_OperatorAddress msg)));
  current ← reads (λ k, wrap "query contract"
    (QueryValidator NewAnyWithValue (world k) (GetPoEContractAddress k PoEContractTypeValset) operatorAddress));
  match current with
  | None => panic "nil pointer"
  | Some current =>
      newDescr ← lift (wrap "merge description" (UpdateDescription (SV_Description current) (UV_Description msg)));
      wrapM "update validator" (on_world (UpdateValidator valsetContractAddr operatorAddress newDescr)) ;;
      EmitEvents
        [message_event (UV_OperatorAddress msg);
         NewEvent "update_validator"
           [("operator", UV_OperatorAddress msg); ("moniker", Moniker (UV_Description msg))]]
  end.

Definition Msg_Delegate (msg : MsgDelegate) : M (KState W) () :=
  operatorAddress ← lift (wrap "operator address" (AccAddressFromBech32 (MD_OperatorAddress msg)));
  stakingContractAddr ← reads (λ k, wrap "staking contract" (GetPoEContractAddress k PoEContractTypeStaking));
  amount ← lift (c ← coin_of (MD_Amount msg); NewCoins [c]);
  wrapM "bond delegation"
    (on_world (BondDelegation stakingContractAddr operatorAddress amount (Some (MD_VestingAmount msg)))) ;;
  EmitEvents
    [message_event (MD_OperatorAddress msg);
     NewEvent "delegate" [("amount", WCoin_String (MD_Amount msg))]].

(** Returns the completion time. *)
Definition Msg_Undelegate (msg : MsgUndelegate) : M (KState W) Z :=
  operatorAddress ← lift (wrap "operator address" (AccAddressFromBech32 (MU_OperatorAddress msg)));
  stakingContractAddr ← reads (λ k, wrap "staking contract" (GetPoEContractAddress k PoEContractTypeStaking));
  completionTime ← wrapM "unbond delegation"
    (on_world (UnbondDelegation stakingContractAddr operatorAddress (MU_Amount msg)));
  EmitEvents
    [message_event (MU_OperatorAddress msg);
     NewEvent "undelegate" [("amount", WCoin_String (MU_Amount msg))]] ;;
  mret completionTime.

(** ** The handler *)
Inductive PoEMsg :=
  | PMsgCreateValidator (msg : MsgCreateValidator) | PMsgUpdateValidator (msg : MsgUpdateValidator)
  | PMsgDelegate (msg : MsgDelegate) | PMsgUndelegate (msg : MsgUndelegate)
  | PMsgOther (type : string).
(** [sdk.Result]: the response, which only for [MsgUndelegate] has a member, and the events. *)
Record PoEResult := mkPoEResult { Res_CompletionTime : option Z; Res_Events : list Event }.

(** [WrapServiceResult] of a call with an event manager of its own. *)
Definition service_result (m : M (KState W) (option Z)) : M (KState W) PoEResult := λ c,
  let '(o, em, c') := with_fresh_events m c in (r ← o; Ok (mkPoEResult r em), c').

Definition newHandler (msg : PoEMsg) : M (KState W) PoEResult :=
  match msg with
  | PMsgCreateValidator m => service_result (CreateValidator m ;; mret None)
  | PMsgUpdateValidator m => service_result (Msg_UpdateValidator m ;; mret None)
  | PMsgDelegate m => service_result (Msg_Delegate m ;; mret None)
  | PMsgUndelegate m => service_result (t ← Msg_Undelegate m; mret (Some t))
  | PMsgOther _ => fail_with (Wrap ErrUnknownRequest "unrecognized %s message type: %T")
  end.

(** ** Blocks *)
Context `{!HistoryCodec}.

Definition BeginBlocker (votes : list VoteInfo) (height : Z) (header : Header) : M (KState W) () :=
  UpdateValidatorVotes votes ;;
  TrackHistoricalInfo height header.
End server.

(** The end blocker works on the store of x/twasm. *)
Section end_block.
Context `{!KVStore W, !WasmVM W}.
Variable commit_events : list Event → list Event → list Event.

(** [IteratePrivilegedContractsByType] with the callback, which sets [diff] and
    returns true unless the contract panics: then it is recovered, leaves [diff]
    as it was and returns false. *)
Fixpoint end_block_loop (entries : list (bytes * bytes)) (diff : list AbciValidatorUpdate) : M W (list AbciValidatorUpdate) :=
  match entries with
  | [] => mret diff
  | e :: entries' =>
      λ c, match parseContractPosition e.1 with
           | Ok _ =>
               match CallEndBlockWithValidatorUpdate e.2 (mkCtx (store c) []) with
               | (Ok d, cached) => (Ok d, mkCtx (store cached) (commit_events (events c) (events cached)))
               | (Err _, _) => (Ok [], c)
               | (Panic _, _) => end_block_loop entries' diff c
               end
           | Err err => (Err err, c)
           | Panic p => (Panic p, c)
           end
  end.

Definition EndBlocker : M W (list AbciValidatorUpdate) :=
  entries ← gets (λ w, kv_iterate w StoreKey
    (getContractPrivilegesSecondaryIndexPrefix PrivilegeTypeValidatorSetUpdate));
  end_block_loop entries [].
End end_block.

(** ** Fees *)

(** The fee transaction; [FeeGranter] is nil when the payer pays. *)
Record PoEFeeTx := mkPoEFeeTx { Fee : list Coin; FeePayer : AccAddress; FeeGranter : option AccAddress }.

Class FeeKeepers (W : Type) := {
  (** [ak.GetAccount] is not nil *)
  HasAccount : W → AccAddress → bool;
  SendCoins : AccAddress → AccAddress → list Coin → M W ();
  (** [None] when fee grants are not enabled; granter, grantee, fee. *)
  UseGrantedFees : option (AccAddress → AccAddress → list Coin → M W ());
}.

Section ante.
Context `{!KVStore W, !FeeKeepers W, !StakingTypes, !SdkCoins}.

(** Deducts from an account of address [acc]. *)
Definition DeductFees (acc : AccAddress) (fees : list Coin) : M (KState W) () :=
  if negb (Coins_IsValid fees) then fail_with (Wrap sdk_ErrInsufficientFee "invalid fee amount: %s")
  else
    feeCollector ← (λ c, (match GetPoEContractAddress (store c) PoEContractTypeValset with
                          | Err _ => Panic "%s contract address has not been set"
                          | o => o
                          end, c));
    r ← try (on_world (SendCoins acc feeCollector fees));
    match r with
    | inl _ => mret ()
    | inr _ => fail_with (Wrap sdk_ErrInsufficientFunds "send")
    end.

(** A transaction that is not a fee transaction is [None]. *)
Definition DeductFee_AnteHandle {A} (tx : option PoEFeeTx) (next : M (KState W) A) : M (KState W) A :=
  match tx with
  | None => fail_with (Wrap sdk_ErrTxDecode "Tx must be a FeeTx")
  | Some feeTx =>
      deductFeesFrom ←
        match FeeGranter feeTx with
        | None => mret (FeePayer feeTx)
        | Some granter =>
            match UseGrantedFees with
            | None => fail_with (Wrap ErrInvalidRequest "fee grants are not enabled")
            | Some use =>
                (if decide (granter ≠ FeePayer feeTx)
                 then wrapM "%s not allowed to pay fees from %s" (on_world (use granter (FeePayer feeTx) (Fee feeTx)))
                 else mret ()) ;;
                mret granter
            end
        end;
      has ← gets (λ k, HasAccount (world k) deductFeesFrom);
      if negb has then fail_with (Wrap sdk_ErrUnknownAddress "fee payer address: %s does not exist")
      else
        (if negb (Coins_IsZero (Fee feeTx)) then DeductFees deductFeesFrom (Fee feeTx) else mret ()) ;;
        EmitEvents [NewEvent "tx" [("fee", Coins_String (Fee feeTx))]] ;;
        next
  end.
End ante.
