(* ===== verification/PoEServerProps.v ===== *)
(** Theorems about the operations of x/poe: the validator set update of a block,
    the first engagement points of a validator, the fee deduction and the
    completion time of an unbonding. *)
From stdpp Require Import base list strings gmap sets sorting pretty.
From Stdlib Require Import ZArith Lia Ascii.
From S2P Require Import Prelude Sdk RefStore Slice Json Privilege Wasm TwasmKeeper TwasmHandler TwasmSteps GoTime PoETypes TwasmMsgs PoEMsgs PoETypesProps PoEKeeper PoEContractIO PoEValset PoEServer.
Open Scope Z_scope.

(** ** The end of a block *)
Section end_block.
Context `{!KVStore W, !KVLaws W, !WasmKeeper W, !WasmVM W, !Bech32}.
Variable commit_events : list Event → list Event → list Event.

(** A singleton type has at most one entry, and its key is one byte. *)
Lemma singleton_entries (w : W) t :
  priv_inv w → is_u 8 t → IsSingleton t = true →
  kv_iterate w StoreKey (getContractPrivilegesSecondaryIndexPrefix t) = [] ∨
  ∃ p a, kv_iterate w StoreKey (getContractPrivilegesSecondaryIndexPrefix t) = [(bytes1 p, a)].
Proof.
  intros Hinv Ht Hs. pose proof (queue_sorted w t Hinv Ht) as Hsort. unfold queue in Hsort.
  pose proof (λ k a, inv_entry w t k a Hinv Ht) as He. pose proof (λ p a, proj1 (queue_elem w t p a Hinv Ht)) as Hq.
  unfold queue in Hq. destruct (kv_iterate _ _ _) as [|[k a] [|[k' a'] l]]; [by left| |].
  - right. destruct (He k a) as (_ & _ & Hk); [by left|]. exists (key_pos k), a. by rewrite <-Hk.
  - exfalso. destruct (Hq (key_pos k) a) as [Hp Hg]; [by left|].
    destruct (Hq (key_pos k') a') as [Hp' Hg']; [right; by left|].
    assert (key_pos k = key_pos k') as E by (eapply (inv_singleton w Hinv); eauto; unfold is_u; lia).
    apply StronglySorted_inv in Hsort as [_ Hall]. apply Forall_cons in Hall as [Hlt _].
    unfold pos_lt in Hlt. cbn in Hlt. lia.
Qed.

(** The contract that updates the validator set is called. *)
Lemma poe_EndBlocker_run (c : Ctx W) :
  priv_inv (store c) →
  EndBlocker commit_events c =
  match subscribers (store c) PrivilegeTypeValidatorSetUpdate with
  | [] => (Ok [], c)
  | a :: _ =>
      match CallEndBlockWithValidatorUpdate a (mkCtx (store c) []) with
      | (Ok diff, cached) => (Ok diff, mkCtx (store cached) (commit_events (events c) (events cached)))
      | _ => (Ok [], c)
      end
  end.
Proof.
  intros Hinv. unfold EndBlocker, subscribers, queue. unfold mbind, M_bind, gets.
  destruct (singleton_entries (store c) PrivilegeTypeValidatorSetUpdate) as [->|(p & a & ->)];
    [done|by apply (known_byte 3), known_range|done|done|]. cbn.
  destruct (CallEndBlockWithValidatorUpdate a (mkCtx (store c) [])) as [[d|e|e] cached]; done.
Qed.

(** At the end of a block the one contract with the privilege to update the
    validator set is called; its diff and its effects are taken over when the
    call succeeds, and nothing changes when it fails or panics. *)
Lemma poe_EndBlocker_spec (c : Ctx W) :
  priv_inv (store c) →
  EndBlocker commit_events c =
  match subscribers (store c) PrivilegeTypeValidatorSetUpdate with
  | [] => (Ok [], c)
  | a :: _ =>
      match CallEndBlockWithValidatorUpdate a (mkCtx (store c) []) with
      | (Ok diff, cached) => (Ok diff, mkCtx (store cached) (commit_events (events c) (events cached)))
      | _ => (Ok [], c)
      end
  end ∧ (length (subscribers (store c) PrivilegeTypeValidatorSetUpdate) ≤ 1)%nat.
Proof.
  intros Hinv. split; [by apply poe_EndBlocker_run|]. unfold subscribers, queue.
  destruct (singleton_entries (store c) PrivilegeTypeValidatorSetUpdate) as [->|(p & a & ->)];
    [done|by apply (known_byte 3), known_range|done|cbn; lia..].
Qed.
End end_block.

(** ** Engagement points *)
Section engagement.
Context `{!KVStore W, !PoEParamStore W, !Bech32, !SdkMath, !SdkText, !SdkCoins, coins_laws : !SdkCoinsLaws, !StakingTypes,
  !ContractCalls W, !WasmVM W}.
Variables (addr : AccAddress) (points : W → AccAddress → option Z).
(** The engagement contract answers the member query with the points it has for
    the address, and sets them when it is told to with sudo. *)
Hypothesis member_query : ∀ w op,
  QuerySmart w addr (enc_MemberQuery (AccAddress_String op)) =
  Ok (JText (JObj [("points", from_option JNum JNull (points w op))])).
Hypothesis member_range : ∀ w op p, points w op = Some p → 0 ≤ p < 2 ^ 63.
Hypothesis member_update : ∀ c op n, 0 ≤ n < 2 ^ 63 → ∃ r c',
  Sudo addr (enc_UpdateMember (mkContractMember (AccAddress_String op) n 0)) c = (Ok r, c') ∧
  points (store c') op = Some n ∧ ∀ op', op' ≠ op → points (store c') op' = points (store c) op'.

Lemma QueryTG4Member_points w op : QueryTG4Member w addr op = Ok (points w op).
Proof using member_query member_range.
  unfold QueryTG4Member, doQuery. rewrite member_query. cbn [mbind outcome_bind Unmarshal].
  unfold dec_TG4MemberResponse. cbn [dec_struct dec_members].
  change (find_field _ "points") with (Some (field "points" MR_Points
    (λ x r, mkMemberResponse x (MR_StartHeight r)) (dec_ptr 0 dec_int64)).2). cbn [field snd].
  destruct (points w op) as [p|] eqn:Hp; cbn; [|done].
  pose proof (member_range _ _ _ Hp) as Hr.
  assert ((- 2 ^ 63 <=? p) && (p <? 2 ^ 63) = true) as -> by lia. done.
Qed.

(** The points of an address; an address without an entry has none. *)
Definition points_of (w : W) (op : AccAddress) : Z := default 0 (points w op).

(** The self delegation covers the minimum amounts. *)
Definition qualifies (d : string) (a : Z) (min : list Coin) : bool :=
  IsAllGTE (if decide (a = 0) then [] else [mkCoin d a]) min.

Lemma GetEngagementPoints_points (k : KState W) op :
  GetPoEContractAddress k PoEContractTypeEngagement = Ok addr →
  GetEngagementPoints k op = Ok (points_of (world k) op).
Proof using member_query member_range.
  intros Ha. unfold GetEngagementPoints, points_of. rewrite Ha. cbn [wrap mbind outcome_bind].
  rewrite QueryTG4Member_points. cbn. destruct (points (world k) op) as [p|] eqn:Hp; [|done].
  cbn. f_equal. apply wrap_u_small. pose proof (member_range _ _ _ Hp). unfold is_u. lia.
Qed.

(** C25: the first engagement points of a validator are granted at most once and
    never take points away: with a self delegation that covers the minimum the
    validator has afterwards the larger of its points and the initial points,
    without it, its points as before; nobody else's points change. *)
Theorem initial_points op d a min n (c : Ctx (KState W)) :
  GetPoEContractAddress (store c) PoEContractTypeEngagement = Ok addr →
  GetInitialValidatorEngagementPoints (store c) = Ok n → 0 ≤ n < 2 ^ 63 →
  MinimumDelegationAmounts (store c) = Ok min → Coin_Validate (mkCoin d a) = Ok () →
  ∃ c', SetValidatorInitialEngagementPoints op (mkWCoin d (Some a)) c = (Ok (), c') ∧
    points_of (world (store c')) op =
      (if qualifies d a min then Z.max (points_of (world (store c)) op) n else points_of (world (store c)) op) ∧
    ∀ op', op' ≠ op → points (world (store c')) op' = points (world (store c)) op'.
Proof using member_query member_range member_update coins_laws.
  intros Ha Hn Hn0 Hmin Hval. unfold SetValidatorInitialEngagementPoints, reads, mbind at 1, M_bind at 1. rewrite Hn.
  assert (0 ≤ points_of (world (store c)) op) as Hpos.
  { unfold points_of. destruct (points (world (store c)) op) as [p|] eqn:Hp; [|done].
    cbn. by apply (member_range _ _ _ Hp). }
  destruct (Z.eqb_spec n 0) as [->|Hn'].
  { exists c. split; [done|]. split; [|done]. destruct (qualifies d a min); lia. }
  unfold mbind at 1, M_bind at 1. rewrite Hmin. unfold mbind at 1, M_bind at 1, lift. cbn [coin_of WCoin_Amount WCoin_Denom].
  cbn [mbind outcome_bind]. rewrite (NewCoins_single _ Hval). cbn [Amount].
  fold (qualifies d a min). destruct (qualifies d a min); cbn [negb]; [|by exists c].
  unfold mbind at 1, M_bind at 1. rewrite GetEngagementPoints_points by done. cbn [wrap].
  destruct (Z.leb_spec n (points_of (world (store c)) op)) as [Hle|Hlt].
  { exists c. split; [done|]. split; [lia|done]. }
  destruct (member_update (mkCtx (world (store c)) (events c)) op n Hn0) as (r & c1 & Hs & Hnew & Hrest).
  eexists. split.
  - unfold wrapM, setEngagementPoints, reads, mbind, M_bind. rewrite Ha. cbn [wrap].
    unfold on_world, SetEngagementPoints, wrapM, mbind, M_bind. rewrite Hs. cbn. done.
  - cbn. split; [|done]. unfold points_of at 1. rewrite Hnew. cbn. lia.
Qed.
End engagement.

(** ** Fees *)

(** The amount of a denom in a list of coins. *)
Definition amount_of (cs : list Coin) (d : string) : Z :=
  foldr (λ c s, (if decide (Denom c = d) then Amount c else 0) + s) 0 cs.

(** What the bank and the fee grants promise, for the balances [bal]. *)
Class FeeLaws (W : Type) `{KVStore W, FeeKeepers W, StakingTypes} (bal : W → AccAddress → string → Z) := {
  SendCoins_spec from to cs c c' :
    SendCoins from to cs c = (Ok (), c') →
    ∀ x d, bal (store c') x d =
      bal (store c) x d - (if decide (x = from) then amount_of cs d else 0)
                        + (if decide (x = to) then amount_of cs d else 0);
  (** A grant is accounted for in its own store. *)
  UseGrantedFees_frame use g p f c c' :
    UseGrantedFees = Some use → use g p f c = (Ok (), c') →
    (∀ x d, bal (store c') x d = bal (store c) x d) ∧
    (∀ k, kv_get (store c') poe_StoreKey k = kv_get (store c) poe_StoreKey k);
  Coins_IsZero_spec cs : Coins_IsZero cs = true → ∀ d, amount_of cs d = 0;
}.

Section fees.
Context `{!KVStore W, !FeeKeepers W, !StakingTypes, !SdkCoins}.
Context (bal : W → AccAddress → string → Z) `{!FeeLaws W bal}.

Lemma GetPoEContractAddress_ext (k k' : KState W) t :
  contractAddrCache k' = contractAddrCache k →
  (∀ key, kv_get (world k') poe_StoreKey key = kv_get (world k) poe_StoreKey key) →
  GetPoEContractAddress k' t = GetPoEContractAddress k t.
Proof. intros Hc Hw. unfold GetPoEContractAddress. by rewrite Hc, Hw. Qed.

Lemma DeductFees_moves acc fees v (c c' : Ctx (KState W)) :
  GetPoEContractAddress (store c) PoEContractTypeValset = Ok v →
  DeductFees acc fees c = (Ok (), c') →
  ∀ x d, bal (world (store c')) x d =
    bal (world (store c)) x d - (if decide (x = acc) then amount_of fees d else 0)
                              + (if decide (x = v) then amount_of fees d else 0).
Proof using FeeLaws0.
  intros Hv. unfold DeductFees. destruct (Coins_IsValid fees); cbn [negb]; [|done].
  unfold mbind at 1, M_bind at 1. rewrite Hv. unfold mbind, M_bind, try, on_world.
  destruct (SendCoins acc v fees (mkCtx (world (store c)) (events c))) as [[[]|e|e] c1] eqn:Hs; [|done|done].
  intros [= <-] x d. cbn. by rewrite (SendCoins_spec _ _ _ _ _ Hs).
Qed.

(** Who pays for a transaction. *)
Definition payer (tx : PoEFeeTx) : AccAddress := default (FeePayer tx) (FeeGranter tx).

(** When a transaction passes the fee deduction, the rest of the chain runs
    in a state where exactly the fee has moved from the one who pays, the granter
    if there is one, to the valset contract, and no other balance has changed. *)
Lemma deduct_fee_moves {A} tx v (next : M (KState W) A) (c c' : Ctx (KState W)) r :
  GetPoEContractAddress (store c) PoEContractTypeValset = Ok v →
  DeductFee_AnteHandle (Some tx) next c = (Ok r, c') →
  ∃ c1, next c1 = (Ok r, c') ∧
    ∀ x d, bal (world (store c1)) x d =
      bal (world (store c)) x d - (if decide (x = payer tx) then amount_of (Fee tx) d else 0)
                                + (if decide (x = v) then amount_of (Fee tx) d else 0).
Proof using FeeLaws0.
  intros Hv Hrun. unfold DeductFee_AnteHandle in Hrun.
  apply M_bind_ok in Hrun as (from & c1 & Hfrom & Hrun).
  assert (from = payer tx ∧ (∀ x d, bal (world (store c1)) x d = bal (world (store c)) x d) ∧
          GetPoEContractAddress (store c1) PoEContractTypeValset = Ok v) as (-> & Hbal & Hv1).
  { unfold payer. destruct (FeeGranter tx) as [g|]; [|by injection Hfrom as <- <-].
    destruct UseGrantedFees as [use|] eqn:Huse; [|done].
    apply M_bind_ok in Hfrom as ([] & c2 & Huse' & [= <- <-]). split; [done|].
    case_decide; [|by injection Huse' as <-]. rewrite wrapM_ok in Huse'. unfold on_world in Huse'.
    destruct (use g (FeePayer tx) (Fee tx) (mkCtx (world (store c)) (events c))) as [[[]|e|e] c3] eqn:Hg; [|done|done].
    injection Huse' as <-. destruct (UseGrantedFees_frame _ _ _ _ _ _ Huse Hg) as [Hb Hk]. cbn. split; [done|].
    rewrite <-Hv. by apply GetPoEContractAddress_ext. }
  apply M_bind_ok in Hrun as (has & c2 & [= <- <-] & Hrun). destruct (HasAccount _ _); cbn [negb] in Hrun; [|done].
  apply M_bind_ok in Hrun as ([] & c3 & Hded & Hrun). apply M_bind_ok in Hrun as ([] & c4 & [= <-] & Hrun).
  eexists. split; [exact Hrun|]. intros x d. cbn. rewrite <-Hbal.
  destruct (Coins_IsZero (Fee tx)) eqn:Hz; cbn [negb] in Hded.
  - injection Hded as <-. rewrite (Coins_IsZero_spec _ Hz). repeat case_decide; lia.
  - by rewrite (DeductFees_moves _ _ v _ _ Hv1 Hded).
Qed.
End fees.

(** ** Unbonding *)
Section unbonding.
Context `{!KVStore W, !PoEParamStore W, !Bech32, !SdkMath, !SdkText, !SdkCoins, !ContractCalls W}.

(** The event is one of the contract at [addr]. *)
Definition own_event (addr : AccAddress) (e : Event) : Prop :=
  ev_type e = WasmModuleEventType ∧ (AttributeKeyContractAddr, AccAddress_String addr) ∈ ev_attrs e.
(** [t] is the first completion time of the event. *)
Definition first_time (e : Event) (t : Z) : Prop :=
  ∃ i v, list_find (λ a : string * string, a.1 = "completion_time") (ev_attrs e) = Some (i, ("completion_time", v)) ∧
         ParseInt v = Ok t.

Lemma trusted_spec addr e :
  trusted addr e = true ↔ (AttributeKeyContractAddr, AccAddress_String addr) ∈ ev_attrs e.
Proof.
  unfold trusted. rewrite existsb_exists. setoid_rewrite andb_true_iff. setoid_rewrite bool_decide_eq_true.
  setoid_rewrite <-list_elem_of_In. split; [intros ([k v] & Hin & Hk & Hv); cbn in *; by subst|].
  intros Hin. eexists. by split.
Qed.

Lemma completion_time_spec addr es t :
  completion_time addr es = Ok t →
  ∃ pre e post, es = pre ++ e :: post ∧ own_event addr e ∧ first_time e t ∧
    Forall (λ x, own_event addr x → Forall (λ a, a.1 ≠ "completion_time") (ev_attrs x)) pre.
Proof.
  induction es as [|e es IH]; cbn; [done|].
  assert (∀ x, bool_decide (ev_type x = WasmModuleEventType) && trusted addr x = true ↔ own_event addr x) as Hown.
  { intros x. rewrite andb_true_iff, bool_decide_eq_true, trusted_spec. done. }
  rewrite <-negb_andb. destruct (_ && _) eqn:Ht; cbn [negb].
  - apply Hown in Ht. destruct (list_find _ _) as [[i [k v]]|] eqn:Hf.
    + intros Hp%wrap_ok. pose proof Hf as (Hl & Hk & _)%list_find_Some. cbn in Hk. subst k.
      exists [], e, es. split_and!; [done|exact Ht| |constructor]. by exists i, v.
    + intros (pre & x & post & -> & Hx & Hft & Hpre)%IH. exists (e :: pre), x, post.
      split_and!; [done|exact Hx|exact Hft|]. constructor; [|done]. intros _. by apply list_find_None in Hf.
  - intros (pre & x & post & -> & Hx & Hft & Hpre)%IH. exists (e :: pre), x, post.
    split_and!; [done|exact Hx|exact Hft|]. constructor; [|done]. intros Ho%Hown. congruence.
Qed.

(** C26: a successful undelegation executes the staking contract as the operator
    of the message, and the completion time it reports is the first one in the
    events of the staking contract itself: events of other contracts that carry a
    completion time are not taken. *)
Theorem undelegate_completion msg (c c' : Ctx (KState W)) t :
  Msg_Undelegate msg c = (Ok t, c') →
  ∃ op addr n resp em c1, AccAddressFromBech32 (MU_OperatorAddress msg) = Ok op ∧
    GetPoEContractAddress (store c) PoEContractTypeStaking = Ok addr ∧
    Int_Uint64 (WCoin_Amount (MU_Amount msg)) = Ok n ∧
    with_fresh_events (Execute addr op (enc_TG4StakeExecute (Unbond (NewWasmCoin n (WCoin_Denom (MU_Amount msg))))) [])
      (mkCtx (world (store c)) (events c)) = (Ok resp, em, c1) ∧ world (store c') = store c1 ∧
    ∃ pre e post, em = pre ++ e :: post ∧ own_event addr e ∧ first_time e t ∧
      Forall (λ x, own_event addr x → Forall (λ a, a.1 ≠ "completion_time") (ev_attrs x)) pre.
Proof.
  unfold Msg_Undelegate. intros (op & c1 & Hop & Hrun)%M_bind_ok.
  apply lift_ok in Hop as [Hop ->]. apply wrap_ok in Hop.
  apply M_bind_ok in Hrun as (addr & c2 & Haddr & Hrun). unfold reads in Haddr. injection Haddr as Haddr <-.
  apply wrap_ok in Haddr. apply M_bind_ok in Hrun as (t' & c3 & Hunb & Hrun).
  apply M_bind_ok in Hrun as ([] & c4 & [= <-] & [= <- <-]). rewrite wrapM_ok in Hunb.
  unfold on_world, UnbondDelegation in Hunb.
  destruct (nil_or _ _) as [[]|?|?]; [done| |done|done].
  destruct (Int_Uint64 _) as [n|?|?] eqn:Hn; [|done|done].
  destruct (with_fresh_events _ _) as [[o em] c5] eqn:Hex. destruct o as [resp|?|?]; [|done|done].
  injection Hunb as Ht <-. exists op, addr, n, resp, em, c5. split_and!; try done.
  by apply completion_time_spec.
Qed.
End unbonding.
