(* ===== verification/RefPoE.v ===== *)
(** A concrete chain with the PoE contracts: an engagement contract that keeps
    points, a staking contract that starts unbondings, accounts and a bank. It
    satisfies the laws of the interfaces of x/poe and is where its theorems are
    evaluated. *)
From stdpp Require Import base list strings gmap sets sorting pretty relations.
From Stdlib Require Import ZArith Lia Ascii.
From S2P Require Import Prelude Sdk RefStore Slice Json Privilege Wasm TwasmKeeper TwasmHandler TwasmSteps RefWorld TwasmProps GoTime PoETypes TwasmMsgs PoEMsgs PoETypesProps PoEKeeper PoEKeeperProps PoEContractIO PoEValset PoEServer PoEServerProps.
Open Scope Z_scope.

Record PWorld := mkPWorld {
  p_kv : RefKV; p_params : PoEParams; p_points : gmap string Z; p_balances : gmap (string * string) Z }.

Definition upd_p_kv (f : RefKV → RefKV) (w : PWorld) : PWorld :=
  mkPWorld (f (p_kv w)) (p_params w) (p_points w) (p_balances w).

#[export] Instance PWorld_store : KVStore PWorld := {
  kv_get w := kv_get (p_kv w);
  kv_set sk k v := upd_p_kv (kv_set sk k v);
  kv_delete sk k := upd_p_kv (kv_delete sk k);
  kv_iterate w := kv_iterate (p_kv w);
}.

#[export] Instance PWorld_kv_laws : KVLaws PWorld.
Proof.
  constructor; intros; cbn [kv_get kv_set kv_delete kv_iterate PWorld_store upd_p_kv p_kv].
  - apply (kv_get_set (W:=RefKV)).
  - apply (kv_get_delete (W:=RefKV)).
  - apply (kv_iterate_elem (W:=RefKV)).
  - apply (kv_iterate_sorted (W:=RefKV)).
Qed.

#[export] Instance PWorld_params : PoEParamStore PWorld := {
  param_HistoricalEntries w := Ok (HistoricalEntries_p (p_params w));
  param_InitialValEngagementPoints w := Ok (InitialValEngagementPoints (p_params w));
  param_MinDelegationAmounts w := Ok (MinDelegationAmounts (p_params w));
  poe_SetParamSet p := modify (λ w, mkPWorld (p_kv w) p (p_points w) (p_balances w));
}.

#[export] Instance PWorld_param_laws : PoEParamLaws PWorld.
Proof.
  constructor.
  - done.
  - done.
  - intros p c _. eexists. reflexivity.
  - intros p c c' [= <-]. done.
Qed.

(** ** Historical infos as texts *)
Fixpoint bits (p : positive) : string :=
  match p with xH => "" | xO p => String "0"%char (bits p) | xI p => String "1"%char (bits p) end.
Fixpoint of_bits (s : string) : positive :=
  match s with "" => xH | String "0"%char s' => xO (of_bits s') | String _ s' => xI (of_bits s') end.
Lemma of_bits_bits p : of_bits (bits p) = p.
Proof. induction p as [p IH|p IH|]; cbn; by rewrite ?IH. Qed.

#[export] Instance Ref_history : HistoryCodec := {
  NewHistoricalInfo := mkHistoricalInfo;
  MustMarshal_HI hi := bits (encode (HI_Header hi, HI_Valset hi));
  MustUnmarshalHistoricalInfo v :=
    match decode (A:=string * list string) (of_bits v) with
    | Some (h, vs) => Ok (mkHistoricalInfo h vs)
    | None => Panic "proto"
    end;
}.

#[export] Instance Ref_history_laws : HistoryCodecLaws.
Proof. constructor. intros [h vs]. cbn. by rewrite of_bits_bits, decode_encode. Qed.

(** ** Contracts *)
Definition member_points (w : PWorld) (s : string) : option Z :=
  p ← p_points w !! s; if decide (0 ≤ p < 2 ^ 63) then Some p else None.

#[export] Instance PWorld_calls : ContractCalls PWorld := {
  Execute addr op msg coins :=
    match msg with
    | JObj [("unbond", _)] =>
        EmitEvent (NewEvent "wasm" [("_contract_address", "furya1other"); ("completion_time", "1")]) ;;
        EmitEvent (NewEvent "wasm" [("_contract_address", AccAddress_String addr); ("completion_time", "1700")]) ;;
        mret JNil
    | _ => mret JNil
    end;
  QuerySmart w addr q :=
    match q with
    | JObj [("member", JObj [("addr", JStr s)])] =>
        Ok (JText (JObj [("points", from_option JNum JNull (member_points w s))]))
    | _ => Err (new_err "contract")
    end;
}.

#[export] Instance PWorld_vm : WasmVM PWorld := {
  Sudo addr msg :=
    match msg with
    | JObj [("update_member", JObj [("addr", JStr s); ("points", JNum n)])] =>
        modify (λ w, mkPWorld (p_kv w) (p_params w) (<[s := n]> (p_points w)) (p_balances w)) ;; mret JNil
    | _ => fail_with (new_err "contract")
    end;
}.

#[export] Instance Ref_text : SdkText := {
  WCoin_IsNegative c := match WCoin_Amount c with Some a => Ok (a <? 0) | None => Panic "nil" end;
  Int_IsInt64 a := match a with Some x => Ok ((- 2 ^ 63 <=? x) && (x <? 2 ^ 63)) | None => Panic "nil" end;
  Int_Uint64 a := match a with
                  | Some x => if decide (0 ≤ x < 2 ^ 64) then Ok x else Panic "Uint64() out of bounds"
                  | None => Panic "nil" end;
  Int_String a := from_option pretty "" a;
  WCoin_String c := from_option pretty "" (WCoin_Amount c) +:+ WCoin_Denom c;
  dec_Int := λ j a, match j with JNum z => Ok (Some z) | _ => Err ErrJSON end;
  NewWasmCoin n d := mkWasmCoin d (pretty n);
}.

Definition amount_in (cs : list Coin) (d : string) : Z := amount_of cs d.

#[export] Instance Ref_staking : StakingTypes := {
  EnsureLength d := Ok d;
  UpdateDescription old new := Ok new;
  GetCachedPubKey any := Some (mkPubKey "ed25519" (AnyValue any));
  IsAllGTE cs min := forallb (λ m, Amount m <=? amount_in cs (Denom m)) min;
  Coins_IsValid cs := forallb (λ c, 0 <? Amount c) cs;
  Coins_IsZero cs := forallb (λ c, Amount c =? 0) cs;
}.

(** ** Bank *)
Definition p_balance (w : PWorld) (x d : string) : Z := default 0 (p_balances w !! (x, d)).
Definition p_add (x : string) (c : Coin) (w : PWorld) : PWorld :=
  mkPWorld (p_kv w) (p_params w) (p_points w) (<[(x, Denom c) := p_balance w x (Denom c) + Amount c]> (p_balances w)).
Definition p_move (from to : string) (c : Coin) (w : PWorld) : PWorld :=
  p_add to c (p_add from (mkCoin (Denom c) (- Amount c)) w).

#[export] Instance PWorld_fees : FeeKeepers PWorld := {
  HasAccount w x := true;
  SendCoins from to cs :=
    enough ← gets (λ w, forallb (λ c, amount_of cs (Denom c) <=? p_balance w from (Denom c)) cs);
    if (enough : bool) then forM cs (λ c, modify (p_move from to c)) else fail_with (new_err "insufficient funds");
  UseGrantedFees := Some (λ g p f, mret ());
}.

Lemma p_add_balance y c w x d :
  p_balance (p_add y c w) x d =
  p_balance w x d + (if decide (x = y) then if decide (Denom c = d) then Amount c else 0 else 0).
Proof.
  unfold p_add, p_balance. cbn. destruct (decide (x = y)) as [->|Hx]; [destruct (decide (Denom c = d)) as [<-|Hd]|].
  - by rewrite lookup_insert_eq.
  - rewrite lookup_insert_ne by congruence. lia.
  - rewrite lookup_insert_ne by congruence. lia.
Qed.

Lemma p_move_balance from to c w x d :
  p_balance (p_move from to c w) x d =
  p_balance w x d - (if decide (x = from) then if decide (Denom c = d) then Amount c else 0 else 0)
                  + (if decide (x = to) then if decide (Denom c = d) then Amount c else 0 else 0).
Proof. unfold p_move. rewrite !p_add_balance. cbn. repeat case_decide; lia. Qed.

Lemma move_all from to cs (c c' : Ctx PWorld) :
  forM cs (λ x, modify (p_move from to x)) c = (Ok (), c') →
  ∀ x d, p_balance (store c') x d =
    p_balance (store c) x d - (if decide (x = from) then amount_of cs d else 0)
                            + (if decide (x = to) then amount_of cs d else 0).
Proof.
  revert c. induction cs as [|k cs IH]; intros c; cbn [forM].
  { intros [= <-] x d. change (amount_of [] d) with 0. repeat case_decide; lia. }
  unfold mbind, M_bind, modify. intros Hr x d. rewrite (IH _ Hr). cbn [store]. rewrite p_move_balance.
  change (amount_of (k :: cs) d) with ((if decide (Denom k = d) then Amount k else 0) + amount_of cs d).
  repeat case_decide; lia.
Qed.

#[export] Instance PWorld_fee_laws : FeeLaws PWorld p_balance.
Proof.
  constructor.
  - intros from to cs c c' Hs. cbn in Hs. unfold mbind at 1, M_bind at 1, gets in Hs.
    destruct (forallb _ _); [|done]. by apply move_all.
  - intros use g p f c c' [= <-] [= <-]. done.
  - intros cs Hz d. cbn in Hz. induction cs as [|c cs IH]; [done|]. cbn in Hz.
    change (amount_of (c :: cs) d) with ((if decide (Denom c = d) then Amount c else 0) + amount_of cs d).
    apply andb_true_iff in Hz as [Hc%Z.eqb_eq Hz]. rewrite (IH Hz). case_decide; lia.
Qed.
