(* ===== verification/PoEExamples.v ===== *)
(** The theorems about x/poe evaluated on the reference chain of [RefPoE]. *)
From stdpp Require Import base list strings gmap sets sorting pretty relations.
From Stdlib Require Import ZArith Lia.
From S2P Require Import Prelude Sdk RefStore Slice Json Privilege Wasm TwasmKeeper TwasmHandler TwasmSteps RefWorld TwasmProps GoTime PoETypes TwasmMsgs PoEMsgs PoETypesProps PoEKeeper PoEKeeperProps PoEContractIO PoEValset PoEServer PoEServerProps RefPoE.
Open Scope Z_scope.

(** ** Chains *)

(** A new chain: no contract, [n] historical entries, 100 initial points, alice has tokens. *)
Definition chain0 (n : Z) : KState PWorld :=
  mkKState (mkPWorld ∅ (mkPoEParams n 100 [mkCoin "utgd" 10]) ∅ (<[("alice", "utgd") := 50]> ∅)) ∅ [].

Definition step_of {A} (m : M (KState PWorld) A) (k : KState PWorld) : KState PWorld := store (m (mkCtx k [])).2.

Lemma step_ok (m : M (KState PWorld) ()) k :
  is_ok (m (mkCtx k [])).1 = true → m (mkCtx k []) = (Ok (), (m (mkCtx k [])).2).
Proof. by destruct (m (mkCtx k [])) as [[[]|e|e] c]. Qed.

Lemma chain0_empty n s : kv_get (world (chain0 n)) poe_StoreKey s = None.
Proof. apply lookup_empty. Qed.

Lemma chain0_inv n : keeper_inv (chain0 n).
Proof. split; [intros s a; by rewrite chain0_empty|]. intros t a. cbn. by rewrite lookup_empty. Qed.

(** Three contracts are set. *)
Definition chain1 (n : Z) : KState PWorld :=
  step_of (SetPoEContractAddress PoEContractTypeStaking "stake") (chain0 n).
Definition chain2 (n : Z) : KState PWorld :=
  step_of (SetPoEContractAddress PoEContractTypeValset "valset") (chain1 n).
Definition chain3 (n : Z) : KState PWorld :=
  step_of (SetPoEContractAddress PoEContractTypeEngagement "eng") (chain2 n).

Lemma set_step t a k : t ∈ contract_types → a ≠ "" → keeper_step k (step_of (SetPoEContractAddress t a) k).
Proof. intros Ht Ha. by apply (step_set k t a [] (SetPoEContractAddress t a (mkCtx k [])).2). Qed.

Lemma chain3_steps n : rtc keeper_step (chain0 n) (chain3 n).
Proof.
  apply rtc_l with (chain1 n); [apply set_step; [set_solver|done]|].
  apply rtc_l with (chain2 n); [apply set_step; [set_solver|done]|].
  apply rtc_once, set_step; [set_solver|done].
Qed.

(** C12: the staking contract is found after a restart. *)
Lemma address_lookup_witness :
  GetPoEContractAddress (mkKState (world (chain3 3)) ∅ []) PoEContractTypeStaking = Ok "stake".
Proof.
  pose proof (address_lookup (chain0 3) (mkKState (world (chain3 3)) ∅ []) PoEContractTypeStaking (chain0_inv 3))
    as Hl.
  rewrite decide_True in Hl by set_solver. rewrite Hl; [vm_compute; reflexivity|].
  eapply rtc_r; [apply chain3_steps|]. apply step_restart.
Defined.

(** The address of the mixer is set on a branch of the store that is dropped. *)
Lemma discarded_address_witness :
  GetPoEContractAddress (store (discard (SetPoEContractAddress PoEContractTypeMixer "mix") (mkCtx (chain0 3) [])).2)
    PoEContractTypeMixer = Ok "mix".
Proof.
  apply (discarded_address PoEContractTypeMixer "mix" (mkCtx (chain0 3) [])); [set_solver|apply chain0_empty].
Defined.

Lemma chain3_short n : short_addresses (world (chain3 n)).
Proof.
  intros s a. cbn [chain3 chain2 chain1 step_of SetPoEContractAddress modify store snd world].
  rewrite !kv_get_set, chain0_empty. repeat case_decide; intros [= <-]; cbn; lia.
Qed.

(** What the chain exports, in the order of the keys. *)
Definition dump3 : PoEGenesisState :=
  mkPoEGenesis (mkPoEParams 3 100 [mkCoin "utgd" 10]) (GenesisState_ImportDump (Some
    [mkPoEContract PoEContractTypeEngagement "furya1eng"; mkPoEContract PoEContractTypeStaking "furya1stake";
     mkPoEContract PoEContractTypeValset "furya1valset"])).

(** C11: the three contracts are exported and imported on a new chain. *)
Lemma genesis_roundtrip_witness :
  ∃ c', InitGenesis (λ _, Ok ()) (λ _, Ok ()) (λ _, Ok "") (λ _, mret true) dump3 (mkCtx (chain0 7) []) = (Ok (), c') ∧
    ExportGenesis (store c') = Ok dump3.
Proof.
  destruct (genesis_roundtrip (λ _ : json_bytes, Ok ()) (λ _, Ok ()) (λ _, Ok "") (λ _, mret true)
    (chain3 3) dump3 (mkCtx (chain0 7) []) (proj1 (reachable_keeper_inv _ _ (chain3_steps 3) (chain0_inv 3)))
    (chain3_short 3)) as (c' & Hi & _ & He & _).
  - vm_compute. reflexivity.
  - vm_compute. reflexivity.
  - intros s. apply chain0_empty.
  - exists c'. split; [exact Hi|exact He].
Defined.

(** ** Historical infos *)
Definition block (h : Z) (k : KState PWorld) : KState PWorld := step_of (TrackHistoricalInfo h "header") k.
Definition after4 : KState PWorld := block 4 (block 3 (block 2 (block 1 (chain0 2)))).

Lemma chain0_window n : window (world (chain0 n)) 1 1.
Proof. intros i Hi. unfold info_at. rewrite chain0_empty. split; [by intros []|lia]. Qed.

Lemma chain0_readable n : readable (world (chain0 n)).
Proof. intros i v. unfold info_at. by rewrite chain0_empty. Qed.

Lemma run_next h0 k0 h k : chain_run h0 k0 h k →
  is_ok (TrackHistoricalInfo h "header" (mkCtx k [])).1 = true → chain_run h0 k0 (h + 1) (block h k).
Proof. intros Hr Hok. exact (run_block h0 k0 h k "header" [] _ Hr (step_ok _ k Hok)). Qed.

Lemma after4_run : chain_run 1 (chain0 2) 5 after4.
Proof.
  apply (run_next 1 (chain0 2) 4); [|vm_compute; reflexivity].
  apply (run_next 1 (chain0 2) 3); [|vm_compute; reflexivity].
  apply (run_next 1 (chain0 2) 2); [|vm_compute; reflexivity].
  apply (run_next 1 (chain0 2) 1); [apply run_start|vm_compute; reflexivity].
Qed.

(** C10: the fifth block of a chain that keeps two infos. *)
Lemma history_window_witness :
  ∃ c' lo, TrackHistoricalInfo 5 "five" (mkCtx after4 []) = (Ok (), c') ∧ 5 - 2 < lo ≤ 5 ∧
    window (world (store c')) lo (5 + 1) ∧ GetHistoricalInfo (store c') 5 = Ok (Some (NewHistoricalInfo "five" [])).
Proof.
  apply (history_window 1 (chain0 2) 1 2 5 after4 2 "five" []);
    [lia|apply chain0_readable|apply chain0_window|reflexivity|lia|apply after4_run|vm_compute; reflexivity].
Defined.

(** The number of entries is set to zero after four blocks. *)
Definition no_entries : KState PWorld :=
  step_of (setParams (mkPoEParams 0 100 [])) after4.

(** The infos of the third and the fourth block stay. *)
Lemma history_gap_witness :
  is_Some (info_at (world after4) 4) ∧
  is_Some (info_at (world (store (TrackHistoricalInfo 5 "five" (mkCtx no_entries [])).2)) 4).
Proof.
  split; [vm_compute; by eexists|].
  destruct (history_gap 5 0 "five" (mkCtx no_entries [])) as (c' & -> & Hi & _);
    [vm_compute; reflexivity|lia|vm_compute; reflexivity|].
  cbn [snd]. rewrite Hi by lia. vm_compute. by eexists.
Defined.

(** ** Blocks, points, fees, unbonding *)

(** Bob updates the validator set of the chain [w3]. *)
Lemma poe_EndBlocker_spec_witness :
  is_ok (EndBlocker (λ old new, old ++ new) (mkCtx w3 [])).1 = true ∧
  subscribers w3 PrivilegeTypeValidatorSetUpdate = ["bob"].
Proof.
  destruct (poe_EndBlocker_spec (λ old new, old ++ new) (mkCtx w3 []) w3_inv) as [-> _].
  split; vm_compute; reflexivity.
Defined.

Definition member_of (w : PWorld) (op : AccAddress) : option Z := member_points w (AccAddress_String op).

Lemma member_of_query w op :
  QuerySmart w "eng" (enc_MemberQuery (AccAddress_String op)) =
  Ok (JText (JObj [("points", from_option JNum JNull (member_of w op))])).
Proof. unfold member_of. reflexivity. Qed.

Lemma member_of_range w op p : member_of w op = Some p → 0 ≤ p < 2 ^ 63.
Proof.
  unfold member_of, member_points. destruct (p_points w !! _) as [q|]; cbn [mbind option_bind]; [|done].
  case_decide; [by intros [= <-]|done].
Qed.

Lemma member_of_update (c : Ctx PWorld) op n : 0 ≤ n < 2 ^ 63 → ∃ r c',
  Sudo "eng" (enc_UpdateMember (mkContractMember (AccAddress_String op) n 0)) c = (Ok r, c') ∧
  member_of (store c') op = Some n ∧ ∀ op', op' ≠ op → member_of (store c') op' = member_of (store c) op'.
Proof.
  intros Hn. eexists _, _. split; [reflexivity|]. unfold member_of, member_points. cbn [store p_points]. split.
  - rewrite lookup_insert_eq. cbn. by rewrite decide_True.
  - intros op' Hne. rewrite lookup_insert_ne; [done|]. intros He. apply Hne. symmetry.
    by apply (app_inj_l "furya1").
Qed.

(** C25: alice delegates 12 with a minimum of 10 and gets 100 points. *)
Lemma initial_points_witness :
  ∃ c', SetValidatorInitialEngagementPoints "alice" (mkWCoin "utgd" (Some 12)) (mkCtx (chain3 2) []) = (Ok (), c') ∧
    member_of (world (store c')) "alice" = Some 100.
Proof.
  destruct (initial_points "eng" member_of member_of_query member_of_range member_of_update
    "alice" "utgd" 12 [mkCoin "utgd" 10] 100 (mkCtx (chain3 2) [])) as (c' & Hrun & Hp & _);
    [vm_compute; reflexivity|reflexivity|lia|reflexivity|vm_compute; reflexivity|].
  exists c'. split; [exact Hrun|]. unfold points_of in Hp.
  change (qualifies "utgd" 12 [mkCoin "utgd" 10]) with true in Hp.
  destruct (member_of (world (store c')) "alice") as [p|]; vm_compute in Hp; [by rewrite Hp|done].
Defined.

(** alice pays a fee of 5; bob unbonds 7. *)
Definition fee_tx : PoEFeeTx := mkPoEFeeTx [mkCoin "utgd" 5] "alice" None.
Definition undelegate_msg : MsgUndelegate := mkMsgUndelegate "furya1bob" (mkWCoin "utgd" (Some 7)).

(** The fee goes to the valset contract. *)
Lemma deduct_fee_moves_witness :
  let c' := (DeductFee_AnteHandle (Some fee_tx) (mret ()) (mkCtx (chain3 2) [])).2 in
  p_balance (world (store c')) "alice" "utgd" = 45 ∧ p_balance (world (store c')) "valset" "utgd" = 5.
Proof.
  intros c'. destruct (deduct_fee_moves p_balance fee_tx "valset" (mret ()) (mkCtx (chain3 2) []) c' ())
    as (c1 & Hc1 & Hb); [vm_compute; reflexivity|apply (step_ok _ (chain3 2)); vm_compute; reflexivity|].
  injection Hc1 as <-. rewrite !Hb. split; vm_compute; reflexivity.
Defined.

(** C26: another contract emits a completion time too. *)
Lemma undelegate_completion_witness :
  ∃ pre e post, own_event "stake" e ∧ first_time e 1700 ∧
    (with_fresh_events (Execute "stake" "bob" (enc_TG4StakeExecute (Unbond (NewWasmCoin 7 "utgd"))) [])
      (mkCtx (world (chain3 2)) [])).1.2 = pre ++ e :: post.
Proof.
  destruct (undelegate_completion undelegate_msg (mkCtx (chain3 2) [])
    (Msg_Undelegate undelegate_msg (mkCtx (chain3 2) [])).2 1700)
    as (op & addr & n & resp & em & c1 & Hop & Ha & Hn & Hex & _ & pre & e & post & -> & Ho & Ht & _);
    [vm_compute; reflexivity|].
  vm_compute in Ha, Hop, Hn. injection Ha as <-. injection Hop as <-. injection Hn as <-.
  exists pre, e, post. split; [exact Ho|]. split; [exact Ht|]. cbn [store events undelegate_msg MU_Amount WCoin_Denom] in Hex.
  by rewrite Hex.
Defined.
