(* ===== verification/PoEAdapters.v ===== *)
(** The adapters of the PoE contracts (x/poe/contract: pt4.go, pt4_stake.go,
    pt4_engagement.go, petri_distribution.go, voting.go, petri_oc_proposals.go,
    petri_trusted_circle.go and the remaining operations of petri_valset.go).

    An adapter is the address of its contract or the error of looking the address
    up. Amounts in responses are decimal texts ([wasmvmtypes.Coin]) or the SDK's
    numbers, whose JSON form is a parameter ([SdkDecimal], [SdkText]). *)
From stdpp Require Import base list strings gmap sets pretty.
From Stdlib Require Import ZArith Lia Ascii.
From S2P Require Import Prelude Sdk Slice Json Privilege Wasm TwasmKeeper GoTime PoETypes TwasmMsgs PoEMsgs PoEContractIO PoEValset.
Open Scope Z_scope.

(** More of [sdk.Dec] and [sdk.Int], with their JSON forms. *)
Class SdkDecimal := {
  Dec_QuoInt64 : Dec → Z → outcome Dec;
  Int_Add : Int → Int → outcome Int;
  Int_IsZero : Int → outcome bool;
  dec_Dec : decoder Dec;
  enc_Dec : Dec → json;
  enc_Int : Int → json;
}.

Class SdkDecimalLaws `{SdkDecimal} := {
  (** The quotient is truncated. *)
  Dec_QuoInt64_some a n : n ≠ 0 → Dec_QuoInt64 (Some a) n = Ok (Some (Z.quot a n));
  (** A sum of at most 256 bits is exact. *)
  Int_Add_some a b : Z.abs (a + b) < 2 ^ 256 → Int_Add (Some a) (Some b) = Ok (Some (a + b));
  Int_IsZero_some a : Int_IsZero (Some a) = Ok (a =? 0);
}.

(** ** Decoders of single fields *)

(** A uint64 field tagged [string]: the number is written as a text. *)
Definition dec_uint64_string : decoder Z := λ j n,
  match j with
  | JStr "null" => Ok n
  | JStr s => match unsigned s with
              | Some z => if z <? 2 ^ 64 then Ok z else Err ErrJSON
              | None => Err ErrJSON
              end
  | JNull => Ok n
  | _ => Err ErrJSON
  end.

Definition dec_uint32 : decoder Z := dec_int (λ z, (0 <=? z) && (z <? 2 ^ 32)).

(** [sdk.Coin] *)
Definition dec_SdkCoin `{SdkText} : decoder WireCoin := dec_struct
  [ field "denom" WCoin_Denom (λ x c, mkWCoin x (WCoin_Amount c)) dec_string;
    field "amount" WCoin_Amount (λ x c, mkWCoin (WCoin_Denom c) x) dec_Int ].
Definition zero_coin : WireCoin := mkWCoin "" None.

(** ** Responses of pt4 contracts *)
Definition dec_ContractMember : decoder ContractMember := dec_struct
  [ field "addr" CM_Addr (λ x m, mkContractMember x (CM_Points m) (CM_StartHeight m)) dec_string;
    field "points" CM_Points (λ x m, mkContractMember (CM_Addr m) x (CM_StartHeight m)) dec_uint64;
    field "start_height" CM_StartHeight (λ x m, mkContractMember (CM_Addr m) (CM_Points m) x) dec_uint64 ].
Definition zero_member : ContractMember := mkContractMember "" 0 0.

Definition dec_TG4MemberListResponse : decoder (list ContractMember) := dec_struct
  [ field "members" id (λ x _, x) (dec_list zero_member dec_ContractMember) ].
Definition dec_TG4TotalPointsResponse : decoder Z := dec_struct [ field "total_points" id (λ x _, x) dec_int64 ].
Definition dec_TG4AdminResponse : decoder string := dec_struct [ field "admin" id (λ x _, x) dec_string ].

(** ** Responses of the staking contract *)
Record TG4StakedAmountsResponse := mkStaked { Liquid : WasmCoin; Vesting : WasmCoin }.
Record TG4StakeClaim := mkClaim { Claim_Addr : string; Claim_Amount : Int; CreationHeight : Z; ReleaseAt : Z }.
Definition zero_claim : TG4StakeClaim := mkClaim "" None 0 0.

(** [stakingtypes.UnbondingDelegationEntry]; the time in nanoseconds. *)
Record UnbondingEntry := mkEntry {
  InitialBalance : Int; CompletionTime : Z; Balance : Int; Entry_CreationHeight : Z }.

(** ** Responses of the voting contracts *)
Record ContractVotingRules := mkContractRules {
  CVR_VotingPeriod : Z; CVR_Quorum : Dec; CVR_Threshold : Dec; CVR_AllowEndEarly : bool }.
Record GrantEngagementProposal := mkGrant { Grant_Member : string; Grant_Points : Z }.
Record SlashProposal := mkSlash { Slash_Member : string; Slash_Portion : Dec }.
Record OversightProposal := mkOversight {
  GrantEngagement : option GrantEngagementProposal; OP_Slash : option SlashProposal }.
Record Votes := mkVotes { Votes_Yes : Z; Votes_No : Z; Votes_Abstain : Z; Votes_Veto : Z }.
Record OCProposalResponse := mkOCProposal {
  OCP_ID : Z; OCP_Title : string; OCP_Description : string; OCP_Proposal : OversightProposal;
  OCP_Status : string; OCP_CreatedBy : string; OCP_Rules : ContractVotingRules; OCP_TotalPoints : Z;
  OCP_Votes : Votes }.
Definition zero_proposal : OCProposalResponse :=
  mkOCProposal 0 "" "" (mkOversight None None) "" "" (mkContractRules 0 None None false) 0 (mkVotes 0 0 0 0).

(** ** Responses of the valset contract *)
Record DistributionContract := mkDistribution { DC_Address : string; DC_Ratio : Dec }.
Record ValsetConfigResponse := mkValsetConfigResponse {
  VC_Membership : string; VC_MinPoints : Z; VC_MaxValidators : Z; VC_Scaling : Z; VC_EpochReward : WireCoin;
  VC_FeePercentage : Dec; VC_DistributionContracts : list DistributionContract; ValidatorGroup : string;
  VC_AutoUnjail : bool }.
Definition zero_config : ValsetConfigResponse := mkValsetConfigResponse "" 0 0 0 zero_coin None [] "" false.
Record ValidatorSlashing := mkSlashing { Slashing_Height : Z; Slashing_Portion : Dec }.
Record ValsetEpochResponse := mkEpoch {
  VE_EpochLength : Z; CurrentEpoch : Z; LastUpdateTime : Z; LastUpdateHeight : Z }.

Definition dec_ValsetEpochResponse : decoder ValsetEpochResponse := dec_struct
  [ field "epoch_length" VE_EpochLength (λ x '(mkEpoch _ b c d), mkEpoch x b c d) dec_uint64;
    field "current_epoch" CurrentEpoch (λ x '(mkEpoch a _ c d), mkEpoch a x c d) dec_uint64;
    field "last_update_time" LastUpdateTime (λ x '(mkEpoch a b _ d), mkEpoch a b x d) dec_uint64;
    field "last_update_height" LastUpdateHeight (λ x '(mkEpoch a b c _), mkEpoch a b c x) dec_uint64 ].

Section decoders.
Context `{!SdkText, !SdkDecimal, !ForeignDecoders}.

Definition dec_TG4StakedAmountsResponse : decoder TG4StakedAmountsResponse := dec_struct
  [ field "liquid" Liquid (λ x r, mkStaked x (Vesting r)) dec_WasmCoin;
    field "vesting" Vesting (λ x r, mkStaked (Liquid r) x) dec_WasmCoin ].

Definition dec_TG4StakeClaim : decoder TG4StakeClaim := dec_struct
  [ field "addr" Claim_Addr (λ x '(mkClaim _ b c d), mkClaim x b c d) dec_string;
    field "amount" Claim_Amount (λ x '(mkClaim a _ c d), mkClaim a x c d) dec_Int;
    field "creation_height" CreationHeight (λ x '(mkClaim a b _ d), mkClaim a b x d) dec_uint64;
    field "release_at" ReleaseAt (λ x '(mkClaim a b c _), mkClaim a b c x) dec_uint64_string ].
Definition dec_TG4StakeClaimsResponse : decoder (list TG4StakeClaim) := dec_struct
  [ field "claims" id (λ x _, x) (dec_list zero_claim dec_TG4StakeClaim) ].

(** [RewardsResponse] has no tags: its field is found by the name Rewards, in any case. *)
Definition dec_RewardsResponse : decoder WireCoin := dec_struct [ field "Rewards" id (λ x _, x) dec_SdkCoin ].
Definition dec_DelegatedResponse : decoder string := dec_struct [ field "delegated" id (λ x _, x) dec_string ].

Definition dec_ContractVotingRules : decoder ContractVotingRules := dec_struct
  [ field "voting_period" CVR_VotingPeriod (λ x '(mkContractRules _ b c d), mkContractRules x b c d) dec_uint32;
    field "quorum" CVR_Quorum (λ x '(mkContractRules a _ c d), mkContractRules a x c d) dec_Dec;
    field "threshold" CVR_Threshold (λ x '(mkContractRules a b _ d), mkContractRules a b x d) dec_Dec;
    field "allow_end_early" CVR_AllowEndEarly (λ x '(mkContractRules a b c _), mkContractRules a b c x) dec_bool ].
Definition dec_OversightProposal : decoder OversightProposal := dec_struct
  [ field "grant_engagement" GrantEngagement (λ x p, mkOversight x (OP_Slash p))
      (dec_ptr (mkGrant "" 0) (dec_struct
        [ field "member" Grant_Member (λ x g, mkGrant x (Grant_Points g)) dec_string;
          field "points" Grant_Points (λ x g, mkGrant (Grant_Member g) x) dec_uint64 ]));
    field "punish" OP_Slash (λ x p, mkOversight (GrantEngagement p) x)
      (dec_ptr (mkSlash "" None) (dec_struct
        [ field "member" Slash_Member (λ x g, mkSlash x (Slash_Portion g)) dec_string;
          field "portion" Slash_Portion (λ x g, mkSlash (Slash_Member g) x) dec_Dec ])) ].
Definition dec_Votes : decoder Votes := dec_struct
  [ field "yes" Votes_Yes (λ x '(mkVotes _ b c d), mkVotes x b c d) dec_uint64;
    field "no" Votes_No (λ x '(mkVotes a _ c d), mkVotes a x c d) dec_uint64;
    field "abstain" Votes_Abstain (λ x '(mkVotes a b _ d), mkVotes a b x d) dec_uint64;
    field "veto" Votes_Veto (λ x '(mkVotes a b c _), mkVotes a b c x) dec_uint64 ].
Definition dec_OCProposalResponse : decoder OCProposalResponse := dec_struct
  [ field "id" OCP_ID (λ x '(mkOCProposal _ b c d e f g h i), mkOCProposal x b c d e f g h i) dec_uint64;
    field "title" OCP_Title (λ x '(mkOCProposal a _ c d e f g h i), mkOCProposal a x c d e f g h i) dec_string;
    field "description" OCP_Description (λ x '(mkOCProposal a b _ d e f g h i), mkOCProposal a b x d e f g h i) dec_string;
    field "proposal" OCP_Proposal (λ x '(mkOCProposal a b c _ e f g h i), mkOCProposal a b c x e f g h i) dec_OversightProposal;
    field "status" OCP_Status (λ x '(mkOCProposal a b c d _ f g h i), mkOCProposal a b c d x f g h i) dec_string;
    field "created_by" OCP_CreatedBy (λ x '(mkOCProposal a b c d e _ g h i), mkOCProposal a b c d e x g h i) dec_string;
    field "rules" OCP_Rules (λ x '(mkOCProposal a b c d e f _ h i), mkOCProposal a b c d e f x h i) dec_ContractVotingRules;
    field "total_points" OCP_TotalPoints (λ x '(mkOCProposal a b c d e f g _ i), mkOCProposal a b c d e f g x i) dec_uint64;
    field "votes" OCP_Votes (λ x '(mkOCProposal a b c d e f g h _), mkOCProposal a b c d e f g h x) dec_Votes ].
Definition dec_OCProposalListResponse : decoder (list OCProposalResponse) := dec_struct
  [ field "proposals" id (λ x _, x) (dec_list zero_proposal dec_OCProposalResponse) ].

Definition dec_DistributionContract : decoder DistributionContract := dec_struct
  [ field "contract" DC_Address (λ x d, mkDistribution x (DC_Ratio d)) dec_string;
    field "ratio" DC_Ratio (λ x d, mkDistribution (DC_Address d) x) dec_Dec ].
Definition dec_ValsetConfigResponse : decoder ValsetConfigResponse := dec_struct
  [ field "membership" VC_Membership
      (λ x '(mkValsetConfigResponse _ b c d e f g h i), mkValsetConfigResponse x b c d e f g h i) dec_string;
    field "min_points" VC_MinPoints
      (λ x '(mkValsetConfigResponse a _ c d e f g h i), mkValsetConfigResponse a x c d e f g h i) dec_uint64;
    field "max_validators" VC_MaxValidators
      (λ x '(mkValsetConfigResponse a b _ d e f g h i), mkValsetConfigResponse a b x d e f g h i) dec_uint32;
    field "scaling" VC_Scaling
      (λ x '(mkValsetConfigResponse a b c _ e f g h i), mkValsetConfigResponse a b c x e f g h i) dec_uint32;
    field "epoch_reward" VC_EpochReward
      (λ x '(mkValsetConfigResponse a b c d _ f g h i), mkValsetConfigResponse a b c d x f g h i) dec_SdkCoin;
    field "fee_percentage" VC_FeePercentage
      (λ x '(mkValsetConfigResponse a b c d e _ g h i), mkValsetConfigResponse a b c d e x g h i) dec_Dec;
    field "distribution_contracts" VC_DistributionContracts
      (λ x '(mkValsetConfigResponse a b c d e f _ h i), mkValsetConfigResponse a b c d e f x h i)
      (dec_list (mkDistribution "" None) dec_DistributionContract);
    field "validator_group" ValidatorGroup
      (λ x '(mkValsetConfigResponse a b c d e f g _ i), mkValsetConfigResponse a b c d e f g x i) dec_string;
    field "auto_unjail" VC_AutoUnjail
      (λ x '(mkValsetConfigResponse a b c d e f g h _), mkValsetConfigResponse a b c d e f g h x) dec_bool ].

(** Of [ListValidatorSlashingResponse] only the slashings are used; the other
    two fields are decoded and dropped. *)
Record ListValidatorSlashingResponse := mkSlashingResponse {
  LS_Operator : string; LS_StartHeight : Z; LS_Slashing : list ValidatorSlashing }.
Definition dec_ValidatorSlashing : decoder ValidatorSlashing := dec_struct
  [ field "slash_height" Slashing_Height (λ x s, mkSlashing x (Slashing_Portion s)) dec_uint64;
    field "portion" Slashing_Portion (λ x s, mkSlashing (Slashing_Height s) x) dec_Dec ].
Definition dec_ListValidatorSlashingResponse : decoder ListValidatorSlashingResponse := dec_struct
  [ field "operator" LS_Operator (λ x '(mkSlashingResponse _ b c), mkSlashingResponse x b c) dec_string;
    field "start_height" LS_StartHeight (λ x '(mkSlashingResponse a _ c), mkSlashingResponse a x c) dec_uint64;
    field "slashing" LS_Slashing (λ x '(mkSlashingResponse a b _), mkSlashingResponse a b x)
      (dec_list (mkSlashing 0 None) dec_ValidatorSlashing) ].

(** ** Messages *)
Definition enc_SlashProposal (p : SlashProposal) : json :=
  JObj [("member", JStr (Slash_Member p)); ("portion", enc_Dec (Slash_Portion p))].
Definition enc_GrantEngagementProposal (p : GrantEngagementProposal) : json :=
  JObj [("member", JStr (Grant_Member p)); ("points", JNum (Grant_Points p))].
Definition enc_OversightProposal (p : OversightProposal) : json :=
  enc_omitempty [("grant_engagement", enc_GrantEngagementProposal <$> GrantEngagement p);
                 ("punish", enc_SlashProposal <$> OP_Slash p)].

(** [OCProposalsExecuteMsg]: one of its members is set. *)
Inductive OCProposalsExecuteMsg :=
  | OC_Propose (Title Description : string) (Proposal : OversightProposal)
  | OC_Vote (Vote : string) (ProposalID : Z)
  | OC_Execute (ProposalID : Z)
  | OC_Close (ProposalID : Z).
Definition enc_OCProposalsExecuteMsg (m : OCProposalsExecuteMsg) : json :=
  match m with
  | OC_Propose t d p =>
      JObj [("propose", JObj [("title", JStr t); ("description", JStr d); ("proposal", enc_OversightProposal p)])]
  | OC_Vote v id => JObj [("vote", JObj [("vote", JStr v); ("proposal_id", JNum id)])]
  | OC_Execute id => JObj [("execute", JObj [("proposal_id", JNum id)])]
  | OC_Close id => JObj [("close", JObj [("proposal_id", JNum id)])]
  end.
End decoders.

(** [TrustedCircleExecute] *)
Inductive TrustedCircleExecute :=
  | TC_DepositEscrow
  | TC_AddVotingMembers (Title Description : string) (Voters : list string)
  | TC_AddRemoveNonVotingMembers (Title Description : string) (Add Remove : list string)
  | TC_Execute (ProposalID : Z)
  | TC_WithdrawRewards.
Definition enc_strings (l : list string) : json := JArr (JStr <$> l).
Definition enc_TrustedCircleExecute (m : TrustedCircleExecute) : json :=
  match m with
  | TC_DepositEscrow => JObj [("deposit_escrow", JObj [])]
  | TC_AddVotingMembers t d vs =>
      JObj [("propose", JObj [("title", JStr t); ("description", JStr d);
        ("proposal", JObj [("add_voting_members", JObj [("voters", enc_strings vs)])])])]
  | TC_AddRemoveNonVotingMembers t d a r =>
      JObj [("propose", JObj [("title", JStr t); ("description", JStr d);
        ("proposal", JObj [("add_remove_non_voting_members", JObj [("add", enc_strings a); ("remove", enc_strings r)])])])]
  | TC_Execute id => JObj [("execute", JObj [("proposal_id", JNum id)])]
  | TC_WithdrawRewards => JObj [("withdraw_rewards", JObj [])]
  end.

(** [TG4EngagementExecute] *)
Inductive TG4EngagementExecute :=
  | UpdateMembers (Add : list ContractMember) (Remove : list string)
  | EngagementUpdateAdmin (NewAdmin : option string)
  | WithdrawRewards (Owner Receiver : option string)
  | DelegateWithdrawal (Delegated : string).
Definition enc_TG4EngagementExecute (m : TG4EngagementExecute) : json :=
  match m with
  | UpdateMembers a r => JObj [("update_members", JObj [("add", JArr (enc_ContractMember <$> a)); ("remove", enc_strings r)])]
  | EngagementUpdateAdmin a => JObj [("update_admin", enc_omitempty [("admin", JStr <$> a)])]
  | WithdrawRewards o r => JObj [("withdraw_rewards", enc_omitempty [("owner", JStr <$> o); ("receiver", JStr <$> r)])]
  | DelegateWithdrawal d => JObj [("delegate_withdrawal", JObj [("delegated", JStr d)])]
  end.

(** ** Operations *)
Section adapters.
Context `{!ContractCalls W, !Bech32, !SdkMath, !SdkText, !SdkDecimal, !SdkCoins, !ForeignDecoders}.
Implicit Types (w : W).
Abbreviation Adapter := (outcome AccAddress) (only parsing).

(** *** pt4 contracts *)

(** The page key is a JSON text or nil. *)
Definition QueryTG4MembersByWeight w (pt4Addr : AccAddress) (pagination : option (json_bytes * Z)) :
    outcome (list ContractMember) :=
  q ← match pagination with
      | None => Ok (None, 0)
      | Some (JNil, limit) => Ok (None, int64 limit)
      | Some (sa, limit) =>
          m ← wrap "query pt4 members by weight" (Unmarshal dec_ContractMember sa zero_member);
          Ok (Some m, int64 limit)
      end;
  doQuery w pt4Addr
    (JObj [("list_members_by_points",
            enc_omitempty [("start_after", enc_ContractMember <$> (q.1 : option ContractMember)); ("limit", nonzero q.2)])])
    dec_TG4MemberListResponse [].

Definition QueryTG4Members w (pt4Addr : AccAddress) (pagination : option Paginator) : outcome (list ContractMember) :=
  let '(startAfter, limit) := ToQuery pagination in
  doQuery w pt4Addr
    (JObj [("list_members", enc_omitempty [("start_after", nonempty startAfter); ("limit", nonzero limit)])])
    dec_TG4MemberListResponse [].

Definition QueryTG4TotalPoints w (pt4Addr : AccAddress) : outcome Z :=
  doQuery w pt4Addr (JObj [("total_points", JObj [])]) dec_TG4TotalPointsResponse 0.

(** [None] without an admin *)
Definition QueryTG4Admin w (pt4Addr : AccAddress) : outcome (option AccAddress) :=
  admin ← doQuery w pt4Addr (JObj [("admin", JObj [])]) dec_TG4AdminResponse "";
  if decide (admin = "") then Ok None else a ← AccAddressFromBech32 admin; Ok (Some a).

(** *** The staking contract *)
Definition enc_StakedQuery (addr : string) : json := JObj [("staked", JObj [("address", JStr addr)])].

Definition QueryStakedAmount w (stakeAddr opAddr : AccAddress) : outcome TG4StakedAmountsResponse :=
  doQuery w stakeAddr (enc_StakedQuery (AccAddress_String opAddr)) dec_TG4StakedAmountsResponse
    (mkStaked (mkWasmCoin "" "") (mkWasmCoin "" "")).

(** [StakeContractAdapter.QueryStakedAmount]. The lookup error of the adapter is
    not checked: [contractAddr] is nil then. The error of a text that is no
    number is built from the nil error of the query before, so it is nil, too. *)
Definition StakedAmount w (a : Adapter) (opAddr : AccAddress) : outcome (option Z) :=
  let contractAddr := match a with Ok addr => addr | _ => "" end in
  resp ← wrap "query staked amount" (QueryStakedAmount w contractAddr opAddr);
  match NewIntFromString (WC_Amount (Liquid resp)) with
  | None => Ok None
  | Some liquidAmount =>
      match NewIntFromString (WC_Amount (Vesting resp)) with
      | None => Ok None
      | Some vestingAmount =>
          lz ← Int_IsZero (Some liquidAmount);
          vz ← (if (lz : bool) then Int_IsZero (Some vestingAmount) else Ok false);
          if (vz : bool) then Ok None
          else Int_Add (Some liquidAmount) (Some vestingAmount)
      end
  end.

Definition claim_entry (c : TG4StakeClaim) : UnbondingEntry :=
  mkEntry (Claim_Amount c) (int64 (ReleaseAt c)) (Claim_Amount c) (int64 (CreationHeight c)).

Definition QueryStakingUnbonding w (a : Adapter) (opAddr : AccAddress) : outcome (list UnbondingEntry) :=
  addr ← a;
  claims ← wrap "contract query"
    (doQuery w addr (JObj [("claims", JObj [("address", JStr (AccAddress_String opAddr))])])
       dec_TG4StakeClaimsResponse []);
  Ok (claim_entry <$> (claims : list TG4StakeClaim)).

(** *** The distribution and the engagement contract *)
Definition enc_WithdrawableRewardsQuery (owner : string) : json :=
  JObj [("withdrawable_rewards", JObj [("owner", JStr owner)])].

Definition ContractOutstandingReward w (a : Adapter) (addr : AccAddress) : outcome WireCoin :=
  contractAddr ← a;
  doQuery w contractAddr (enc_WithdrawableRewardsQuery (AccAddress_String addr)) dec_RewardsResponse zero_coin.

Definition QueryWithdrawableRewards w (a : Adapter) (addr : AccAddress) : outcome WireCoin :=
  adapter_doQuery w a (enc_WithdrawableRewardsQuery (AccAddress_String addr)) dec_RewardsResponse zero_coin.

Definition QueryDelegated w (a : Adapter) (ownerAddr : AccAddress) : outcome string :=
  wrap "contract query"
    (adapter_doQuery w a (JObj [("delegated", JObj [("owner", JStr (AccAddress_String ownerAddr))])])
       dec_DelegatedResponse "").

Definition Engagement_UpdateAdmin (a : Adapter) (newAdmin sender : AccAddress) : M W () :=
  doExecute a (enc_TG4EngagementExecute (EngagementUpdateAdmin (Some (AccAddress_String newAdmin)))) sender [].

(** *** Voting contracts *)

(** [None] without a proposal *)
Definition LatestProposal w (a : Adapter) : outcome (option OCProposalResponse) :=
  proposals ← wrap "contract query"
    (adapter_doQuery w a (JObj [("reverse_proposals", JObj [("limit", JNum 1)])]) dec_OCProposalListResponse []);
  Ok (head (proposals : list OCProposalResponse)).

Definition QueryProposal w (a : Adapter) (id : Z) : outcome OCProposalResponse :=
  wrap "contract query"
    (adapter_doQuery w a (JObj [("proposal", JObj [("proposal_id", JNum id)])]) dec_OCProposalResponse zero_proposal).

Definition VoteProposal (a : Adapter) (proposalID : Z) (vote : string) (sender : AccAddress) : M W () :=
  doExecute a (enc_OCProposalsExecuteMsg (OC_Vote vote proposalID)) sender [].
Definition ExecuteProposal (a : Adapter) (proposalID : Z) (sender : AccAddress) : M W () :=
  doExecute a (enc_OCProposalsExecuteMsg (OC_Execute proposalID)) sender [].

Definition ProposeSlash (a : Adapter) (member : AccAddress) (portion : Dec) (sender : AccAddress) : M W () :=
  doExecute a (enc_OCProposalsExecuteMsg (OC_Propose "Slash them" "Slash them harder!"
    (mkOversight None (Some (mkSlash (AccAddress_String member) portion))))) sender [].
Definition ProposeGrant (a : Adapter) (grantee : AccAddress) (points : Z) (sender : AccAddress) : M W () :=
  doExecute a (enc_OCProposalsExecuteMsg (OC_Propose "Slash them" "Slash them harder!"
    (mkOversight (Some (mkGrant (AccAddress_String grantee) points)) None))) sender [].

Definition AddVotingMembersProposal (a : Adapter) (members : list string) (sender : AccAddress) : M W () :=
  doExecute a (enc_TrustedCircleExecute (TC_AddVotingMembers "Add voting members" "Add voting members" members)) sender [].
Definition DepositEscrow (a : Adapter) (deposit : Coin) (sender : AccAddress) : M W () :=
  doExecute a (enc_TrustedCircleExecute TC_DepositEscrow) sender [deposit].
Definition QueryListVoters w (a : Adapter) : outcome (list ContractMember) :=
  wrap "contract query" (adapter_doQuery w a (JObj [("list_voters", JObj [])]) dec_TG4MemberListResponse []).

(** *** The valset contract *)
Definition QueryRawValidator w (a : Adapter) (opAddr : AccAddress) : outcome (option OperatorResponse) :=
  wrap "contract query"
    (adapter_doQuery w a (enc_ValidatorQuery (AccAddress_String opAddr)) dec_ValidatorResponse None).

Definition ListValidatorSlashing w (a : Adapter) (opAddr : AccAddress) : outcome (list ValidatorSlashing) :=
  rsp ← wrap "contract query"
    (adapter_doQuery w a (JObj [("list_validator_slashing", JObj [("operator", JStr (AccAddress_String opAddr))])])
       dec_ListValidatorSlashingResponse (mkSlashingResponse "" 0 []));
  Ok (LS_Slashing rsp).

Definition QueryConfig w (a : Adapter) : outcome ValsetConfigResponse :=
  _ ← a;
  wrap "contract query"
    (adapter_doQuery w a (JObj [("configuration", JObj [])]) dec_ValsetConfigResponse zero_config).

Definition QueryValsetEpoch w (valset : AccAddress) : outcome ValsetEpochResponse :=
  doQuery w valset (JObj [("epoch", JObj [])]) dec_ValsetEpochResponse (mkEpoch 0 0 0 0).

Definition SimulateActiveValidators w (valset : AccAddress) : outcome (list ValidatorInfo) :=
  r ← doQuery w valset (JObj [("simulate_active_validators", JObj [])]) dec_ListActiveValidatorsResponse empty_buffer;
  Ok (contents r).

Definition Valset_UpdateAdmin (a : Adapter) (newAdmin sender : AccAddress) : M W () :=
  doExecute a (enc_TG4ValsetExecute (ValsetUpdateAdmin (Some (AccAddress_String newAdmin)))) sender [].

Definition JailValidator (a : Adapter) (nodeOperator : AccAddress) (duration : Z) (forever : bool)
    (sender : AccAddress) : M W () :=
  if negb (int64 (Seconds_int duration * Second) =? duration)
  then fail_with (Wrap poe_ErrInvalid "must fit into seconds")
  else if forever && (1 <? duration) then fail_with (Wrap poe_ErrInvalid "either duration or forever")
  else
    let send d f := doExecute a (enc_TG4ValsetExecute (Jail (AccAddress_String nodeOperator) d f)) sender [] in
    if forever then send 0 true
    else if 1 <? duration then send (uint64 (Seconds_int duration)) false
    else fail_with poe_ErrEmpty.

Definition UnjailValidator (a : Adapter) (sender : AccAddress) : M W () :=
  doExecute a (enc_TG4ValsetExecute (Unjail "")) sender [].

(** [nil] for zero percent *)
Definition DecimalFromPercentage (percent : Dec) : outcome (option Dec) :=
  z ← Dec_IsZero percent;
  if (z : bool) then Ok None else r ← Dec_QuoInt64 percent 100; Ok (Some r).

Definition DecimalFromProMille (promille : Z) : outcome Dec := Dec_QuoInt64 (dec promille) 1000.
End adapters.
