(* ===== verification/PoEQueries.v ===== *)
(** The queries of x/poe: the gRPC server (x/poe/keeper/querier.go), the servers
    that stand in for the SDK's staking, distribution and slashing modules
    (legacy_*_querier.go), the accessors of the contracts (contracts.go) and the
    queries of contracts (x/poe/wasm/query_plugin.go).

    A request is a pointer: [None] is nil. The error of a call that is turned
    into a gRPC status keeps only the code of the status. *)
From stdpp Require Import base list strings gmap sets pretty.
From Stdlib Require Import ZArith Lia Ascii.
From S2P Require Import Prelude Sdk Slice Json Privilege Wasm TwasmKeeper TwasmHandler TwasmAbci GoTime PoETypes TwasmMsgs PoEMsgs PoEKeeper PoEContractIO PoEValset PoEAdapters PoEServer.
Open Scope Z_scope.

Definition status_Unimplemented : error := new_err "grpc/Unimplemented".
Definition UnsupportedRequest : error := new_err "wasmvm/UnsupportedRequest".

(** [status.Error(code, err.Error())] *)
Definition as_status {A} (code : error) (m : outcome A) : outcome A :=
  match m with Err _ => Err (Wrap code "%s") | _ => m end.
(** [status.Code(err) == code] *)
Definition has_code (code e : error) : bool := ErrIs code e.

(** [if req == nil] *)
Definition request {A} (req : option A) : outcome A :=
  match req with Some r => Ok r | None => Err (Wrap status_InvalidArgument "empty request") end.
(** [if s == ""] *)
Definition not_empty (s msg : string) : outcome () :=
  check (bool_decide (s = "")) (Wrap status_InvalidArgument msg).

(** [sdk.DecCoin] *)
Record DecimalCoin := mkDecimalCoin { DCoin_Denom : string; DCoin_Amount : Dec }.

Class CoinTypes := {
  (** [sdk.NewCoin], [sdk.NewDecCoin] and [sdk.NewDecCoins] panic on invalid coins. *)
  NewSdkCoin : string → Int → outcome Coin;
  NewDecCoin : string → Int → outcome DecimalCoin;
  NewDecCoins : list DecimalCoin → outcome (list DecimalCoin);
  (** [Int.GT] *)
  Int_GT : Int → Int → outcome bool;
}.

(** ** Requests and responses *)
Record QueryValidatorsRequest := mkValidatorsRequest { VR_Status : string; VR_Pagination : option PageRequest }.
Record DelegationPair := mkPair { DelegatorAddr : string; ValidatorAddr : string }.
(** [stakingtypes.DelegationResponse] *)
Record DelegationResponse := mkDelegationResponse {
  DR_Delegator : string; DR_Validator : string; DR_Shares : Dec; DR_Balance : Coin }.
Record UnbondingDelegation := mkUnbondingDelegation {
  UD_Delegator : string; UD_Validator : string; UD_Entries : list UnbondingEntry }.
(** [stakingtypes.Params] *)
Record StakingParams := mkStakingParams {
  SP_UnbondingTime : Z; SP_MaxValidators : Z; SP_MaxEntries : Z; SP_HistoricalEntries : Z; SP_BondDenom : string }.
(** [distributiontypes.ValidatorSlashEvent] *)
Record SlashEvent := mkSlashEvent { ValidatorPeriod : Z; Fraction : Dec }.
Record SigningInfo := mkSigningInfo {
  SI_Address : string; SI_StartHeight : Z; SI_IndexOffset : Z; SI_Tombstoned : bool; SI_MissedBlocksCounter : Z }.
(** [distributiontypes.Params] and [slashingtypes.Params] *)
Record DistributionParams := mkDistributionParams {
  CommunityTax : Dec; BaseProposerReward : Dec; BonusProposerReward : Dec; WithdrawAddrEnabled : bool }.
Record SlashingParams := mkSlashingParams {
  SignedBlocksWindow : Z; MinSignedPerWindow : Dec; DowntimeJailDuration : Z;
  SlashFractionDoubleSign : Dec; SlashFractionDowntime : Dec }.

Section queries.
Context `{!KVStore W, !PoEParamStore W, !HistoryCodec, !ContractCalls W, !Bech32, !SdkMath, !SdkText, !SdkDecimal,
  !SdkCoins, !ForeignDecoders, !CoinTypes}.
Context (NewAnyWithValue : PubKey → outcome Any).
Implicit Types (k : KState W).

(** The accessors of contracts.go: the adapter for the contract of a type. *)
Definition DistributionContract_of k : outcome AccAddress := GetPoEContractAddress k PoEContractTypeDistribution.
Definition ValsetContract_of k : outcome AccAddress := GetPoEContractAddress k PoEContractTypeValset.
Definition StakeContract_of k : outcome AccAddress := GetPoEContractAddress k PoEContractTypeStaking.
Definition EngagementContract_of k : outcome AccAddress := GetPoEContractAddress k PoEContractTypeEngagement.

(** ** [Querier] *)
Definition ContractAddress k (req : option Z) : outcome string :=
  ctype ← request req;
  match GetPoEContractAddress k ctype with
  | Err e => Err (Wrap (if ErrIs ErrNotFound e then status_NotFound else status_Internal) "%s")
  | Panic p => Panic p
  | Ok addr => Ok (AccAddress_String addr)
  end.

(** The validators of the page and the key of the next one. *)
Definition Validators k (req : option QueryValidatorsRequest) : outcome (list StakingValidator * option bytes) :=
  r ← request req;
  check (bool_decide (VR_Status r ≠ "")) (Wrap status_Unimplemented "status not supported, yet") ;;
  pagination ← NewPaginator (VR_Pagination r);
  rsp ← as_status status_Internal (ListValidators NewAnyWithValue (world k) (ValsetContract_of k) pagination);
  Ok (rsp.1, if decide (rsp.2 = "") then None else Some rsp.2).

Definition Query_Validator k (req : option string) : outcome StakingValidator :=
  addr ← request req;
  not_empty addr "validator address cannot be empty" ;;
  opAddr ← AccAddressFromBech32 addr;
  val ← as_status status_Internal (QueryValidator NewAnyWithValue (world k) (ValsetContract_of k) opAddr);
  match val with
  | None => Err (Wrap status_NotFound "by address")
  | Some val => Ok val
  end.

Definition UnbondingPeriod_query k (req : option ()) : outcome Z :=
  _ ← request req;
  as_status status_Internal (QueryStakingUnbondingPeriod (world k) (StakeContract_of k)).

Definition ValidatorDelegation k (req : option string) : outcome Coin :=
  addr ← request req;
  opAddr ← match AccAddressFromBech32 addr with
           | Err _ => Err (Wrap status_InvalidArgument "validator address")
           | o => o
           end;
  amount ← as_status status_Internal (StakedAmount (world k) (StakeContract_of k) opAddr);
  match amount with
  | None => Err (Wrap status_NotFound "not a validator operator address")
  | Some amount => NewSdkCoin GetBondDenom (Some amount)
  end.

Definition ValidatorUnbondingDelegations k (req : option string) : outcome (list UnbondingEntry) :=
  addr ← request req;
  opAddr ← match AccAddressFromBech32 addr with
           | Err _ => Err (Wrap status_InvalidArgument "validator address")
           | o => o
           end;
  as_status status_Internal (QueryStakingUnbonding (world k) (StakeContract_of k) opAddr).

Definition HistoricalInfo_query k (req : option Z) : outcome HistoricalInfo :=
  height ← request req;
  hi ← GetHistoricalInfo k height;
  match hi with
  | None => Err (Wrap status_NotFound "historical info for height %d not found")
  | Some hi => Ok hi
  end.

(** The two reward queries differ in the contract they ask. *)
Definition reward_query (addr : string) (ask : AccAddress → outcome WireCoin) : outcome DecimalCoin :=
  not_empty addr "address cannot be empty" ;;
  valAddr ← match AccAddressFromBech32 addr with
            | Err _ => Err (Wrap status_InvalidArgument "address invalid")
            | o => o
            end;
  reward ← match ask valAddr with
           | Err e => if ErrIs poe_ErrNotFound e then Err (Wrap status_NotFound "address")
                      else Err (Wrap status_Internal "%s")
           | o => o
           end;
  NewDecCoin (WCoin_Denom reward) (WCoin_Amount reward).

Definition ValidatorOutstandingReward k (req : option string) : outcome DecimalCoin :=
  addr ← request req;
  reward_query addr (ContractOutstandingReward (world k) (DistributionContract_of k)).
Definition ValidatorEngagementReward k (req : option string) : outcome DecimalCoin :=
  addr ← request req;
  reward_query addr (QueryWithdrawableRewards (world k) (EngagementContract_of k)).

(** ** [LegacyStakingGRPCQuerier] *)
(** The first two are passed on to the querier of the module. *)
Definition Legacy_Validators k (req : option QueryValidatorsRequest) : outcome (list StakingValidator * option bytes) := Validators k req.
Definition Legacy_Validator k (req : option string) : outcome StakingValidator := Query_Validator k req.
Definition Legacy_HistoricalInfo k (req : option Z) : outcome HistoricalInfo :=
  height ← request req;
  hi ← GetHistoricalInfo k height;
  match hi with
  | None => Err (Wrap status_NotFound "historical info for height %d not found")
  | Some hi => Ok hi
  end.
Definition Legacy_ValidatorDelegations k (req : option string) : outcome (list DelegationResponse) :=
  addr ← request req;
  match ValidatorDelegation k (Some addr) with
  | Err e => if has_code status_NotFound e then Ok [] else Err e
  | Panic p => Panic p
  | Ok balance => Ok [mkDelegationResponse addr addr (dec 1) balance]
  end.

Definition Legacy_ValidatorUnbondingDelegations k (req : option string) : outcome (list UnbondingDelegation) :=
  addr ← request req;
  entries ← ValidatorUnbondingDelegations k (Some addr);
  Ok [mkUnbondingDelegation addr addr entries].

(** The checks on a pair of addresses that both queries below share. *)
Definition delegation_pair (msg : string) (req : option DelegationPair) : outcome string :=
  r ← request req;
  not_empty (DelegatorAddr r) "delegator address cannot be empty" ;;
  not_empty (ValidatorAddr r) "validator address cannot be empty" ;;
  check (bool_decide (ValidatorAddr r ≠ DelegatorAddr r)) (Wrap status_NotFound msg) ;;
  Ok (ValidatorAddr r).

Definition Delegation k (req : option DelegationPair) : outcome DelegationResponse :=
  addr ← delegation_pair "delegation with delegator not found" req;
  qr ← Legacy_ValidatorDelegations k (Some addr);
  match qr with
  | [] => Err (Wrap status_NotFound "delegation for delegator not found")
  | d :: _ => Ok d
  end.

Definition Query_UnbondingDelegation k (req : option DelegationPair) : outcome UnbondingDelegation :=
  addr ← delegation_pair "delegation with delegator %s not found for validator %s" req;
  qr ← Legacy_ValidatorUnbondingDelegations k (Some addr);
  match qr with
  | [] => Err (Wrap status_NotFound "delegation for delegator not found")
  | u :: _ => Ok u
  end.

Definition DelegatorDelegations k (req : option string) : outcome (list DelegationResponse) :=
  addr ← request req;
  not_empty addr "delegator address cannot be empty" ;;
  Legacy_ValidatorDelegations k (Some addr).

Definition DelegatorUnbondingDelegations k (req : option string) : outcome (list UnbondingDelegation) :=
  addr ← request req;
  not_empty addr "delegator address cannot be empty" ;;
  Legacy_ValidatorUnbondingDelegations k (Some addr).

Definition Redelegations k (req : option ()) : outcome () := request req.

Definition Staking_DelegatorValidators k (req : option string) : outcome (list StakingValidator) :=
  addr ← request req;
  val ← Query_Validator k (Some addr);
  Ok [val].
Definition DelegatorValidator k (req : option string) : outcome StakingValidator :=
  addr ← request req;
  Query_Validator k (Some addr).

Definition Pool k (req : option ()) : outcome () :=
  _ ← request req; Err (Wrap status_Unimplemented "not available, yet").

Definition Staking_Params k (req : option ()) : outcome StakingParams :=
  _ ← request req;
  valsetConfig ← as_status status_Internal (QueryConfig (world k) (ValsetContract_of k));
  unbondingTime ← as_status status_Internal (QueryStakingUnbondingPeriod (world k) (StakeContract_of k));
  entries ← HistoricalEntries k;
  Ok (mkStakingParams unbondingTime (VC_MaxValidators valsetConfig) 0 entries GetBondDenom).

(** ** [LegacyDistributionGRPCQuerier] *)
Definition ValidatorOutstandingRewards k (req : option string) : outcome (list DecimalCoin) :=
  addr ← request req;
  reward ← ValidatorOutstandingReward k (Some addr);
  NewDecCoins [reward].

(** A query of the operator [addr] whose address must be well-formed. *)
Definition operator_of (addr msg : string) : outcome AccAddress :=
  match AccAddressFromBech32 addr with Err _ => Err (Wrap status_InvalidArgument msg) | o => o end.

Definition ValidatorCommission k (req : option string) : outcome () :=
  addr ← request req;
  not_empty addr "delegator address cannot be empty" ;;
  _ ← operator_of addr "operator address invalid";
  Ok ().

Definition ValidatorSlashes k (req : option string) : outcome (list SlashEvent) :=
  addr ← request req;
  not_empty addr "delegator address cannot be empty" ;;
  opAddr ← operator_of addr "operator address invalid";
  got ← as_status status_Internal (ListValidatorSlashing (world k) (ValsetContract_of k) opAddr);
  Ok ((λ s, mkSlashEvent (Slashing_Height s) (Slashing_Portion s)) <$> (got : list ValidatorSlashing)).

(** The delegator must be set, the validator is the address that is decoded. *)
Definition DelegationRewards k (req : option DelegationPair) : outcome () :=
  r ← request req;
  not_empty (DelegatorAddr r) "delegator address cannot be empty" ;;
  _ ← operator_of (ValidatorAddr r) "delegator address invalid";
  Ok ().

Definition DelegationTotalRewards k (req : option string) : outcome () :=
  addr ← request req;
  not_empty addr "delegator address cannot be empty" ;;
  _ ← operator_of addr "delegator address invalid";
  Ok ().

Definition Distribution_DelegatorValidators k (req : option string) : outcome (list string) :=
  addr ← request req;
  not_empty addr "delegator address cannot be empty" ;;
  match Query_Validator k (Some addr) with
  | Ok val => Ok [SV_OperatorAddress val]
  | Err e => if has_code status_NotFound e then Ok [] else Err e
  | Panic p => Panic p
  end.

Definition DelegatorWithdrawAddress k (req : option string) : outcome string :=
  addr ← request req;
  not_empty addr "delegator address cannot be empty" ;;
  ownerAddr ← operator_of addr "delegator address invalid";
  as_status status_Internal (QueryDelegated (world k) (EngagementContract_of k) ownerAddr).

Definition CommunityPool k (req : option ()) : outcome (list DecimalCoin) := _ ← request req; Ok [].
Definition Distribution_Params k (req : option ()) : outcome DistributionParams :=
  Ok (mkDistributionParams (dec 0) (dec 0) (dec 0) false).

(** ** [LegacySlashingGRPCQuerier] *)
Definition SigningInfo_query k (req : option string) : outcome SigningInfo :=
  addr ← request req;
  valAddr ← operator_of addr "validator address";
  Ok (mkSigningInfo (AccAddress_String valAddr) 0 0 false 0).
Definition SigningInfos k (req : option ()) : outcome () := Err (Wrap status_Unimplemented "not available, yet").
Definition Slashing_Params k (req : option ()) : outcome SlashingParams :=
  Ok (mkSlashingParams 0 (dec 0) 0 (dec 0) (dec 0)).
End queries.
