(* ===== verification/PoEWasmQuery.v ===== *)
(** What contracts can ask of x/poe (x/poe/wasm/query_plugin.go): the staking
    queries of wasmvm, answered from the PoE contracts, and the custom queries
    for contract addresses and for the votes of the last commit.

    The responses are the values that are marshalled; the JSON of wasmvm's types
    is not modelled, that of the types of this repository is. *)
From stdpp Require Import base list strings gmap sets pretty.
From Stdlib Require Import ZArith Lia Ascii.
From S2P Require Import Prelude Sdk Slice Json Privilege Wasm TwasmKeeper TwasmHandler GoTime PoETypes TwasmMsgs PoEMsgs PoEKeeper PoEContractIO PoEValset PoEAdapters PoEServer PoEQueries.
Open Scope Z_scope.

(** [wasmvmtypes.StakingQuery]: a struct of optional queries. *)
Record StakingQuery := mkStakingQuery {
  SQ_BondedDenom : option (); SQ_AllValidators : option (); SQ_Validator : option string;
  SQ_AllDelegations : option string; SQ_Delegation : option DelegationPair }.

(** [wasmvmtypes.Validator], [Delegation] and [FullDelegation] *)
Record WasmValidator := mkWasmValidator {
  WV_Address : string; WV_Commission : string; WV_MaxCommission : string; WV_MaxChangeRate : string }.
Record WasmDelegation := mkWasmDelegation { WD_Delegator : string; WD_Validator : string; WD_Amount : WasmCoin }.
Record FullDelegation := mkFullDelegation {
  FD_Delegator : string; FD_Validator : string; FD_Amount : WasmCoin;
  FD_CanRedelegate : WasmCoin; FD_AccumulatedRewards : list WasmCoin }.

Inductive StakingResponse :=
  | BondedDenomResponse (Denom : string)
  | AllValidatorsResponse (Validators : list WasmValidator)
  | ValidatorResponse (Validator : option WasmValidator)
  | AllDelegationsResponse (Delegations : list WasmDelegation)
  | FullDelegationResponse (Delegation : option FullDelegation).

(** [sdk.ZeroDec().String()] *)
Definition zero_dec_text : string := "0.000000000000000000".
Definition wasm_validator (operator : string) : WasmValidator :=
  mkWasmValidator operator zero_dec_text zero_dec_text zero_dec_text.

Section plugin.
Context `{!KVStore W, !ContractCalls W, !Bech32, !SdkMath, !SdkText, !SdkDecimal, !SdkCoins, !ForeignDecoders, !CoinTypes}.
Context (NewAnyWithValue : PubKey → outcome Any).
Implicit Types (k : KState W).

(** The loop over the pages of the valset contract; [None] when the fuel is used up. *)
Fixpoint all_validators (fuel : nat) k (startAfter : bytes) (wasmVals : list WasmValidator) :
    option (outcome (list WasmValidator)) :=
  match fuel with
  | O => None
  | S n =>
      match ListValidators NewAnyWithValue (world k) (ValsetContract_of k) (Some (mkPaginator startAfter 0)) with
      | Ok (batch, cursor) =>
          let wasmVals' := wasmVals ++ (wasm_validator ∘ SV_OperatorAddress <$> batch) in
          if decide (cursor = "") then Some (Ok wasmVals') else all_validators n k cursor wasmVals'
      | Err e => Some (Err e)
      | Panic p => Some (Panic p)
      end
  end.

Definition invalid_address (addr : string) : outcome AccAddress :=
  match AccAddressFromBech32 addr with Err _ => Err (Wrap ErrInvalidAddress addr) | o => o end.

Definition query_validator k (addr : string) : outcome (option WasmValidator) :=
  valAddr ← AccAddressFromBech32 addr;
  v ← QueryValidator NewAnyWithValue (world k) (ValsetContract_of k) valAddr;
  Ok (wasm_validator ∘ SV_OperatorAddress <$> (v : option StakingValidator)).

Definition query_all_delegations k (addr : string) : outcome (list WasmDelegation) :=
  delegator ← invalid_address addr;
  stakedAmount ← StakedAmount (world k) (StakeContract_of k) delegator;
  match stakedAmount with
  | None => Ok []
  | Some staked =>
      n ← Int_Uint64 (Some staked);
      Ok [mkWasmDelegation (AccAddress_String delegator) (AccAddress_String delegator) (NewWasmCoin n GetBondDenom)]
  end.

Definition query_delegation k (r : DelegationPair) : outcome (option FullDelegation) :=
  delegator ← invalid_address (DelegatorAddr r);
  validator ← invalid_address (ValidatorAddr r);
  if decide (delegator ≠ validator) then Ok None
  else
    staked ← wrap "query staked amount" (StakedAmount (world k) (StakeContract_of k) delegator);
    reward ← wrap "query outstanding reward"
      (ContractOutstandingReward (world k) (DistributionContract_of k) delegator);
    let stakedAmount := Some (default 0 staked) in
    some ← orM (Int_GT stakedAmount (Some 0)) (Int_GT (WCoin_Amount reward) (Some 0));
    if negb some then Ok None
    else
      n ← Int_Uint64 stakedAmount;
      m ← Int_Uint64 (WCoin_Amount reward);
      Ok (Some (mkFullDelegation (AccAddress_String delegator) (AccAddress_String delegator)
        (NewWasmCoin n GetBondDenom) (NewWasmCoin 0 GetBondDenom) [NewWasmCoin m (WCoin_Denom reward)])).

(** The first query that is set is answered. *)
Definition StakingQuerier (fuel : nat) k (q : StakingQuery) : option (outcome StakingResponse) :=
  match q with
  | mkStakingQuery (Some _) _ _ _ _ => Some (Ok (BondedDenomResponse GetBondDenom))
  | mkStakingQuery _ (Some _) _ _ _ =>
      o ← all_validators fuel k "" []; Some (vs ← o; Ok (AllValidatorsResponse vs))
  | mkStakingQuery _ _ (Some addr) _ _ => Some (v ← query_validator k addr; Ok (ValidatorResponse v))
  | mkStakingQuery _ _ _ (Some addr) _ => Some (ds ← query_all_delegations k addr; Ok (AllDelegationsResponse ds))
  | mkStakingQuery _ _ _ _ (Some r) => Some (d ← query_delegation k r; Ok (FullDelegationResponse d))
  | _ => Some (Err UnsupportedRequest)
  end.

(** ** Custom queries *)
Record PetriQuery := mkPetriQuery { PQ_PoEContractAddress : option string; PQ_ValidatorVotes : option () }.
Definition dec_PetriQuery : decoder PetriQuery := dec_struct
  [ field "poe_contract_address" PQ_PoEContractAddress (λ x q, mkPetriQuery x (PQ_ValidatorVotes q))
      (dec_ptr "" (dec_struct [ field "contract_type" id (λ x _, x) dec_string ]));
    field "validator_votes" PQ_ValidatorVotes (λ x q, mkPetriQuery (PQ_PoEContractAddress q) x)
      (dec_ptr () (dec_struct [])) ].

Definition enc_ValidatorVote (v : VoteInfo) : json :=
  JObj [("address", JStr (AccAddress_String (Vote_Address v))); ("power", JNum (uint64 (Vote_Power v)));
        ("voted", JBool (SignedLastBlock v))].

Definition handleValidatorVotesQuery k : outcome json :=
  Ok (JObj [("votes", JArr (enc_ValidatorVote <$> GetValidatorVotes k))]).

Definition handlePoEContractAddressQuery k (contractType : string) : outcome json :=
  addr ← wrap "poe contract address query" (GetPoEContractAddress k (PoEContractTypeFrom contractType));
  Ok (JObj [("address", JStr (AccAddress_String addr))]).

Definition CustomQuerier k (request : json_bytes) : outcome json :=
  q ← wrap "furya query" (Unmarshal dec_PetriQuery request (mkPetriQuery None None));
  match q with
  | mkPetriQuery (Some t) _ => handlePoEContractAddressQuery k t
  | mkPetriQuery None (Some _) => handleValidatorVotesQuery k
  | mkPetriQuery None None => Err UnsupportedRequest
  end.
End plugin.
