(* ===== verification/PoEBootstrap.v ===== *)
(** The set-up of the PoE contracts at genesis (x/poe/bootstrap.go) and the
    genesis of the module (x/poe/module.go).

    [BootstrapPoEContracts] is one long function; each of its sections between
    two comments is a definition here, with what the later sections use as its
    result. The wasm binaries are embedded files: a parameter. Storing code,
    creating and administrating contracts are operations of wasmd ([ContractOps]). *)
From stdpp Require Import base list strings gmap sets pretty.
From Stdlib Require Import ZArith Lia Ascii.
From S2P Require Import Prelude Sdk Slice Json Privilege Wasm TwasmKeeper TwasmHandler GoTime PoETypes TwasmMsgs PoEMsgs PoEKeeper PoEContractIO PoEValset PoEAdapters PoEServer PoEQueries.
Open Scope Z_scope.

Class ContractOps (W : Type) := {
  (** [Create(ctx, creator, wasmCode, &AllowEverybody)] *)
  Create : AccAddress → bytes → M W Z;
  (** [Instantiate(ctx, codeID, creator, admin, initMsg, label, deposit)] *)
  Instantiate : Z → AccAddress → AccAddress → json → string → list Coin → M W AccAddress;
  (** [UpdateContractAdmin(ctx, contractAddress, caller, newAdmin)] *)
  UpdateContractAdmin : AccAddress → AccAddress → AccAddress → M W ();
}.

(** The embedded binaries. *)
Record EmbeddedContracts := mkEmbedded {
  pt4Engagement : bytes; pt4Stake : bytes; pt4Mixer : bytes; tgValset : bytes; tgTrustedCircles : bytes;
  tgOCGovProposalsCircles : bytes; tgCommunityPool : bytes; tgValidatorVoting : bytes; tgArbiterPool : bytes }.
Definition ClearEmbeddedContracts (_ : EmbeddedContracts) : EmbeddedContracts :=
  mkEmbedded "" "" "" "" "" "" "" "" "".

(** A field of a nil struct is read. *)
Definition deref {A} (p : option A) : outcome A :=
  match p with Some a => Ok a | None => Panic "nil pointer" end.
(** [l[0]] *)
Definition first {A} (l : list A) : outcome A :=
  match l with a :: _ => Ok a | [] => Panic "index out of range" end.

(** [if err != nil { panic(err) }] *)
Definition must {W A} (m : M W A) : M W A := λ c,
  match m c with (Err _, c') => (Panic "genesis", c') | r => r end.

(** ** Instantiation messages *)
Record TrustedCircleInitMsg := mkTrustedCircleInit {
  TCI_Name : string; TCI_Denom : string; TCI_EscrowAmount : Int; TCI_VotingPeriod : Z; TCI_Quorum : Dec;
  TCI_Threshold : Dec; TCI_AllowEndEarly : bool; TCI_InitialMembers : list string; TCI_DenyList : string;
  TCI_EditTrustedCircleDisabled : bool; TCI_RewardDenom : string }.
Record OCProposalsInitMsg := mkOCProposalsInit {
  OCI_VotingRules : ContractVotingRules; OCI_GroupContractAddress : string;
  OCI_EngagementContractAddress : string; OCI_ValsetContractAddress : string }.
Record APVotingInitMsg := mkAPVotingInit {
  API_VotingRules : ContractVotingRules; API_GroupContractAddress : string; API_DisputeCost : WireCoin;
  API_WaitingPeriod : Z; API_MultisigCodeID : Z }.
Record TG4EngagementInitMsg := mkEngagementInit {
  EI_Admin : string; EI_Members : list ContractMember; EI_PreAuthsHooks : Z; EI_PreAuthsSlashing : Z;
  EI_Halflife : Z; EI_Denom : string }.
Record TG4StakeInitMsg := mkStakeInit {
  SI_Admin : string; SI_Denom : string; SI_MinBond : Z; SI_TokensPerPoint : Z; SI_UnbondingPeriod : Z;
  SI_AutoReturnLimit : option Z; SI_PreAuthsHooks : Z; SI_PreAuthsSlashing : Z }.
Record ValsetInitMsg := mkValsetInit {
  VI_Admin : string; VI_Membership : string; VI_MinPoints : Z; VI_MaxValidators : Z; VI_EpochLength : Z;
  VI_EpochReward : WireCoin; VI_InitialKeys : list (string * ValidatorPubkey); VI_Scaling : Z;
  VI_FeePercentage : option Dec; VI_AutoUnjail : bool; VI_DistributionContracts : list DistributionContract;
  VI_ValidatorGroupCodeID : Z; VI_VerifyValidators : bool; VI_OfflineJailDuration : Z }.
Record TG4MixerInitMsg := mkMixerInit {
  MI_LeftGroup : string; MI_RightGroup : string; MI_PreAuthsHooks : Z; MI_PreAuthsSlashing : Z; MI_Sigmoid : Sigmoid }.
(** [CommunityPoolInitMsg] and [ValidatorVotingInitMsg] have the same members. *)
Record GroupVotingInitMsg := mkGroupVotingInit { GV_VotingRules : ContractVotingRules; GV_GroupAddress : string }.

Section messages.
Context `{!SdkMath, !SdkDecimal, !Bech32}.
(** What the machine makes of [uint64] of a negative float. *)
Variable uint64_of_negative : Z → Z.

Definition enc_VotingRules (r : ContractVotingRules) : json :=
  JObj [("voting_period", JNum (CVR_VotingPeriod r)); ("quorum", enc_Dec (CVR_Quorum r));
        ("threshold", enc_Dec (CVR_Threshold r)); ("allow_end_early", JBool (CVR_AllowEndEarly r))].
Definition enc_SdkCoin (c : WireCoin) : json :=
  enc_omitempty [("denom", nonempty (WCoin_Denom c)); ("amount", Some (enc_Int (WCoin_Amount c)))].
Definition enc_TrustedCircleInitMsg (m : TrustedCircleInitMsg) : json :=
  enc_omitempty
    [("name", Some (JStr (TCI_Name m))); ("denom", Some (JStr (TCI_Denom m)));
     ("escrow_amount", Some (enc_Int (TCI_EscrowAmount m))); ("voting_period", Some (JNum (TCI_VotingPeriod m)));
     ("quorum", Some (enc_Dec (TCI_Quorum m))); ("threshold", Some (enc_Dec (TCI_Threshold m)));
     ("allow_end_early", Some (JBool (TCI_AllowEndEarly m)));
     ("initial_members", Some (enc_strings (TCI_InitialMembers m))); ("deny_list", nonempty (TCI_DenyList m));
     ("edit_trusted_circle_disabled", Some (JBool (TCI_EditTrustedCircleDisabled m)));
     ("reward_denom", Some (JStr (TCI_RewardDenom m)))].
Definition enc_OCProposalsInitMsg (m : OCProposalsInitMsg) : json :=
  JObj [("rules", enc_VotingRules (OCI_VotingRules m)); ("group_addr", JStr (OCI_GroupContractAddress m));
        ("engagement_addr", JStr (OCI_EngagementContractAddress m)); ("valset_addr", JStr (OCI_ValsetContractAddress m))].
Definition enc_APVotingInitMsg (m : APVotingInitMsg) : json :=
  JObj [("rules", enc_VotingRules (API_VotingRules m)); ("group_addr", JStr (API_GroupContractAddress m));
        ("dispute_cost", enc_SdkCoin (API_DisputeCost m)); ("waiting_period", JNum (API_WaitingPeriod m));
        ("multisig_code_id", JNum (API_MultisigCodeID m))].
Definition enc_TG4EngagementInitMsg (m : TG4EngagementInitMsg) : json :=
  enc_omitempty
    [("admin", nonempty (EI_Admin m)); ("members", Some (JArr (enc_ContractMember <$> EI_Members m)));
     ("preauths_hooks", nonzero (EI_PreAuthsHooks m)); ("preauths_slashing", nonzero (EI_PreAuthsSlashing m));
     ("halflife", nonzero (EI_Halflife m)); ("denom", Some (JStr (EI_Denom m)))].
Definition enc_TG4StakeInitMsg (m : TG4StakeInitMsg) : json :=
  enc_omitempty
    [("admin", nonempty (SI_Admin m)); ("denom", Some (JStr (SI_Denom m)));
     ("min_bond", Some (JStr (pretty (SI_MinBond m)))); ("tokens_per_point", Some (JStr (pretty (SI_TokensPerPoint m))));
     ("unbonding_period", Some (JNum (SI_UnbondingPeriod m))); ("auto_return_limit", JNum <$> SI_AutoReturnLimit m);
     ("preauths_hooks", nonzero (SI_PreAuthsHooks m)); ("preauths_slashing", nonzero (SI_PreAuthsSlashing m))].
Definition enc_DistributionContract (d : DistributionContract) : json :=
  JObj [("contract", JStr (DC_Address d)); ("ratio", enc_Dec (DC_Ratio d))].
Definition enc_ValsetInitMsg (m : ValsetInitMsg) : json :=
  enc_omitempty
    [("admin", nonempty (VI_Admin m)); ("membership", Some (JStr (VI_Membership m)));
     ("min_points", Some (JNum (VI_MinPoints m))); ("max_validators", Some (JNum (VI_MaxValidators m)));
     ("epoch_length", Some (JNum (VI_EpochLength m))); ("epoch_reward", Some (enc_SdkCoin (VI_EpochReward m)));
     ("initial_keys", Some (JArr ((λ v, JObj [("operator", JStr v.1); ("validator_pubkey", enc_ValidatorPubkey v.2)])
                                  <$> VI_InitialKeys m)));
     ("scaling", nonzero (VI_Scaling m)); ("fee_percentage", enc_Dec <$> VI_FeePercentage m);
     ("auto_unjail", Some (JBool (VI_AutoUnjail m)));
     ("distribution_contracts", match VI_DistributionContracts m with
                                | [] => None | ds => Some (JArr (enc_DistributionContract <$> ds)) end);
     ("validator_group_code_id", Some (JNum (VI_ValidatorGroupCodeID m)));
     ("verify_validators", Some (JBool (VI_VerifyValidators m)));
     ("offline_jail_duration", Some (JNum (VI_OfflineJailDuration m)))].
Definition enc_TG4MixerInitMsg (m : TG4MixerInitMsg) : json :=
  enc_omitempty
    [("left_group", Some (JStr (MI_LeftGroup m))); ("right_group", Some (JStr (MI_RightGroup m)));
     ("preauths_hooks", nonzero (MI_PreAuthsHooks m)); ("preauths_slashing", nonzero (MI_PreAuthsSlashing m));
     ("function_type", Some (JObj [("sigmoid",
        JObj [("max_points", JStr (pretty (MaxPoints (MI_Sigmoid m)))); ("p", enc_Dec (P (MI_Sigmoid m)));
              ("s", enc_Dec (S_ (MI_Sigmoid m)))])]))].
Definition enc_GroupVotingInitMsg (m : GroupVotingInitMsg) : json :=
  JObj [("rules", enc_VotingRules (GV_VotingRules m)); ("group_addr", JStr (GV_GroupAddress m))].

(** [*contract.DecimalFromPercentage(percent)] *)
Definition percentage (percent : Dec) : outcome Dec := p ← DecimalFromPercentage percent; deref p.

Definition toContractVotingRules (r : VotingRules) : outcome ContractVotingRules :=
  quorum ← percentage (Quorum r);
  threshold ← percentage (Threshold r);
  Ok (mkContractRules (VotingPeriod r) quorum threshold (AllowEndEarly r)).

(** What the trusted circles of the oversight community and the arbiter pool have in common. *)
Definition circle_init (name deny : string) (escrow : WireCoin) (rules : VotingRules) : outcome TrustedCircleInitMsg :=
  quorum ← percentage (Quorum rules);
  threshold ← percentage (Threshold rules);
  Ok (mkTrustedCircleInit name (WCoin_Denom escrow) (WCoin_Amount escrow) (VotingPeriod rules) quorum threshold
        (AllowEndEarly rules) [] deny true (WCoin_Denom escrow)).

Definition newOCInitMsg (gs : SeedContracts) : outcome TrustedCircleInitMsg :=
  cfg ← deref (OversightCommitteeConfig gs);
  circle_init (OC_Name cfg) (OC_DenyListContractAddress cfg) (OC_EscrowAmount cfg) (OC_VotingRules cfg).

Definition newAPTrustedCircleInitMsg (gs : SeedContracts) : outcome TrustedCircleInitMsg :=
  cfg ← deref (ArbiterPoolConfig gs);
  circle_init (AP_Name cfg) (AP_DenyListContractAddress cfg) (AP_EscrowAmount cfg) (AP_VotingRules cfg).

Definition newOCGovProposalsInitMsg (gs : SeedContracts) (ocContract engagementContract valsetContract : AccAddress) :
    outcome OCProposalsInitMsg :=
  cfg ← deref (OversightCommitteeConfig gs);
  rules ← toContractVotingRules (OC_VotingRules cfg);
  Ok (mkOCProposalsInit rules (AccAddress_String ocContract) (AccAddress_String engagementContract)
        (AccAddress_String valsetContract)).

Definition newArbiterPoolVotingInitMsg (gs : SeedContracts) (apContract : AccAddress) : outcome APVotingInitMsg :=
  cfg ← deref (ArbiterPoolConfig gs);
  rules ← toContractVotingRules (AP_VotingRules cfg);
  Ok (mkAPVotingInit rules (AccAddress_String apContract) (DisputeCost cfg)
        (Seconds_uint64 uint64_of_negative (WaitingPeriod cfg)) 0).

Definition newEngagementInitMsg (gs : SeedContracts) (bootstrapAccountAddr : AccAddress) :
    outcome TG4EngagementInitMsg :=
  cfg ← deref (EngagementConfig gs);
  Ok (mkEngagementInit (AccAddress_String bootstrapAccountAddr)
        ((λ v, mkContractMember (Member_Address v) (Points v) 0) <$> Engagement gs) 1 1
        (Seconds_uint64 uint64_of_negative (Halflife cfg)) (BondDenom gs)).

Definition newStakeInitMsg (gs : SeedContracts) (adminAddr : AccAddress) : outcome TG4StakeInitMsg :=
  cfg ← deref (StakeConfig gs);
  Ok (mkStakeInit (AccAddress_String adminAddr) (BondDenom gs) (MinBond cfg) (TokensPerPoint cfg)
        (Seconds_uint64 uint64_of_negative (UnbondingPeriod cfg)) (Some (ClaimAutoreturnLimit cfg)) 1 1).

Definition newValsetInitMsg (gs : SeedContracts) (admin mixerContractAddr engagementAddr communityPoolAddr : AccAddress)
    (engagementCodeID : Z) : outcome ValsetInitMsg :=
  config ← deref (ValsetConfig gs);
  fee ← DecimalFromPercentage (FeePercentage config);
  engagement ← percentage (EngagementRewardRatio config);
  pool ← percentage (CommunityPoolRewardRatio config);
  Ok (mkValsetInit (AccAddress_String admin) (AccAddress_String mixerContractAddr) (MinPoints config)
        (MaxValidators config) (Seconds_uint64 uint64_of_negative (EpochLength config)) (EpochReward config) []
        (Scaling config) fee (AutoUnjail config)
        [mkDistribution (AccAddress_String engagementAddr) engagement;
         mkDistribution (AccAddress_String communityPoolAddr) pool]
        engagementCodeID (VerifyValidators config)
        (Seconds_uint64 uint64_of_negative (OfflineJailDuration config))).
End messages.

(** ** The sections of [BootstrapPoEContracts] *)
Section bootstrap.
Context `{!KVStore W, !PoEParamStore W, !HistoryCodec, !WasmKeeper W, !WasmVM W, !ContractOps W, !ContractCalls W,
  !Bech32, !SdkMath, !SdkText, !SdkDecimal, !SdkCoins, !ForeignDecoders}.
Variable uint64_of_negative : Z → Z.
Variable code : EmbeddedContracts.
Implicit Types (gs : SeedContracts) (admin : AccAddress).

Definition create (msg : string) (creator : AccAddress) (wasm : bytes) : M (KState W) Z :=
  wrapM msg (on_world (Create creator wasm)).
Definition instantiate (msg : string) (codeID : Z) (creator admin : AccAddress) (initMsg : json) (label : string)
    (deposit : list Coin) : M (KState W) AccAddress :=
  wrapM msg (on_world (Instantiate codeID creator admin initMsg label deposit)).
Definition pin (msg : string) (codeID : Z) : M (KState W) () := wrapM msg (on_world (PinCode codeID)).

(** [sdk.NewCoins(escrow)] *)
Definition escrow_coins (escrow : WireCoin) : outcome (list Coin) := c ← coin_of escrow; NewCoins [c].

Definition deposit_escrow (contractAddr : AccAddress) (deposit : WireCoin) (member : string) : M (KState W) () :=
  addr ← lift (wrap "%s member" (AccAddressFromBech32 member));
  coin ← lift (coin_of deposit);
  wrapM "%s deposit escrow" (on_world (DepositEscrow (Ok contractAddr) coin addr)).

Definition addToTrustedCircle (contractAddr : AccAddress) (members : list string) (sender : AccAddress)
    (deposit : WireCoin) : M (KState W) () :=
  wrapM "add voting members proposal" (on_world (AddVotingMembersProposal (Ok contractAddr) members sender)) ;;
  latest ← reads (λ k, wrap "query latest proposal" (LatestProposal (world k) (Ok contractAddr)));
  proposal ← lift (deref latest);
  wrapM "execute proposal" (on_world (ExecuteProposal (Ok contractAddr) (OCP_ID proposal) sender)) ;;
  forM members (deposit_escrow contractAddr deposit).

(** The code and the address of the engagement contract. *)
Definition setup_engagement gs admin : M (KState W) (Z * AccAddress) :=
  initMsg ← lift (newEngagementInitMsg uint64_of_negative gs admin);
  engagementCodeID ← create "store pt4 engagement contract" admin (pt4Engagement code);
  addr ← instantiate "instantiate pt4 engagement" engagementCodeID admin admin (enc_TG4EngagementInitMsg initMsg)
           "engagement" [];
  SetPoEContractAddress PoEContractTypeEngagement addr ;;
  pin "pin pt4 engagement contract" engagementCodeID ;;
  mret (engagementCodeID, addr).

Definition setup_oversight_community gs admin : M (KState W) (Z * AccAddress) :=
  trustedCircleCodeID ← create "store tg trusted circle contract" admin (tgTrustedCircles code);
  ocInitMsg ← lift (newOCInitMsg gs);
  member ← lift (first (OversightCommunityMembers gs));
  firstOCMember ← lift (wrap "first member" (AccAddressFromBech32 member));
  cfg ← lift (deref (OversightCommitteeConfig gs));
  deposit ← lift (escrow_coins (OC_EscrowAmount cfg));
  addr ← instantiate "instantiate tg trusted circle contract" trustedCircleCodeID firstOCMember admin
           (enc_TrustedCircleInitMsg ocInitMsg) "oversight_committee" deposit;
  SetPoEContractAddress PoEContractTypeOversightCommunity addr ;;
  pin "pin tg trusted circle contract" trustedCircleCodeID ;;
  (if decide (1 < length (OversightCommunityMembers gs))%nat
   then addToTrustedCircle addr (tail (OversightCommunityMembers gs)) firstOCMember (OC_EscrowAmount cfg)
   else mret ()) ;;
  mret (trustedCircleCodeID, addr).

Definition setup_stake gs admin : M (KState W) AccAddress :=
  stakeCodeID ← create "store pt4 stake contract" admin (pt4Stake code);
  initMsg ← lift (newStakeInitMsg uint64_of_negative gs admin);
  addr ← instantiate "instantiate pt4 stake" stakeCodeID admin admin (enc_TG4StakeInitMsg initMsg) "stakers" [];
  SetPoEContractAddress PoEContractTypeStaking addr ;;
  wrapM "grant privileges to stake contract" (on_world (SetPrivileged addr)) ;;
  mret addr.

Definition setup_mixer gs admin (engagementAddr stakeAddr : AccAddress) : M (KState W) AccAddress :=
  cfg ← lift (deref (MixerConfig gs));
  let initMsg := mkMixerInit (AccAddress_String engagementAddr) (AccAddress_String stakeAddr) 0 1 (Mixer_Sigmoid cfg) in
  mixerCodeID ← create "store pt4 mixer contract" admin (pt4Mixer code);
  addr ← instantiate "instantiate pt4 mixer" mixerCodeID admin admin (enc_TG4MixerInitMsg initMsg) "poe" [];
  SetPoEContractAddress PoEContractTypeMixer addr ;;
  pin "pin pt4 mixer contract" mixerCodeID ;;
  mret addr.

Definition setup_community_pool gs admin (engagementAddr : AccAddress) : M (KState W) AccAddress :=
  communityPoolCodeID ← create "store community pool contract" admin (tgCommunityPool code);
  cfg ← lift (deref (CommunityPoolConfig gs));
  rules ← lift (toContractVotingRules (CP_VotingRules cfg));
  let initMsg := mkGroupVotingInit rules (AccAddress_String engagementAddr) in
  addr ← instantiate "instantiate community pool" communityPoolCodeID admin admin (enc_GroupVotingInitMsg initMsg)
           "stakers" [];
  SetPoEContractAddress PoEContractTypeCommunityPool addr ;;
  pin "pin community pool contract" communityPoolCodeID ;;
  mret addr.

(** The addresses of the valset contract and of the distribution contract it creates. *)
Definition setup_valset gs admin (mixerAddr engagementAddr communityPoolAddr : AccAddress) (engagementCodeID : Z) :
    M (KState W) (AccAddress * AccAddress) :=
  valSetCodeID ← create "store valset contract" admin (tgValset code);
  initMsg ← lift (newValsetInitMsg uint64_of_negative gs admin mixerAddr engagementAddr communityPoolAddr engagementCodeID);
  addr ← instantiate "instantiate valset with: %s" valSetCodeID admin admin (enc_ValsetInitMsg initMsg) "valset" [];
  SetPoEContractAddress PoEContractTypeValset addr ;;
  valsetCfg ← reads (λ k, wrap "query valset config" (QueryConfig (world k) (ValsetContract_of k)));
  distrAddr ← lift (wrap "distribution contract address" (AccAddressFromBech32 (ValidatorGroup valsetCfg)));
  SetPoEContractAddress PoEContractTypeDistribution distrAddr ;;
  wrapM "grant privileges to valset contract" (on_world (SetPrivileged addr)) ;;
  mret (addr, distrAddr).

Definition setup_oc_proposals gs admin (ocAddr engagementAddr valsetAddr : AccAddress) : M (KState W) () :=
  ocGovCodeID ← create "store tg oc gov proposals contract: " admin (tgOCGovProposalsCircles code);
  initMsg ← lift (newOCGovProposalsInitMsg gs ocAddr engagementAddr valsetAddr);
  addr ← instantiate "instantiate tg oc gov proposals contract" ocGovCodeID admin admin
           (enc_OCProposalsInitMsg initMsg) "oversight_committee gov proposals" [];
  SetPoEContractAddress PoEContractTypeOversightCommunityGovProposals addr ;;
  pin "pin tg oc gov proposals contract" ocGovCodeID ;;
  engagement ← gets EngagementContract_of;
  wrapM "set new engagement contract admin" (on_world (Engagement_UpdateAdmin engagement addr admin)) ;;
  valset ← gets ValsetContract_of;
  wrapM "set new valset contract admin" (on_world (Valset_UpdateAdmin valset addr admin)).

Definition setup_validator_voting gs admin (distrAddr : AccAddress) : M (KState W) AccAddress :=
  validatorVotingCodeID ← create "store validator voting contract" admin (tgValidatorVoting code);
  cfg ← lift (deref (ValidatorVotingConfig gs));
  rules ← lift (toContractVotingRules (VV_VotingRules cfg));
  let initMsg := mkGroupVotingInit rules (AccAddress_String distrAddr) in
  addr ← instantiate "instantiate validator voting" validatorVotingCodeID admin admin (enc_GroupVotingInitMsg initMsg)
           "stakers" [];
  SetPoEContractAddress PoEContractTypeValidatorVoting addr ;;
  wrapM "grant privileges to validator voting contract" (on_world (SetPrivileged addr)) ;;
  mret addr.

Definition setup_arbiter_circle gs admin (trustedCircleCodeID : Z) : M (KState W) AccAddress :=
  initMsg ← lift (newAPTrustedCircleInitMsg gs);
  member ← lift (first (ArbiterPoolMembers gs));
  firstAPMember ← lift (wrap "first ap member" (AccAddressFromBech32 member));
  cfg ← lift (deref (ArbiterPoolConfig gs));
  deposit ← lift (escrow_coins (AP_EscrowAmount cfg));
  addr ← instantiate "instantiate tg trusted circle contract" trustedCircleCodeID firstAPMember admin
           (enc_TrustedCircleInitMsg initMsg) "arbiter_pool" deposit;
  SetPoEContractAddress PoEContractTypeArbiterPool addr ;;
  (if decide (1 < length (ArbiterPoolMembers gs))%nat
   then addToTrustedCircle addr (tail (ArbiterPoolMembers gs)) firstAPMember (AP_EscrowAmount cfg)
   else mret ()) ;;
  mret addr.

Definition setup_arbiter_voting gs admin (apAddr : AccAddress) : M (KState W) () :=
  apCodeID ← create "store arbiter voting contract: " admin (tgArbiterPool code);
  initMsg ← lift (newArbiterPoolVotingInitMsg uint64_of_negative gs apAddr);
  addr ← instantiate "instantiate tg ap voting contract" apCodeID admin admin (enc_APVotingInitMsg initMsg)
           "arbiter pool voting" [];
  SetPoEContractAddress PoEContractTypeArbiterPoolVoting addr ;;
  pin "pin tg ap voting contract" apCodeID.

(** The callback stops with the first error, which is the result. *)
Definition set_migrator (oldAdminAddr newAdminAddr : AccAddress) (tp : Z) : M (KState W) () :=
  addr ← reads (λ k, wrap "failed to find contract address for %s" (GetPoEContractAddress k tp));
  wrapM "%s contract" (on_world (UpdateContractAdmin addr oldAdminAddr newAdminAddr)).
Definition setAllPoEContractsInstanceMigrators (oldAdminAddr newAdminAddr : AccAddress) : M (KState W) () :=
  forM PoEContractTypes (set_migrator oldAdminAddr newAdminAddr).

Definition BootstrapPoEContracts gs : M (KState W) () :=
  admin ← lift (wrap "bootstrap account" (AccAddressFromBech32 (BootstrapAccountAddress gs)));
  e ← setup_engagement gs admin;
  oc ← setup_oversight_community gs admin;
  stakeAddr ← setup_stake gs admin;
  mixerAddr ← setup_mixer gs admin e.2 stakeAddr;
  communityPoolAddr ← setup_community_pool gs admin e.2;
  v ← setup_valset gs admin mixerAddr e.2 communityPoolAddr e.1;
  setup_oc_proposals gs admin oc.2 e.2 v.1 ;;
  validatorVotingAddr ← setup_validator_voting gs admin v.2;
  apAddr ← setup_arbiter_circle gs admin oc.1;
  setup_arbiter_voting gs admin apAddr ;;
  wrapM "set new instance admin" (setAllPoEContractsInstanceMigrators admin validatorVotingAddr).

(** ** Verification *)

(** A contract whose code is not pinned is only logged. *)
Definition verify_contract (valVotingContractAddr : AccAddress) (k : KState W) (tp : Z) : outcome () :=
  addr ← GetPoEContractAddress k tp;
  match GetContractInfo (world k) addr with
  | None => Err (Wrap poe_ErrInvalid "unknown contract: %s")
  | Some c => check (bool_decide (Admin c ≠ AccAddress_String valVotingContractAddr))
                (Wrap poe_ErrInvalid "admin address: %s")
  end.

Definition HasPrivilege (k : KState W) (addr : AccAddress) (privilegeType : Z) : outcome bool :=
  (HasPrivilegedContract addr privilegeType (mkCtx (world k) [])).1.

Fixpoint verify_all (valVotingContractAddr : AccAddress) (k : KState W) (tps : list Z) : outcome () :=
  match tps with
  | [] => Ok ()
  | tp :: tps' => verify_contract valVotingContractAddr k tp ;; verify_all valVotingContractAddr k tps'
  end.

Definition VerifyPoEContracts (k : KState W) : outcome () :=
  valVotingContractAddr ← wrap "validator voting address" (GetPoEContractAddress k PoEContractTypeValidatorVoting);
  verify_all valVotingContractAddr k PoEContractTypes ;;
  addr ← wrap "valset addr" (GetPoEContractAddress k PoEContractTypeValset);
  ok ← wrap "valset contract" (HasPrivilege k addr PrivilegeTypeValidatorSetUpdate);
  check (negb ok) (Wrap poe_ErrInvalid "valset contract not registered for validator updates") ;;
  stakeContractAddr ← wrap "validator voting address" (GetPoEContractAddress k PoEContractTypeStaking);
  ok ← wrap "staking contract" (HasPrivilege k stakeContractAddr PrivilegeDelegator);
  check (negb ok) (Wrap poe_ErrInvalid "no contract with delegator privileges").

(** ** Genesis of the module *)
Context {Tx : Type} (TxJSONDecoder : json_bytes → outcome Tx) (Tx_ValidateBasic : Tx → outcome ())
  (TxEncoder : Tx → outcome bytes) (deliverTx : bytes → M (KState W) bool).

(** The result is [None] when the fuel for the pages of validators is used up. *)
Definition AppModule_InitGenesis (fuel : nat) (genesisState : PoEGenesisState) :
    M (KState W) (option (list AbciValidatorUpdate)) :=
  match GetSeedContracts genesisState with
  | Some seed =>
      (if decide (GenTxs seed = []) then panic "empty gentx" else mret ()) ;;
      must (BootstrapPoEContracts seed)
  | None => mret ()
  end ;;
  must (InitGenesis TxJSONDecoder Tx_ValidateBasic TxEncoder deliverTx genesisState) ;;
  must (reads VerifyPoEContracts) ;;
  addr ← must (reads (λ k, GetPoEContractAddress k PoEContractTypeValset));
  match GetSeedContracts genesisState with
  | Some _ =>
      initialSet ← must (on_world (CallEndBlockWithValidatorUpdate addr));
      match initialSet with
      | [] => panic "initial valset must not be empty"
      | _ => mret (Some initialSet)
      end
  | None => λ c,
      match active_set fuel (world (store c)) (ValsetContract_of (store c)) with
      | None => (Ok None, c)
      | Some (Ok s) => (Ok (Some s), c)
      | Some (Err e) => (Err e, c)
      | Some (Panic p) => (Panic p, c)
      end
  end.
End bootstrap.
