(* ===== verification/PoEBootstrapProps.v ===== *)
(** Theorems about the set-up of the PoE contracts: after it every contract type
    has an address and every contract belongs to the validator voting contract,
    so that the verification only depends on two privileges; and reward ratios of
    zero percent, which the genesis validation accepts, make it panic. *)
From stdpp Require Import base list strings gmap sets sorting pretty relations.
From Stdlib Require Import ZArith Lia.
From S2P Require Import Prelude ProgramLogic Sdk RefStore Slice Json Privilege Wasm TwasmKeeper TwasmHandler GoTime PoETypes TwasmMsgs PoEMsgs PoETypesProps PoEKeeper PoEKeeperProps PoEContractIO PoEValset PoEAdapters PoEServer PoEQueries PoEBootstrap.
Open Scope Z_scope.

(** The store of x/poe is the same. *)
Definition same_poe_store `{KVStore W} (w w' : W) : Prop := ∀ k, kv_get w' poe_StoreKey k = kv_get w poe_StoreKey k.
#[export] Instance same_poe_store_preorder `{KVStore W} : PreOrder (same_poe_store (W:=W)).
Proof. split; [by intros w k|]. intros x y z Hxy Hyz k. by rewrite Hyz, Hxy. Qed.

(** A call that leaves the store of x/poe alone when it succeeds. *)
Abbreviation frames := (respects same_poe_store).

(** Contracts and wasmd do not reach into the store of x/poe, and a contract gets
    the admin it is given. *)
Class BootstrapLaws (W : Type) `{KVStore W, WasmKeeper W, WasmVM W, ContractOps W, ContractCalls W, Bech32} := {
  Create_frames creator wasm : frames (Create creator wasm);
  Instantiate_frames id creator admin msg label deposit : frames (Instantiate id creator admin msg label deposit);
  PinCode_frames id : frames (PinCode id);
  Sudo_frames addr msg : frames (Sudo addr msg);
  Execute_frames addr sender msg coins : frames (Execute addr sender msg coins);
  UpdateContractAdmin_frames addr caller new : frames (UpdateContractAdmin addr caller new);
  UpdateContractAdmin_spec addr caller new c c' :
    UpdateContractAdmin addr caller new c = (Ok (), c') →
    (∃ i, GetContractInfo (store c') addr = Some i ∧ Admin i = AccAddress_String new) ∧
    ∀ b, b ≠ addr → GetContractInfo (store c') b = GetContractInfo (store c) b;
}.

(** A write to the store of wasm. *)
Lemma frames_wasm_set `{!KVStore W, !KVLaws W} k v : respects (same_poe_store (W:=W)) (modify (kv_set StoreKey k v)).
Proof. apply respects_modify. intros w s. by apply kv_get_set_store. Qed.
#[export] Hint Extern 1 (respects same_poe_store (modify (kv_set StoreKey _ _))) => apply frames_wasm_set : respects.
#[export] Hint Resolve Create_frames Instantiate_frames PinCode_frames Sudo_frames Execute_frames
  UpdateContractAdmin_frames : respects.

Section bootstrap.
Context `{!KVStore W, !KVLaws W, !PoEParamStore W, !HistoryCodec, !WasmKeeper W, !WasmVM W, !ContractOps W, !ContractCalls W,
  !Bech32, !SdkMath, !SdkMathLaws, !SdkText, !SdkDecimal, !SdkCoins, !ForeignDecoders, !BootstrapLaws W}.
Implicit Types (k : KState W) (gs : SeedContracts).

(** What the keeper knows of a contract type. *)
Definition entry k (t : Z) : option AccAddress * option AccAddress := (contractAddrCache k !! t, stored (world k) t).

(** A call that changes at most the entries of the types [T]. *)
Definition same_entries (T : list Z) k k' : Prop := ∀ t, t ∈ contract_types → t ∉ T → entry k' t = entry k t.
#[export] Instance same_entries_preorder T : PreOrder (same_entries T).
Proof. split; [by intros k t|]. intros x y z Hxy Hyz t Ht Hn. by rewrite Hyz, Hxy. Qed.
Abbreviation modifies T := (respects (same_entries T)).

Lemma modifies_world T {A} (m : M W A) : frames m → modifies T (on_world m).
Proof.
  intros Hm c a c' Hrun t _ _. unfold on_world in Hrun.
  destruct (m (mkCtx (world (store c)) (events c))) as [o c1] eqn:E. injection Hrun as -> <-.
  unfold entry. cbn. f_equal. apply (Hm _ _ _ E).
Qed.
Lemma modifies_set T t a : t ∈ contract_types → t ∈ T → modifies T (SetPoEContractAddress t a).
Proof.
  intros Ht HT. apply respects_modify. intros k t' Ht' Hn. unfold entry. cbn.
  rewrite lookup_insert_ne by set_solver. rewrite stored_set, decide_False by set_solver. done.
Qed.
Lemma respects_reads (R : relation (KState W)) `{!PreOrder R} {A} (f : KState W → outcome A) : respects R (reads f).
Proof. apply respects_pure; [apply _|]. by intros c a c' [= _ <-]. Qed.
#[local] Hint Resolve modifies_world modifies_set : respects.
#[local] Hint Extern 1 (respects _ (reads _)) => apply respects_reads, _ : respects.

Lemma SetPrivileged_frames addr : frames (SetPrivileged addr).
Proof using KVLaws0 BootstrapLaws0.
  unfold SetPrivileged, promote, sudo_msg, setPrivilegedFlag. respects_solve.
Qed.

Lemma doExecute_frames a msg sender coins : frames (doExecute a msg sender coins).
Proof using BootstrapLaws0. unfold doExecute. respects_solve. Qed.
#[local] Hint Resolve SetPrivileged_frames doExecute_frames : respects.

Lemma addToTrustedCircle_modifies T addr ms sender deposit : modifies T (addToTrustedCircle addr ms sender deposit).
Proof using BootstrapLaws0.
  unfold addToTrustedCircle, AddVotingMembersProposal, ExecuteProposal, deposit_escrow, DepositEscrow. respects_solve.
Qed.
#[local] Hint Resolve addToTrustedCircle_modifies : respects.

(** The type has an address, the same in the cache and in the store. *)
Definition registered k (t : Z) : Prop := ∃ a, entry k t = (Some a, Some a).

Lemma set_registers t a (c c' : Ctx (KState W)) :
  SetPoEContractAddress t a c = (Ok (), c') → entry (store c') t = (Some a, Some a).
Proof.
  intros [= <-]. unfold entry. cbn. rewrite lookup_insert_eq. f_equal. apply kv_get_set_eq.
Qed.

Lemma entry_lookup k t a : t ∈ contract_types → entry k t = (Some a, Some a) → GetPoEContractAddress k t = Ok a.
Proof.
  intros Ht [= Hc _]. unfold GetPoEContractAddress. rewrite (proj2 (contract_type_valid t) Ht). cbn. by rewrite Hc.
Qed.

(** *** What each section does *)

(** A call that changes at most the types [T], and registers the types [R]. *)
Definition does (T R : list Z) {A} (m : M (KState W) A) : Prop :=
  modifies T m ∧ ∀ c a c', m c = (Ok a, c') → Forall (registered (store c')) R.

Lemma does_bind T1 R1 T2 R2 {A B} (m : M (KState W) A) (f : A → M (KState W) B) :
  does T1 R1 m → (∀ a, does T2 R2 (f a)) → forallb (λ t, bool_decide (t ∈ contract_types ∧ t ∉ T2)) R1 = true →
  does (T1 ++ T2) (R1 ++ R2) (m ≫= f).
Proof.
  intros [Hm Hr] Hf Hd. split.
  - intros c b c' (a & c1 & Hrun & Hrest)%M_bind_ok t Ht [Hn1 Hn2]%not_elem_of_app.
    by rewrite (proj1 (Hf _) _ _ _ Hrest), (Hm _ _ _ Hrun).
  - intros c b c' (a & c1 & Hrun & Hrest)%M_bind_ok. destruct (Hf a) as [Hm2 Hr2].
    apply Forall_app. split; [|by apply (Hr2 _ _ _ Hrest)].
    apply Forall_forall. intros t Ht. rewrite forallb_forall in Hd.
    specialize (Hd t (proj1 (list_elem_of_In _ _) Ht)). apply bool_decide_eq_true in Hd as [Hct Hn].
    specialize (Hr _ _ _ Hrun). rewrite Forall_forall in Hr. destruct (Hr t Ht) as [x Hx].
    exists x. by rewrite (Hm2 _ _ _ Hrest).
Qed.

Lemma does_modifies {A} (m : M (KState W) A) : modifies [] m → does [] [] m.
Proof. intros Hm. split; [done|]. constructor. Qed.
Lemma does_set t a : t ∈ contract_types → does [t] [t] (SetPoEContractAddress t a).
Proof.
  intros Ht. split; [apply modifies_set; set_solver|]. intros c [] c' Hs. constructor; [|constructor].
  exists a. by apply (set_registers _ _ _ _ Hs).
Qed.

Lemma does_eq T R T' R' {A} (m : M (KState W) A) : does T R m → T = T' → R = R' → does T' R' m.
Proof. by intros Hd <- <-. Qed.

Ltac does_solve :=
  lazymatch goal with
  | |- does _ _ (mbind _ _) => eapply does_bind; [does_solve|intros; does_solve|try reflexivity]
  | |- does _ _ (SetPoEContractAddress _ _) => apply does_set; set_solver
  | |- _ => apply does_modifies; respects_solve
  end.

(** [does_solve] up to the form of the lists. *)
Ltac section_solve := unfold create, instantiate, pin; eapply does_eq; [does_solve|reflexivity|reflexivity].

Lemma setup_engagement_does uon code gs admin :
  does [PoEContractTypeEngagement] [PoEContractTypeEngagement] (setup_engagement uon code gs admin).
Proof. unfold setup_engagement. section_solve. Qed.
Lemma setup_oversight_community_does code gs admin :
  does [PoEContractTypeOversightCommunity] [PoEContractTypeOversightCommunity] (setup_oversight_community code gs admin).
Proof. unfold setup_oversight_community. section_solve. Qed.
Lemma setup_stake_does uon code gs admin :
  does [PoEContractTypeStaking] [PoEContractTypeStaking] (setup_stake uon code gs admin).
Proof. unfold setup_stake. section_solve. Qed.
Lemma setup_mixer_does code gs admin e s :
  does [PoEContractTypeMixer] [PoEContractTypeMixer] (setup_mixer code gs admin e s).
Proof. unfold setup_mixer. section_solve. Qed.
Lemma setup_community_pool_does code gs admin e :
  does [PoEContractTypeCommunityPool] [PoEContractTypeCommunityPool] (setup_community_pool code gs admin e).
Proof. unfold setup_community_pool. section_solve. Qed.
Lemma setup_valset_does uon code gs admin m e p id :
  does [PoEContractTypeValset; PoEContractTypeDistribution] [PoEContractTypeValset; PoEContractTypeDistribution] (setup_valset uon code gs admin m e p id).
Proof. unfold setup_valset. section_solve. Qed.
Lemma setup_oc_proposals_does code gs admin o e v :
  does [PoEContractTypeOversightCommunityGovProposals] [PoEContractTypeOversightCommunityGovProposals] (setup_oc_proposals code gs admin o e v).
Proof. unfold setup_oc_proposals. section_solve. Qed.
Lemma setup_validator_voting_does code gs admin d :
  does [PoEContractTypeValidatorVoting] [PoEContractTypeValidatorVoting] (setup_validator_voting code gs admin d).
Proof. unfold setup_validator_voting. section_solve. Qed.
Lemma setup_arbiter_circle_does gs admin id :
  does [PoEContractTypeArbiterPool] [PoEContractTypeArbiterPool] (setup_arbiter_circle gs admin id).
Proof. unfold setup_arbiter_circle. section_solve. Qed.
Lemma setup_arbiter_voting_does uon code gs admin a :
  does [PoEContractTypeArbiterPoolVoting] [PoEContractTypeArbiterPoolVoting] (setup_arbiter_voting uon code gs admin a).
Proof. unfold setup_arbiter_voting. section_solve. Qed.

(** *** Handing the contracts over *)
Definition owned k (voting a : AccAddress) : Prop :=
  ∃ i, GetContractInfo (world k) a = Some i ∧ Admin i = AccAddress_String voting.

Lemma update_admin_owned a old new (c c' : Ctx (KState W)) :
  on_world (UpdateContractAdmin a old new) c = (Ok (), c') →
  owned (store c') new a ∧ ∀ b, owned (store c) new b → owned (store c') new b.
Proof.
  unfold on_world. destruct (UpdateContractAdmin _ _ _ _) as [o c1] eqn:E. intros [= -> <-].
  apply UpdateContractAdmin_spec in E as [Ha Hb]. split; [done|]. intros b (i & Hi & Hadm).
  destruct (decide (b = a)) as [->|Hne]; [done|]. exists i. cbn. by rewrite Hb.
Qed.

Lemma set_migrator_modifies T old new tp : modifies T (set_migrator old new tp).
Proof. unfold set_migrator. respects_solve. Qed.

(** After the loop over [tps] their contracts belong to [new], and the addresses are as before. *)
Lemma migrators_owned old new tps (c c' : Ctx (KState W)) :
  forM tps (set_migrator old new) c = (Ok (), c') →
  (∀ t a, t ∈ tps → t ∈ contract_types → entry (store c) t = (Some a, Some a) → owned (store c') new a) ∧
  (∀ b, owned (store c) new b → owned (store c') new b).
Proof.
  revert c. induction tps as [|tp tps IH]; intros c.
  { intros [= <-]. split; [intros t a Ht; by apply not_elem_of_nil in Ht|done]. }
  cbn. intros ([] & c1 & Hone & Hrest)%M_bind_ok. apply IH in Hrest as [IHt IHb].
  pose proof (set_migrator_modifies [] _ _ _ _ _ _ Hone) as Hmod.
  apply M_bind_ok in Hone as (addr & c2 & Hr & Hu%wrapM_ok).
  injection Hr as Hlook%wrap_ok <-. apply update_admin_owned in Hu as [Ha Hb].
  split; [|auto]. intros t a Ht Hct He. apply elem_of_cons in Ht as [->|Ht].
  - rewrite (entry_lookup _ _ _ Hct He) in Hlook. injection Hlook as ->. by apply IHb.
  - apply (IHt t); [done..|]. rewrite Hmod by (done || set_solver). done.
Qed.

Lemma setup_validator_voting_addr code gs admin d c a c' :
  setup_validator_voting code gs admin d c = (Ok a, c') →
  entry (store c') PoEContractTypeValidatorVoting = (Some a, Some a).
Proof.
  unfold setup_validator_voting. intros (x1 & c1 & _ & Hrun)%M_bind_ok. apply M_bind_ok in Hrun as (x2 & c2 & _ & Hrun).
  apply M_bind_ok in Hrun as (x3 & c3 & _ & Hrun). apply M_bind_ok in Hrun as (x4 & c4 & _ & Hrun).
  apply M_bind_ok in Hrun as ([] & c5 & Hset & Hrun). apply M_bind_ok in Hrun as ([] & c6 & Hp & Hrun).
  injection Hrun as <- <-.
  assert (modifies [] (wrapM "grant privileges to validator voting contract" (on_world (SetPrivileged x4)))) as Hm
    by respects_solve.
  rewrite (Hm _ _ _ Hp) by set_solver. by apply (set_registers _ _ _ _ Hset).
Qed.

Lemma verify_all_ok voting k tps :
  verify_all voting k tps = Ok () ↔ Forall (λ t, verify_contract voting k t = Ok ()) tps.
Proof.
  induction tps as [|t tps IH]; cbn; [by split; [constructor|]|].
  rewrite (outcome_bind_ok (λ _, verify_all voting k tps)), Forall_cons, <-IH.
  split; [by intros ([] & ? & ?)|intros [? ?]; by exists ()].
Qed.

Lemma PoEContractTypes_elem t : t ∈ PoEContractTypes ↔ t ∈ contract_types.
Proof.
  assert (PoEContractTypes ≡ₚ contract_types) as ->; [|done].
  apply (bool_decide_unpack _). vm_compute. exact I.
Qed.

Lemma verify_contract_owned voting k t a :
  t ∈ contract_types → entry k t = (Some a, Some a) → owned k voting a → verify_contract voting k t = Ok ().
Proof.
  intros Ht He (i & Hi & Hadm). unfold verify_contract. rewrite (entry_lookup _ _ _ Ht He). cbn. rewrite Hi.
  apply check_ok, bool_decide_eq_false. naive_solver.
Qed.

(** All sections but the last: every type gets its address, and the voting contract is known. *)
Definition deploy uon code gs admin : M (KState W) AccAddress :=
  e ← setup_engagement uon code gs admin;
  oc ← setup_oversight_community code gs admin;
  stakeAddr ← setup_stake uon code gs admin;
  mixerAddr ← setup_mixer code gs admin e.2 stakeAddr;
  communityPoolAddr ← setup_community_pool code gs admin e.2;
  v ← setup_valset uon code gs admin mixerAddr e.2 communityPoolAddr e.1;
  setup_oc_proposals code gs admin oc.2 e.2 v.1 ;;
  validatorVotingAddr ← setup_validator_voting code gs admin v.2;
  apAddr ← setup_arbiter_circle gs admin oc.1;
  setup_arbiter_voting uon code gs admin apAddr ;;
  mret validatorVotingAddr.

Lemma bootstrap_deploy uon code gs c c' :
  BootstrapPoEContracts uon code gs c = (Ok (), c') →
  ∃ admin voting c1, AccAddressFromBech32 (BootstrapAccountAddress gs) = Ok admin ∧
    deploy uon code gs admin c = (Ok voting, c1) ∧
    forM PoEContractTypes (set_migrator admin voting) c1 = (Ok (), c').
Proof.
  unfold BootstrapPoEContracts, deploy. intros (admin & c0 & Hadm & Hrun)%M_bind_ok.
  injection Hadm as Hadm%wrap_ok <-.
  apply M_bind_ok in Hrun as (e & ? & He & Hrun). apply M_bind_ok in Hrun as (oc & ? & Hoc & Hrun).
  apply M_bind_ok in Hrun as (s & ? & Hs & Hrun). apply M_bind_ok in Hrun as (m & ? & Hm & Hrun).
  apply M_bind_ok in Hrun as (p & ? & Hp & Hrun). apply M_bind_ok in Hrun as (v & ? & Hv & Hrun).
  apply M_bind_ok in Hrun as (o & ? & Ho & Hrun). apply M_bind_ok in Hrun as (vv & ? & Hvv & Hrun).
  apply M_bind_ok in Hrun as (ap & ? & Hap & Hrun). apply M_bind_ok in Hrun as (av & c1 & Hav & Hrun%wrapM_ok).
  exists admin, vv, c1. split_and!; [done| |done].
  repeat (apply M_bind_ok; eexists _, _; split; [eassumption|]). done.
Qed.

Lemma Forall_all_in {P : Z → Prop} (l l' : list Z) :
  Forall P l → bool_decide (Forall (.∈ l) l') = true → Forall P l'.
Proof.
  intros Hl Hin%bool_decide_eq_true. rewrite Forall_forall in *. auto.
Qed.

Lemma deploy_registers uon code gs admin c voting c1 :
  deploy uon code gs admin c = (Ok voting, c1) →
  Forall (registered (store c1)) contract_types ∧
  entry (store c1) PoEContractTypeValidatorVoting = (Some voting, Some voting).
Proof.
  intros Hrun. split.
  - eassert (does _ _ (deploy uon code gs admin)) as [_ Hd].
    { unfold deploy.
      eapply does_bind; [apply setup_engagement_does|intros e|].
      1: eapply does_bind; [apply setup_oversight_community_does|intros oc|].
      1: eapply does_bind; [apply setup_stake_does|intros s|].
      1: eapply does_bind; [apply setup_mixer_does|intros m|].
      1: eapply does_bind; [apply setup_community_pool_does|intros p|].
      1: eapply does_bind; [apply setup_valset_does|intros v|].
      1: eapply does_bind; [apply setup_oc_proposals_does|intros []|].
      1: eapply does_bind; [apply setup_validator_voting_does|intros vv|].
      1: eapply does_bind; [apply setup_arbiter_circle_does|intros ap|].
      1: eapply does_bind; [apply setup_arbiter_voting_does|intros []|].
      1: apply does_modifies, respects_ret, _.
      all: reflexivity. }
    specialize (Hd _ _ _ Hrun). apply (Forall_all_in _ _ Hd). vm_compute. reflexivity.
  - unfold deploy in Hrun. do 7 (apply M_bind_ok in Hrun as (? & ? & _ & Hrun)).
    apply M_bind_ok in Hrun as (vv & c2 & Hvv & Hrun). apply M_bind_ok in Hrun as (ap & c3 & Hap & Hrun).
    apply M_bind_ok in Hrun as ([] & c4 & Hav & Hrun). injection Hrun as <- <-.
    rewrite (proj1 (setup_arbiter_voting_does _ _ _ _ _) _ _ _ Hav) by set_solver.
    rewrite (proj1 (setup_arbiter_circle_does _ _ _) _ _ _ Hap) by set_solver.
    by apply (setup_validator_voting_addr _ _ _ _ _ _ _ Hvv).
Qed.

Lemma two_flags (o1 o2 : outcome bool) m1 m2 e1 e2 :
  (ok ← wrap m1 o1; check (negb ok) e1 ;; ok ← wrap m2 o2; check (negb ok) e2) = Ok () ↔
  o1 = Ok true ∧ o2 = Ok true.
Proof. destruct o1 as [[]| |], o2 as [[]| |]; cbn; naive_solver. Qed.

(** Membership of a constant in [contract_types]. *)
Ltac known_type := apply (bool_decide_unpack _); vm_compute; exact I.

(** C16: When the set-up of the PoE contracts succeeds, every contract type has an
    address, the same in the keeper's cache and in the store, and the contract there is
    administrated by the validator voting contract, no longer by the bootstrap account.
    [VerifyPoEContracts] then accepts exactly when the valset contract holds the privilege
    to update validators and the staking contract the delegator privilege. *)
Theorem bootstrap_spec uon code gs c c' :
  BootstrapPoEContracts uon code gs c = (Ok (), c') →
  ∃ voting, GetPoEContractAddress (store c') PoEContractTypeValidatorVoting = Ok voting ∧
    (∀ t, t ∈ contract_types → ∃ a i,
      contractAddrCache (store c') !! t = Some a ∧ stored (world (store c')) t = Some a ∧
      GetContractInfo (world (store c')) a = Some i ∧ Admin i = AccAddress_String voting) ∧
    ∃ valset stake,
      GetPoEContractAddress (store c') PoEContractTypeValset = Ok valset ∧
      GetPoEContractAddress (store c') PoEContractTypeStaking = Ok stake ∧
      (VerifyPoEContracts (store c') = Ok () ↔
       HasPrivilege (store c') valset PrivilegeTypeValidatorSetUpdate = Ok true ∧
       HasPrivilege (store c') stake PrivilegeDelegator = Ok true).
Proof.
  intros (admin & voting & c1 & _ & [Hreg Hvv]%deploy_registers & Hall)%bootstrap_deploy.
  pose proof (migrators_owned _ _ _ _ _ Hall) as [Hown _].
  assert (∀ t, t ∈ contract_types → entry (store c') t = entry (store c1) t) as Hsame.
  { intros t Ht. assert (modifies [] (forM PoEContractTypes (set_migrator admin voting))) as Hm
      by (apply respects_forM; [apply _|intros x _; apply set_migrator_modifies]).
    apply (Hm _ _ _ Hall); [done|apply not_elem_of_nil]. }
  assert (∀ t, t ∈ contract_types → ∃ a, entry (store c') t = (Some a, Some a) ∧ owned (store c') voting a) as Hent.
  { intros t Ht. rewrite Forall_forall in Hreg. destruct (Hreg t Ht) as [a Ha]. exists a. rewrite Hsame by done.
    split; [done|]. apply (Hown t); [by apply PoEContractTypes_elem|done..]. }
  rewrite <-(Hsame PoEContractTypeValidatorVoting) in Hvv by known_type.
  exists voting. split; [apply entry_lookup; [known_type|done]|]. split.
  { intros t Ht. destruct (Hent t Ht) as (a & [= Hc Hs] & i & Hi & Hadm). by exists a, i. }
  destruct (Hent PoEContractTypeValset) as (valset & Hv & _); [known_type|].
  destruct (Hent PoEContractTypeStaking) as (stake & Hst & _); [known_type|].
  apply entry_lookup in Hv, Hst, Hvv; [|known_type..].
  exists valset, stake. split; [done|]. split; [done|].
  unfold VerifyPoEContracts. rewrite Hvv, Hv, Hst. cbn [mbind outcome_bind wrap].
  rewrite (proj2 (verify_all_ok voting (store c') PoEContractTypes)).
  2:{ apply Forall_forall. intros t Ht%PoEContractTypes_elem. destruct (Hent t Ht) as (a & He & Ho).
      by apply (verify_contract_owned _ _ _ a). }
  apply two_flags.
Qed.
End bootstrap.

(** ** Reward ratios *)
Section ratios.
Context `{!SdkMath, !SdkMathLaws, !SdkDecimal, !SdkDecimalLaws, !Bech32}.

Lemma percentage_some d : percentage (Some d) = if decide (d = 0) then Panic "nil pointer" else Ok (Some (Z.quot d 100)).
Proof.
  unfold percentage, DecimalFromPercentage. rewrite Dec_IsZero_some. cbn.
  case_decide as Hd; [by subst|]. rewrite (proj2 (Z.eqb_neq _ _) Hd), Dec_QuoInt64_some by done. done.
Qed.

Lemma ratio_present o x e : checkM (Dec_GT o x) e = Ok () → ∃ a, o = Some a.
Proof.
  destruct o as [a|]; [by exists a|]. unfold checkM. pose proof (Dec_GT_nil x) as Hn. by destruct (Dec_GT None x).
Qed.

(** The decimals of an accepted configuration are set, and the fee is not zero. *)
Lemma valset_config_decimals cfg :
  ValsetContractConfig_ValidateBasic cfg = Ok () →
  ∃ engagement pool fee, EngagementRewardRatio cfg = Some engagement ∧ CommunityPoolRewardRatio cfg = Some pool ∧
    FeePercentage cfg = Some fee ∧ 100 ≤ fee.
Proof.
  unfold ValsetContractConfig_ValidateBasic. intros Hv. go_inv.
  repeat match goal with H : checkM (Dec_GT _ _) _ = Ok _ |- _ => apply ratio_present in H as [? ?] end.
  match goal with H : checkM (Dec_LT ?f ?m) _ = Ok _ |- _ =>
    destruct f as [fee|] eqn:Hf; [|unfold checkM in H; pose proof (Dec_LT_nil m) as Hn; by destruct (Dec_LT None m)];
    unfold checkM, minFeePercentage in H; rewrite Dec_LT_some in H; apply check_ok, Z.ltb_ge in H
  end.
  eexists _, _, fee. split_and!; done.
Qed.

(** For a valset configuration the genesis validation accepts, the message that
    instantiates the valset contract is built exactly when neither the engagement ratio nor
    the community pool ratio is zero percent: then the fee and the ratios of the two
    distribution contracts are the configured percentages divided by hundred (truncated to
    18 decimals). With a ratio of zero percent the genesis of the chain panics. *)
Lemma valset_init_ratios uon gs cfg admin mixer engagementAddr poolAddr id :
  ValsetConfig gs = Some cfg → ValsetContractConfig_ValidateBasic cfg = Ok () →
  if decide (EngagementRewardRatio cfg = Some 0 ∨ CommunityPoolRewardRatio cfg = Some 0)
  then is_panic (newValsetInitMsg uon gs admin mixer engagementAddr poolAddr id) = true
  else ∃ msg engagement pool fee,
    newValsetInitMsg uon gs admin mixer engagementAddr poolAddr id = Ok msg ∧
    EngagementRewardRatio cfg = Some engagement ∧ CommunityPoolRewardRatio cfg = Some pool ∧
    FeePercentage cfg = Some fee ∧ VI_FeePercentage msg = Some (Some (Z.quot fee 100)) ∧
    VI_DistributionContracts msg =
      [mkDistribution (AccAddress_String engagementAddr) (Some (Z.quot engagement 100));
       mkDistribution (AccAddress_String poolAddr) (Some (Z.quot pool 100))].
Proof.
  intros Hcfg (engagement & pool & fee & He & Hp & Hf & Hmin)%valset_config_decimals.
  unfold newValsetInitMsg. rewrite Hcfg. cbn [deref mbind outcome_bind]. rewrite He, Hp, Hf, !percentage_some.
  unfold DecimalFromPercentage. rewrite Dec_IsZero_some. cbn [mbind outcome_bind].
  rewrite (proj2 (Z.eqb_neq fee 0)) by lia. rewrite Dec_QuoInt64_some by done. cbn [mbind outcome_bind].
  destruct (decide (engagement = 0)) as [->|He0]; [by rewrite decide_True by auto|]. cbn [mbind outcome_bind].
  destruct (decide (pool = 0)) as [->|Hp0]; [by rewrite decide_True by auto|].
  rewrite decide_False by naive_solver. eexists _, engagement, pool, fee. by split_and!.
Qed.
End ratios.
