(* ===== verification/RefBootstrap.v ===== *)
(** The set-up of the PoE contracts on a concrete chain: the chain of [RefWorld]
    with contracts that are created under fresh addresses, of which the staking and
    the valset contract request privileges when they are promoted. *)
From stdpp Require Import base list strings gmap sets sorting pretty relations.
From Stdlib Require Import ZArith Lia.
From S2P Require Import Prelude ProgramLogic Sdk RefStore Slice Json Privilege Wasm TwasmKeeper TwasmHandler TwasmSteps RefWorld GoTime PoETypes TwasmMsgs PoEMsgs PoETypesProps PoEKeeper PoEKeeperProps PoEContractIO PoEValset PoEServer RefPoE PoEAdapters PoEQueries PoEBootstrap PoEBootstrapProps.
Open Scope Z_scope.

#[export] Instance Ref_decimal : SdkDecimal := {
  Dec_QuoInt64 d n := match d with
                      | Some a => if decide (n = 0) then Panic "division by zero" else Ok (Some (Z.quot a n))
                      | None => Panic "nil" end;
  Int_Add a b := match a, b with
                 | Some x, Some y => if Z.abs (x + y) <? 2 ^ 256 then Ok (Some (x + y)) else Panic "overflow"
                 | _, _ => Panic "nil" end;
  Int_IsZero a := match a with Some x => Ok (x =? 0) | None => Panic "nil" end;
  dec_Dec := λ j d, match j with JNum z => Ok (Some z) | _ => Err ErrJSON end;
  enc_Dec d := from_option JNum JNull d;
  enc_Int a := from_option JNum JNull a;
}.

#[export] Instance Ref_decimal_laws : SdkDecimalLaws.
Proof.
  constructor; cbn; [|intros a b Hs%Z.ltb_lt; by rewrite Hs|done].
  intros a n Hn. by rewrite decide_False by done.
Qed.

#[export] Instance World_poe_params : PoEParamStore World := {
  param_HistoricalEntries w := Ok 3;
  param_InitialValEngagementPoints w := Ok 1;
  param_MinDelegationAmounts w := Ok [];
  poe_SetParamSet p := mret ();
}.

(** ** Contracts *)
Definition set_info (a : AccAddress) (i : ContractInfo) : World → World := upd_infos <[a := i]>.
Definition set_code (a : AccAddress) (b : Behaviour) (w : World) : World :=
  mkWorld (w_kv w) (w_infos w) (w_pinned w) (<[a := b]> (w_code w)) (w_balances w) (w_params w).
Definition fresh_address (w : World) : AccAddress := "contract" +:+ pretty (Z.of_nat (size (w_infos w))).

(** The privileges a contract requests, by the id of its code. *)
Definition requests (id : Z) : list Z :=
  match id with
  | 2 => [PrivilegeDelegator]
  | 4 => [PrivilegeTypeValidatorSetUpdate]
  | _ => []
  end.

(** The id of a code is its length. A valset contract creates its distribution contract. *)
Definition create_contract (id : Z) (admin : AccAddress) : M World AccAddress :=
  a ← gets fresh_address;
  known ← gets (λ w, w_infos w !! a);
  match known with Some _ => fail_with ErrDuplicate | None => mret () end ;;
  modify (set_info a (mkContractInfo id (AccAddress_String admin) None)) ;;
  modify (set_code a (Requests (requests id))) ;;
  mret a.

#[export] Instance World_ops : ContractOps World := {
  Create creator wasm := mret (Z.of_nat (String.length wasm));
  Instantiate id creator admin msg label deposit :=
    a ← create_contract id admin;
    (if decide (label = "valset") then create_contract 1 admin ;; mret () else mret ()) ;;
    mret a;
  UpdateContractAdmin addr caller new :=
    info ← gets (λ w, w_infos w !! addr);
    match info with
    | None => fail_with ErrNotFound
    | Some i =>
        if decide (Admin i = AccAddress_String caller)
        then modify (set_info addr (mkContractInfo (CodeID i) (AccAddress_String new) (Extension i)))
        else fail_with (new_err "unauthorized")
    end;
}.

#[export] Instance World_calls : ContractCalls World := {
  Execute addr op msg coins := mret JNil;
  QuerySmart w addr q :=
    match q with
    | JObj [("configuration", _)] => Ok (JText (JObj [("validator_group", JStr "furya1contract6")]))
    | JObj [("reverse_proposals", _)] => Ok (JText (JObj [("proposals", JArr [JObj [("id", JNum 1)]])]))
    | _ => Err (new_err "contract")
    end;
}.

Lemma frames_upd (f : World → World) : (∀ w, w_kv (f w) = w_kv w) → frames (modify f).
Proof. intros Hf. apply respects_modify. intros w s. cbn. by rewrite Hf. Qed.
Lemma frames_extension a d : respects (same_poe_store (W:=World)) (SetContractInfoExtension a d).
Proof.
  intros c u c' Hr s. cbn in Hr. repeat case_match; simplify_eq/=; try done; by injection Hr as _ <-.
Qed.
#[local] Hint Extern 1 (frames (modify _)) => apply frames_upd; reflexivity : respects.
#[local] Hint Resolve frames_extension : respects.

Lemma frames_register a d t : respects (same_poe_store (W:=World)) (register a d t).
Proof.
  unfold register, setContractDetails, appendToPrivilegedContracts, storeContractPrivilegeRegistration. respects_solve.
Qed.
#[local] Hint Resolve frames_register : respects.

Lemma frames_request_all a ts : frames (request_all a ts).
Proof.
  induction ts as [|t ts IH]; [apply respects_ret, _|]. cbn. respects_solve. unfold handlePrivilege.
  change (negb (Release (mkPrivilegeMsg t 0) =? PrivilegeTypeEmpty)) with false. cbn [Request]. respects_solve.
Qed.
#[local] Hint Resolve frames_request_all : respects.

Lemma frames_create_contract id admin : frames (create_contract id admin).
Proof. unfold create_contract. respects_solve. Qed.
#[local] Hint Resolve frames_create_contract : respects.

#[export] Instance World_bootstrap_laws : BootstrapLaws World.
Proof.
  constructor.
  - intros creator wasm. cbn. respects_solve.
  - intros id creator admin msg label deposit. cbn. respects_solve.
  - intros id. by apply frames_upd.
  - intros addr msg. cbn. respects_solve.
  - intros addr sender msg coins. cbn. respects_solve.
  - intros addr caller new. cbn. respects_solve.
  - intros addr caller new c c' Hr. cbn in Hr. unfold mbind, M_bind, gets in Hr.
    destruct (w_infos (store c) !! addr) as [i|]; [|done]. case_decide; [|done]. injection Hr as <-. cbn. split.
    + eexists. by rewrite lookup_insert_eq.
    + intros b Hb. by rewrite lookup_insert_ne.
Qed.

(** ** A genesis *)
Definition ref_code : EmbeddedContracts :=
  mkEmbedded "e" "ss" "mmm" "vvvv" "ccccc" "pppppp" "ooooooo" "tttttttt" "aaaaaaaaa".
Definition empty_chain : Ctx (KState World) := mkCtx (mkKState (mkWorld ∅ ∅ ∅ ∅ ∅ None) ∅ []) [].
Abbreviation ref_bootstrap := (BootstrapPoEContracts id ref_code ref_seed empty_chain).

Lemma pair_ok {S} (r : outcome () * S) : r.1 = Ok () → r = (Ok (), r.2).
Proof. destruct r as [o c]. cbn. by intros ->. Qed.
Lemma ref_bootstrap_1 : ref_bootstrap.1 = Ok ().
Proof. vm_compute. reflexivity. Qed.
Lemma ref_bootstrap_ok : BootstrapPoEContracts id ref_code ref_seed empty_chain = (Ok (), ref_bootstrap.2).
Proof. exact (pair_ok ref_bootstrap ref_bootstrap_1). Qed.

Definition ref_address (t : Z) : outcome AccAddress := GetPoEContractAddress (store ref_bootstrap.2) t.
Lemma ref_addresses :
  ref_address PoEContractTypeValidatorVoting = Ok "contract8" ∧ ref_address PoEContractTypeValset = Ok "contract5" ∧
  ref_address PoEContractTypeStaking = Ok "contract2".
Proof. split_and!; vm_compute; reflexivity. Qed.
Lemma ref_privileges :
  HasPrivilege (store ref_bootstrap.2) "contract5" PrivilegeTypeValidatorSetUpdate = Ok true ∧
  HasPrivilege (store ref_bootstrap.2) "contract2" PrivilegeDelegator = Ok true.
Proof. split; vm_compute; reflexivity. Qed.

(** C16: the contracts of the reference genesis are set up, and the verification accepts them. *)
Lemma bootstrap_spec_witness :
  VerifyPoEContracts (store ref_bootstrap.2) = Ok () ∧
  ∀ t, t ∈ contract_types → ∃ a i, contractAddrCache (store ref_bootstrap.2) !! t = Some a ∧
    GetContractInfo (world (store ref_bootstrap.2)) a = Some i ∧ Admin i = "furya1contract8".
Proof.
  destruct ref_addresses as (Rv & Rs & Rt).
  destruct (bootstrap_spec id ref_code ref_seed empty_chain ref_bootstrap.2 ref_bootstrap_ok)
    as (voting & Hv & Hall & valset & stake & Hs & Ht & Hver).
  change (GetPoEContractAddress (store ref_bootstrap.2)) with ref_address in Hv, Hs, Ht.
  rewrite Rv in Hv. rewrite Rs in Hs. rewrite Rt in Ht. injection Hv as <-. injection Hs as <-. injection Ht as <-.
  split.
  - apply Hver, ref_privileges.
  - intros t Hin. destruct (Hall t Hin) as (a & i & Hc & _ & Hi & Hadm). exists a, i.
    split; [exact Hc|]. split; [exact Hi|exact Hadm].
Defined.

(** All rewards to the validators: the other two ratios are zero. *)
Definition validators_only : ValsetContractConfig :=
  {| MinPoints := 1; MaxValidators := 100; EpochLength := 60 * Second; EpochReward := mkWCoin "ufury" (Some 100000);
     Scaling := 1; FeePercentage := dec 50; AutoUnjail := false; DoubleSignSlashRatio := dec 50;
     ValidatorRewardRatio := dec 100; EngagementRewardRatio := dec 0; CommunityPoolRewardRatio := dec 0;
     VerifyValidators := false; OfflineJailDuration := 86400 * Second |}.
Definition set_valset (cfg : ValsetContractConfig) (s : SeedContracts) : SeedContracts :=
  {| GenTxs := GenTxs s; BootstrapAccountAddress := BootstrapAccountAddress s; Engagement := Engagement s;
     StakeConfig := StakeConfig s; ValsetConfig := Some cfg; EngagementConfig := EngagementConfig s;
     BondDenom := BondDenom s; OversightCommitteeConfig := OversightCommitteeConfig s;
     CommunityPoolConfig := CommunityPoolConfig s; ValidatorVotingConfig := ValidatorVotingConfig s;
     OversightCommunityMembers := OversightCommunityMembers s; ArbiterPoolMembers := ArbiterPoolMembers s;
     ArbiterPoolConfig := ArbiterPoolConfig s; MixerConfig := MixerConfig s |}.

(** A genesis where the validators get all rewards is accepted, and its set-up panics. *)
Lemma valset_init_ratios_witness :
  ValidateGenesis id ref_decode ref_key
    (mkPoEGenesis DefaultParams (GenesisState_SeedContracts (Some (set_valset validators_only ref_seed)))) = Ok () ∧
  is_panic (newValsetInitMsg id (set_valset validators_only ref_seed) "boot" "mixer" "eng" "pool" 1) = true.
Proof.
  assert (ValsetContractConfig_ValidateBasic validators_only = Ok ()) as Hv by (vm_compute; reflexivity).
  pose proof (valset_init_ratios id (set_valset validators_only ref_seed) validators_only "boot" "mixer" "eng" "pool" 1
    eq_refl Hv) as Hp.
  split; [vm_compute; reflexivity|]. rewrite decide_True in Hp by (left; reflexivity). exact Hp.
Defined.

(** A negative ratio for the validators is accepted: the distribution contracts then get 120%. *)
Lemma negative_ratio_accepted :
  let cfg := {| MinPoints := 1; MaxValidators := 100; EpochLength := 60 * Second; EpochReward := mkWCoin "ufury" (Some 1);
     Scaling := 1; FeePercentage := dec 50; AutoUnjail := false; DoubleSignSlashRatio := dec 50;
     ValidatorRewardRatio := dec (-20); EngagementRewardRatio := dec 60; CommunityPoolRewardRatio := dec 60;
     VerifyValidators := false; OfflineJailDuration := 86400 * Second |} in
  ValsetContractConfig_ValidateBasic cfg = Ok ().
Proof. vm_compute. reflexivity. Qed.
