(* ===== verification/PoEQueriesProps.v ===== *)
(** Theorems about the queries of x/poe: the gRPC server, the server that stands in
    for the staking module and the queries of contracts give one and the same
    answer, and paging through the valset contract lists every operator. *)
From stdpp Require Import base list strings gmap sets sorting pretty.
From Stdlib Require Import ZArith Lia Ascii.
From S2P Require Import Prelude Sdk RefStore Slice Json Privilege Wasm TwasmKeeper TwasmHandler TwasmAbci GoTime PoETypes TwasmMsgs PoEMsgs PoETypesProps PoEKeeper PoEContractIO PoEValset PoEValsetProps PoEAdapters PoEServer PoEQueries PoEWasmQuery RefWorld RefPoE RefBootstrap.
Open Scope Z_scope.

(** The SDK's documented behaviour on integers of at most 256 bits. *)
Class CoinLaws `{SdkText, CoinTypes} := {
  NewSdkCoin_some d a : 0 ≤ a → NewSdkCoin d (Some a) = Ok (mkCoin d a);
  (** An integer that does not fit panics. *)
  Int_Uint64_fits a : 0 ≤ a < 2 ^ 64 → Int_Uint64 (Some a) = Ok a;
  Int_Uint64_large a : 2 ^ 64 ≤ a → is_panic (Int_Uint64 (Some a)) = true;
}.

(** ** Delegations *)
Section delegations.
Context `{!KVStore W, !PoEParamStore W, !HistoryCodec, !ContractCalls W, !Bech32, !SdkMath, !SdkText, !SdkDecimal,
  !SdkDecimalLaws, !SdkCoins, !ForeignDecoders, !CoinTypes, !CoinLaws}.
Implicit Types (k : KState W).

(** The sum of the two amounts the contract reports; zero when one is not a number. *)
Definition staked_total (resp : TG4StakedAmountsResponse) : Z :=
  match NewIntFromString (WC_Amount (Liquid resp)), NewIntFromString (WC_Amount (Vesting resp)) with
  | Some liquid, Some vesting => liquid + vesting
  | _, _ => 0
  end.

(** What the contract reports: amounts that are not negative and fit into 256 bits. *)
Definition amounts_ok (resp : TG4StakedAmountsResponse) : Prop :=
  (∀ a, NewIntFromString (WC_Amount (Liquid resp)) = Some a ∨ NewIntFromString (WC_Amount (Vesting resp)) = Some a → 0 ≤ a) ∧
  staked_total resp < 2 ^ 256.

Lemma StakedAmount_total w addr op resp :
  QueryStakedAmount w addr op = Ok resp → amounts_ok resp →
  0 ≤ staked_total resp ∧
  StakedAmount w (Ok addr) op = Ok (if decide (staked_total resp = 0) then None else Some (staked_total resp)).
Proof.
  intros Hq [Hpos Hmax]. unfold StakedAmount, staked_total in *. rewrite Hq. cbn [wrap mbind outcome_bind].
  destruct (NewIntFromString (WC_Amount (Liquid resp))) as [l|]; [|done].
  destruct (NewIntFromString (WC_Amount (Vesting resp))) as [v|]; [|done].
  assert (0 ≤ l ∧ 0 ≤ v) as [Hl Hv] by (split; apply Hpos; auto).
  split; [lia|]. rewrite !Int_IsZero_some, Int_Add_some by lia. cbn [mbind outcome_bind].
  destruct (Z.eqb_spec l 0), (Z.eqb_spec v 0); cbn [mbind outcome_bind]; case_decide; (done || lia).
Qed.

(** C17: The gRPC delegation query, the three delegation queries of the stand-in for the
    staking module and the query of contracts report one amount: the liquid and the vesting
    tokens of the staking contract together. With nothing staked, or when the contract
    reports a text that is not a number, they agree that there is no delegation. Only the
    query of contracts is limited: it panics when the amount does not fit into 64 bits. *)
Theorem delegation_views_agree k addr op stake resp :
  AccAddressFromBech32 addr = Ok op → addr ≠ "" → StakeContract_of k = Ok stake →
  QueryStakedAmount (world k) stake op = Ok resp → amounts_ok resp →
  let total := staked_total resp in
  let response := mkDelegationResponse addr addr (dec 1) (mkCoin GetBondDenom total) in
  if decide (total = 0) then
    (∃ e, ValidatorDelegation k (Some addr) = Err e ∧ has_code status_NotFound e = true) ∧
    (∃ e, Delegation k (Some (mkPair addr addr)) = Err e ∧ has_code status_NotFound e = true) ∧
    Legacy_ValidatorDelegations k (Some addr) = Ok [] ∧
    DelegatorDelegations k (Some addr) = Ok [] ∧
    query_all_delegations k addr = Ok []
  else
    ValidatorDelegation k (Some addr) = Ok (mkCoin GetBondDenom total) ∧
    Delegation k (Some (mkPair addr addr)) = Ok response ∧
    Legacy_ValidatorDelegations k (Some addr) = Ok [response] ∧
    DelegatorDelegations k (Some addr) = Ok [response] ∧
    if decide (total < 2 ^ 64) then
      query_all_delegations k addr =
        Ok [mkWasmDelegation (AccAddress_String op) (AccAddress_String op) (NewWasmCoin total GetBondDenom)]
    else is_panic (query_all_delegations k addr) = true.
Proof.
  intros Hop Hne Hst Hq Hok total response.
  destruct (StakedAmount_total _ _ _ _ Hq Hok) as [Hpos Hs].
  assert (ValidatorDelegation k (Some addr) =
    if decide (total = 0) then Err (Wrap status_NotFound "not a validator operator address")
    else Ok (mkCoin GetBondDenom total)) as Hv.
  { unfold ValidatorDelegation. cbn [request mbind outcome_bind]. rewrite Hop. cbn [mbind outcome_bind].
    rewrite Hst, Hs. cbn [as_status mbind outcome_bind]. subst total. case_decide; [done|].
    by rewrite NewSdkCoin_some by lia. }
  assert (Legacy_ValidatorDelegations k (Some addr) = Ok (if decide (total = 0) then [] else [response])) as Hl.
  { unfold Legacy_ValidatorDelegations. cbn [request mbind outcome_bind]. rewrite Hv. by case_decide. }
  assert (Delegation k (Some (mkPair addr addr)) =
    if decide (total = 0) then Err (Wrap status_NotFound "delegation for delegator not found") else Ok response) as Hd.
  { unfold Delegation, delegation_pair, not_empty. cbn [request mbind outcome_bind DelegatorAddr ValidatorAddr].
    rewrite !(bool_decide_false (addr = "")) by done. rewrite bool_decide_false by naive_solver.
    cbn [check mbind outcome_bind]. rewrite Hl. by case_decide. }
  assert (DelegatorDelegations k (Some addr) = Ok (if decide (total = 0) then [] else [response])) as Hdd.
  { unfold DelegatorDelegations, not_empty. cbn [request mbind outcome_bind].
    rewrite bool_decide_false by done. cbn [check mbind outcome_bind]. exact Hl. }
  assert (query_all_delegations k addr = match (if decide (total = 0) then None else Some total) with
    | None => Ok []
    | Some staked => n ← Int_Uint64 (Some staked);
      Ok [mkWasmDelegation (AccAddress_String op) (AccAddress_String op) (NewWasmCoin n GetBondDenom)] end) as Hw.
  { unfold query_all_delegations, invalid_address. rewrite Hop. cbn [mbind outcome_bind]. rewrite Hst, Hs. done. }
  rewrite Hv, Hl, Hd, Hdd, Hw. fold total in Hpos. clear Hv Hl Hd Hdd Hw Hs. case_decide; [split_and!; eauto|]. split_and!; [done..|].
  case_decide; [by rewrite Int_Uint64_fits by lia|].
  pose proof (Int_Uint64_large total ltac:(lia)) as Hp. by destruct (Int_Uint64 (Some total)).
Qed.
End delegations.

(** ** Contract addresses *)
Section addresses.
Context `{!KVStore W, !Bech32, !ContractCalls W}.
Implicit Types (k : KState W).

Lemma PoEContractTypeFrom_name name :
  PoEContractTypeFrom name ∈ contract_types → PoEContractType_String (PoEContractTypeFrom name) = name.
Proof.
  unfold PoEContractTypeFrom. cbn. repeat (case_decide; [subst; try done; reflexivity|]). cbn. intros Ht.
  exfalso. revert Ht. apply (bool_decide_unpack _). vm_compute. exact I.
Qed.

Definition address_request (name : string) : json_bytes :=
  JText (JObj [("poe_contract_address", JObj [("contract_type", JStr name)])]).

Lemma address_request_decodes name :
  Unmarshal dec_PetriQuery (address_request name) (mkPetriQuery None None) = Ok (mkPetriQuery (Some name) None).
Proof. done. Qed.

(** Contracts that ask by the name of a contract type and gRPC clients that ask by its
    number get the same address: that of the keeper. Every name that is not the name of
    a type is refused, whatever the state. *)
Lemma address_queries_agree k name :
  (∀ t, t ∈ contract_types → name = PoEContractType_String t →
    match GetPoEContractAddress k t with
    | Ok a => CustomQuerier k (address_request name) = Ok (JObj [("address", JStr (AccAddress_String a))]) ∧
              ContractAddress k (Some t) = Ok (AccAddress_String a)
    | _ => is_ok (CustomQuerier k (address_request name)) = false ∧ is_ok (ContractAddress k (Some t)) = false
    end) ∧
  ((∀ t, t ∈ contract_types → name ≠ PoEContractType_String t) →
    is_ok (CustomQuerier k (address_request name)) = false).
Proof.
  unfold CustomQuerier, ContractAddress, handlePoEContractAddressQuery.
  rewrite address_request_decodes. cbn [wrap mbind outcome_bind request]. split.
  - intros t Ht ->. rewrite contract_type_roundtrip by done. by destruct (GetPoEContractAddress k t) as [a|e|p].
  - intros Hname. destruct (GetPoEContractAddress k (PoEContractTypeFrom name)) as [a|e|p] eqn:Hg; [exfalso|done..].
    unfold GetPoEContractAddress in Hg. apply outcome_bind_ok in Hg as ([] & Hv%wrap_ok & _).
    apply contract_type_valid in Hv. apply (Hname _ Hv). symmetry. by apply PoEContractTypeFrom_name.
Qed.
End addresses.

(** ** All validators *)
Section page.
Context `{!KVStore W, !ContractCalls W, !Bech32, !SdkMath, !SdkText, !SdkDecimal, !SdkCoins, !ForeignDecoders, !CoinTypes}.
Variables (NewAnyWithValue : PubKey → outcome Any) (k : KState W) (addr : AccAddress).
Variables (ops : list OperatorResponse) (page : string → nat) (limit : Z).

(** The contract lists its operators in order, in pages of at least one element, when it is asked
    with this limit; the keys are of kinds the chain knows. *)
Record serves_operators : Prop := {
  so_known : ValsetContract_of k = Ok addr;
  so_sorted : StronglySorted bytes_lt (OR_Operator <$> ops);
  so_named : Forall (λ v, OR_Operator v ≠ "") ops;
  so_convert : Forall (λ v, is_ok (ToValidator NewAnyWithValue v) = true) ops;
  so_positive : ∀ s, (0 < page s)%nat;
  so_pages : ∀ s, ∃ j,
    QuerySmart (world k) addr (enc_ListValidatorsQuery "list_validators" s (int64 limit)) = Ok j ∧
    Unmarshal dec_ListValidatorsResponse j [] = Ok (take (page s) (after_by OR_Operator s ops)) }.
Hypothesis contract_serves : serves_operators.

Lemma to_validators_operators vs :
  Forall (λ v, is_ok (ToValidator NewAnyWithValue v) = true) vs →
  ∃ vals, to_validators NewAnyWithValue vs = Ok vals ∧ SV_OperatorAddress <$> vals = OR_Operator <$> vs.
Proof using Type.
  induction vs as [|v vs IH]; intros Hvs; [by exists []|]. apply Forall_cons in Hvs as [Hv (vals & Hr & Ho)%IH]. cbn.
  destruct (ToValidator NewAnyWithValue v) as [x|?|?] eqn:Hx; [|done..]. cbn. rewrite Hr. cbn.
  exists (x :: vals). split; [done|]. cbn. rewrite Ho. f_equal. unfold ToValidator in Hx. go_inv. done.
Qed.

Lemma list_page s :
  ∃ vals, ListValidators NewAnyWithValue (world k) (ValsetContract_of k) (Some (mkPaginator s limit)) =
    Ok (vals, from_option OR_Operator "" (last (take (page s) (after_by OR_Operator s ops)))) ∧
  SV_OperatorAddress <$> vals = OR_Operator <$> take (page s) (after_by OR_Operator s ops).
Proof using contract_serves.
  destruct contract_serves. destruct (so_pages0 s) as (j & Hq & Hd).
  destruct (to_validators_operators (take (page s) (after_by OR_Operator s ops))) as (vals & Hv & Ho).
  { apply Forall_take, Forall_forall. intros x [_ Hx]%list_elem_of_filter. rewrite Forall_forall in so_convert0. by apply so_convert0. }
  exists vals. split; [|done]. unfold ListValidators, doPageableQuery. cbn [ToQuery StartAfter Limit].
  rewrite so_known0. cbn [mbind outcome_bind]. rewrite Hq. cbn [mbind outcome_bind].
  rewrite Hd. cbn [wrap mbind outcome_bind fst snd]. rewrite Hv. done.
Qed.

(** Where the next page starts: either this was the last page, which is empty, or the cursor is the
    last operator of the page and the rest comes after it. *)
Lemma page_step pre rest s :
  ops = pre ++ rest → after_by OR_Operator s ops = rest →
  (rest = [] ∧ take (page s) rest = []) ∨
  ∃ u, last (take (page s) rest) = Some u ∧ OR_Operator u ≠ "" ∧ (length (drop (page s) rest) < length rest)%nat ∧
    ops = (pre ++ take (page s) rest) ++ drop (page s) rest ∧ after_by OR_Operator (OR_Operator u) ops = drop (page s) rest.
Proof using contract_serves.
  destruct contract_serves. intros Hops Hafter. destruct rest as [|y rest]; [left; by rewrite take_nil|right].
  pose proof (so_positive0 s) as Hp. pose proof (take_drop (page s) (y :: rest)) as Hsplit.
  destruct (take (page s) (y :: rest)) as [|x xs] eqn:Ht; [by destruct (page s); [lia|]|].
  destruct (last (x :: xs)) as [u|] eqn:Hu; [|by apply last_None in Hu]. exists u.
  assert (u ∈ ops) as Hin.
  { rewrite Hops, <-Hsplit. apply elem_of_app. right. apply elem_of_app. left. by apply last_Some_elem_of. }
  split_and!; [done| |rewrite length_drop; cbn; lia|by rewrite <-app_assoc, Hsplit|].
  - rewrite Forall_forall in so_named0. by apply so_named0.
  - rewrite Hops. rewrite <-Hsplit at 1. rewrite app_assoc. apply after_sorted; [|by rewrite last_app, Hu].
    by rewrite <-app_assoc, Hsplit, <-Hops.
Qed.
End page.

Section listing.
Context `{!KVStore W, !ContractCalls W, !Bech32, !SdkMath, !SdkText, !SdkDecimal, !SdkCoins, !ForeignDecoders, !CoinTypes}.
Variables (NewAnyWithValue : PubKey → outcome Any) (k : KState W) (addr : AccAddress).
Variables (ops : list OperatorResponse) (page : string → nat).
Hypothesis contract_serves : serves_operators NewAnyWithValue k addr ops page 0.

Lemma all_validators_from fuel pre rest s acc :
  ops = pre ++ rest → after_by OR_Operator s ops = rest → (length rest < fuel)%nat →
  all_validators NewAnyWithValue fuel k s acc = Some (Ok (acc ++ (wasm_validator ∘ OR_Operator <$> rest))).
Proof using contract_serves.
  revert pre rest s acc. induction fuel as [|fuel IH]; [lia|]. intros pre rest s acc Hops Hafter Hfuel. cbn [all_validators].
  destruct (list_page _ _ _ _ _ _ contract_serves s) as (vals & -> & Hv). rewrite Hafter in *.
  rewrite (list_fmap_compose SV_OperatorAddress wasm_validator vals), Hv, <-(list_fmap_compose OR_Operator wasm_validator).
  destruct (page_step _ _ _ _ _ _ contract_serves pre rest s Hops Hafter) as [[-> Ht]|(u & Hu & Hne & Hlen & Hops' & Hafter')].
  - by rewrite Ht.
  - rewrite Hu. cbn [from_option]. rewrite decide_False by done. rewrite (IH _ _ _ _ Hops' Hafter') by lia.
    by rewrite <-app_assoc, <-fmap_app, take_drop.
Qed.

(** C27: The loop that answers the "all validators" query of a contract ends, after at most
    one page per validator and one more, and returns every operator of the valset
    contract once, in the contract's order, whatever the sizes of the pages. *)
Theorem all_validators_complete fuel :
  (length ops < fuel)%nat →
  StakingQuerier NewAnyWithValue fuel k (mkStakingQuery None (Some ()) None None None) =
    Some (Ok (AllValidatorsResponse (wasm_validator ∘ OR_Operator <$> ops))).
Proof using contract_serves.
  intros Hfuel. cbn [StakingQuerier]. rewrite (all_validators_from fuel [] ops); [done|done| |done]. apply after_all.
  by destruct contract_serves.
Qed.
End listing.

(** ** A concrete contract *)
#[export] Instance Ref_coin_types : CoinTypes := {
  NewSdkCoin d a := match a with
                    | Some x => if decide (0 ≤ x) then Ok (mkCoin d x) else Panic "negative coin amount"
                    | None => Panic "nil" end;
  NewDecCoin d a := match a with Some x => Ok (mkDecimalCoin d (dec x)) | None => Panic "nil" end;
  NewDecCoins := Ok;
  Int_GT a b := match a, b with Some x, Some y => Ok (y <? x) | _, _ => Panic "nil" end;
}.
#[export] Instance Ref_coin_laws : CoinLaws.
Proof.
  constructor; cbn.
  - intros d a Ha. by rewrite decide_True by done.
  - intros a Ha. by rewrite decide_True by lia.
  - intros a Ha. by rewrite decide_False by lia.
Qed.

Definition ref_ops : list OperatorResponse :=
  [mkOperator "furya1a" (mkPubkey (Some "k1") None None) (mkMetadata "one" "" "" "" "") None true;
   mkOperator "furya1b" (mkPubkey (Some "k2") None None) (mkMetadata "two" "" "" "" "") None false].
Definition enc_op (o : OperatorResponse) : json :=
  JObj [("operator", JStr (OR_Operator o));
        ("pubkey", JObj [("ed25519", JStr (if decide (OR_Operator o = "furya1a") then "azE=" else "azI="))]);
        ("metadata", JObj [("moniker", JStr (VM_Moniker (OR_Metadata o)))]);
        ("active_validator", JBool (ActiveValidator o))].
Definition op_page (s : string) : json_bytes :=
  JText (JObj [("validators", JArr (enc_op <$> take 1 (after_by OR_Operator s ref_ops)))]).

(** The staking and the valset contract in one; its state is not used. *)
#[local] Instance Ref_query_contract : ContractCalls RefKV := {
  Execute _ _ _ _ := fail_with (new_err "contract");
  QuerySmart _ _ q :=
    match q with
    | JObj [("staked", JObj [("address", JStr "furya1alice")])] =>
        Ok (JText (JObj [("liquid", JObj [("denom", JStr "ufury"); ("amount", JStr "30")]);
                         ("vesting", JObj [("denom", JStr "ufury"); ("amount", JStr "12")])]))
    | JObj [("list_validators", JObj [])] => Ok (op_page "")
    | JObj [("list_validators", JObj [("start_after", JStr s)])] => Ok (op_page s)
    | _ => Err (new_err "contract")
    end;
}.
Definition ref_queries : KState RefKV :=
  mkKState ∅ (<[PoEContractTypeValset := "valset"]> (<[PoEContractTypeStaking := "stake"]> ∅)) [].
Definition ref_any (k : PubKey) : outcome Any := Ok (mkAny (PK_Type k) (PK_Bytes k)).

(** C17: 30 liquid and 12 vesting tokens are a delegation of 42. *)
Lemma delegation_views_agree_witness :
  ValidatorDelegation ref_queries (Some "furya1alice") = Ok (mkCoin "ufury" 42) ∧
  query_all_delegations ref_queries "furya1alice" =
    Ok [mkWasmDelegation "furya1alice" "furya1alice" (NewWasmCoin 42 "ufury")].
Proof.
  destruct (delegation_views_agree ref_queries "furya1alice" "alice" "stake"
    (mkStaked (mkWasmCoin "ufury" "30") (mkWasmCoin "ufury" "12"))) as (Hv & _ & _ & _ & Hw).
  - reflexivity.
  - discriminate.
  - reflexivity.
  - vm_compute. reflexivity.
  - split; [|vm_compute; reflexivity]. vm_compute. intros a [[= <-]|[= <-]]; discriminate.
  - split; [exact Hv|exact Hw].
Defined.

(** C27: two operators in pages of one. *)
Lemma all_validators_complete_witness :
  StakingQuerier ref_any 3 ref_queries (mkStakingQuery None (Some ()) None None None) =
    Some (Ok (AllValidatorsResponse [wasm_validator "furya1a"; wasm_validator "furya1b"])).
Proof.
  apply (all_validators_complete ref_any ref_queries "valset" ref_ops (λ _, 1%nat)); [|vm_compute; lia]. constructor.
  - reflexivity.
  - repeat constructor; vm_compute; reflexivity.
  - repeat constructor; discriminate.
  - repeat constructor.
  - intros s. lia.
  - intros s. exists (op_page s). split.
    + cbn. unfold enc_ListValidatorsQuery, nonempty. by case_decide as Hs; [subst|].
    + unfold op_page, ref_ops, after_by. repeat (rewrite filter_cons; case_decide); reflexivity.
Defined.

(** The address of the staking contract by its name; a wrong name is refused. *)
Lemma address_queries_agree_witness :
  CustomQuerier ref_queries (address_request "STAKING") = Ok (JObj [("address", JStr "furya1stake")]) ∧
  is_ok (CustomQuerier ref_queries (address_request "staking")) = false.
Proof.
  split.
  - destruct (address_queries_agree ref_queries "STAKING") as [Hs _].
    apply (Hs PoEContractTypeStaking); [set_solver|reflexivity].
  - destruct (address_queries_agree ref_queries "staking") as [_ Hn]. apply Hn.
    intros t Ht. pattern t. apply contract_type_cases; [|exact Ht]. repeat constructor; discriminate.
Defined.
