(* ===== verification/AppAnte.v ===== *)
(** The ante handler of the application (app/ante.go): the checks of
    [NewAnteHandler] and the chain of decorators, in which the global minimum fee
    (x/globalfee) and the fee deduction of x/poe stand between the decorators of the
    SDK, of wasmd and of ibc-go. Those are parameters. *)
From stdpp Require Import base list strings gmap sets sorting pretty.
From Stdlib Require Import ZArith Lia.
From S2P Require Import Prelude Sdk RefStore Slice Json Privilege Wasm TwasmMsgs GlobalFee PoETypes PoEMsgs PoEKeeper PoEContractIO PoEServer PoEServerProps.
Open Scope Z_scope.

Definition sdk_ErrLogic : error := new_err "sdk/logic".

(** [sdk.FeeTx] *)
Record SdkFeeTx := mkSdkFeeTx { Tx_Gas : Z; Tx_Fee : list Coin; Tx_Payer : AccAddress; Tx_Granter : option AccAddress }.

Section chain.
Context {W T : Type}.
(** [sdk.AnteHandler] and [sdk.AnteDecorator]; the context is the state. *)
Definition AnteHandler : Type := T → bool → M (KState W) ().
Definition AnteDecorator : Type := T → bool → AnteHandler → M (KState W) ().

(** [sdk.ChainAnteDecorators] of a list that is not empty; the terminator returns. *)
Fixpoint ChainAnteDecorators (chain : list AnteDecorator) : AnteHandler :=
  match chain with
  | [] => λ _ _, mret ()
  | d :: chain' => λ tx simulate, d tx simulate (ChainAnteDecorators chain')
  end.
End chain.
Arguments AnteHandler W T : clear implicits.
Arguments AnteDecorator W T : clear implicits.

(** The decorators of other modules, with the options that parametrise them. *)
Class ForeignDecorators (W T Consumer : Type) := {
  SetUpContextDecorator : AnteDecorator W T;
  LimitSimulationGasDecorator : option Z → AnteDecorator W T;
  CountTXDecorator : string → AnteDecorator W T;
  RejectExtensionOptionsDecorator : AnteDecorator W T;
  MempoolFeeDecorator : AnteDecorator W T;
  ValidateBasicDecorator : AnteDecorator W T;
  TxTimeoutHeightDecorator : AnteDecorator W T;
  ValidateMemoDecorator : AnteDecorator W T;
  ConsumeGasForTxSizeDecorator : AnteDecorator W T;
  SetPubKeyDecorator : AnteDecorator W T;
  ValidateSigCountDecorator : AnteDecorator W T;
  SigGasConsumeDecorator : Consumer → AnteDecorator W T;
  SigVerificationDecorator : AnteDecorator W T;
  IncrementSequenceDecorator : AnteDecorator W T;
  IBCAnteDecorator : AnteDecorator W T;
  DefaultSigVerificationGasConsumer : Consumer;
}.

(** [HandlerOptions]: the keepers are those of the chain, an option is whether it is
    set; the configuration of wasm holds the gas limit of simulations. *)
Record HandlerOptions (Consumer : Type) := mkHandlerOptions {
  AccountKeeper : bool; BankKeeper_set : bool; FeegrantKeeper : bool; SignModeHandler : bool;
  SigGasConsumer : option Consumer; IBCCoreKeeper : bool; WasmConfig : option (option Z);
  TXCounterStoreKey : option string; GlobalFeeSubspace : string; ContractSource : bool }.
Arguments AccountKeeper {Consumer} h.
Arguments BankKeeper_set {Consumer} h.
Arguments FeegrantKeeper {Consumer} h.
Arguments SignModeHandler {Consumer} h.
Arguments SigGasConsumer {Consumer} h.
Arguments IBCCoreKeeper {Consumer} h.
Arguments WasmConfig {Consumer} h.
Arguments TXCounterStoreKey {Consumer} h.
Arguments GlobalFeeSubspace {Consumer} h.
Arguments ContractSource {Consumer} h.

(** The parameters of x/globalfee in the state of the keeper of x/poe. *)
#[export] Instance KState_fee_params `{FeeParams W} : FeeParams (KState W) := {
  HasMinGasPrices k := HasMinGasPrices (world k);
  GetMinGasPrices k := GetMinGasPrices (world k);
  SetParamSet p := on_world (SetParamSet p);
  GetParamSet k := GetParamSet (world k);
}.

Section ante.
Context {W T Consumer : Type} `{!KVStore W, !SdkDec, !FeeParams W, !FeeKeepers W, !StakingTypes, !SdkCoins,
  !ForeignDecorators W T Consumer}.
(** [tx.(sdk.FeeTx)] *)
Variable fee_tx : T → option SdkFeeTx.

Definition GlobalMinimumChainFeeDecorator : AnteDecorator W T := λ tx simulate next,
  let ftx := match fee_tx tx with Some f => TxFee (mkFeeTx (Tx_Gas f) (Tx_Fee f)) | None => TxOther end in
  AnteHandle ftx simulate (next tx simulate).

Definition poe_fee_tx (f : SdkFeeTx) : PoEFeeTx := mkPoEFeeTx (Tx_Fee f) (Tx_Payer f) (Tx_Granter f).
Definition DeductFeeDecorator : AnteDecorator W T := λ tx simulate next,
  DeductFee_AnteHandle (poe_fee_tx <$> fee_tx tx) (next tx simulate).

Definition required {A} (o : option A) (msg : string) : outcome A :=
  match o with Some a => Ok a | None => Err (Wrap sdk_ErrLogic msg) end.
Definition is_set (b : bool) (msg : string) : outcome () := check (negb b) (Wrap sdk_ErrLogic msg).

(** The decorators in the order in which they wrap each other. *)
Definition anteDecorators (gasLimit : option Z) (counterKey : string) (sigGasConsumer : Consumer) :
    list (AnteDecorator W T) :=
  [SetUpContextDecorator; LimitSimulationGasDecorator gasLimit; CountTXDecorator counterKey;
   RejectExtensionOptionsDecorator; MempoolFeeDecorator; GlobalMinimumChainFeeDecorator;
   ValidateBasicDecorator; TxTimeoutHeightDecorator; ValidateMemoDecorator; ConsumeGasForTxSizeDecorator;
   DeductFeeDecorator; SetPubKeyDecorator; ValidateSigCountDecorator; SigGasConsumeDecorator sigGasConsumer;
   SigVerificationDecorator; IncrementSequenceDecorator; IBCAnteDecorator].

Definition NewAnteHandler (options : HandlerOptions Consumer) : outcome (AnteHandler W T) :=
  is_set (AccountKeeper options) "account keeper is required for AnteHandler" ;;
  is_set (BankKeeper_set options) "bank keeper is required for AnteHandler" ;;
  is_set (SignModeHandler options) "sign mode handler is required for ante builder" ;;
  is_set (FeegrantKeeper options) "feegrant keeper is required for ante builder" ;;
  gasLimit ← required (WasmConfig options) "wasm config is required for ante builder";
  counterKey ← required (TXCounterStoreKey options) "tx counter key is required for ante builder";
  check (bool_decide (GlobalFeeSubspace options = "")) (Wrap sdk_ErrLogic "param store is required for ante builder") ;;
  is_set (ContractSource options) "contract source is required for ante builder" ;;
  is_set (IBCCoreKeeper options) "ibc core keeper is required for ante builder" ;;
  let sigGasConsumer := default DefaultSigVerificationGasConsumer (SigGasConsumer options) in
  Ok (ChainAnteDecorators (anteDecorators gasLimit counterKey sigGasConsumer)).
End ante.
