(* ===== verification/AppAnteProps.v ===== *)
(** What the ante handler of the application guarantees as a whole. *)
From stdpp Require Import base list strings gmap sets sorting pretty.
From Stdlib Require Import ZArith Lia.
From S2P Require Import Prelude Sdk RefStore Slice Json Privilege Wasm TwasmMsgs GlobalFee PoETypes PoEMsgs PoEKeeper PoEContractIO PoEServer PoEServerProps RefWorld RefPoE PoEExamples AppAnte.
Open Scope Z_scope.

Section ante.
Context {W T Consumer : Type} `{!KVStore W, !SdkDec, !SdkDecLaws, !FeeParams W, !FeeKeepers W, !StakingTypes, !SdkCoins,
  !ForeignDecorators W T Consumer}.
Context (bal : W → AccAddress → string → Z) `{!FeeLaws W bal}.
Variable fee_tx : T → option SdkFeeTx.

(** No balance, no fee parameter and no contract address changes. *)
Definition quiet (c c1 : Ctx (KState W)) : Prop :=
  (∀ x d, bal (world (store c1)) x d = bal (world (store c)) x d) ∧
  HasMinGasPrices (world (store c1)) = HasMinGasPrices (world (store c)) ∧
  GetMinGasPrices (world (store c1)) = GetMinGasPrices (world (store c)) ∧
  GetPoEContractAddress (store c1) PoEContractTypeValset = GetPoEContractAddress (store c) PoEContractTypeValset.

#[local] Instance quiet_refl : Reflexive quiet.
Proof. by repeat split. Qed.
#[local] Instance quiet_trans : Transitive quiet.
Proof. intros c1 c2 c3 (E1 & E2 & E3 & E4) (G1 & G2 & G3 & G4). repeat split; congruence. Qed.

(** A decorator that succeeds with what the next handler does, in a state it
    prepared without touching balances. *)
Definition transparent (d : AnteDecorator W T) : Prop :=
  ∀ tx simulate next c c', d tx simulate next c = (Ok (), c') →
    ∃ c1, quiet c c1 ∧ next tx simulate c1 = (Ok (), c').

Lemma chain_app ds1 ds2 tx simulate c c' :
  Forall transparent ds1 → ChainAnteDecorators (ds1 ++ ds2) tx simulate c = (Ok (), c') →
  ∃ c1, quiet c c1 ∧ ChainAnteDecorators ds2 tx simulate c1 = (Ok (), c').
Proof.
  intros Hds. revert c. induction Hds as [|d ds1 Hd Hds IH]; intros c Hrun; [by exists c|].
  destruct (Hd _ _ _ _ _ Hrun) as (c1 & Hq & (c2 & Hq2 & Hr)%IH). exists c2. split; [by trans c1|done].
Qed.

Lemma chain_quiet ds tx simulate c c' :
  Forall transparent ds → ChainAnteDecorators ds tx simulate c = (Ok (), c') → quiet c c'.
Proof.
  intros Hds Hrun. rewrite <-(app_nil_r ds) in Hrun. apply chain_app in Hrun as (c1 & Hq & [= <-]); done.
Qed.

Lemma chain_cons (d : AnteDecorator W T) ds tx simulate :
  ChainAnteDecorators (d :: ds) tx simulate = d tx simulate (ChainAnteDecorators ds).
Proof. done. Qed.

(** The decorators of the other modules, around those of this repository. *)
Definition outer (limit : option Z) (key : string) : list (AnteDecorator W T) :=
  [SetUpContextDecorator; LimitSimulationGasDecorator limit; CountTXDecorator key; RejectExtensionOptionsDecorator;
   MempoolFeeDecorator].
Definition middle : list (AnteDecorator W T) :=
  [ValidateBasicDecorator; TxTimeoutHeightDecorator; ValidateMemoDecorator; ConsumeGasForTxSizeDecorator].
Definition inner (consumer : Consumer) : list (AnteDecorator W T) :=
  [SetPubKeyDecorator; ValidateSigCountDecorator; SigGasConsumeDecorator consumer; SigVerificationDecorator;
   IncrementSequenceDecorator; IBCAnteDecorator].

Lemma anteDecorators_split limit key consumer :
  anteDecorators fee_tx limit key consumer =
  outer limit key ++ GlobalMinimumChainFeeDecorator fee_tx :: (middle ++ DeductFeeDecorator fee_tx :: inner consumer).
Proof. done. Qed.

(** Their documented behaviour. *)
Class ForeignDecoratorLaws := {
  outer_transparent limit key : Forall transparent (outer limit key);
  middle_transparent : Forall transparent middle;
  inner_transparent consumer : Forall transparent (inner consumer);
}.
Context `{!ForeignDecoratorLaws}.

Lemma NewAnteHandler_ok options h :
  NewAnteHandler fee_tx options = Ok h →
  ∃ limit key consumer, h = ChainAnteDecorators (anteDecorators fee_tx limit key consumer).
Proof. unfold NewAnteHandler, is_set, required. intros Hn. go_inv. eauto. Qed.

(** C14: A transaction the ante handler of the application accepts, not in a simulation, is
    a fee transaction whose fee covers the global minimum fee for its gas limit, and when
    the handler is done exactly this fee has moved from the one who pays to the valset
    contract, which distributes it; no other balance has changed. *)
Theorem accepted_tx_paid options h tx prices v c c' :
  NewAnteHandler fee_tx options = Ok h → h tx false c = (Ok (), c') →
  HasMinGasPrices (world (store c)) = true → GetMinGasPrices (world (store c)) = Ok prices →
  DecCoins_Validate prices = Ok () → Forall (λ gp, Dec_Amount gp < price_bound) prices → prices ≠ [] →
  GetPoEContractAddress (store c) PoEContractTypeValset = Ok v →
  ∃ f, fee_tx tx = Some f ∧ fee_sufficient (mkFeeTx (Tx_Gas f) (Tx_Fee f)) prices = true ∧
    ∀ x d, bal (world (store c')) x d =
      bal (world (store c)) x d - (if decide (x = default (Tx_Payer f) (Tx_Granter f)) then amount_of (Tx_Fee f) d else 0)
                                + (if decide (x = v) then amount_of (Tx_Fee f) d else 0).
Proof.
  intros (limit & key & consumer & ->)%NewAnteHandler_ok Hrun Hhas Hget Hval Hbound Hne Hv.
  rewrite anteDecorators_split in Hrun.
  apply chain_app in Hrun as (c1 & (Hb1 & Hh1 & Hg1 & Hv1) & Hrun); [|apply outer_transparent].
  rewrite chain_cons in Hrun. unfold GlobalMinimumChainFeeDecorator in Hrun. rewrite Hhas in Hh1. rewrite Hget in Hg1.
  destruct (fee_tx tx) as [f|] eqn:Hf; [|unfold AnteHandle, mbind, M_bind, gets in Hrun; cbn in Hrun; by rewrite Hh1 in Hrun].
  apply (AnteHandle_paid _ prices) in Hrun as [Hpaid Hrun]; [|done..].
  apply chain_app in Hrun as (c2 & (Hb2 & _ & _ & Hv2) & Hrun); [|apply middle_transparent].
  rewrite chain_cons in Hrun. unfold DeductFeeDecorator in Hrun. rewrite Hf in Hrun.
  apply (deduct_fee_moves bal _ v) in Hrun as (c3 & Hrun & Hmoved); [|congruence].
  apply chain_quiet in Hrun as (Hb3 & _); [|apply inner_transparent].
  exists f. split_and!; [done|done|]. intros x d. rewrite Hb3, Hmoved, Hb2, Hb1. done.
Qed.
End ante.

(** ** A concrete chain *)
#[export] Instance PWorld_fee_params : FeeParams PWorld := {
  HasMinGasPrices _ := true;
  GetMinGasPrices _ := Ok [mkDecCoin "utgd" (5 * 10 ^ 17)];
  SetParamSet _ := mret ();
  GetParamSet _ := Ok [];
}.

(** Decorators that accept everything. *)
Definition pass : AnteDecorator PWorld SdkFeeTx := λ tx simulate next, next tx simulate.
#[export] Instance Ref_decorators : ForeignDecorators PWorld SdkFeeTx () := {
  SetUpContextDecorator := pass; LimitSimulationGasDecorator _ := pass; CountTXDecorator _ := pass;
  RejectExtensionOptionsDecorator := pass; MempoolFeeDecorator := pass; ValidateBasicDecorator := pass;
  TxTimeoutHeightDecorator := pass; ValidateMemoDecorator := pass; ConsumeGasForTxSizeDecorator := pass;
  SetPubKeyDecorator := pass; ValidateSigCountDecorator := pass; SigGasConsumeDecorator _ := pass;
  SigVerificationDecorator := pass; IncrementSequenceDecorator := pass; IBCAnteDecorator := pass;
  DefaultSigVerificationGasConsumer := ();
}.
Lemma pass_transparent : transparent p_balance pass.
Proof. intros tx simulate next c c' Hr. exists c. by split. Qed.
#[local] Instance Ref_decorator_laws : ForeignDecoratorLaws p_balance.
Proof. constructor; intros; repeat constructor; apply pass_transparent. Qed.

Definition all_set : HandlerOptions () :=
  mkHandlerOptions () true true true true None true (Some None) (Some "counter") "globalfee" true.
Definition paid_tx : SdkFeeTx := mkSdkFeeTx 3 [mkCoin "utgd" 5] "alice" None.
Definition ref_handler : AnteHandler PWorld SdkFeeTx := ChainAnteDecorators (anteDecorators Some None "counter" ()).

(** C14: alice pays five for three gas of half a token each. *)
Lemma accepted_tx_paid_witness :
  let c' := (ref_handler paid_tx false (mkCtx (chain3 2) [])).2 in
  fee_sufficient (mkFeeTx 3 [mkCoin "utgd" 5]) [mkDecCoin "utgd" (5 * 10 ^ 17)] = true ∧
  p_balance (world (store c')) "alice" "utgd" = 45 ∧ p_balance (world (store c')) "valset" "utgd" = 5.
Proof.
  intros c'. destruct (accepted_tx_paid p_balance Some all_set ref_handler paid_tx [mkDecCoin "utgd" (5 * 10 ^ 17)] "valset"
    (mkCtx (chain3 2) []) c') as (f & [= <-] & Hpaid & Hbal).
  - reflexivity.
  - apply (step_ok _ (chain3 2)). vm_compute. reflexivity.
  - reflexivity.
  - reflexivity.
  - vm_compute. reflexivity.
  - apply (bool_decide_unpack _). vm_compute. exact I.
  - discriminate.
  - vm_compute. reflexivity.
  - split; [exact Hpaid|]. rewrite !Hbal. split; vm_compute; reflexivity.
Defined.
