(* ===== verification/AppUpgrade.v ===== *)
(** The upgrades of the application (app/upgrades, registered by setupUpgradeHandlers in app/app.go):
    v2 only runs the migrations of the modules, v3 also moves the end of the vesting
    of a list of accounts.

    The accounts of x/auth are an interface. A bech32 text ends with a checksum over
    its prefix and its data (BIP 173); [checksum_ok] computes it, and the decoder
    of the SDK, which is not part of the repository, refuses a text without it. *)
From stdpp Require Import base list strings gmap sets pretty.
From Stdlib Require Import ZArith Lia Ascii.
From S2P Require Import Prelude Sdk RefStore.
Open Scope Z_scope.

(** ** Accounts *)

(** [vestingtypes.ContinuousVestingAccount] and any other account; [rest] are the
    fields this code does not touch. *)
Inductive Account :=
  | ContinuousVestingAccount (Acc_Address : AccAddress) (EndTime : Z) (rest : string)
  | OtherAccount (Acc_Address : AccAddress) (rest : string).
#[export] Instance Account_eq_dec : EqDecision Account.
Proof. solve_decision. Defined.

Definition account_address (a : Account) : AccAddress :=
  match a with ContinuousVestingAccount x _ _ | OtherAccount x _ => x end.

Class AuthKeeper (W : Type) := {
  GetAccount : W → AccAddress → option Account;
  SetAccount : Account → M W ();
}.

(** ** The upgrade handlers *)

(** [module.VersionMap] *)
Abbreviation VersionMap := (gmap string Z) (only parsing).

Definition oldEndTime : Z := 1703435178.
Definition newEndTime : Z := 1688220000.

Definition addresses : list string :=
  ["furya1s0lankh33kprer2l22nank5rvsuh9ksa4nr6gl";
   "furya179skd62nvdvvt440l0krmlj40ewywv4rscgq8z";
   "furya1tkgvwuns7l7vkpc0pq2nnjkkdz509vwrzf86sw";
   "furya1we8a49nlqr3apex8zxxahh3zf2ye69dy8pcgmv";
   "furya1wlagucxdxvsmvj6330864x8q3vxz4x02d0ssjl";
   "furya1cemam36qz7le8p0k9gykvkshnvhussphax76mh";
   "furya1hcwcxnz5stwnrupf964lzc3txdzgctv5069nzw";
   "furya16g4x972lvchrpc7zgtfad3sjqe3nw5njmuk7rp";
   "furya1daujfmddygyty3pjsnr9xhz3vxymh6u00krlym";
   "furya1lpwnu27qk29sxptphmkw37x0dzreqz34mg25p8";
   "furya1grnsmfmhcsl2dllkyyq7qzm9whlnwxzc77ul0t";
   "furya1quw3zpwklv3l4ntpfj37c2tx4393ly03tnfc98";
   "furya1efp3hmnslju2pn8g2qukp5k5xs028rhppznk67";
   "furya1y4v7dcwe5upna6vpgfggrfy23l07r9jdusek5j";
   "furya102c8nrsw5wlezdkj9m6rvmx8rrlwf5n0t2yatd";
   "furya1cv4leeaavx5lu5n7jgrdklt76rgx2xtd2hlrue";
   "furya1qe8uuf5x69c526h4nzxwv4ltftr73v7qt4v8ku";
   "furya10wxn2lv29yqnw2uf4jf439kwy5ef00qdms5tvk";
   "furya1jdc8qm80m3lvgajuvn36x2nmxfjauclxtyp7rg";
   "furya1cxmsyzr90qh85gwgwnvptukhk2tvvhq6t4dr2a";
   "furya1k8efqy9seesd0dcvr7207nmmlkfz944p97fypq";
   "furya1tvzlc7n05ht0wx8n77a04kkv75yy8dpsfy4d6h";
   "furya1utgcen4kj42gs0cpzkqvyvhu2tcp4pvt4gt8m0";
   "furya1q3gxkm46daqw48fmnpqu8sdfcedqhnmzleaccr";
   "furya1azrgt5aneucrun989pta6jayexnl6lagfcz927";
   "furya17h2x3j7u44qkrq0sk8ul0r2qr440rwgjca5y25";
   "furya1wa7cr30cpyacj7eznhpvv3rdperwhle0jeec49";
   "furya1zkg2tdja965738slnyfxx5kgqprwfl44ecnh3h";
   "furya1jplyne08tx0qu77fatnyun8s0u9mtcgwz84zgv";
   "furya18xp9dch3k2uxyrz6mdnqd24vmp2na6u55dxwpc";
   "furya1js7ezrm55fqgxu3p62d9xn6patjku2z7ne5dvg";
   "furya1c9ye54e3pzwm3e0zpdlel6pnavrj9qqvdvmqdq";
   "furya1ypwzuhaffvr06ktu0ne6lnm69gxj32qwx2a7lt";
   "furya1n3mhyp9fvcmuu8l0q8qvjy07x0rql8q45a9py4";
   "furya1kepe077yknqm9kyt63l4zu9rcjla0aku52f7vn";
   "furya1c8xa9nxxuvgd32put8qqmd33r29hwuq2ptzh36";
   "furya1hnesd8eqjtpu82t89jeqqs74vte440z4y33za6";
   "furya1n5s3tepr6a7dr0n4lzjq2x5jqn0a0hqngzn2dv";
   "furya1ey2xwu3tfgqxkg3wmrejt6qmn5dx3fl8cserz7";
   "furya1admh0ft2553aw6u9hxn7v2vw488r0yyg6u345u";
   "furya1u44vteu9tlzhwk7cxfqekgtc7rumlg32vkxgz5";
   "furya18nej8s0ykc88hgfumqdvs6kg9c7h0hdqvpalhe";
   "furya18uvsa2m93xkewwg60eylvx27c6qfa3675zfsjj";
   "furya154cvfyu85tduekt60ga8ydc45lc76w7yy6935n";
   "furya1j50e4wwhw332aq922x45p9phc70r7sy44v44y8";
   "furya1w8mztnvl55pwmlkgkpaquax6q37n5d2spaadcn";
   "furya1fy2s7er0c6uxc8hmnqfgukvkf7xh22s4upgc7u";
   "furya1kcdne83mkvygg7guueswnfyfwtsdmewywvnq5q";
   "furya1yj87cjq0ent7jnrj9lfffjhht6602dhy0fzlru";
   "furya16ycdyzj48pz4nvdprrxkxkq5ax76ksmg5ux6gj";
   "furya1a2fa2c4psh39n8mr62w403smnqxxcynxqgfuxs";
   "furya10nq2ea7fms8g58fyaqlc2m3thq9kjx5wun6rk9";
   "furya17lclxtnwyk64u9nuzfx0d3ljwzddrht0t965ll";
   "furya1s3366h2rpwhvlt0w0x49ssyh27778dyztnsz3g";
   "furya1q5q2fkxd92n8da8e4ja9mfcl9cesfg7e6l9rud";
   "furya1wgkky0dpzufmqxc93lynymfk6uf68005hdh7x2";
   "furya1dz487qtggarfaxja70grhs3lgfv02mpn0l9f3j";
   "furya1skc8aut895jvg4hdxx7q89sus5x63edeq0mgrk";
   "furya1ydw2lp4gcxn8qv09qe8w5qdpgt8qeu30gpf392";
   "furya1y4my6z3lgjgw4f7x6wnldpkfagev2wd7hu6vrg";
   "furya1zfcmwh56kmz4wqqg2t8pxrm228dx2c6hwwyxfm";
   "furya1x20lytyf6zkcrv5edpkfkn8sz578qg5s7azap8";
   "furya1vrq3kjq95kkh26vp3g6sfx84xzw654qa4kg2pe"].
Definition Addresses : list string := addresses.

Definition errorf (format : string) : error := new_err format.

Section handlers.
Context `{!AuthKeeper W, !Bech32}.
(** [mm.RunMigrations(ctx, configurator, fromVM)] *)
Variable RunMigrations : VersionMap → M W VersionMap.

Definition CreateUpgradeHandler_v2 (fromVM : VersionMap) : M W VersionMap := RunMigrations fromVM.

(** One round of the loop over the addresses. *)
Definition move_end (addr : string) : M W () :=
  accAddr ← lift (AccAddressFromBech32 addr);
  account ← gets (λ w, GetAccount w accAddr);
  match account with
  | Some (ContinuousVestingAccount x endTime rest) =>
      if negb (endTime =? oldEndTime) then fail_with (errorf "account %s end time is %d instead of %d")
      else SetAccount (ContinuousVestingAccount x newEndTime rest)
  | _ => fail_with (errorf "cannot cast account %s to vesting account")
  end.

Definition CreateUpgradeHandler (fromVM : VersionMap) : M W VersionMap :=
  forM addresses move_end ;; RunMigrations fromVM.
End handlers.

(** [UpgradeName] and handler of the upgrades the application registers. *)
Definition Upgrades `{AuthKeeper W, Bech32} (RunMigrations : VersionMap → M W VersionMap) :
    list (string * (VersionMap → M W VersionMap)) :=
  [("v2", CreateUpgradeHandler_v2 RunMigrations); ("v3", CreateUpgradeHandler RunMigrations)].

(** ** bech32 checksums *)
Definition bech32_charset : string := "qpzry9x8gf2tvdw0s3jn54khce6mua7l".

Fixpoint index_in (s : string) (i : Z) (a : ascii) : option Z :=
  match s with
  | "" => None
  | String b s' => if decide (a = b) then Some i else index_in s' (i + 1) a
  end.

Fixpoint chars (s : string) : list ascii := match s with "" => [] | String a s' => a :: chars s' end.

Definition polymod_step (chk v : Z) : Z :=
  let b := Z.shiftr chk 25 in
  let bit (i g : Z) := if Z.testbit b i then g else 0 in
  Z.lxor (Z.lxor (Z.lxor (Z.lxor (Z.lxor (Z.lxor (Z.shiftl (Z.land chk 0x1ffffff) 5) v)
    (bit 0 0x3b6a57b2)) (bit 1 0x26508e6d)) (bit 2 0x1ea119fa)) (bit 3 0x3d4233dd)) (bit 4 0x2a1462b3).
Definition polymod (values : list Z) : Z := foldl polymod_step 1 values.

Definition hrp_expand (hrp : string) : list Z :=
  ((λ a, Z.shiftr (of_byte a) 5) <$> chars hrp) ++ [0] ++ ((λ a, Z.land (of_byte a) 31) <$> chars hrp).

(** The text is the prefix, the separator 1 and characters whose checksum is right. *)
Definition checksum_ok (hrp s : string) : bool :=
  match strip_prefix (hrp +:+ "1") s with
  | None => false
  | Some data =>
      match mapM (index_in bech32_charset 0) (chars data) with
      | Some values => polymod (hrp_expand hrp ++ values) =? 1
      | None => false
      end
  end.

(** [Bech32Prefix] of the application. *)
Definition Bech32Prefix : string := "furya".

(** The decoder of the SDK is configured with the prefix and checks the checksum. *)
Class Bech32Checked `{Bech32} := {
  checksum_refused s : checksum_ok Bech32Prefix s = false → ∃ e, AccAddressFromBech32 s = Err e;
}.

(** ** What the upgrade does *)

Section theorems.
Context `{!AuthKeeper W, !Bech32}.
Variable RunMigrations : VersionMap → M W VersionMap.

(** None of the addresses has the checksum of the prefix of the application. *)
Lemma addresses_checksums : Forall (λ s, checksum_ok Bech32Prefix s = false) addresses.
Proof. repeat (constructor; [vm_compute; reflexivity|]). constructor. Qed.

(** All of them have the one of the prefix the chain had before. *)
Lemma addresses_old_prefix : Forall (λ s, checksum_ok "tgrade" ("tgrade" +:+ String.substring 5 45 s) = true) addresses.
Proof. repeat (constructor; [vm_compute; reflexivity|]). constructor. Qed.

(** C34: The v3 upgrade cannot succeed: none of its addresses carries a valid checksum for
    the prefix of the application, so whatever the state of the chain the handler
    returns an error and changes nothing. *)
Theorem v3_upgrade_fails `{!Bech32Checked} vm (c : Ctx W) :
  (∀ s, s ∈ addresses → is_ok (AccAddressFromBech32 s) = false) ∧
  ∃ e, CreateUpgradeHandler RunMigrations vm c = (Err e, c).
Proof.
  pose proof addresses_checksums as Hall. rewrite Forall_forall in Hall. split.
  - intros s Hs. destruct (checksum_refused s (Hall s Hs)) as [e ->]. done.
  - destruct (checksum_refused (hd "" addresses)) as [e He]; [vm_compute; reflexivity|]. exists e.
    unfold CreateUpgradeHandler. change addresses with (hd "" addresses :: tl addresses).
    cbn [forM]. unfold move_end, mbind, M_bind, lift. by rewrite He.
Qed.
End theorems.

(** ** A concrete chain *)
#[local] Instance Ref_auth : AuthKeeper (gmap string Account) := {
  GetAccount w x := a ← w !! x; if decide (account_address a = x) then Some a else None;
  SetAccount a := modify <[account_address a := a]>;
}.
(** Texts with the right checksum are addresses. *)
#[local] Instance Checked_bech32 : Bech32 := {
  AccAddressFromBech32 s := if checksum_ok Bech32Prefix s then Ok s else Err (errorf "decoding bech32 failed");
  AccAddress_String a := a;
}.
#[local] Instance Checked_bech32_laws : Bech32Checked.
Proof. constructor. intros s Hs. cbn [AccAddressFromBech32 Checked_bech32]. rewrite Hs. eauto. Qed.

(** C34: the upgrade fails on a chain without accounts. *)
Lemma v3_upgrade_fails_witness : ∃ e, CreateUpgradeHandler mret ∅ (mkCtx (∅ : gmap string Account) []) = (Err e, mkCtx ∅ []).
Proof. exact (proj2 (v3_upgrade_fails mret ∅ (mkCtx ∅ []))). Defined.
