(* ===== verification/AppExport.v ===== *)
(** The export of the application (app/export.go): the state of the modules and the
    active validator set, from which a new chain is started. *)
From stdpp Require Import base list strings gmap sets sorting pretty.
From Stdlib Require Import ZArith Lia Ascii.
From S2P Require Import Prelude Sdk RefStore Slice Json JsonProps Privilege Wasm GoTime PoETypes TwasmMsgs PoEMsgs PoEContractIO PoEValset PoEValsetProps.
Open Scope Z_scope.

(** [tmtypes.GenesisValidator] *)
Record GenesisValidator := mkGenesisValidator {
  GVal_Address : bytes; GVal_PubKey : TmPubKey; GVal_Power : Z; GVal_Name : string }.

(** [servertypes.ExportedApp] *)
Record ExportedApp (Params : Type) := mkExportedApp {
  AppState : json; Exported_Validators : list GenesisValidator; Exported_Height : Z; Exported_Params : Params }.
Arguments mkExportedApp {Params} AppState Exported_Validators Exported_Height Exported_Params.
Arguments AppState {Params} e.
Arguments Exported_Validators {Params} e.
Arguments Exported_Height {Params} e.

Section export.
Context `{!ContractCalls W, !Bech32}.
Variable NewAnyWithValue : PubKey → outcome Any.
(** [encoding.PubKeyFromProto] refuses keys of a wrong size; [PubKey.Address] *)
Variables (PubKeyFromProto : TmPubKey → outcome TmPubKey) (Key_Address : TmPubKey → bytes).

(** What the callback makes of a validator, up to its first error. *)
Definition genesis_validator (w : W) (valset : outcome AccAddress) (c : ValidatorInfo) : outcome GenesisValidator :=
  opAddr ← AccAddressFromBech32 (VI_Operator c);
  pk ← ConvertToTendermintPubKey (VI_Pubkey c);
  tmPk ← PubKeyFromProto pk;
  meta ← QueryValidator NewAnyWithValue w valset opAddr;
  Ok (mkGenesisValidator (Key_Address tmPk) tmPk (int64 (VI_Power c))
        (from_option (Moniker ∘ SV_Description) "" (meta : option StakingValidator))).

(** The callback: the variables [result] and [err]; an error stops the iteration. *)
Definition append_genesis_validator (w : W) (valset : outcome AccAddress) (c : ValidatorInfo)
    (st : list GenesisValidator * option error) : outcome (bool * (list GenesisValidator * option error)) :=
  match genesis_validator w valset c with
  | Ok v => Ok (false, (st.1 ++ [v], None))
  | Err e => Ok (true, (st.1, Some e))
  | Panic p => Panic p
  end.

Definition activeValidatorSet (fuel : nat) (w : W) (valset : outcome AccAddress) :
    option (outcome (list GenesisValidator)) :=
  match IterateActiveValidators fuel w valset (append_genesis_validator w valset) None ([], None) with
  | None => None
  | Some (Ok (result, None)) => Some (Ok result)
  | Some (Ok (_, Some e)) => Some (Err e)
  | Some (Err e) => Some (Err e)
  | Some (Panic p) => Some (Panic p)
  end.

(** The state of the modules, the height and the consensus parameters come from the SDK. *)
Definition ExportAppStateAndValidators {Params} (genState : W → outcome json) (LastBlockHeight : Z) (params : W → Params)
    (fuel : nat) (w : W) (valset : outcome AccAddress) (forZeroHeight : bool) : option (outcome (ExportedApp Params)) :=
  if forZeroHeight then Some (Panic "zero height export not supported")
  else
    match genState w with
    | Ok appState =>
        match activeValidatorSet fuel w valset with
        | None => None
        | Some r => Some (validators ← r; Ok (mkExportedApp appState validators (int64 (LastBlockHeight + 1)) (params w)))
        end
    | Err e => Some (Err e)
    | Panic p => Some (Panic p)
    end.

(** ** The exported set is the imported one *)

(** A callback that appends an element per validator and never stops. *)
Lemma visit_append {A} (cb : ValidatorInfo → A → outcome (bool * A)) (step : ValidatorInfo → A → A) l st :
  (∀ v s, v ∈ l → cb v s = Ok (false, step v s)) → visit cb l st = Ok (false, foldl (flip step) st l).
Proof.
  revert st. induction l as [|v l IH]; intros st Hcb; [done|]. cbn. rewrite Hcb by left. cbn. apply IH.
  intros x s Hx. apply Hcb. by right.
Qed.

Lemma foldl_append {A B} (f : A → B) l acc : foldl (λ s x, s ++ [f x]) acc l = acc ++ (f <$> l).
Proof.
  revert acc. induction l as [|x l IH]; intros acc; cbn; [by rewrite app_nil_r|]. rewrite IH, <-app_assoc. done.
Qed.
Lemma foldl_append_pair {A B} (f : A → B) l acc (e : option error) :
  (foldl (λ s x, (s.1 ++ [f x], None)) (acc, e) l).1 = acc ++ (f <$> l) ∧
  (e = None → (foldl (λ s x, (s.1 ++ [f x], None)) (acc, e) l).2 = None).
Proof.
  revert acc e. induction l as [|x l IH]; intros acc e; cbn; [by rewrite app_nil_r|].
  destruct (IH (acc ++ [f x]) None) as [-> H2]. rewrite <-app_assoc. split; [done|]. auto.
Qed.

(** *** Whatever the contract answers *)
Section agreement.
(** A key that is accepted is taken as it is. *)
Hypothesis key_unchanged : ∀ pk pk', PubKeyFromProto pk = Ok pk' → pk' = pk.

(** The update that Tendermint makes of a validator of the genesis file. *)
Definition as_update (g : GenesisValidator) : AbciValidatorUpdate := mkVU (GVal_PubKey g) (GVal_Power g).

(** The two callbacks on one validator. *)
Lemma callbacks_agree (w : W) a v gs stop gs' e :
  append_genesis_validator w a v (gs, None) = Ok (stop, (gs', e)) →
  if stop then is_Some e else e = None ∧ append_active v (as_update <$> gs) = Ok (false, as_update <$> gs').
Proof using key_unchanged.
  unfold append_genesis_validator. destruct (genesis_validator w a v) as [g|err|p] eqn:Hg; [|by intros [= <- _ <-]; eexists|done].
  intros [= <- <- <-]. split; [done|]. unfold genesis_validator in Hg.
  apply outcome_bind_ok in Hg as (op & _ & Hg). apply outcome_bind_ok in Hg as (pk & Hpk & Hg).
  apply outcome_bind_ok in Hg as (pk' & ->%key_unchanged & Hg). apply outcome_bind_ok in Hg as (meta & _ & [= <-]).
  unfold append_active. rewrite Hpk. by rewrite fmap_app.
Qed.

Lemma visits_agree (w : W) a vs gs stop gs' e :
  visit (append_genesis_validator w a) vs (gs, None) = Ok (stop, (gs', e)) →
  if stop then is_Some e else e = None ∧ visit append_active vs (as_update <$> gs) = Ok (false, as_update <$> gs').
Proof using key_unchanged.
  revert gs. induction vs as [|v vs IH]; intros gs; cbn [visit]; [by intros [= <- <- <-]|].
  intros ([stop1 [gs1 e1]] & Hcb & Hrest)%outcome_bind_ok. apply callbacks_agree in Hcb. cbn [fst snd] in Hrest. destruct stop1.
  - by injection Hrest as <- <- <-.
  - destruct Hcb as [-> Hcb]. rewrite Hcb. cbn [mbind outcome_bind fst snd]. by apply IH.
Qed.

Lemma pages_agree fuel (w : W) a b cursor gs gs' :
  iterate_pages fuel w a (append_genesis_validator w a) b cursor (gs, None) = Some (Ok (gs', None)) →
  iterate_pages fuel w a append_active b cursor (as_update <$> gs) = Some (Ok (as_update <$> gs')).
Proof using key_unchanged.
  revert b cursor gs. induction fuel as [|n IH]; intros b cursor gs; cbn [iterate_pages]; [done|].
  case_decide; [by intros [= <-]|].
  destruct (visit (append_genesis_validator w a) (contents b) (gs, None)) as [[stop [gs1 e1]]|err|p] eqn:Hv; [|done|done].
  apply visits_agree in Hv. destruct stop.
  - destruct Hv as [e ->]. done.
  - destruct Hv as [-> ->]. destruct (query_active w a cursor 0 b) as [[b' cursor']|err|p]; [|done|done]. apply IH.
Qed.

Lemma sets_agree fuel (w : W) a gs :
  gs ≠ [] → activeValidatorSet fuel w a = Some (Ok gs) → active_set fuel w a = Some (Ok (as_update <$> gs)).
Proof using key_unchanged.
  unfold activeValidatorSet, active_set, IterateActiveValidators. cbn [ToQuery]. intros Hne.
  destruct (query_active w a "" 0 empty_buffer) as [[b cursor]|err|p]; [|done|done].
  destruct (iterate_pages fuel w a (append_genesis_validator w a) b cursor ([], None)) as [[[gs' [e|]]|err|p]|] eqn:Hi; try done.
  intros [= ->]. apply pages_agree in Hi. cbn [fmap list_fmap] in Hi. rewrite Hi. by destruct gs.
Qed.
End agreement.

(** *** A contract with keys of one kind *)
Section one_kind.
Context (w : W) (addr : AccAddress) (vals : list Active) (page : string → nat).
Hypothesis contract_serves : serves_active w addr vals page.
Hypothesis vals_ed25519 : Forall (λ v, av_kind v = "ed25519") vals.
(** The operators are addresses the contract answers for, the keys have the right size. *)
Hypothesis vals_known : ∀ v, v ∈ vals → ∃ op meta,
  AccAddressFromBech32 (av_op v) = Ok op ∧ QueryValidator NewAnyWithValue w (Ok addr) op = Ok meta.
Hypothesis keys_sized : ∀ v, v ∈ vals → PubKeyFromProto (TmEd25519 (key_of v)) = Ok (TmEd25519 (key_of v)).

(** The name the contract has for the operator. *)
Definition moniker_of (v : Active) : string :=
  match AccAddressFromBech32 (av_op v) with
  | Ok op => match QueryValidator NewAnyWithValue w (Ok addr) op with
             | Ok meta => from_option (Moniker ∘ SV_Description) "" meta
             | _ => "" end
  | _ => ""
  end.
Definition exported (v : Active) : GenesisValidator :=
  mkGenesisValidator (Key_Address (TmEd25519 (key_of v))) (TmEd25519 (key_of v)) (int64 (av_power v)) (moniker_of v).

Lemma genesis_validator_exported v :
  v ∈ vals → genesis_validator w (Ok addr) (ed25519_info v) = Ok (exported v).
Proof using vals_known keys_sized.
  intros Hv. destruct (vals_known v Hv) as (op & meta & Hop & Hm). unfold genesis_validator, exported, moniker_of.
  cbn [VI_Operator VI_Pubkey VI_Power ed25519_info]. rewrite Hop. cbn [mbind outcome_bind ConvertToTendermintPubKey Ed25519].
  rewrite (keys_sized v Hv). cbn [mbind outcome_bind]. by rewrite Hm.
Qed.

(** What the callback appends. *)
Definition result_of (c : ValidatorInfo) : GenesisValidator :=
  match genesis_validator w (Ok addr) c with Ok v => v | _ => mkGenesisValidator "" (TmEd25519 "") 0 "" end.

Lemma activeValidatorSet_all fuel :
  (length vals + 1 < fuel)%nat → activeValidatorSet fuel w (Ok addr) = Some (Ok (exported <$> vals)).
Proof using contract_serves vals_ed25519 vals_known keys_sized.
  intros Hf. destruct contract_serves. unfold activeValidatorSet.
  rewrite (IterateActiveValidators_all w addr vals page) by done. unfold visited.
  rewrite (visit_append _ (λ c st, (st.1 ++ [result_of c], None))).
  - cbn [mbind outcome_bind snd]. unfold flip.
    destruct (foldl_append_pair result_of
      (ed25519_info <$> vals) [] None) as [H1 H2]. specialize (H2 eq_refl).
    destruct (foldl _ _ _) as [r e]. cbn in H1, H2. subst. do 2 f_equal.
    rewrite <-list_fmap_compose. apply list_fmap_ext. intros i v Hv%list_elem_of_lookup_2. unfold result_of. cbn.
    by rewrite genesis_validator_exported.
  - intros c st Hc. apply list_elem_of_fmap in Hc as (v & -> & Hv). unfold append_genesis_validator, result_of.
    by rewrite genesis_validator_exported.
Qed.

End one_kind.

(** C18: Whatever the valset contract answers, when the export of the validators succeeds and is not empty, a chain that
    imports the same contract state starts with exactly the exported keys and powers, in the same order: the
    consensus set survives export and import. When the contract lists validators with ed25519 keys of the right size only, in
    pages of any positive sizes, and answers for their operators, the export succeeds, its loop ends, and it has every validator once, in the contract's order,
    with its own key, power and name. The second part is limited to ed25519 keys because it fails for secp256k1 keys:
    the page buffer is reused, and the key of another validator is exported and imported. *)
Theorem export_import_validators :
  (∀ pk pk', PubKeyFromProto pk = Ok pk' → pk' = pk) →
  (∀ fuel (w : W) valset gs, gs ≠ [] → activeValidatorSet fuel w valset = Some (Ok gs) →
     active_set fuel w valset = Some (Ok ((λ g, mkVU (GVal_PubKey g) (GVal_Power g)) <$> gs))) ∧
  (∀ fuel (w : W) addr vals page,
     serves_active w addr vals page → Forall (λ v, av_kind v = "ed25519") vals →
     (∀ v, v ∈ vals → ∃ op meta, AccAddressFromBech32 (av_op v) = Ok op ∧ QueryValidator NewAnyWithValue w (Ok addr) op = Ok meta) →
     (∀ v, v ∈ vals → PubKeyFromProto (TmEd25519 (key_of v)) = Ok (TmEd25519 (key_of v))) →
     (length vals + 1 < fuel)%nat →
     activeValidatorSet fuel w (Ok addr) = Some (Ok (exported w addr <$> vals))).
Proof.
  intros Hkey. split.
  - intros fuel w valset gs Hne Hgs. by apply sets_agree.
  - intros fuel w addr vals page Hs Hed Hknown Hsized Hf. by eapply activeValidatorSet_all.
Qed.
End export.

(** ** A concrete contract *)

(** [serve] of [PoEValsetProps] with the validator query, which knows the names. *)
#[local] Instance Ref_named_valset : ContractCalls (list Active) := {
  Execute _ _ _ _ := fail_with (new_err "contract");
  QuerySmart vs _ q :=
    match q with
    | JObj [("validator", JObj [("operator", JStr s)])] =>
        Ok (JText (JObj [("validator", JObj [("operator", JStr s); ("pubkey", JObj [("ed25519", JStr "AAEC")]);
                                             ("metadata", JObj [("moniker", JStr (s +:+ "-node"))])])]))
    | _ => serve vs 2 q
    end;
}.
#[local] Instance Plain_bech32 : Bech32 := { AccAddressFromBech32 s := Ok s; AccAddress_String a := a }.

Lemma ref_serves : serves_active ref_vals "valset" ref_vals (λ _, 2%nat).
Proof.
  constructor.
  - repeat constructor; vm_compute; reflexivity.
  - exact ref_vals_ok.
  - intros s. lia.
  - intros s. unfold active_query, enc_ListValidatorsQuery, nonempty. by case_decide as Hs; [subst|].
Qed.
Lemma ref_ed25519 : Forall (λ v, av_kind v = "ed25519") ref_vals.
Proof. repeat constructor. Qed.
Definition plain_any (k : PubKey) : outcome Any := Ok (mkAny (PK_Type k) (PK_Bytes k)).

Lemma ref_known v : v ∈ ref_vals → ∃ op meta,
  AccAddressFromBech32 (av_op v) = Ok op ∧ QueryValidator plain_any ref_vals (Ok "valset") op = Ok meta.
Proof. intros _. exists (av_op v). eexists. split; [reflexivity|]. vm_compute. reflexivity. Qed.

(** C18: three validators in pages of two. *)
Lemma export_import_validators_witness :
  ∃ gs, activeValidatorSet plain_any Ok (λ _, "addr") 5 ref_vals (Ok "valset") = Some (Ok gs) ∧
    GVal_Name <$> gs = ["furya1a-node"; "furya1b-node"; "furya1c-node"] ∧
    active_set 5 ref_vals (Ok "valset") = Some (Ok ((λ g, mkVU (GVal_PubKey g) (GVal_Power g)) <$> gs)).
Proof.
  destruct (export_import_validators plain_any Ok (λ _, "addr")) as [Hi He]; [by intros pk pk' [= ->]|].
  specialize (He 5%nat ref_vals "valset" ref_vals (λ _, 2%nat) ref_serves ref_ed25519 ref_known ltac:(done) ltac:(vm_compute; lia)).
  eexists. split; [exact He|]. split; [vm_compute; reflexivity|]. apply (Hi 5%nat ref_vals (Ok "valset")); [discriminate|exact He].
Defined.
