(* ===== verification/GenTxCollect.v ===== *)
(** The collection of genesis transactions (x/poe/client/genutil_collect.go).

    The directory of the transactions and the genesis document are values: reading
    and writing files is not modelled. The codec of transactions, the iterator
    over the balances of x/bank and the writing of the genesis document are
    parameters. *)
From stdpp Require Import base list strings gmap sets sorting pretty.
From Stdlib Require Import ZArith Lia Ascii.
From S2P Require Import Prelude Sdk RefStore Slice Json Privilege Wasm GoTime PoETypes TwasmMsgs PoEMsgs.
Open Scope Z_scope.

(** An entry of the directory; [ReadFile] may fail. *)
Record FileInfo := mkFileInfo { File_Name : string; IsDir : bool; File_Content : outcome bytes }.

(** [strings.HasSuffix] *)
Definition HasSuffix (s suffix : string) : bool :=
  let n := String.length s in
  let m := String.length suffix in
  (m <=? n)%nat && bool_decide (String.substring (n - m) m s = suffix).

(** [strings.Join(xs, ",")] *)
Fixpoint join (xs : list string) : string :=
  match xs with
  | [] => ""
  | [x] => x
  | x :: xs' => x +:+ "," +:+ join xs'
  end.

Class CoinAmounts := {
  (** [Coins.AmountOf] panics on an invalid denom. *)
  Coins_AmountOf : list Coin → string → outcome Int;
  (** [Int.LT] *)
  Int_LT : Int → Int → outcome bool;
}.
Class CoinAmountsLaws `{CoinAmounts} := {
  Int_LT_some a b : Int_LT (Some a) (Some b) = Ok (a <? b);
  Int_LT_nil a : is_panic (Int_LT a None) = true;
  Coins_AmountOf_set cs d a : Coins_AmountOf cs d = Ok a → is_Some a;
}.

Section collect.
Context `{!CoinAmounts, !Bech32} {Tx : Type}.
Variables (txJSONDecoder : bytes → outcome Tx) (GetMemo : Tx → option string) (GetMsgs : Tx → list GenMsg).
Implicit Types (balances : gmap string (list Coin)).

(** The checks on one file: the transaction, and its address for the peers unless it is our own. *)
Definition collect_file (moniker : string) balances (fo : FileInfo) : outcome (Tx * option string) :=
  jsonRawTx ← File_Content fo;
  genTx ← txJSONDecoder jsonRawTx;
  nodeAddrIP ← match GetMemo genTx with Some m => Ok m | None => Err (new_err "expected TxWithMemo, got %T") end;
  check (bool_decide (nodeAddrIP = "")) (new_err "failed to find node's address and IP in %s") ;;
  match GetMsgs genTx with
  | [m] =>
      match m with
      | GMCreateValidator msg =>
          match balances !! CV_OperatorAddress msg with
          | None => Err (new_err "account %s balance not in genesis state: %+v")
          | Some delBal =>
              amount ← Coins_AmountOf delBal (WCoin_Denom (CV_Amount msg));
              lt ← Int_LT amount (WCoin_Amount (CV_Amount msg));
              check lt (new_err "insufficient fund for delegation %v: %v < %v") ;;
              Ok (genTx, if decide (Moniker (CV_Description msg) ≠ moniker) then Some nodeAddrIP else None)
          end
      | _ => Panic "interface conversion"
      end
  | _ => Err (new_err "each genesis transaction must provide a single genesis message")
  end.

(** Directories and files with other names are skipped. *)
Definition skipped (fo : FileInfo) : bool := IsDir fo || negb (HasSuffix (File_Name fo) ".json").

Fixpoint collect_files (moniker : string) balances (fos : list FileInfo) : outcome (list Tx * list string) :=
  match fos with
  | [] => Ok ([], [])
  | fo :: fos' =>
      if skipped fo then collect_files moniker balances fos'
      else
        r ← collect_file moniker balances fo;
        rest ← collect_files moniker balances fos';
        Ok (r.1 :: rest.1, option_list r.2 ++ rest.2)
  end.

(** By the text of the address; later balances of an address replace earlier ones. *)
Definition balances_map (l : list (AccAddress * list Coin)) : gmap string (list Coin) :=
  list_to_map (reverse (prod_map AccAddress_String id <$> l)).

Definition collectTxs (IterateGenesisBalances : gmap string json → outcome (list (AccAddress * list Coin)))
    (appState : json_bytes) (moniker : string) (ReadDir : outcome (list FileInfo)) : outcome (list Tx * string) :=
  state ← match appState with JText j => dec_raw_map j | _ => Err ErrJSON end;
  fos ← ReadDir;
  l ← IterateGenesisBalances state;
  r ← collect_files moniker (balances_map l) fos;
  Ok (r.1, join (merge_sort bytes_le r.2)).

(** The peers that are written to the configuration, if the collection got that far, and the
    new state of the module. [exportGenesisFile] stands for the encoding of the state and for
    the completion and the writing of the genesis document. *)
Definition AddGenTxsToGenesisFile (IterateGenesisBalances : gmap string json → outcome (list (AccAddress * list Coin)))
    (txJSONEncoder : Tx → outcome json_bytes) (genesisState : gmap string json → outcome PoEGenesisState)
    (exportGenesisFile : PoEGenesisState → outcome ())
    (appState : json_bytes) (moniker : string) (ReadDir : outcome (list FileInfo)) :
    option string * outcome PoEGenesisState :=
  match collectTxs IterateGenesisBalances appState moniker ReadDir with
  | Ok (appGenTxs, persistentPeers) =>
      (Some persistentPeers,
       check (bool_decide (length appGenTxs = 0%nat)) (new_err "there must be at least one genesis tx") ;;
       state ← match appState with JText j => dec_raw_map j | _ => Err ErrJSON end;
       gs ← genesisState state;
       gs' ← SetGenTxsInAppGenesisState txJSONEncoder gs appGenTxs;
       exportGenesisFile gs' ;;
       Ok gs')
  | Err e => (None, Err e)
  | Panic p => (None, Panic p)
  end.
End collect.

Section theorems.
Context `{!CoinAmounts, !CoinAmountsLaws, !Bech32} {Tx : Type}.
Variables (txJSONDecoder : bytes → outcome Tx) (GetMemo : Tx → option string) (GetMsgs : Tx → list GenMsg).
Implicit Types (balances : gmap string (list Coin)).

(** A collected transaction: its message and its memo. *)
Record GenTxEntry := mkEntryOf { entry_tx : Tx; entry_msg : MsgCreateValidator; entry_memo : string }.

(** The file holds a transaction with a memo and the single message to create a
    validator, whose operator has the liquid amount of its delegation, in the denom of that amount. The vesting
    amount, which is delegated too, is not looked at. *)
Definition funded_file balances (fo : FileInfo) (e : GenTxEntry) : Prop :=
  ∃ bz delBal amount balance, File_Content fo = Ok bz ∧ txJSONDecoder bz = Ok (entry_tx e) ∧
    GetMemo (entry_tx e) = Some (entry_memo e) ∧ entry_memo e ≠ "" ∧
    GetMsgs (entry_tx e) = [GMCreateValidator (entry_msg e)] ∧
    balances !! CV_OperatorAddress (entry_msg e) = Some delBal ∧
    WCoin_Amount (CV_Amount (entry_msg e)) = Some amount ∧
    Coins_AmountOf delBal (WCoin_Denom (CV_Amount (entry_msg e))) = Ok (Some balance) ∧ amount ≤ balance.

Definition peer_of (moniker : string) (e : GenTxEntry) : option string :=
  if decide (Moniker (CV_Description (entry_msg e)) ≠ moniker) then Some (entry_memo e) else None.

Lemma collect_file_spec moniker balances fo r :
  collect_file txJSONDecoder GetMemo GetMsgs moniker balances fo = Ok r ↔
  ∃ e, funded_file balances fo e ∧ r = (entry_tx e, peer_of moniker e).
Proof.
  unfold collect_file, funded_file. split.
  - intros (bz & Hbz & Hr)%outcome_bind_ok. apply outcome_bind_ok in Hr as (tx & Htx & Hr).
    apply outcome_bind_ok in Hr as (memo & Hmemo & Hr). destruct (GetMemo tx) as [m|] eqn:Hm; [|done]. injection Hmemo as ->.
    apply outcome_bind_ok in Hr as ([] & Hne%check_ok%bool_decide_eq_false & Hr).
    destruct (GetMsgs tx) as [|[msg|] [|]] eqn:Hmsgs; try done.
    destruct (balances !! CV_OperatorAddress msg) as [bal|] eqn:Hbal; [|done].
    apply outcome_bind_ok in Hr as (a & Ha & Hr). apply outcome_bind_ok in Hr as (lt & Hlt & Hr).
    apply outcome_bind_ok in Hr as ([] & ->%check_ok & [= <-]).
    destruct (Coins_AmountOf_set _ _ _ Ha) as [balance ->].
    destruct (WCoin_Amount (CV_Amount msg)) as [amount|] eqn:Hamt;
      [|pose proof (Int_LT_nil (Some balance)) as Hp; by rewrite Hlt in Hp].
    rewrite Int_LT_some in Hlt. injection Hlt as Hlt%Z.ltb_ge.
    exists (mkEntryOf tx msg memo). split; [|done]. exists bz, bal, amount, balance. by split_and!.
  - intros ([tx msg memo] & (bz & bal & amount & balance & Hbz & Htx & Hm & Hne & Hmsgs & Hbal & Hamt & Ha & Hle) & ->).
    cbn in *. rewrite Hbz. cbn. rewrite Htx. cbn. rewrite Hm. cbn. rewrite bool_decide_false by done. cbn.
    rewrite Hmsgs, Hbal, Ha. cbn. rewrite Hamt, Int_LT_some. cbn. rewrite (proj2 (Z.ltb_ge _ _) Hle). done.
Qed.

Lemma collect_files_spec moniker balances fos r :
  collect_files txJSONDecoder GetMemo GetMsgs moniker balances fos = Ok r ↔
  ∃ es, Forall2 (funded_file balances) (filter (λ fo, skipped fo = false) fos) es ∧
    r = (entry_tx <$> es, omap (peer_of moniker) es).
Proof.
  revert r. induction fos as [|fo fos IH]; intros r; cbn [collect_files].
  { split; [intros [= <-]; by exists []|]. intros (es & ->%Forall2_nil_inv_l & ->). done. }
  rewrite filter_cons. destruct (skipped fo) eqn:Hs; [rewrite decide_False by done; apply IH|]. rewrite decide_True by done.
  split.
  - intros (p & (e & He & ->)%collect_file_spec & Hr)%outcome_bind_ok.
    apply outcome_bind_ok in Hr as (rest & (es & Hes & ->)%IH & [= <-]). exists (e :: es). split; [by constructor|].
    cbn. by destruct (peer_of moniker e).
  - intros (es' & Hes & ->). apply Forall2_cons_inv_l in Hes as (e & es & He & Hes & ->).
    rewrite (proj2 (collect_file_spec moniker balances fo (entry_tx e, peer_of moniker e))) by eauto. cbn [mbind outcome_bind].
    rewrite (proj2 (IH (entry_tx <$> es, omap (peer_of moniker) es))) by eauto. cbn. by destruct (peer_of moniker e).
Qed.

Lemma collectTxs_spec iterate j st l moniker fos r :
  dec_raw_map j = Ok st → iterate st = Ok l →
  collectTxs txJSONDecoder GetMemo GetMsgs iterate (JText j) moniker (Ok fos) = Ok r ↔
  ∃ es, Forall2 (funded_file (balances_map l)) (filter (λ fo, skipped fo = false) fos) es ∧
    r = (entry_tx <$> es, join (merge_sort bytes_le (omap (peer_of moniker) es))).
Proof.
  intros Hst Hl. unfold collectTxs. rewrite Hst. cbn [mbind outcome_bind]. rewrite Hl. cbn [mbind outcome_bind]. split.
  - intros (p & (es & Hes & ->)%collect_files_spec & [= <-])%outcome_bind_ok. by exists es.
  - intros (es & Hes & ->).
    by rewrite (proj2 (collect_files_spec moniker (balances_map l) fos (entry_tx <$> es, omap (peer_of moniker) es))) by eauto.
Qed.

Lemma SetGenTxs_ok (enc : Tx → outcome json_bytes) gs txs gs' :
  SetGenTxsInAppGenesisState enc gs txs = Ok gs' ↔
  ∃ s bz, GetSeedContracts gs = Some s ∧ encode_txs enc txs = Ok bz ∧
    gs' = mkPoEGenesis (GS_Params gs) (GenesisState_SeedContracts (Some (with_gentxs s bz))).
Proof.
  unfold SetGenTxsInAppGenesisState. split.
  - intros (bz & Hbz & Hg)%outcome_bind_ok. destruct (GetSeedContracts gs) as [s|]; [|done]. injection Hg as <-. eauto.
  - intros (s & bz & Hs & Hbz & ->). rewrite Hbz. cbn [mbind outcome_bind]. by rewrite Hs.
Qed.

Lemma AddGenTxs_ok iterate (enc : Tx → outcome json_bytes) genesis save j st fos l gs moniker gs' peers :
  dec_raw_map j = Ok st → iterate st = Ok l → genesis st = Ok gs →
  AddGenTxsToGenesisFile txJSONDecoder GetMemo GetMsgs iterate enc genesis save (JText j) moniker (Ok fos)
    = (Some peers, Ok gs') ↔
  ∃ es s bz, es ≠ [] ∧ Forall2 (funded_file (balances_map l)) (filter (λ fo, skipped fo = false) fos) es ∧
    GetSeedContracts gs = Some s ∧ encode_txs enc (entry_tx <$> es) = Ok bz ∧
    gs' = mkPoEGenesis (GS_Params gs) (GenesisState_SeedContracts (Some (with_gentxs s bz))) ∧ save gs' = Ok () ∧
    peers = join (merge_sort bytes_le (omap (peer_of moniker) es)).
Proof.
  intros Hst Hl Hgs. unfold AddGenTxsToGenesisFile. split.
  - destruct (collectTxs _ _ _ _ _ _ _) as [[txs ps]| |] eqn:Hc; [|done..]. intros [= <- Hrest].
    apply (collectTxs_spec iterate j st l moniker fos _ Hst Hl) in Hc as (es & Hes & [= -> ->]).
    apply outcome_bind_ok in Hrest as ([] & Hne%check_ok%bool_decide_eq_false & Hrest).
    rewrite Hst in Hrest. cbn [mbind outcome_bind] in Hrest. rewrite Hgs in Hrest. cbn [mbind outcome_bind] in Hrest.
    apply outcome_bind_ok in Hrest as (g & (s & bz & Hs & Hbz & ->)%SetGenTxs_ok & Hrest).
    apply outcome_bind_ok in Hrest as ([] & Hsave & [= <-]).
    exists es, s, bz. split_and!; try done. intros ->. done.
  - intros (es & s & bz & Hne & Hes & Hs & Hbz & -> & Hsave & ->).
    rewrite (proj2 (collectTxs_spec iterate j st l moniker fos
      (entry_tx <$> es, join (merge_sort bytes_le (omap (peer_of moniker) es))) Hst Hl)) by eauto.
    f_equal. rewrite bool_decide_false by (rewrite length_fmap; by destruct es).
    cbn [check mbind outcome_bind]. rewrite Hst. cbn [mbind outcome_bind]. rewrite Hgs. cbn [mbind outcome_bind].
    assert (SetGenTxsInAppGenesisState enc gs (entry_tx <$> es) = Ok _) as -> by (apply SetGenTxs_ok; eauto).
    cbn [mbind outcome_bind]. by rewrite Hsave.
Qed.

(** C20: For a genesis document whose balances and PoE state can be read, collecting genesis transactions succeeds
    exactly when there is at least one, every
    JSON file of the directory can be read and holds a transaction with a memo and a single message to
    create a validator, every operator has a genesis balance that covers the liquid amount of its message in the
    denom of that amount, the genesis is one that is seeded, and the transactions can be encoded and the new document
    written. The vesting amount of a message is not compared with the balance. The transactions then stand in the genesis state in the order of the files and
    the peers of the configuration are the sorted memos of the other nodes. *)
Theorem AddGenTxs_spec iterate (enc : Tx → outcome json_bytes) genesis save j st fos l gs moniker gs' peers :
  dec_raw_map j = Ok st → iterate st = Ok l → genesis st = Ok gs →
  AddGenTxsToGenesisFile txJSONDecoder GetMemo GetMsgs iterate enc genesis save (JText j) moniker (Ok fos)
    = (Some peers, Ok gs') ↔
  ∃ es s bz, es ≠ [] ∧ Forall2 (funded_file (balances_map l)) (filter (λ fo, skipped fo = false) fos) es ∧
    GetSeedContracts gs = Some s ∧ encode_txs enc (entry_tx <$> es) = Ok bz ∧
    gs' = mkPoEGenesis (GS_Params gs) (GenesisState_SeedContracts (Some (with_gentxs s bz))) ∧ save gs' = Ok () ∧
    peers = join (merge_sort bytes_le (omap (peer_of moniker) es)).
Proof. apply AddGenTxs_ok. Qed.
End theorems.

(** ** A concrete directory *)
#[export] Instance Ref_amounts : CoinAmounts := {
  Coins_AmountOf cs d := Ok (Some (foldr (λ c s, (if decide (Denom c = d) then Amount c else 0) + s) 0 cs));
  Int_LT a b := match a, b with Some x, Some y => Ok (x <? y) | _, _ => Panic "nil" end;
}.
#[export] Instance Ref_amounts_laws : CoinAmountsLaws.
Proof. constructor; cbn; [done|by intros []|]. intros cs d a [= <-]. eauto. Qed.

#[local] Instance Plain_bech32 : Bech32 := { AccAddressFromBech32 s := Ok s; AccAddress_String a := a }.

(** A transaction is the operator; the memo and the moniker are made of it. *)
Definition ref_msg (op : string) : MsgCreateValidator :=
  mkMsgCreateValidator (mkDescription op "" "" "" "") op None (mkWCoin "ufury" (Some 5)) (mkWCoin "ufury" (Some 900)).
Definition ref_memo (op : string) : option string := Some (op +:+ "@host").
Definition ref_msgs (op : string) : list GenMsg := [GMCreateValidator (ref_msg op)].
Definition ref_dir : list FileInfo :=
  [mkFileInfo "bob.json" false (Ok "bob"); mkFileInfo "keys" true (Ok ""); mkFileInfo "notes.txt" false (Ok "");
   mkFileInfo "alice.json" false (Ok "alice")].
Definition ref_balances : list (AccAddress * list Coin) := [("alice", [mkCoin "ufury" 5]); ("bob", [mkCoin "ufury" 7])].
Definition seed_state : PoEGenesisState :=
  mkPoEGenesis DefaultParams (GenesisState_SeedContracts (Some (DefaultSeedContracts "furya1boot"))).

(** C20: two of four entries are transactions; the vesting amount is not looked at. *)
Lemma AddGenTxs_spec_witness :
  ∃ gs, AddGenTxsToGenesisFile Ok ref_memo ref_msgs (λ _, Ok ref_balances) (λ op, Ok (JText (JStr op))) (λ _, Ok seed_state)
          (λ _, Ok ()) (JText (JObj [])) "carl" (Ok ref_dir) = (Some "alice@host,bob@host", Ok gs) ∧
    GenTxs <$> GetSeedContracts gs = Some [JText (JStr "bob"); JText (JStr "alice")].
Proof.
  eexists. split; [|shelve].
  apply (AddGenTxs_spec Ok ref_memo ref_msgs (λ _, Ok ref_balances) (λ op, Ok (JText (JStr op))) (λ _, Ok seed_state)
    (λ _, Ok ()) (JObj []) ∅ ref_dir ref_balances seed_state "carl"); [reflexivity..|].
  exists [mkEntryOf "bob" (ref_msg "bob") "bob@host"; mkEntryOf "alice" (ref_msg "alice") "alice@host"].
  eexists _, _. split; [discriminate|]. split.
  { constructor; [|constructor; [|constructor]].
    - exists "bob", [mkCoin "ufury" 7], 5, 7. split_and!; try reflexivity; discriminate.
    - exists "alice", [mkCoin "ufury" 5], 5, 5. split_and!; try reflexivity; discriminate. }
  split; [reflexivity|]. split; [reflexivity|]. split; [reflexivity|]. split; [reflexivity|]. vm_compute. reflexivity.
  Unshelve. reflexivity.
Defined.
