(* ===== verification/AppBlock.v ===== *)
(** The blocks of the application (app/app.go): the modules in the order in which their
    begin and end blockers run, and what the callbacks of x/twasm and x/poe together do at
    the end of a block.

    The module manager and the other modules belong to the SDK: they are an
    interface. *)
From stdpp Require Import base list strings gmap sets sorting relations.
From Stdlib Require Import ZArith Lia.
From S2P Require Import Prelude ProgramLogic Sdk RefStore Slice Json Privilege TwasmMsgs Wasm TwasmKeeper TwasmHandler TwasmSteps RefWorld TwasmProps TwasmAbci GoTime PoETypes PoEMsgs PoETypesProps PoEKeeper PoEContractIO PoEValset PoEServer PoEServerProps PoEBootstrap.
Open Scope Z_scope.

(** ** Modules and their order *)

(** The [ModuleName]s of the modules the manager is made of. *)
Inductive AppModuleName :=
  | upgradetypes_ModuleName | capabilitytypes_ModuleName | authtypes_ModuleName | banktypes_ModuleName
  | crisistypes_ModuleName | authz_ModuleName | feegrant_ModuleName | paramstypes_ModuleName
  | vestingtypes_ModuleName | ibchost_ModuleName | ibctransfertypes_ModuleName | icatypes_ModuleName
  | poe_ModuleName | twasm_ModuleName | globalfee_ModuleName.
#[export] Instance AppModuleName_eq_dec : EqDecision AppModuleName.
Proof. solve_decision. Defined.

(** The modules of [module.NewManager]. *)
Definition manager_modules : list AppModuleName :=
  [poe_ModuleName; authtypes_ModuleName; vestingtypes_ModuleName; banktypes_ModuleName; capabilitytypes_ModuleName;
   upgradetypes_ModuleName; twasm_ModuleName; feegrant_ModuleName; authz_ModuleName; ibchost_ModuleName;
   paramstypes_ModuleName; ibctransfertypes_ModuleName; globalfee_ModuleName; icatypes_ModuleName; crisistypes_ModuleName].

Definition OrderBeginBlockers : list AppModuleName :=
  [upgradetypes_ModuleName; capabilitytypes_ModuleName; authtypes_ModuleName; banktypes_ModuleName;
   crisistypes_ModuleName; authz_ModuleName; feegrant_ModuleName; paramstypes_ModuleName; vestingtypes_ModuleName;
   ibchost_ModuleName; ibctransfertypes_ModuleName; ibchost_ModuleName; icatypes_ModuleName;
   poe_ModuleName; twasm_ModuleName; globalfee_ModuleName].

Definition OrderEndBlockers : list AppModuleName :=
  [crisistypes_ModuleName; capabilitytypes_ModuleName; authtypes_ModuleName; banktypes_ModuleName; authz_ModuleName;
   feegrant_ModuleName; paramstypes_ModuleName; upgradetypes_ModuleName; vestingtypes_ModuleName;
   ibctransfertypes_ModuleName; ibchost_ModuleName; icatypes_ModuleName; globalfee_ModuleName;
   twasm_ModuleName; poe_ModuleName].

Definition OrderInitGenesis : list AppModuleName :=
  [capabilitytypes_ModuleName; authtypes_ModuleName; banktypes_ModuleName; crisistypes_ModuleName; authz_ModuleName;
   feegrant_ModuleName; paramstypes_ModuleName; upgradetypes_ModuleName; vestingtypes_ModuleName;
   ibctransfertypes_ModuleName; ibchost_ModuleName; icatypes_ModuleName;
   twasm_ModuleName; poe_ModuleName; globalfee_ModuleName].

(** The modules of this repository. *)
Definition own_module (m : AppModuleName) : bool :=
  match m with poe_ModuleName | twasm_ModuleName | globalfee_ModuleName => true | _ => false end.

(** Every module of the manager has its place in every order. *)
Lemma orders_complete : Forall (λ m, m ∈ OrderBeginBlockers ∧ m ∈ OrderEndBlockers ∧ m ∈ OrderInitGenesis) manager_modules.
Proof. apply (bool_decide_unpack _). by vm_compute. Qed.
Lemma orders_distinct : NoDup OrderEndBlockers ∧ NoDup OrderInitGenesis.
Proof. apply (bool_decide_unpack _). by vm_compute. Qed.
(** IBC is listed twice: its begin blocker runs twice per block. *)
Lemma ibc_begins_twice : length (filter (λ m, m = ibchost_ModuleName) OrderBeginBlockers) = 2%nat.
Proof. done. Qed.

(** ** The state of the application *)

(** The keepers and the embedded contracts, which are package variables. *)
Record App (W : Type) := mkApp { keepers : KState W; embedded : EmbeddedContracts }.
Arguments mkApp {W} keepers embedded.
Arguments keepers {W} a.
Arguments embedded {W} a.

(** An operation on the keepers, or on the store alone. *)
Definition on_keepers {W A} (m : M (KState W) A) : M (App W) A := λ c,
  let '(o, c') := m (mkCtx (keepers (store c)) (events c)) in
  (o, mkCtx (mkApp (store c') (embedded (store c))) (events c')).
Definition on_store {W A} (m : M W A) : M (App W) A := on_keepers (on_world m).

(** ** The module manager *)
Section manager.
Context {S : Type}.
Variable run : AppModuleName → M S (list AbciValidatorUpdate).

(** One module after the other; only one of them may return validator updates. *)
Fixpoint end_blocks (order : list AppModuleName) (updates : list AbciValidatorUpdate) : M S (list AbciValidatorUpdate) :=
  match order with
  | [] => mret updates
  | m :: order' =>
      moduleValUpdates ← run m;
      if decide (moduleValUpdates = []) then end_blocks order' updates
      else if decide (updates = []) then end_blocks order' moduleValUpdates
      else panic "validator EndBlock updates already set by a previous module"
  end.

(** [genesisData[moduleName] == nil] skips a module; the set must not be empty in the end. *)
Fixpoint init_modules (data : AppModuleName → option json) (init : AppModuleName → json → M S (list AbciValidatorUpdate))
    (order : list AppModuleName) (updates : list AbciValidatorUpdate) : M S (list AbciValidatorUpdate) :=
  match order with
  | [] => if decide (updates = []) then panic "validator set is empty after InitGenesis" else mret updates
  | m :: order' =>
      match data m with
      | None => init_modules data init order' updates
      | Some j =>
          moduleValUpdates ← init m j;
          if decide (moduleValUpdates = []) then init_modules data init order' updates
          else if decide (updates = []) then init_modules data init order' moduleValUpdates
          else panic "validator InitGenesis updates already set by a previous module"
      end
  end.

(** The events of the modules are collected in an event manager of the call. *)
Definition with_own_events {A} (m : M S A) : M S (A * list Event) := λ c,
  let '(o, c') := m (mkCtx (store c) []) in
  (a ← o; Ok (a, events c'), mkCtx (store c') (events c)).
End manager.

Class ModuleManager (S : Type) := {
  mm_BeginBlock : list AppModuleName → (AppModuleName → M S ()) → M S (() * list Event);
  mm_EndBlock : list AppModuleName → (AppModuleName → M S (list AbciValidatorUpdate)) →
    M S (list AbciValidatorUpdate * list Event);
  mm_InitGenesis : list AppModuleName → (AppModuleName → option json) →
    (AppModuleName → json → M S (list AbciValidatorUpdate)) → M S (list AbciValidatorUpdate);
}.
(** The documented behaviour of the SDK's manager. *)
Class ModuleManagerLaws (S : Type) `{ModuleManager S} := {
  mm_BeginBlock_runs order f c : mm_BeginBlock order f c = with_own_events (forM order f) c;
  mm_EndBlock_runs order f c : mm_EndBlock order f c = with_own_events (end_blocks f order []) c;
  mm_InitGenesis_runs order data f c : mm_InitGenesis order data f c = init_modules data f order [] c;
}.

(** ** The callbacks of the application *)
Section app.
Context `{!KVStore W, !WasmKeeper W, !WasmVM W, !PoEParamStore W, !HistoryCodec, !ModuleManager (App W)}.
Variable commit_events : list Event → list Event → list Event.
(** The modules of the SDK. *)
Variables (other_BeginBlock : AppModuleName → M W ()) (other_EndBlock : AppModuleName → M W (list AbciValidatorUpdate)).

(** [EndBlock] of x/poe: the embedded contracts are released first. *)
Definition poe_EndBlock : M (App W) (list AbciValidatorUpdate) :=
  modify (λ a, mkApp (keepers a) (ClearEmbeddedContracts (embedded a))) ;;
  on_store (PoEServer.EndBlocker commit_events).

(** [EndBlock] of x/twasm returns no validator updates, that of x/globalfee does nothing. *)
Definition twasm_EndBlock : M (App W) (list AbciValidatorUpdate) :=
  on_store (TwasmAbci.EndBlocker commit_events).
Definition globalfee_EndBlock : M (App W) (list AbciValidatorUpdate) := mret [].

Definition module_EndBlock (m : AppModuleName) : M (App W) (list AbciValidatorUpdate) :=
  match m with
  | poe_ModuleName => poe_EndBlock
  | twasm_ModuleName => twasm_EndBlock
  | globalfee_ModuleName => globalfee_EndBlock
  | _ => on_store (other_EndBlock m)
  end.

Definition app_EndBlocker : M (App W) (list AbciValidatorUpdate * list Event) := mm_EndBlock OrderEndBlockers module_EndBlock.

Definition poe_BeginBlock (votes : list VoteInfo) (height : Z) (header : Header) : M (App W) () :=
  on_keepers (PoEServer.BeginBlocker votes height header).
Definition twasm_BeginBlock (byzantine : list AbciEvidence) : M (App W) () :=
  on_store (TwasmAbci.BeginBlocker commit_events byzantine).

Definition module_BeginBlock (votes : list VoteInfo) (height : Z) (header : Header) (byzantine : list AbciEvidence)
    (m : AppModuleName) : M (App W) () :=
  match m with
  | poe_ModuleName => poe_BeginBlock votes height header
  | twasm_ModuleName => twasm_BeginBlock byzantine
  | globalfee_ModuleName => mret ()
  | _ => on_store (other_BeginBlock m)
  end.

Definition app_BeginBlocker (votes : list VoteInfo) (height : Z) (header : Header) (byzantine : list AbciEvidence) :
    M (App W) (() * list Event) :=
  mm_BeginBlock OrderBeginBlockers (module_BeginBlock votes height header byzantine).
End app.

(** ** The begin of a block *)
Section begin_of_block.
Context `{!KVStore W, !WasmKeeper W, !WasmVM W, !PoEParamStore W, !HistoryCodec, !ModuleManager (App W),
          !ModuleManagerLaws (App W)}.
Variable commit_events : list Event → list Event → list Event.
Variable other_BeginBlock : AppModuleName → M W ().

Lemma prune_votes fuel i (c c' : Ctx (KState W)) :
  prune fuel i c = (Ok (), c') → validatorVotes (store c') = validatorVotes (store c).
Proof.
  revert i c. induction fuel as [|n IH]; intros i c; cbn; [by intros [= <-]|].
  case_match; [by intros [= <-]|]. unfold mbind, M_bind. destruct (GetHistoricalInfo _ _) as [[hi|]|e|e]; try done.
  - cbn. intros Hr%IH. by rewrite Hr.
  - by intros [= <-].
Qed.

Lemma BeginBlocker_votes votes h header (c c' : Ctx (KState W)) :
  PoEServer.BeginBlocker votes h header c = (Ok (), c') → validatorVotes (store c') = votes.
Proof.
  unfold PoEServer.BeginBlocker, TrackHistoricalInfo.
  intros ([] & c1 & [= <-] & (n & c2 & Hn & Hrun)%M_bind_ok)%M_bind_ok. injection Hn as Hn <-.
  apply M_bind_ok in Hrun as ([] & c3 & Hp%prune_votes & Hrun). cbn in Hp.
  destruct (n =? 0); [by apply mret_ok in Hrun as [_ ->]|]. injection Hrun as <-. done.
Qed.

Lemma on_store_keeps {A} (m : M W A) (c c' : Ctx (App W)) r :
  on_store m c = (Ok r, c') →
  validatorVotes (keepers (store c')) = validatorVotes (keepers (store c)) ∧ embedded (store c') = embedded (store c).
Proof. unfold on_store, on_keepers, on_world. cbn. destruct (m _) as [o c1]. by intros [= -> <-]. Qed.

(** The votes that contracts can ask for during a block are those of its commit, from the
    callbacks of the begin blocker on. *)
Lemma app_BeginBlocker_votes votes h header byzantine (c c' : Ctx (App W)) r :
  app_BeginBlocker commit_events other_BeginBlock votes h header byzantine c = (Ok r, c') →
  validatorVotes (keepers (store c')) = votes.
Proof.
  unfold app_BeginBlocker. rewrite mm_BeginBlock_runs. unfold with_own_events.
  set (f := module_BeginBlock _ _ _ _ _ _).
  assert (∀ m c c', f m c = (Ok (), c') →
    if decide (m = poe_ModuleName) then validatorVotes (keepers (store c')) = votes
    else validatorVotes (keepers (store c')) = validatorVotes (keepers (store c))) as Hf.
  { intros m d d'. destruct m; cbn; try (by intros [? _]%on_store_keeps); [|by intros [= <-]].
    unfold poe_BeginBlock, on_keepers. destruct (PoEServer.BeginBlocker _ _ _ _) as [o d1] eqn:E.
    intros [= -> <-]. by apply BeginBlocker_votes in E. }
  assert (∀ l c c', forM l f c = (Ok (), c') →
    if decide (poe_ModuleName ∈ l) then validatorVotes (keepers (store c')) = votes
    else validatorVotes (keepers (store c')) = validatorVotes (keepers (store c))) as Hl.
  { induction l as [|m l IH]; intros d d'; cbn [forM]; [by intros [_ ->]%mret_ok|].
    intros ([] & d1 & Hm%Hf & Hrun%IH)%M_bind_ok.
    destruct (decide (m = poe_ModuleName)) as [->|Hne].
    - rewrite decide_True by left. case_decide; congruence.
    - destruct (decide (poe_ModuleName ∈ l)); [by rewrite decide_True by (by right)|].
      rewrite decide_False by (by intros [?|?]%elem_of_cons). congruence. }
  destruct (forM OrderBeginBlockers f _) as [[[]|e|e] c1] eqn:E; [|done..]. intros [= _ <-].
  apply Hl in E. exact E.
Qed.
End begin_of_block.

(** ** The end of a block *)
Section end_of_block.
Context `{!KVStore W, !KVLaws W, !WasmKeeper W, !WasmLaws W, !Bech32, !WasmVM W, !WasmVMLaws W,
          !ModuleManager (App W), !ModuleManagerLaws (App W)}.
Variable commit_events : list Event → list Event → list Event.
Variable other_EndBlock : AppModuleName → M W (list AbciValidatorUpdate).
(** The end blockers of the other modules may fail (x/crisis does so on a broken invariant). When they return they have no
    validator updates and leave the registrations of x/twasm as they are. *)
Hypothesis others_quiet : ∀ m c r c',
  priv_inv (store c) → other_EndBlock m c = (Ok r, c') → r = [] ∧ other_step (store c) (store c').

(** What the two modules promise: the contracts registered for the end of the block are
    called first, then the contract that updates the validator set. *)
Definition end_block_spec (c : Ctx W) : list AbciValidatorUpdate * Ctx W :=
  let c1 := foldl (callback_effect commit_events (JObj [("end_block", JObj [])])) c
              (subscribers (store c) PrivilegeTypeEndBlock) in
  match subscribers (store c1) PrivilegeTypeValidatorSetUpdate with
  | [] => ([], c1)
  | a :: _ =>
      match CallEndBlockWithValidatorUpdate a (mkCtx (store c1) []) with
      | (Ok diff, cached) => (diff, mkCtx (store cached) (commit_events (events c1) (events cached)))
      | _ => ([], c1)
      end
  end.

Lemma other_step_refl w : priv_inv w → other_step w w.
Proof.
  intros Hinv. split; [by intros k Hk|]. split; [done|]. intros a i Hi.
  destruct (inv_details w Hinv a i Hi) as (d & Hr & _). exists d. split; [done|]. left.
  unfold details_of. rewrite Hi. cbn. by rewrite Hr.
Qed.

Lemma callbacks_steps msg (l : list AccAddress) (c : Ctx W) :
  rtc priv_step (store c) (store (foldl (callback_effect commit_events msg) c l)).
Proof.
  revert c. induction l as [|a l IH]; intros c; [done|]. cbn. etrans; [|apply IH]. unfold callback_effect.
  destruct (Sudo a msg _) as [[r|e|e] cached] eqn:E; [|done..]. by apply (Sudo_steps _ _ _ _ _ E).
Qed.

Lemma CallEndBlock_steps a (c c' : Ctx W) diff :
  CallEndBlockWithValidatorUpdate a c = (Ok diff, c') → rtc priv_step (store c) (store c').
Proof.
  intros (r & c1 & Hs%wrapM_ok & Hrest)%M_bind_ok. apply Sudo_steps in Hs.
  assert (c' = c1) as ->; [|done]. repeat case_match; try (by apply mret_ok in Hrest as [_ ->]);
    by apply M_bind_ok in Hrest as (? & ? & [? ->]%lift_ok & [? ->]%lift_ok).
Qed.

Lemma end_block_spec_steps (c : Ctx W) : rtc priv_step (store c) (store (end_block_spec c).2).
Proof.
  unfold end_block_spec. etrans;
    [apply (callbacks_steps (JObj [("end_block", JObj [])]) (subscribers (store c) PrivilegeTypeEndBlock))|].
  destruct (subscribers _ PrivilegeTypeValidatorSetUpdate) as [|a l]; [done|].
  destruct (CallEndBlockWithValidatorUpdate a _) as [[d|e|e] cached] eqn:E; [|done..].
  by apply CallEndBlock_steps in E.
Qed.

(** The run of a block is stopped by a module of the SDK, in a state that such modules have reached. *)
Definition stopped_by_other (w0 : W) (f : failure) : Prop :=
  ∃ m w es, own_module m = false ∧ rtc other_step w0 w ∧ failure_of (other_EndBlock m (mkCtx w es)).1 = Some f.

(** One module before x/twasm. *)
Lemma quiet_module m (c : Ctx (App W)) :
  m ≠ poe_ModuleName → m ≠ twasm_ModuleName → priv_inv (world (keepers (store c))) →
  ends (module_EndBlock commit_events other_EndBlock m) c
    (λ r c', r = [] ∧ ∃ w es, rtc other_step (world (keepers (store c))) w ∧ priv_inv w ∧
       c' = mkCtx (mkApp (set_world w (keepers (store c))) (embedded (store c))) es)
    (stopped_by_other (world (keepers (store c)))).
Proof using others_quiet.
  destruct c as [[[w0 cache votes] emb] es0]. cbn [store keepers world embedded]. intros Hp Ht Hinv.
  destruct (decide (m = globalfee_ModuleName)) as [->|Hg].
  { apply ends_ret. split; [done|]. by exists w0, es0. }
  assert (module_EndBlock commit_events other_EndBlock m = on_store (other_EndBlock m) ∧ own_module m = false) as [-> Hown]
    by (by destruct m).
  pose proof (others_quiet m (mkCtx w0 es0)) as Hq.
  unfold ends, on_store, on_keepers, on_world. cbn [store events keepers world].
  destruct (other_EndBlock m (mkCtx w0 es0)) as [[r|e|p] [w es]] eqn:Hrun; cbn.
  - destruct (Hq r (mkCtx w es) Hinv eq_refl) as [-> Hs]. split; [done|]. exists w, es.
    split; [by apply rtc_once|]. split; [by eapply other_step_inv|done].
  - exists m, w0, es0. by rewrite Hrun.
  - exists m, w0, es0. by rewrite Hrun.
Qed.

(** The modules before x/twasm make steps of their own, or one of them fails. *)
Lemma quiet_prefix (l order : list AppModuleName) (c : Ctx (App W)) :
  poe_ModuleName ∉ l → twasm_ModuleName ∉ l → priv_inv (world (keepers (store c))) →
  (∃ f, failure_of (end_blocks (module_EndBlock commit_events other_EndBlock) (l ++ order) [] c).1 = Some f ∧
     stopped_by_other (world (keepers (store c))) f) ∨
  ∃ w es, rtc other_step (world (keepers (store c))) w ∧
    end_blocks (module_EndBlock commit_events other_EndBlock) (l ++ order) [] c =
    end_blocks (module_EndBlock commit_events other_EndBlock) order []
      (mkCtx (mkApp (set_world w (keepers (store c))) (embedded (store c))) es).
Proof using others_quiet.
  revert c. induction l as [|m l IH]; intros c Hp Ht Hinv.
  { right. destruct c as [[[w0 cache votes] emb] es0]. by exists w0, es0. }
  apply not_elem_of_cons in Hp as [Hp Hpl], Ht as [Ht Htl].
  pose proof (quiet_module m c ltac:(done) ltac:(done) Hinv) as Hm. unfold ends in Hm.
  cbn [app end_blocks]. unfold mbind, M_bind.
  destruct (module_EndBlock commit_events other_EndBlock m c) as [[r|e|p] c1]; [|left; by eexists..].
  destruct Hm as (-> & w & es & Hs & Hw & ->). rewrite decide_True by done.
  destruct (IH (mkCtx (mkApp (set_world w (keepers (store c))) (embedded (store c))) es) Hpl Htl Hw)
    as [(f & Hf & m' & w' & es' & Hown & Hs' & Hfail)|(w' & es' & Hs' & Hrest)].
  - left. exists f. split; [done|]. exists m', w', es'. split_and!; [done|by etrans|done].
  - right. exists w', es'. split; [by etrans|]. exact Hrest.
Qed.

(** x/twasm and x/poe, after the other modules. *)
Lemma last_two w es (k : KState W) emb :
  priv_inv w →
  end_blocks (module_EndBlock commit_events other_EndBlock) [twasm_ModuleName; poe_ModuleName] []
    (mkCtx (mkApp (set_world w k) emb) es) =
  let '(updates, c') := end_block_spec (mkCtx w es) in
  (Ok updates, mkCtx (mkApp (set_world (store c') k) (ClearEmbeddedContracts emb)) (events c')).
Proof.
  intros Hw. unfold end_block_spec. cbn [end_blocks module_EndBlock store].
  unfold twasm_EndBlock, poe_EndBlock, on_store, on_keepers, on_world, modify, mbind, M_bind, set_world.
  cbn [store events keepers world embedded contractAddrCache validatorVotes]. rewrite EndBlocker_run by done.
  pose proof (callbacks_steps (JObj [("end_block", JObj [])]) (subscribers w PrivilegeTypeEndBlock) (mkCtx w es)) as Hc1.
  cbn [store events keepers world embedded contractAddrCache validatorVotes].
  destruct (foldl _ _ _) as [w1 es1]. cbn [store events] in *. rewrite decide_True by done.
  rewrite poe_EndBlocker_run by (by eapply priv_steps_inv).
  cbn [store events keepers world embedded contractAddrCache validatorVotes].
  destruct (subscribers w1 _) as [|a l]; [done|].
  destruct (CallEndBlockWithValidatorUpdate a _) as [[[|d ds]|e|e] [w2 es2]]; cbn; done.
Qed.

(** C7: In a state where the registrations of contracts agree with their extensions, the end of a block fails only when the
    end blocker of a module of the SDK fails, with the failure of that module:
    neither x/twasm nor x/poe nor any contract can make it fail. When it returns, the contracts registered for the end of the
    block were called after the modules of the SDK in the order of their registration, then the one contract that
    updates the validator set; its diff, seen after the effects of the others, is the only
    validator update of the block. Failing contracts leave no trace, the registrations stay
    consistent, and the keepers' memory is kept while the embedded contracts are released. The modules of the SDK are
    assumed to return no validator updates, and to leave the registrations as they are. *)
Theorem app_EndBlocker_spec (c : Ctx (App W)) :
  priv_inv (world (keepers (store c))) →
  ends (app_EndBlocker commit_events other_EndBlock) c
    (λ r c1, ∃ w es updates c', rtc other_step (world (keepers (store c))) w ∧
       end_block_spec (mkCtx w es) = (updates, c') ∧ priv_inv (store c') ∧ r = (updates, events c') ∧
       c1 = mkCtx (mkApp (set_world (store c') (keepers (store c))) (ClearEmbeddedContracts (embedded (store c)))) (events c))
    (λ f, ∃ m w es, own_module m = false ∧ rtc other_step (world (keepers (store c))) w ∧
       failure_of (other_EndBlock m (mkCtx w es)).1 = Some f).
Proof using All.
  intros Hinv. unfold app_EndBlocker, ends. rewrite mm_EndBlock_runs. unfold with_own_events.
  destruct (quiet_prefix (take 13 OrderEndBlockers) [twasm_ModuleName; poe_ModuleName] (mkCtx (store c) []))
    as [(f & Hf & Hstop)|(w & es & Hs & Hrun)]; [by apply (bool_decide_unpack _)..|done| |].
  { change (take 13 OrderEndBlockers ++ _) with OrderEndBlockers in Hf.
    destruct (end_blocks _ OrderEndBlockers [] _) as [[r|e|p] c1]; [done|injection Hf as <-; exact Hstop..]. }
  cbn [take OrderEndBlockers app store] in Hrun, Hs. unfold OrderEndBlockers. rewrite Hrun. clear Hrun.
  assert (priv_inv w) as Hw.
  { eapply priv_steps_inv; [|exact Hinv]. eapply rtc_subrel; [|exact Hs]. intros x y. apply step_other. }
  pose proof (end_block_spec_steps (mkCtx w es)) as Hsteps.
  rewrite (last_two w es (keepers (store c)) (embedded (store c)) Hw).
  destruct (end_block_spec (mkCtx w es)) as [updates c'] eqn:Hspec. cbn. exists w, es, updates, c'.
  split_and!; [done|done|by eapply priv_steps_inv|done|done].
Qed.
End end_of_block.

(** ** A block of the reference chain *)
#[export] Instance Ref_manager S : ModuleManager S := {
  mm_BeginBlock order f := with_own_events (forM order f);
  mm_EndBlock order f := with_own_events (end_blocks f order []);
  mm_InitGenesis order data f := init_modules data f order [];
}.
#[export] Instance Ref_manager_laws S : ModuleManagerLaws S.
Proof. by constructor. Qed.

Definition idle (_ : AppModuleName) : M World (list AbciValidatorUpdate) := mret [].
Definition app3 : App World := mkApp (mkKState w3 ∅ []) (mkEmbedded "e" "s" "m" "v" "c" "o" "p" "v" "a").

(** x/crisis finds a broken invariant. *)
Definition crisis (m : AppModuleName) : M World (list AbciValidatorUpdate) :=
  if decide (m = crisistypes_ModuleName) then panic "invariant broken" else mret [].
Lemma crisis_stops : (app_EndBlocker (λ old new, old ++ new) crisis (mkCtx app3 [])).1 = Panic "invariant broken".
Proof. reflexivity. Qed.

(** C7: the end of a block on the chain [w3], where alice and carol are called at the end of
    blocks and bob updates the validator set; no module of the SDK fails. *)
Lemma app_EndBlocker_spec_witness :
  ∃ r c', app_EndBlocker (λ old new, old ++ new) idle (mkCtx app3 []) = (Ok r, c') ∧
    embedded (store c') = mkEmbedded "" "" "" "" "" "" "" "" "".
Proof.
  destruct (ends_returns _ _ _ _ (app_EndBlocker_spec (λ old new, old ++ new) idle
    ltac:(intros m c r c' Hc [= <- <-]; split; [done|by apply other_step_refl]) (mkCtx app3 []) w3_inv))
    as (r & c' & Hrun & w & es & u & c1 & _ & _ & _ & _ & ->).
  - by intros f (m & w & es & _ & _ & Hf).
  - exists r. eexists. split; [exact Hrun|]. reflexivity.
Defined.
