(* ===== verification/AppGenesis.v ===== *)
(** The start of the application (app/app.go, app/snapshotter.go and the [InitGenesis]
    of the modules' module.go): from a genesis file, from the store of a node that was
    stopped, and from a snapshot.

    The state of the application is that of [AppBlock]. The codec that reads the
    state of a module from the genesis file is generated code, the other modules belong
    to the SDK: parameters. *)
From stdpp Require Import base list strings gmap sets sorting relations.
From Stdlib Require Import ZArith Lia.
From S2P Require Import Prelude ProgramLogic Sdk Slice Json Privilege TwasmMsgs Wasm TwasmKeeper TwasmHandler TwasmSteps TwasmAbci TwasmGenesis GlobalFee GoTime PoETypes PoEMsgs PoEKeeper PoEContractIO PoEValset PoEAdapters PoEServer PoEQueries PoEBootstrap AppBlock.
Open Scope Z_scope.

(** The keys of the genesis state. *)
Definition module_name (m : AppModuleName) : string :=
  match m with
  | upgradetypes_ModuleName => "upgrade" | capabilitytypes_ModuleName => "capability" | authtypes_ModuleName => "auth"
  | banktypes_ModuleName => "bank" | crisistypes_ModuleName => "crisis" | authz_ModuleName => "authz"
  | feegrant_ModuleName => "feegrant" | paramstypes_ModuleName => "params" | vestingtypes_ModuleName => "vesting"
  | ibchost_ModuleName => "ibc" | ibctransfertypes_ModuleName => "transfer" | icatypes_ModuleName => "interchainaccounts"
  | poe_ModuleName => "poe" | twasm_ModuleName => "wasm" | globalfee_ModuleName => "globalfee"
  end.
Lemma module_name_inj m1 m2 : module_name m1 = module_name m2 → m1 = m2.
Proof. by destruct m1, m2. Qed.

Section init.
Context `{!KVStore W, !PoEParamStore W, !HistoryCodec, !WasmKeeper W, !WasmVM W, !WasmGenesis W, !ContractOps W,
  !ContractCalls W, !FeeParams W, !Bech32, !SdkMath, !SdkText, !SdkDecimal, !SdkCoins, !ForeignDecoders,
  !ModuleManager (App W)}.
Variable uint64_of_negative : Z → Z.
Context {Tx : Type} (TxJSONDecoder : json_bytes → outcome Tx) (Tx_ValidateBasic : Tx → outcome ())
  (TxEncoder : Tx → outcome bytes) (deliverTx : bytes → M (KState W) bool).
(** [MustUnmarshalJSON], which panics, for the states of the three modules. *)
Variables (poe_Unmarshal : json → outcome PoEGenesisState) (twasm_Unmarshal : json → outcome GenesisState)
  (globalfee_Unmarshal : json → outcome (list DecCoin)).
(** [InitGenesis] of the modules of the SDK, and [SetModuleVersionMap] of x/upgrade. *)
Variables (other_InitGenesis : AppModuleName → json → M W (list AbciValidatorUpdate)) (SetModuleVersionMap : M W ()).
(** How many pages of validators are read when a dump is imported; it is a panic here
    when there are more. *)
Variable fuel : nat.

(** ** The genesis of the modules *)
Definition poe_InitGenesis (data : json) : M (App W) (list AbciValidatorUpdate) := λ c,
  on_keepers
    (genesisState ← lift (poe_Unmarshal data);
     updates ← AppModule_InitGenesis uint64_of_negative (embedded (store c)) TxJSONDecoder Tx_ValidateBasic TxEncoder
                 deliverTx fuel genesisState;
     match updates with
     | Some u => mret u
     | None => panic "out of fuel"
     end) c.

Definition twasm_InitGenesis (data : json) : M (App W) (list AbciValidatorUpdate) :=
  on_store (genesisState ← lift (twasm_Unmarshal data); must (TwasmGenesis.InitGenesis genesisState)).

Definition globalfee_InitGenesis (message : json) : M (App W) (list AbciValidatorUpdate) :=
  on_store (genesisState ← lift (globalfee_Unmarshal message); GlobalFee.InitGenesis genesisState ;; mret []).

Definition module_InitGenesis (m : AppModuleName) (data : json) : M (App W) (list AbciValidatorUpdate) :=
  match m with
  | poe_ModuleName => poe_InitGenesis data
  | twasm_ModuleName => twasm_InitGenesis data
  | globalfee_ModuleName => globalfee_InitGenesis data
  | _ => on_store (other_InitGenesis m data)
  end.

(** [req.AppStateBytes] comes decoded: [None] when [tmjson.Unmarshal] fails. *)
Definition app_InitChainer (appState : option (gmap string json)) : M (App W) (list AbciValidatorUpdate) :=
  match appState with
  | None => panic "unmarshal genesis state"
  | Some genesisState =>
      on_store SetModuleVersionMap ;;
      mm_InitGenesis OrderInitGenesis (λ m, genesisState !! module_name m) module_InitGenesis
  end.
End init.

(** ** A restarted node and a restored snapshot *)
Section load.
Context `{!KVStore W}.

(** [NewPetriApp] with [loadLatest]: the keepers have an empty memory, then the cache is
    filled from the store [w]; the embedded contracts are there again. Pinning the codes
    in the virtual machine does not change the store: [InitializePinnedCodes]. *)
Definition NewPetriApp_loadLatest (InitializePinnedCodes : W → outcome ()) (code : EmbeddedContracts) (w : W) :
    outcome (App W) :=
  match InitializePinnedCodes w with
  | Ok _ =>
      let '(o, c) := InitContractAddressCache (mkCtx (mkKState w ∅ []) []) in
      o ;; Ok (mkApp (store c) code)
  | _ => Panic "os.Exit: failed initialize pinned codes"
  end.

(** [PetriSnapshotter.Restore]: wasmd restores the codes of the contracts from a stream,
    after the stores were restored; when that works the cache is filled. *)
Definition Restore {Item} (wasm_Restore : M W Item) : M (App W) Item :=
  item ← on_store wasm_Restore;
  on_keepers InitContractAddressCache ;;
  mret item.
End load.
