(* ===== verification/AppChain.v ===== *)
(** The invariant of the whole chain: the invariants of x/twasm and x/poe together, every PoE contract in the
    store, and parameters that can be read; and that the genesis block establishes it.

    [world_inv] is the invariant of the store, [chain_inv] that of the store and the
    memory of the keepers. The steps of a node are in AppLife.v. *)
From stdpp Require Import base list strings gmap sets sorting relations.
From Stdlib Require Import ZArith Lia.
From S2P Require Import Prelude ProgramLogic Sdk RefStore Slice Json Privilege TwasmMsgs Wasm TwasmKeeper TwasmHandler TwasmSteps RefWorld TwasmProps TwasmAbci TwasmGenesis GlobalFee GoTime PoETypes PoEMsgs PoETypesProps PoEKeeper PoEKeeperProps PoEContractIO PoEValset PoEServer PoEServerProps PoEAdapters PoEQueries PoEBootstrap PoEBootstrapProps AppBlock AppGenesis.
Open Scope Z_scope.

(** ** Relations on the store *)

(** Steps of the registrations, from a consistent state. *)
Definition psteps `{KVStore W, WasmKeeper W, Bech32} (w w' : W) : Prop := priv_inv w → rtc priv_step w w'.
(** The parameter that the begin blocker of x/poe needs can be read. *)
Definition params_ok `{PoEParamStore W} (w : W) : Prop := is_ok (param_HistoricalEntries w) = true.
(** What contracts and other modules do to the store. *)
Definition wstep `{KVStore W, WasmKeeper W, Bech32, PoEParamStore W} : relation W :=
  both (both same_poe_store (keeps params_ok)) psteps.

(** What wasmd and x/params promise beyond [BootstrapLaws]: the registrations change only
    through the messages contracts dispatch, parameters are validated when they are set,
    every module keeps to its own store, and no address is empty. *)
Class ChainLaws (W : Type) `{KVStore W, WasmKeeper W, Bech32, WasmVM W, ContractOps W, ContractCalls W, PoEParamStore W} := {
  Create_steps creator wasm : respects psteps (Create creator wasm);
  Instantiate_steps id creator admin msg label deposit : respects psteps (Instantiate id creator admin msg label deposit);
  Execute_steps addr sender msg coins : respects psteps (Execute addr sender msg coins);
  UpdateContractAdmin_steps addr caller new : respects psteps (UpdateContractAdmin addr caller new);
  Sudo_params addr msg : respects (keeps params_ok) (Sudo addr msg);
  Execute_params addr sender msg coins : respects (keeps params_ok) (Execute addr sender msg coins);
  SetParamSet_chain p c c' : poe_SetParamSet p c = (Ok (), c') →
    params_ok (store c') ∧ same_index (store c) (store c') ∧ same_contracts (store c) (store c') ∧
    same_poe_store (store c) (store c');
  params_poe_set k v w : params_ok w → params_ok (kv_set poe_StoreKey k v w);
  params_poe_delete k w : params_ok w → params_ok (kv_delete poe_StoreKey k w);
  contracts_poe_set k v w : same_contracts w (kv_set poe_StoreKey k v w);
  contracts_poe_delete k w : same_contracts w (kv_delete poe_StoreKey k w);
  Instantiate_address id creator admin msg label deposit c a c' :
    Instantiate id creator admin msg label deposit c = (Ok a, c') → a ≠ "";
  bech32_nonempty s a : AccAddressFromBech32 s = Ok a → a ≠ "";
}.

Section invariant.
Context `{!KVStore W, !KVLaws W, !PoEParamStore W, !HistoryCodec, !HistoryCodecLaws, !WasmKeeper W, !WasmLaws W, !Bech32}.
Implicit Types (w : W) (k : KState W).

#[export] Instance psteps_preorder : PreOrder (psteps (W:=W)).
Proof.
  split; [by intros w _|]. intros x y z Hxy Hyz Hx. etrans; [by apply Hxy|].
  apply Hyz. by apply (priv_steps_inv x y); [apply Hxy|].
Qed.
#[export] Instance wstep_preorder : PreOrder (wstep (W:=W)).
Proof. unfold wstep. apply _. Qed.

Lemma frame_psteps w w' : same_index w w' → same_contracts w w' → psteps w w'.
Proof.
  intros Hx Hc Hinv. apply rtc_once, TwasmSteps.step_other. split; [done|]. split.
  - intros a d. by rewrite (details_of_same w w').
  - intros a i. rewrite Hc. intros Hi. destruct (inv_details w Hinv a i Hi) as (d & Hr & _). exists d. split; [done|].
    left. unfold details_of. rewrite Hi. cbn. by rewrite Hr.
Qed.
Lemma other_psteps w w' : other_step w w' → psteps w w'.
Proof. intros Hs _. by apply rtc_once, TwasmSteps.step_other. Qed.

(** Every PoE contract has an address. *)
Definition complete w : Prop := ∀ t, t ∈ contract_types → is_Some (stored w t).

(** The store at genesis, before the parameters are set and the contracts verified. *)
Definition early_inv w : Prop := priv_inv w ∧ registry_ok w ∧ readable w.
Definition world_inv w : Prop := early_inv w ∧ complete w ∧ params_ok w.
Definition chain_inv k : Prop := world_inv (world k) ∧ cache_ok k.
Definition start_inv k : Prop := early_inv (world k) ∧ cache_ok k.

Lemma early_same w w' : same_poe_store w w' → psteps w w' → early_inv w → early_inv w'.
Proof.
  intros Hp Hs (Hi & Hr & Hh). split_and!.
  - by apply (priv_steps_inv w w'); [apply Hs|].
  - intros s a. rewrite Hp. apply Hr.
  - intros i v. unfold info_at. rewrite Hp. apply Hh.
Qed.
Lemma complete_same w w' : same_poe_store w w' → complete w → complete w'.
Proof. intros Hp Hc t Ht. unfold stored. rewrite Hp. by apply Hc. Qed.
Lemma cache_same k w' : same_poe_store (world k) w' → cache_ok k → cache_ok (set_world w' k).
Proof. intros Hp Hc t a Ha. destruct (Hc t a Ha) as [Ht Hs]. split; [done|]. unfold stored. cbn. by rewrite Hp. Qed.

Lemma wstep_inv k w' : wstep (world k) w' → chain_inv k → chain_inv (set_world w' k).
Proof.
  intros [[Hp Hk] Hs] [(He & Hc & Hok) Hcache]. split; [|by apply cache_same]. cbn. split_and!.
  - by eapply early_same.
  - by eapply complete_same.
  - by apply Hk.
Qed.

(** In such a state every contract is found. *)
Lemma complete_lookup k t :
  chain_inv k → t ∈ contract_types → ∃ addr, GetPoEContractAddress k t = Ok addr ∧ stored (world k) t = Some addr.
Proof.
  intros [[(_ & Hr & _) [Hc _]] Hcache] Ht. destruct (Hc t Ht) as [b Hb]. exists b. split; [|done].
  unfold GetPoEContractAddress. rewrite (proj2 (contract_type_valid t) Ht). cbn.
  destruct (contractAddrCache k !! t) as [a|] eqn:E; [apply Hcache in E as [_ E]; congruence|].
  pose proof Hb as Hb'. unfold stored in Hb'. rewrite Hb'. cbn. rewrite decide_False; [done|].
  by destruct (Hr (PoEContractType_String t) b Hb).
Qed.

(** Calls on the store, seen from the keepers. *)
Lemma on_world_ok {A} (m : M W A) (c c' : Ctx (KState W)) a :
  on_world m c = (Ok a, c') →
  ∃ c1, m (mkCtx (world (store c)) (events c)) = (Ok a, c1) ∧ store c' = set_world (store c1) (store c).
Proof. unfold on_world. destruct (m _) as [o c1]. intros [= -> <-]. by exists c1. Qed.
Lemma on_world_chain {A} (m : M W A) : respects wstep m → respects (keeps chain_inv) (on_world m).
Proof.
  intros Hm c a c' (c1 & Hrun & ->)%on_world_ok. intros Hinv. apply wstep_inv; [|done]. exact (Hm _ _ _ Hrun).
Qed.
Lemma on_world_start {A} (m : M W A) :
  respects same_poe_store m → respects psteps m → respects (keeps start_inv) (on_world m).
Proof.
  intros Hp Hs c a c' (c1 & Hrun & ->)%on_world_ok. intros [He Hc]. specialize (Hp _ _ _ Hrun). specialize (Hs _ _ _ Hrun).
  cbn in Hp, Hs. split; [by eapply early_same|by apply cache_same].
Qed.
End invariant.

(** ** The genesis block *)
Section genesis.
Context `{!KVStore W, !KVLaws W, !PoEParamStore W, !HistoryCodec, !HistoryCodecLaws, !WasmKeeper W, !WasmLaws W, !Bech32,
  !WasmVM W, !WasmVMLaws W, !ContractOps W, !ContractCalls W, !BootstrapLaws W, !ChainLaws W,
  !SdkMath, !SdkText, !SdkDecimal, !SdkCoins, !ForeignDecoders}.
Implicit Types (w : W) (k : KState W).

Lemma Sudo_psteps a m : respects psteps (Sudo a m).
Proof using WasmVMLaws0. intros c r c' Hrun _. by apply (Sudo_steps _ _ _ _ _ Hrun). Qed.
Lemma PinCode_psteps id : respects psteps (PinCode id).
Proof using KVLaws0 WasmLaws0. intros c [] c' [Hx Hc]%PinCode_frame. by apply frame_psteps. Qed.
#[local] Hint Resolve Sudo_psteps PinCode_psteps Create_steps Instantiate_steps Execute_steps UpdateContractAdmin_steps : respects.

Lemma SetPrivileged_psteps a : respects psteps (SetPrivileged a).
Proof using WasmVMLaws0. intros c [] c' Hrun _. by apply (SetPrivileged_steps _ _ _ Hrun). Qed.
Lemma doExecute_psteps a msg sender coins : respects psteps (doExecute a msg sender coins).
Proof using All. unfold doExecute. respects_solve. Qed.
#[local] Hint Resolve SetPrivileged_psteps doExecute_psteps SetPrivileged_frames doExecute_frames : respects.

(** A contract address is set. *)
Lemma set_address_start t a : t ∈ contract_types → a ≠ "" → respects (keeps start_inv) (SetPoEContractAddress t a).
Proof using All.
  intros Ht Ha [k evs] [] c' Hrun. cbn. intros [(Hi & Hr & Hh) Hc].
  destruct (set_inv _ _ _ _ _ Ht Ha Hrun (conj Hr Hc)) as [Hr' Hc']. injection Hrun as <-.
  split; [|done]. split_and!; [|done|].
  - cbn. eapply priv_inv_frame; [|exact Hi]. apply same_privileges_frame; [apply contracts_poe_set|].
    intros s _. by apply kv_get_set_store.
  - intros i v. unfold info_at. cbn. rewrite kv_get_set_ne by apply address_history_key. apply Hh.
Qed.

Lemma instantiate_returns msg id creator admin init label deposit :
  returns (.≠ "") (instantiate (W:=W) msg id creator admin init label deposit).
Proof using ChainLaws0. intros c a c' (c1 & Hrun & _)%wrapM_ok%on_world_ok. by eapply Instantiate_address. Qed.
Lemma address_returns msg s : returns (.≠ "") (lift (W:=KState W) (wrap msg (AccAddressFromBech32 s))).
Proof using ChainLaws0. intros c a c' [Ha%wrap_ok _]%lift_ok. by eapply bech32_nonempty. Qed.

#[local] Hint Resolve set_address_start : respects.
#[local] Hint Extern 2 (_ ∈ contract_types) => apply (bool_decide_unpack _); vm_compute; exact I : respects.
#[local] Hint Extern 1 (respects (keeps start_inv) (on_world _)) => apply on_world_start : respects.
#[local] Hint Extern 1 (respects _ (reads _)) => apply respects_reads, _ : respects.

(** [respects_solve] that remembers that addresses are not empty. *)
Ltac start_solve :=
  repeat lazymatch goal with
  | |- respects _ (mbind _ (instantiate _ _ _ _ _ _ _)) =>
      eapply respects_bind_returns; [apply _| |apply instantiate_returns|intros ? ?]; [unfold instantiate|]
  | |- respects _ (mbind _ (lift (wrap _ (AccAddressFromBech32 _)))) =>
      eapply respects_bind_returns; [apply _| |apply address_returns|intros ? ?]
  | |- respects _ _ => respects_step
  end.

Lemma addToTrustedCircle_start addr ms sender deposit : respects (keeps start_inv) (addToTrustedCircle (W:=W) addr ms sender deposit).
Proof using All.
  unfold addToTrustedCircle, AddVotingMembersProposal, ExecuteProposal, deposit_escrow, DepositEscrow. start_solve.
Qed.
#[local] Hint Resolve addToTrustedCircle_start : respects.

Lemma Bootstrap_start uon code gs : respects (keeps start_inv) (BootstrapPoEContracts (W:=W) uon code gs).
Proof using All.
  unfold BootstrapPoEContracts, setAllPoEContractsInstanceMigrators. start_solve.
  all: unfold setup_engagement, setup_oversight_community, setup_stake, setup_mixer, setup_community_pool, setup_valset,
    setup_oc_proposals, setup_validator_voting, setup_arbiter_circle, setup_arbiter_voting, set_migrator, create, pin;
    start_solve.
Qed.

Lemma CallEndBlock_chain addr : respects (keeps chain_inv) (on_world (CallEndBlockWithValidatorUpdate (W:=W) addr)).
Proof using All.
  apply on_world_chain. unfold CallEndBlockWithValidatorUpdate.
  assert (respects wstep (Sudo addr enc_ValidatorUpdateSudoMsg)) as Hs.
  { apply respects_both; [apply respects_both|]; eauto using Sudo_frames, Sudo_params with respects. }
  respects_solve.
Qed.

(** *** The genesis of x/poe *)
Context {Tx : Type} (TxJSONDecoder : json_bytes → outcome Tx) (Tx_ValidateBasic : Tx → outcome ())
  (TxEncoder : Tx → outcome bytes) (deliverTx : bytes → M (KState W) bool).

(** The contracts of a dump have types. *)
Definition dump_typed (g : PoEGenesisState) : Prop :=
  ∀ cs, GetImportDump g = Some cs → Forall (λ v, ContractType v ∈ contract_types) cs.

Lemma validated_dump conv decode Any_String g : ValidateGenesis conv decode Any_String g = Ok () → dump_typed g.
Proof using Type.
  intros Hv cs Hcs. unfold ValidateGenesis in Hv. apply outcome_bind_ok in Hv as ([] & _ & Hv). rewrite Hcs in Hv.
  destruct (GetSeedContracts g); [done|]. apply wrap_ok, ImportDump_spec in Hv as [_ Hp].
  apply Forall_forall. intros v Hin. rewrite <-Hp. apply list_elem_of_fmap. by exists v.
Qed.

(** With the parameters set. *)
Definition ready_inv k : Prop := start_inv k ∧ params_ok (world k).
(** Genesis transactions are delivered by the application. *)
Hypothesis delivered : ∀ tx, respects (keeps ready_inv) (deliverTx tx).

Lemma setParams_ready p (c c' : Ctx (KState W)) : setParams p c = (Ok (), c') → start_inv (store c) → ready_inv (store c').
Proof using All.
  intros (c1 & (Hok & Hx & Hc & Hp)%SetParamSet_chain & ->)%on_world_ok [He Hcache]. cbn in *. split; [|done].
  split; [eapply early_same; [done|by apply frame_psteps|done]|by apply cache_same].
Qed.

Lemma import_address_ready v : ContractType v ∈ contract_types → respects (keeps ready_inv) (import_contract_address (W:=W) v).
Proof using All.
  intros Ht c [] c' Hrun [Hs Hok].
  assert (respects (keeps start_inv) (import_contract_address (W:=W) v)) as Himp
    by (unfold import_contract_address; start_solve).
  split; [by apply (Himp _ _ _ Hrun)|]. unfold import_contract_address in Hrun.
  apply M_bind_ok in Hrun as (a & c1 & [_ ->]%lift_ok & [= <-]). by apply params_poe_set.
Qed.

Lemma InitGenesis_ready g (c c' : Ctx (KState W)) :
  dump_typed g → PoEKeeper.InitGenesis TxJSONDecoder Tx_ValidateBasic TxEncoder deliverTx g c = (Ok (), c') →
  start_inv (store c) → ready_inv (store c').
Proof using All.
  intros Hd ([] & c1 & Hp & Hrun)%M_bind_ok Hs. apply setParams_ready in Hp as Hr; [|done]. revert Hr.
  enough (respects (keeps ready_inv) (match GetImportDump g with
    | Some contracts => forM contracts import_contract_address
    | None => match GetSeedContracts g with
              | Some seed => wrapM "deliver gentx" (DeliverGenTxs TxJSONDecoder Tx_ValidateBasic TxEncoder deliverTx (GenTxs seed))
              | None => mret () end end)) as Hrest by exact (Hrest _ _ _ Hrun).
  destruct (GetImportDump g) as [cs|] eqn:Ecs.
  - apply respects_forM; [apply _|]. intros v Hv. apply import_address_ready.
    specialize (Hd cs Ecs). rewrite Forall_forall in Hd. by apply Hd.
  - unfold DeliverGenTxs, deliver_gentx. respects_solve.
Qed.

Lemma address_stored k t a : t ∈ contract_types → cache_ok k → GetPoEContractAddress k t = Ok a → stored (world k) t = Some a.
Proof using Type.
  intros Ht Hc Ha. unfold GetPoEContractAddress in Ha. rewrite (proj2 (contract_type_valid t) Ht) in Ha. cbn in Ha.
  destruct (contractAddrCache k !! t) as [b|] eqn:E; [injection Ha as <-; by apply Hc in E as [_ ?]|].
  unfold stored. destruct (kv_get _ _ _) as [b|]; cbn in Ha; case_decide; by simplify_eq.
Qed.

Lemma verified_complete k : cache_ok k → VerifyPoEContracts k = Ok () → complete (world k).
Proof using Type.
  intros Hc Hv t Ht. unfold VerifyPoEContracts in Hv. apply outcome_bind_ok in Hv as (v & _ & Hv).
  apply outcome_bind_ok in Hv as ([] & Hall%verify_all_ok & _). rewrite Forall_forall in Hall.
  specialize (Hall t (proj2 (PoEContractTypes_elem t) Ht)). unfold verify_contract in Hall.
  apply outcome_bind_ok in Hall as (a & Ha & _). exists a. by apply address_stored.
Qed.

Lemma must_ok {V A} (m : M V A) c a c' : must m c = (Ok a, c') → m c = (Ok a, c').
Proof using Type. unfold must. by destruct (m c) as [[] ?]. Qed.

Lemma AppModule_InitGenesis_chain uon code fuel g (c c' : Ctx (KState W)) u :
  dump_typed g →
  AppModule_InitGenesis uon code TxJSONDecoder Tx_ValidateBasic TxEncoder deliverTx fuel g c = (Ok (Some u), c') →
  start_inv (store c) → chain_inv (store c') ∧ u ≠ [].
Proof using All.
  intros Hd ([] & c1 & Hboot & Hrun)%M_bind_ok Hs.
  apply M_bind_ok in Hrun as ([] & c2 & Hinit%must_ok & Hrun).
  apply M_bind_ok in Hrun as ([] & c3 & Hver & Hrun). apply must_ok in Hver. injection Hver as Hver <-.
  apply M_bind_ok in Hrun as (valset & c4 & Hlook & Hrun). apply must_ok in Hlook. injection Hlook as Hlook <-.
  assert (start_inv (store c1)) as Hs1.
  { destruct (GetSeedContracts g) as [seed|]; [|by injection Hboot as <-].
    apply M_bind_ok in Hboot as ([] & c5 & Htx & Hb%must_ok). case_decide; [done|]. injection Htx as <-.
    by apply (Bootstrap_start _ _ _ _ _ _ Hb). }
  destruct (InitGenesis_ready g c1 c2 Hd Hinit Hs1) as [[He Hc] Hok].
  assert (chain_inv (store c2)) as Hinv by (split; [split_and!; [done|by apply verified_complete|done]|done]).
  destruct (GetSeedContracts g) as [seed|].
  - apply M_bind_ok in Hrun as (set & c5 & Hcall%must_ok & Hrun). apply CallEndBlock_chain in Hcall. specialize (Hcall Hinv).
    destruct set; [done|]. by injection Hrun as <- <-.
  - unfold active_set in Hrun. destruct (IterateActiveValidators _ _ _ _ _ _) as [[[|x l]|e|e]|]; try done.
    by injection Hrun as <- <-.
Qed.
End genesis.

(** What a module does to the store that has nothing to do with contracts. *)
Definition untouched `{KVStore W, WasmKeeper W, PoEParamStore W} (w w' : W) : Prop :=
  same_index w w' ∧ same_contracts w w' ∧ same_poe_store w w' ∧ (params_ok w → params_ok w').
#[export] Instance untouched_preorder `{KVStore W, WasmKeeper W, PoEParamStore W} : PreOrder (untouched (W:=W)).
Proof.
  split; [by intros w; split_and!|]. intros x y z (Hx1 & Hc1 & Hp1 & Ho1) (Hx2 & Hc2 & Hp2 & Ho2). split_and!.
  - intros k Hk. by rewrite Hx2, Hx1.
  - intros a. by rewrite Hc2, Hc1.
  - by etrans.
  - auto.
Qed.

(** Nothing is stored yet. *)
Definition fresh `{KVStore W, WasmKeeper W} (w : W) : Prop :=
  (∀ k, kv_get w StoreKey (contractCallbacksSecondaryIndexPrefix +:+ k) = None) ∧
  (∀ a, GetContractInfo w a = None) ∧ (∀ k, kv_get w poe_StoreKey k = None).

Section init_chain.
Context `{!KVStore W, !KVLaws W, !PoEParamStore W, !HistoryCodec, !HistoryCodecLaws, !WasmKeeper W, !WasmLaws W, !Bech32,
  !WasmVM W, !WasmVMLaws W, !WasmGenesis W, !WasmGenesisLaws W, !ContractOps W, !ContractCalls W, !BootstrapLaws W,
  !ChainLaws W, !FeeParams W, !SdkMath, !SdkText, !SdkDecimal, !SdkCoins, !ForeignDecoders,
  !ModuleManager (App W), !ModuleManagerLaws (App W)}.
Context {Tx : Type} (TxJSONDecoder : json_bytes → outcome Tx) (Tx_ValidateBasic : Tx → outcome ())
  (TxEncoder : Tx → outcome bytes) (deliverTx : bytes → M (KState W) bool).
Variables (poe_Unmarshal : json → outcome PoEGenesisState) (twasm_Unmarshal : json → outcome GenesisState)
  (globalfee_Unmarshal : json → outcome (list DecCoin))
  (other_InitGenesis : AppModuleName → json → M W (list AbciValidatorUpdate)) (SetModuleVersionMap : M W ())
  (uon : Z → Z) (fuel : nat).

(** The modules keep to their stores. *)
Hypotheses (delivered : ∀ tx, respects (keeps ready_inv) (deliverTx tx))
  (others_untouched : ∀ m j, respects untouched (other_InitGenesis m j))
  (others_no_updates : ∀ m j, returns (.= []) (other_InitGenesis m j))
  (versions_untouched : respects untouched SetModuleVersionMap)
  (fees_untouched : ∀ ps, respects untouched (SetParamSet ps))
  (wasm_genesis_frames : ∀ gs, respects same_poe_store (wasm_InitGenesis (W:=W) (Update := AbciValidatorUpdate) noopValsetUpdater gs)).

(** What the genesis block takes for granted: every PoE contract of a dump has a type, and the contracts
    of x/twasm are those that [InitGenesis_inv] is about. *)
Definition genesis_ok (genesis : gmap string json) : Prop :=
  (∀ j g, genesis !! module_name poe_ModuleName = Some j → poe_Unmarshal j = Ok g → dump_typed g) ∧
  (∀ j d, genesis !! module_name twasm_ModuleName = Some j → twasm_Unmarshal j = Ok d →
     valid_extensions (Contracts d) ∧ no_own_state (Contracts d) ∧ singletons_once (Contracts d)).

Abbreviation init := (module_InitGenesis uon TxJSONDecoder Tx_ValidateBasic TxEncoder deliverTx poe_Unmarshal twasm_Unmarshal
  globalfee_Unmarshal other_InitGenesis fuel).
Abbreviation InitChainer := (app_InitChainer uon TxJSONDecoder Tx_ValidateBasic TxEncoder deliverTx poe_Unmarshal
  twasm_Unmarshal globalfee_Unmarshal other_InitGenesis SetModuleVersionMap fuel).

Lemma on_store_ok {A} (m : M W A) (c c' : Ctx (App W)) a :
  on_store m c = (Ok a, c') →
  ∃ c1, m (mkCtx (world (keepers (store c))) (events c)) = (Ok a, c1) ∧
    store c' = mkApp (set_world (store c1) (keepers (store c))) (embedded (store c)).
Proof using Type. unfold on_store, on_keepers, on_world. cbn. destruct (m _) as [o c1]. intros [= -> <-]. by exists c1. Qed.

Lemma on_keepers_ok {A} (m : M (KState W) A) (c c' : Ctx (App W)) a :
  on_keepers m c = (Ok a, c') →
  ∃ c1, m (mkCtx (keepers (store c)) (events c)) = (Ok a, c1) ∧ store c' = mkApp (store c1) (embedded (store c)).
Proof using Type. unfold on_keepers. destruct (m _) as [o c1]. intros [= -> <-]. by exists c1. Qed.

(** One module of the loop. *)
Lemma init_modules_cons (data : AppModuleName → option json) m order u (c c' : Ctx (App W)) r :
  init_modules data init (m :: order) u c = (Ok r, c') →
  (data m = None ∧ init_modules data init order u c = (Ok r, c')) ∨
  ∃ j v c1, data m = Some j ∧ init m j c = (Ok v, c1) ∧ (v = [] ∨ u = []) ∧
    init_modules data init order (if decide (v = []) then u else v) c1 = (Ok r, c').
Proof using Type.
  cbn [init_modules]. destruct (data m) as [j|]; [|by left]. intros (v & c1 & Hm & Hrun)%M_bind_ok. right. exists j, v, c1.
  split_and!; [done|done|..]; (destruct (decide (v = [])); [by auto|]; destruct (decide (u = [])); by auto).
Qed.

(** The part of the application's state that the modules of the SDK do not see. *)
Definition app_untouched : relation (App W) := λ a a',
  untouched (world (keepers a)) (world (keepers a')) ∧ keepers a' = set_world (world (keepers a')) (keepers a).
#[local] Instance app_untouched_preorder : PreOrder app_untouched.
Proof using Type.
  split; [by intros [[w ca v] e]; split|].
  intros [[w ca v] e] [[w1 ca1 v1] e1] [[w2 ca2 v2] e2] [Hu1 Hk1] [Hu2 Hk2]. unfold app_untouched, set_world in *. cbn in *.
  split; [by etrans|]. by simplify_eq.
Qed.
Lemma on_store_untouched {A} (m : M W A) : respects untouched m → respects app_untouched (on_store m).
Proof using Type. intros Hm c a c' (c1 & Hrun & ->)%on_store_ok. split; [|done]. apply (Hm _ _ _ Hrun). Qed.

(** Modules of the SDK in front of [order]. *)
Lemma init_quiet data l order (c c' : Ctx (App W)) r :
  Forall (λ m, m ≠ poe_ModuleName ∧ m ≠ twasm_ModuleName ∧ m ≠ globalfee_ModuleName) l →
  init_modules data init (l ++ order) [] c = (Ok r, c') →
  ∃ c1, app_untouched (store c) (store c1) ∧ init_modules data init order [] c1 = (Ok r, c').
Proof using others_untouched others_no_updates.
  intros Hl. revert c. induction Hl as [|m l (Hp & Ht & Hg) Hl IH]; intros c; [by exists c|]. cbn [app].
  intros [[_ Hrun]|(j & v & c1 & _ & Hm & _ & Hrun)]%init_modules_cons; [by apply IH|].
  assert (init m j = on_store (other_InitGenesis m j)) as Hi by (by destruct m). rewrite Hi in Hm.
  apply on_store_untouched in Hm as Hu; [|done]. apply on_store_ok in Hm as (c2 & ->%others_no_updates & _).
  destruct (IH _ Hrun) as (c3 & Hu' & Hrest). exists c3. split; [by etrans|done].
Qed.

Lemma fresh_untouched (w w' : W) : untouched w w' → fresh w → fresh w'.
Proof using Type.
  intros (Hx & Hc & Hp & _) (Hk & Ha & Hs). split_and!.
  - intros k. rewrite Hx by (by eexists; right). apply Hk.
  - intros a. by rewrite Hc.
  - intros k. by rewrite Hp.
Qed.
Lemma fresh_early (w : W) : fresh w → early_inv w.
Proof using KVLaws0 WasmLaws0.
  intros (Hk & Ha & Hs). split_and!.
  - apply priv_inv_init. split; [done|]. intros a i. by rewrite Ha.
  - intros s a. by rewrite Hs.
  - intros i v. unfold info_at. by rewrite Hs.
Qed.

Lemma importRegistrations_frames a cs : respects same_poe_store (importRegistrations (W:=W) a cs).
Proof using KVLaws0.
  induction cs as [|v cs IH]; [apply respects_ret, _|]. cbn. unfold storeContractPrivilegeRegistration. respects_solve.
Qed.
#[local] Hint Resolve importRegistrations_frames SetPrivileged_frames : respects.

Lemma twasm_InitGenesis_frames d : respects same_poe_store (TwasmGenesis.InitGenesis (W:=W) (Update := AbciValidatorUpdate) d).
Proof using KVLaws0 BootstrapLaws0 wasm_genesis_frames.
  unfold TwasmGenesis.InitGenesis, import_contract, importPrivileged, setPrivilegedFlag, set_privileged. respects_solve.
Qed.

Lemma twasm_no_updates d : returns (.= []) (TwasmGenesis.InitGenesis (W:=W) (Update := AbciValidatorUpdate) d).
Proof using WasmGenesisLaws0.
  intros c r c' (res & c1 & Hw%wrapM_ok & Hrun)%M_bind_ok.
  do 3 (apply M_bind_ok in Hrun as (? & ? & _ & Hrun)). injection Hrun as <- _.
  by apply wasm_InitGenesis_updates in Hw as [?|(? & ? & [=])].
Qed.

(** x/twasm, on a fresh chain. *)
Lemma twasm_early d (c c' : Ctx W) (r : list AbciValidatorUpdate) :
  valid_extensions (Contracts d) → no_own_state (Contracts d) → singletons_once (Contracts d) →
  TwasmGenesis.InitGenesis d c = (Ok r, c') → fresh (store c) → early_inv (store c').
Proof using KVLaws0 WasmLaws0 WasmVMLaws0 WasmGenesisLaws0 BootstrapLaws0 wasm_genesis_frames.
  intros Hval Hown Hsing Hrun Hf. pose proof (twasm_InitGenesis_frames d _ _ _ Hrun) as Hp.
  destruct (fresh_early _ Hf) as (_ & Hr & Hh). destruct Hf as (Hk & Ha & Hs). split_and!.
  - eapply InitGenesis_inv; [|done..|exact Hrun]. intros k b. unfold in_index. by rewrite Hk.
  - intros s a. rewrite Hp. apply Hr.
  - intros i v. unfold info_at. rewrite Hp. apply Hh.
Qed.

(** The modules before x/poe leave a consistent store, and return no validators. *)
Lemma twasm_stage genesis order (c c' : Ctx (App W)) r :
  genesis_ok genesis → fresh (world (keepers (store c))) → contractAddrCache (keepers (store c)) = ∅ →
  init_modules (λ m, genesis !! module_name m) init (twasm_ModuleName :: order) [] c = (Ok r, c') →
  ∃ c1, start_inv (keepers (store c1)) ∧ init_modules (λ m, genesis !! module_name m) init order [] c1 = (Ok r, c').
Proof using All.
  intros [_ Hg] Hf Hc Hrun. assert (∀ w, cache_ok (set_world w (keepers (store c)))) as Hcache
    by (intros w t a; cbn; rewrite Hc; by intros ?%lookup_empty_Some).
  apply init_modules_cons in Hrun as [[_ Hrun]|(j & u & c1 & Ej & Hm & _ & Hrun)].
  - exists c. split; [|done]. split; [by apply fresh_early|]. specialize (Hcache (world (keepers (store c)))).
    by destruct (store c) as [[]].
  - apply on_store_ok in Hm as (c2 & Hm & Hst).
    apply M_bind_ok in Hm as (d & c3 & [Hd ->]%lift_ok & Hi%must_ok). destruct (Hg j d Ej Hd) as (Hval & Hown & Hsing).
    apply twasm_no_updates in Hi as Hnil. subst u. exists c1. split; [|exact Hrun]. rewrite Hst. split; [|apply Hcache].
    by apply (twasm_early d _ _ _ Hval Hown Hsing Hi).
Qed.

(** x/poe ends the set-up, and x/globalfee only adds its prices. *)
Lemma poe_stage genesis (c c' : Ctx (App W)) r :
  genesis_ok genesis → start_inv (keepers (store c)) →
  init_modules (λ m, genesis !! module_name m) init [poe_ModuleName; globalfee_ModuleName] [] c = (Ok r, c') →
  chain_inv (keepers (store c')) ∧ r ≠ [].
Proof using All.
  intros [Hg _] Hs Hrun.
  assert (∀ j v (c1 c2 : Ctx (App W)), init globalfee_ModuleName j c1 = (Ok v, c2) →
    v = [] ∧ (chain_inv (keepers (store c1)) → chain_inv (keepers (store c2)))) as Hfee.
  { intros j v c1 c2 (c3 & Hm & ->)%on_store_ok.
    apply M_bind_ok in Hm as (ps & c4 & [_ ->]%lift_ok & Hm). apply M_bind_ok in Hm as ([] & c5 & Hset & [= <- <-]).
    split; [done|]. destruct (fees_untouched _ _ _ _ Hset) as (Hx & Hc & Hp & Hok). cbn. apply wstep_inv.
    split; [by split|by apply frame_psteps]. }
  apply init_modules_cons in Hrun as [[_ Hrun]|(j & u & c1 & Ej & Hm & _ & Hrun)].
  { apply init_modules_cons in Hrun as [[_ Hrun]|(j & u & c1 & _ & [-> _]%Hfee & _ & Hrun)]; done. }
  apply on_keepers_ok in Hm as (c2 & Hm & Hst). apply M_bind_ok in Hm as (g & c3 & [Hd ->]%lift_ok & Hm).
  apply M_bind_ok in Hm as ([v|] & c4 & Hm & Hv); [|done]. apply mret_ok in Hv as [-> ->].
  destruct (AppModule_InitGenesis_chain _ _ _ _ delivered _ _ _ _ _ _ _ (Hg j g Ej Hd) Hm Hs) as [Hinv Hne].
  assert (chain_inv (keepers (store c1))) as Hinv1 by (by rewrite Hst). rewrite decide_False in Hrun by done.
  apply init_modules_cons in Hrun as [[_ Hrun]|(j' & u & c5 & _ & [-> Hkeep]%Hfee & _ & Hrun)];
    cbn in Hrun; rewrite decide_False in Hrun by done; apply mret_ok in Hrun as [-> ->]; auto.
Qed.

Lemma InitChainer_inv genesis (c c' : Ctx (App W)) updates :
  genesis_ok genesis → fresh (world (keepers (store c))) → contractAddrCache (keepers (store c)) = ∅ →
  InitChainer (Some genesis) c = (Ok updates, c') → chain_inv (keepers (store c')) ∧ updates ≠ [].
Proof using All.
  intros Hg Hf Hc ([] & c1 & Hv & Hrun)%M_bind_ok. apply on_store_untouched in Hv as [Hu Hk]; [|done].
  rewrite mm_InitGenesis_runs in Hrun. change OrderInitGenesis with
    (take 12 OrderInitGenesis ++ [twasm_ModuleName; poe_ModuleName; globalfee_ModuleName]) in Hrun.
  apply init_quiet in Hrun as (c2 & [Hu2 Hk2] & Hrun); [|by apply (bool_decide_unpack _)].
  apply (twasm_stage genesis) in Hrun as (c3 & Hs & Hrun); [by apply (poe_stage genesis c3)|done| |].
  - eapply fresh_untouched; [exact Hu2|]. by eapply fresh_untouched.
  - rewrite Hk2, Hk. by destruct (store c) as [[]].
Qed.
End init_chain.
