(* ===== verification/AppLife.v ===== *)
(** The life of the chain: from the genesis block on, through blocks, transactions,
    restarts and snapshots, the invariant of [AppChain] holds, every PoE contract can be
    found, and the begin and the end of a block fail only with a module of the SDK. *)
From stdpp Require Import base list strings gmap sets sorting relations pretty.
From Stdlib Require Import ZArith Lia.
From S2P Require Import Prelude ProgramLogic Sdk RefStore Slice Json Privilege TwasmMsgs Wasm TwasmKeeper TwasmHandler TwasmSteps RefWorld TwasmProps TwasmAbci TwasmGenesis GlobalFee GoTime PoETypes PoEMsgs PoETypesProps PoEKeeper PoEKeeperProps PoEContractIO PoEValset PoEServer PoEServerProps RefPoE PoEAdapters PoEQueries PoEBootstrap PoEBootstrapProps RefBootstrap AppBlock AppGenesis AppChain.
Open Scope Z_scope.

(** ** Messages of x/poe *)
Section messages.
Context `{!KVStore W, !KVLaws W, !PoEParamStore W, !HistoryCodec, !HistoryCodecLaws, !WasmKeeper W, !WasmLaws W, !Bech32,
  !WasmVM W, !WasmVMLaws W, !ContractOps W, !ContractCalls W, !BootstrapLaws W, !ChainLaws W,
  !SdkMath, !SdkText, !SdkCoins, !StakingTypes, !ConsensusCtx W}.
Context (NewAnyWithValue : PubKey → outcome Any).

Lemma Sudo_wstep a m : respects wstep (Sudo a m).
Proof using WasmVMLaws0 BootstrapLaws0 ChainLaws0.
  apply respects_both; [apply respects_both; [apply Sudo_frames|apply Sudo_params]|apply Sudo_psteps].
Qed.
Lemma Execute_wstep a s m cs : respects wstep (Execute a s m cs).
Proof using WasmVMLaws0 BootstrapLaws0 ChainLaws0.
  apply respects_both; [apply respects_both; [apply Execute_frames|apply Execute_params]|apply Execute_steps].
Qed.
#[local] Hint Resolve Sudo_wstep Execute_wstep : respects.

Lemma UnbondDelegation_wstep a op amount : respects wstep (UnbondDelegation (W:=W) a op amount).
Proof using All.
  intros c t c' Hrun. unfold UnbondDelegation in Hrun. destruct (nil_or _ _) as [[]| |]; [done| |done|done].
  destruct (Int_Uint64 _) as [n| |]; [|done|done]. unfold with_fresh_events in Hrun.
  destruct (Execute _ _ _ _ _) as [o c1] eqn:E. destruct o as [r|e|p]; [|done|done].
  apply Execute_wstep in E. cbn in E. by injection Hrun as _ <-.
Qed.
Lemma RegisterValidator_wstep a pk op d : respects wstep (RegisterValidator (W:=W) a pk op d).
Proof using All. unfold RegisterValidator. respects_solve. Qed.
Lemma UpdateValidator_wstep a op d : respects wstep (UpdateValidator (W:=W) a op d).
Proof using All. unfold UpdateValidator. respects_solve. Qed.
Lemma BondDelegation_wstep a op amount v : respects wstep (BondDelegation (W:=W) a op amount v).
Proof using All. unfold BondDelegation. respects_solve. Qed.
Lemma SetEngagementPoints_wstep a op n : respects wstep (SetEngagementPoints (W:=W) a op n).
Proof using All. unfold SetEngagementPoints. respects_solve. Qed.
#[local] Hint Resolve UnbondDelegation_wstep RegisterValidator_wstep UpdateValidator_wstep BondDelegation_wstep
  SetEngagementPoints_wstep : respects.
#[local] Hint Extern 1 (respects _ (reads _)) => apply respects_reads, _ : respects.
#[local] Hint Extern 1 (respects (keeps chain_inv) (on_world _)) => apply on_world_chain : respects.

(** The memory of the keepers does not change, even when a call fails. *)
Definition same_memory : relation (KState W) := λ k k',
  contractAddrCache k' = contractAddrCache k ∧ validatorVotes k' = validatorVotes k.
#[local] Instance same_memory_preorder : PreOrder same_memory.
Proof using Type. split; [by split|]. intros x y z [??] [??]. split; congruence. Qed.
Lemma on_world_memory {A} (m : M W A) : always same_memory (on_world m).
Proof using Type. intros c. unfold on_world. by destruct (m _). Qed.
#[local] Hint Resolve on_world_memory : respects.

Lemma service_result_memory m : always same_memory m → always same_memory (service_result (W:=W) m).
Proof using Type. intros Hm c. unfold service_result, with_fresh_events. specialize (Hm (mkCtx (store c) [])). by destruct (m _). Qed.
Lemma service_result_chain m : respects (keeps chain_inv) m → respects (keeps chain_inv) (service_result (W:=W) m).
Proof using Type.
  intros Hm c r c'. unfold service_result, with_fresh_events. destruct (m _) as [o c1] eqn:E.
  intros [= (x & -> & _)%outcome_bind_ok <-]. by apply (Hm _ _ _ E).
Qed.

Lemma newHandler_memory msg : always same_memory (newHandler (W:=W) NewAnyWithValue msg).
Proof using Type.
  destruct msg; cbn; try apply service_result_memory;
    unfold CreateValidator, Msg_UpdateValidator, Msg_Delegate, Msg_Undelegate, SetValidatorInitialEngagementPoints,
      setEngagementPoints; always_solve.
Qed.

Lemma newHandler_chain msg : respects (keeps chain_inv) (newHandler (W:=W) NewAnyWithValue msg).
Proof using All.
  destruct msg; cbn; try apply service_result_chain;
    unfold CreateValidator, Msg_UpdateValidator, Msg_Delegate, Msg_Undelegate, SetValidatorInitialEngagementPoints,
      setEngagementPoints; respects_solve.
Qed.

(** A transaction with one message: what it wrote is dropped when it fails. *)
Definition deliver {A} (m : M (KState W) A) (k : KState W) : KState W :=
  match m (mkCtx k []) with
  | (Ok _, c') => store c'
  | (_, c') => set_world (world k) (store c')
  end.

Lemma deliver_chain msg k : chain_inv k → chain_inv (deliver (newHandler NewAnyWithValue msg) k).
Proof using All.
  intros Hinv. unfold deliver. pose proof (newHandler_memory msg (mkCtx k [])) as [Hc _].
  destruct (newHandler NewAnyWithValue msg _) as [[r|e|p] c'] eqn:E; [by apply (newHandler_chain _ _ _ _ E)|..];
    cbn in Hc; (split; [apply Hinv|]); intros t a; cbn; rewrite Hc; apply Hinv.
Qed.
End messages.

(** ** Blocks *)
Section blocks.
Context `{!KVStore W, !KVLaws W, !PoEParamStore W, !HistoryCodec, !HistoryCodecLaws, !WasmKeeper W, !WasmLaws W, !Bech32,
  !WasmVM W, !WasmVMLaws W, !ContractOps W, !ContractCalls W, !BootstrapLaws W, !ChainLaws W,
  !ModuleManager (App W), !ModuleManagerLaws (App W)}.
Variable commit_events : list Event → list Event → list Event.
Variables (other_BeginBlock : AppModuleName → M W ()) (other_EndBlock : AppModuleName → M W (list AbciValidatorUpdate)).
(** The other modules may fail: x/upgrade stops the chain when an upgrade is due, x/crisis when an invariant is broken. When they
    return they have changed nothing of x/twasm and x/poe but what contracts may change. *)
Hypotheses (others_begin : ∀ m, respects wstep (other_BeginBlock m)) (others_end : ∀ m, respects wstep (other_EndBlock m))
  (others_updates : ∀ m, returns (.= []) (other_EndBlock m)).

Definition app_inv (c : Ctx (App W)) : Prop := chain_inv (keepers (store c)).
(** A module of the SDK fails in a store that satisfies the invariant. *)
Definition fails_in_sdk {A} (other : AppModuleName → M W A) (f : failure) : Prop :=
  ∃ m w es, own_module m = false ∧ world_inv w ∧ failure_of (other m (mkCtx w es)).1 = Some f.

(** *** Historical infos *)
Lemma contract_history_key s i : ContractPrefix +:+ s ≠ getHistoricalInfoKey i.
Proof using Type.
  intros E%(f_equal (String.get 0)). unfold getHistoricalInfoKey in E. cbn in E.
  apply (inj Some), byte_of_inj in E; unfold is_u in *; lia.
Qed.

(** A write under a height changes infos only. *)
Lemma history_inv k (w' : W) i :
  (∀ sk x, ¬ (sk = poe_StoreKey ∧ x = getHistoricalInfoKey i) → kv_get w' sk x = kv_get (world k) sk x) →
  same_contracts (world k) w' → (params_ok (world k) → params_ok w') → readable w' →
  chain_inv k → chain_inv (set_world w' k).
Proof using KVLaws0 WasmLaws0.
  intros Hk Hc Hp Hr [[(Hi & Hreg & _) [Hcomp Hok]] Hcache].
  assert (∀ s, kv_get w' poe_StoreKey (ContractPrefix +:+ s) = kv_get (world k) poe_StoreKey (ContractPrefix +:+ s)) as Ha
    by (intros s; apply Hk; intros [_ E]; by apply contract_history_key in E).
  split; [split; [split_and!|split]|]; cbn.
  - eapply priv_inv_frame; [|exact Hi]. apply same_privileges_frame; [done|]. intros x _. by apply Hk; intros [[=] _].
  - intros s a. rewrite Ha. apply Hreg.
  - done.
  - intros t Ht. unfold stored, poeContractAddressKey. rewrite Ha. by apply Hcomp.
  - auto.
  - intros t a Hl. destruct (Hcache t a Hl) as [Ht Hs]. split; [done|].
    unfold stored, poeContractAddressKey in *. by rewrite Ha.
Qed.

Lemma delete_history_inv k i :
  chain_inv k → chain_inv (set_world (kv_delete poe_StoreKey (getHistoricalInfoKey i) (world k)) k).
Proof using All.
  intros Hinv. apply (history_inv _ _ i); [|apply contracts_poe_delete|apply params_poe_delete| |done].
  - intros sk x Hn. rewrite kv_get_delete. rewrite decide_False; [done|]. naive_solver.
  - intros j v. rewrite info_at_delete. case_decide; [done|]. apply Hinv.
Qed.
Lemma set_history_inv k i hi :
  chain_inv k → chain_inv (set_world (kv_set poe_StoreKey (getHistoricalInfoKey i) (MustMarshal_HI hi) (world k)) k).
Proof using All.
  intros Hinv. apply (history_inv _ _ i); [|apply contracts_poe_set|apply params_poe_set| |done].
  - intros sk x Hn. rewrite kv_get_set. rewrite decide_False; [done|]. naive_solver.
  - intros j v. rewrite info_at_set. case_decide; [|apply Hinv]. intros [= <-]. by rewrite HI_roundtrip.
Qed.

Lemma prune_total fuel i (c : Ctx (KState W)) :
  chain_inv (store c) → ∃ c', prune fuel i c = (Ok (), c') ∧ chain_inv (store c').
Proof using All.
  revert i c. induction fuel as [|n IH]; intros i c Hinv; [by exists c|]. cbn. destruct (i <? 0); [by exists c|].
  unfold mbind, M_bind, GetHistoricalInfo. cbn. fold (info_at (world (store c)) i).
  destruct (info_at (world (store c)) i) as [v|] eqn:Hv; [|by exists c].
  destruct Hinv as [[(Hi & Hr & Hh) Hrest] Hcache] eqn:E. pose proof (Hh i v Hv) as Hok.
  destruct (MustUnmarshalHistoricalInfo v) as [hi|e|p]; [|done|done]. cbn. apply IH. by apply delete_history_inv.
Qed.

Lemma poe_begin_total votes h header (c : Ctx (App W)) :
  app_inv c → ∃ c', poe_BeginBlock votes h header c = (Ok (), c') ∧ app_inv c'.
Proof using All.
  intros Hinv. unfold poe_BeginBlock, on_keepers, PoEServer.BeginBlocker, TrackHistoricalInfo.
  unfold mbind, M_bind, UpdateValidatorVotes, modify. cbn [store events].
  set (k := mkKState _ _ votes). assert (chain_inv k) as Hk by exact Hinv.
  assert (is_ok (HistoricalEntries k) = true) as Hok by apply Hk. destruct (HistoricalEntries k) as [n|e|p]; [|done|done].
  destruct (prune_total (Z.to_nat (h - n + 1)) (h - n) (mkCtx k (events c)) Hk) as (c1 & -> & Hc1).
  destruct (n =? 0); eexists; (split; [reflexivity|]); cbn; [done|]. by apply set_history_inv.
Qed.

(** *** Callbacks of contracts *)
Lemma callbacks_wstep msg (l : list AccAddress) (c : Ctx W) :
  wstep (store c) (store (foldl (callback_effect commit_events msg) c l)).
Proof using All.
  revert c. induction l as [|a l IH]; intros c; [reflexivity|]. cbn. etrans; [|apply IH]. unfold callback_effect.
  destruct (Sudo a msg _) as [[r|e|e] cached] eqn:E; [|reflexivity..]. by apply Sudo_wstep in E.
Qed.

(** A call on the store that makes a step when it returns, seen from the application. *)
Lemma on_store_ends {A} (m : M W A) (P : A → Prop) Q (c : Ctx (App W)) :
  ends m (mkCtx (world (keepers (store c))) (events c)) (λ r c', P r ∧ wstep (world (keepers (store c))) (store c')) Q →
  app_inv c → ends (on_store m) c (λ r c', P r ∧ app_inv c') Q.
Proof using All.
  unfold ends, on_store, on_keepers, on_world, app_inv. cbn. destruct (m _) as [[r|e|p] c']; [|done..].
  cbn. intros [Hr Hs] Hinv. split; [done|]. by apply wstep_inv.
Qed.
(** A module of the SDK. *)
Lemma sdk_ends {A} (other : AppModuleName → M W A) m (P : A → Prop) (c : Ctx (App W)) :
  own_module m = false → respects wstep (other m) → returns P (other m) → app_inv c →
  ends (on_store (other m)) c (λ r c', P r ∧ app_inv c') (fails_in_sdk other).
Proof using All.
  intros Hown Hs Hr Hinv. apply on_store_ends; [|done]. apply ends_intro.
  - intros r c' Hrun. split; [by eapply Hr|by apply (Hs _ _ _ Hrun)].
  - intros f Hf. eexists m, _, _. split; [done|]. split; [|exact Hf]. apply Hinv.
Qed.

Lemma module_begin_ends votes h header byzantine m (c : Ctx (App W)) :
  existsb negative byzantine = false → app_inv c →
  ends (module_BeginBlock commit_events other_BeginBlock votes h header byzantine m) c (λ _, app_inv) (fails_in_sdk other_BeginBlock).
Proof using All.
  intros Hbyz Hinv. assert (priv_inv (world (keepers (store c)))) as Hp by apply Hinv.
  destruct (decide (m = poe_ModuleName)) as [->|Hpoe].
  { cbn. destruct (poe_begin_total votes h header c Hinv) as (c' & Hr & Hc'). unfold ends. by rewrite Hr. }
  destruct (decide (m = globalfee_ModuleName)) as [->|Hg]; [by apply ends_ret|].
  apply (ends_mono _ _ (λ _ c', True ∧ app_inv c') _ (fails_in_sdk other_BeginBlock)); [|by intros ? ? []|done].
  destruct (decide (m = twasm_ModuleName)) as [->|Ht].
  - apply (on_store_ends _ (λ _, True)); [|done]. unfold ends. rewrite BeginBlocker_run by done. rewrite Hbyz. split; [done|].
    apply (callbacks_wstep _ _ (mkCtx (world (keepers (store c))) (events c))).
  - pose proof (λ H, sdk_ends other_BeginBlock m (λ _, True) c H (others_begin m) ltac:(done) Hinv) as Hm.
    destruct m; try done; by apply Hm.
Qed.

(** The begin of a block keeps the invariant, or a module of the SDK fails. *)
Lemma begin_ends votes h header byzantine (c : Ctx (App W)) :
  existsb negative byzantine = false → app_inv c →
  ends (app_BeginBlocker commit_events other_BeginBlock votes h header byzantine) c (λ _, app_inv) (fails_in_sdk other_BeginBlock).
Proof using All.
  intros Hbyz Hinv. unfold app_BeginBlocker, ends. rewrite mm_BeginBlock_runs. unfold with_own_events.
  pose proof (forM_ends app_inv (fails_in_sdk other_BeginBlock)
    (module_BeginBlock commit_events other_BeginBlock votes h header byzantine) OrderBeginBlockers
    (mkCtx (store c) [])) as Hf. unfold ends in Hf at 2.
  destruct (forM _ _ _) as [[[]|e|p] c']; cbn; apply Hf; try done; intros m d _ Hd; by apply module_begin_ends.
Qed.

(** *** The end of a block *)
Lemma poe_end_total (c : Ctx (App W)) :
  app_inv c → ends (poe_EndBlock commit_events) c (λ _, app_inv) (λ _, False).
Proof using All.
  intros Hinv. apply (ends_bind _ _ _ (λ _, app_inv)); [exact Hinv|]. clear c Hinv. intros _ c Hinv.
  assert (priv_inv (world (keepers (store c)))) as Hp by apply Hinv.
  apply (ends_mono _ _ (λ _ c', True ∧ app_inv c') _ (λ _, False)); [|by intros ? ? []|done].
  apply (on_store_ends _ (λ _, True)); [|done]. unfold ends. rewrite poe_EndBlocker_run by done. cbn [store events].
  destruct (subscribers _ _) as [|a l]; [split; [done|reflexivity]|].
  destruct (CallEndBlockWithValidatorUpdate a _) as [[x|e|p] c1] eqn:E; (split; [done|]); [|reflexivity..]. cbn.
  apply M_bind_ok in E as (resp & c2 & Hs%wrapM_ok%Sudo_wstep & Hrest).
  assert (c1 = c2) as ->; [|exact Hs]. repeat case_match; try (by apply mret_ok in Hrest as [_ ->]);
    by apply M_bind_ok in Hrest as (? & ? & [? ->]%lift_ok & [? ->]%lift_ok).
Qed.

(** Every other module returns without updates, or fails. *)
Lemma module_end_ends m (c : Ctx (App W)) :
  m ≠ poe_ModuleName → app_inv c →
  ends (module_EndBlock commit_events other_EndBlock m) c (λ r c', r = [] ∧ app_inv c') (fails_in_sdk other_EndBlock).
Proof using All.
  intros Hpoe Hinv. assert (priv_inv (world (keepers (store c)))) as Hp by apply Hinv.
  destruct (decide (m = globalfee_ModuleName)) as [->|Hg]; [by apply ends_ret|].
  destruct (decide (m = twasm_ModuleName)) as [->|Ht].
  - apply (on_store_ends _ (.= [])); [|done]. unfold ends. rewrite EndBlocker_run by done. split; [done|].
    apply (callbacks_wstep _ _ (mkCtx (world (keepers (store c))) (events c))).
  - pose proof (λ H, sdk_ends other_EndBlock m (.= []) c H (others_end m) (others_updates m) Hinv) as Hm.
    destruct m; try done; by apply Hm.
Qed.

Lemma end_blocks_ends l (c : Ctx (App W)) :
  poe_ModuleName ∉ l → app_inv c →
  ends (end_blocks (module_EndBlock commit_events other_EndBlock) (l ++ [poe_ModuleName]) []) c (λ _, app_inv)
    (fails_in_sdk other_EndBlock).
Proof using All.
  revert c. induction l as [|m l IH]; intros c Hn Hinv; cbn [app end_blocks].
  - apply (ends_bind _ _ _ (λ _, app_inv)); [by eapply ends_mono; [apply poe_end_total|..]|].
    intros u c' Hc'. destruct (decide (u = [])); [|rewrite decide_True by done]; by apply ends_ret.
  - apply not_elem_of_cons in Hn as [Hne Hn].
    apply (ends_bind _ _ _ (λ r c', r = [] ∧ app_inv c')); [by apply module_end_ends|].
    intros r c1 [-> Hc1]. rewrite decide_True by done. by apply IH.
Qed.

(** The end of a block keeps the invariant, or a module of the SDK fails. *)
Lemma end_ends (c : Ctx (App W)) :
  app_inv c → ends (app_EndBlocker commit_events other_EndBlock) c (λ _, app_inv) (fails_in_sdk other_EndBlock).
Proof using All.
  intros Hinv. unfold app_EndBlocker, ends. rewrite mm_EndBlock_runs. unfold with_own_events.
  change OrderEndBlockers with (take 14 OrderEndBlockers ++ [poe_ModuleName]).
  pose proof (end_blocks_ends (take 14 OrderEndBlockers) (mkCtx (store c) [])) as Hf. unfold ends in Hf.
  destruct (end_blocks _ _ _ _) as [[u|e|p] c']; cbn; apply Hf; (by apply (bool_decide_unpack _)) || done.
Qed.
End blocks.

(** ** Restarts and snapshots *)
Section load.
Context `{!KVStore W, !KVLaws W, !PoEParamStore W, !HistoryCodec, !HistoryCodecLaws, !WasmKeeper W, !WasmLaws W, !Bech32}.
Implicit Types (w : W) (k : KState W).

Definition cached (m : gmap Z AccAddress) (es : list (bytes * bytes)) : gmap Z AccAddress :=
  foldl (λ m e, <[PoEContractTypeFrom e.1 := e.2]> m) m es.

Lemma init_cache_run (c : Ctx (KState W)) :
  InitContractAddressCache c =
  (Ok (), mkCtx (mkKState (world (store c))
    (cached (contractAddrCache (store c)) (kv_iterate (world (store c)) poe_StoreKey ContractPrefix)) (validatorVotes (store c)))
    (events c)).
Proof using Type.
  unfold InitContractAddressCache, IteratePoEContracts. unfold mbind at 1, M_bind at 1, gets.
  generalize (kv_iterate (world (store c)) poe_StoreKey ContractPrefix) as es.
  destruct c as [[w m v] evs]. cbn [store world contractAddrCache validatorVotes events]. intros es. revert m.
  induction es as [|e es IH]; intros m; [done|]. cbn. unfold mbind, M_bind. cbn. apply IH.
Qed.

Lemma cached_lookup m es t a :
  (∀ e, e ∈ es → PoEContractTypeFrom e.1 = t → e.2 = a) →
  (∃ e, e ∈ es ∧ PoEContractTypeFrom e.1 = t) ∨ m !! t = Some a → cached m es !! t = Some a.
Proof using Type.
  revert m. induction es as [|e es IH]; intros m Hall Hor.
  { destruct Hor as [(? & []%not_elem_of_nil & _)|?]; done. }
  cbn. apply IH; [intros e' He'; apply Hall; by right|].
  destruct (decide (PoEContractTypeFrom e.1 = t)) as [Ht|Ht].
  - right. rewrite Ht, lookup_insert_eq. f_equal. by apply Hall; [left|].
  - destruct Hor as [(e' & [->|He']%elem_of_cons & Hf)|Hm]; [done|left; by exists e'|right; by rewrite lookup_insert_ne].
Qed.

(** From a complete store every address is read again, whatever the cache was. *)
Lemma cached_complete w m t a :
  registry_ok w → stored w t = Some a → t ∈ contract_types → cached m (kv_iterate w poe_StoreKey ContractPrefix) !! t = Some a.
Proof using KVLaws0.
  intros Hr Hs Ht. apply cached_lookup.
  - intros [s b] Hin%kv_iterate_elem Hf. cbn in *. destruct (Hr s b Hin) as (_ & t' & Ht' & ->).
    rewrite contract_type_roundtrip in Hf by done. subst t'. unfold stored, poeContractAddressKey in Hs. congruence.
  - left. exists (PoEContractType_String t, a). rewrite kv_iterate_elem. split; [exact Hs|]. by apply contract_type_roundtrip.
Qed.
Lemma cached_types m es t : is_Some (cached m es !! t) → is_Some (m !! t) ∨ ∃ e, e ∈ es ∧ PoEContractTypeFrom e.1 = t.
Proof using Type.
  revert m. induction es as [|e es IH]; intros m; [by left|]. cbn. intros [Hm|(e' & He' & Hf)]%IH.
  - destruct (decide (PoEContractTypeFrom e.1 = t)) as [Ht|Ht]; [right; exists e; split; [by left|done]|].
    left. by rewrite lookup_insert_ne in Hm.
  - right. exists e'. split; [by right|done].
Qed.

Lemma load_inv w m v :
  world_inv w → (∀ t, is_Some (m !! t) → t ∈ contract_types) →
  chain_inv (mkKState w (cached m (kv_iterate w poe_StoreKey ContractPrefix)) v).
Proof using KVLaws0.
  intros Hw Hm. split; [done|]. intros t a Ha. cbn in Ha. destruct Hw as [(_ & Hr & _) [Hc _]].
  assert (t ∈ contract_types) as Ht.
  { destruct (cached_types m _ t ltac:(by eexists)) as [?|([s b] & Hin%kv_iterate_elem & <-)]; [by apply Hm|].
    destruct (Hr s b Hin) as (_ & t & Ht & ->). cbn. by rewrite contract_type_roundtrip. }
  split; [done|]. destruct (Hc t Ht) as [b Hb]. cbn. by rewrite (cached_complete w m t b Hr Hb Ht) in Ha; simplify_eq.
Qed.

Lemma restart_inv pinned code w a :
  NewPetriApp_loadLatest pinned code w = Ok a → world_inv w → chain_inv (keepers a).
Proof using KVLaws0.
  unfold NewPetriApp_loadLatest. destruct (pinned w); [|done|done]. rewrite init_cache_run. intros [= <-] Hw. cbn.
  apply load_inv; [done|]. intros t []%is_Some_None.
Qed.

Lemma restore_inv {Item} (wasm_Restore : M W Item) (a : App W) w' es item c' :
  respects wstep wasm_Restore → cache_ok (keepers a) → world_inv w' →
  Restore wasm_Restore (mkCtx (mkApp (set_world w' (keepers a)) (embedded a)) es) = (Ok item, c') →
  chain_inv (keepers (store c')).
Proof using KVLaws0 WasmLaws0.
  intros Hrest Hcache Hw (x & c1 & (c2 & Hr & Hst)%on_store_ok & Hrun)%M_bind_ok.
  apply M_bind_ok in Hrun as ([] & c3 & (c4 & Hi & Hst')%on_keepers_ok & [= _ <-]). rewrite init_cache_run in Hi.
  injection Hi as <-. rewrite Hst'. cbn. apply Hrest in Hr as Hs. cbn in Hs. rewrite Hst. cbn. apply load_inv.
  - destruct Hs as [[Hp Hk] Hps]. destruct Hw as (He & Hc & Hok). split_and!; [by eapply early_same|by eapply complete_same|by apply Hk].
  - intros t [b Hb]. by destruct (Hcache t b Hb).
Qed.
End load.

(** ** Every reachable state *)
Section life.
Context `{!KVStore W, !KVLaws W, !PoEParamStore W, !HistoryCodec, !HistoryCodecLaws, !WasmKeeper W, !WasmLaws W, !Bech32,
  !WasmVM W, !WasmVMLaws W, !WasmGenesis W, !WasmGenesisLaws W, !ContractOps W, !ContractCalls W, !BootstrapLaws W,
  !ChainLaws W, !FeeParams W, !SdkMath, !SdkText, !SdkDecimal, !SdkCoins, !StakingTypes, !ConsensusCtx W, !ForeignDecoders,
  !ModuleManager (App W), !ModuleManagerLaws (App W)}.
Context {Tx : Type} (TxJSONDecoder : json_bytes → outcome Tx) (Tx_ValidateBasic : Tx → outcome ())
  (TxEncoder : Tx → outcome bytes) (deliverTx : bytes → M (KState W) bool) (NewAnyWithValue : PubKey → outcome Any).
Variables (poe_Unmarshal : json → outcome PoEGenesisState) (twasm_Unmarshal : json → outcome GenesisState)
  (globalfee_Unmarshal : json → outcome (list DecCoin)) (uon : Z → Z) (fuel : nat)
  (commit_events : list Event → list Event → list Event)
  (other_InitGenesis : AppModuleName → json → M W (list AbciValidatorUpdate)) (SetModuleVersionMap : M W ())
  (other_BeginBlock : AppModuleName → M W ()) (other_EndBlock : AppModuleName → M W (list AbciValidatorUpdate)).

Hypotheses (delivered : ∀ tx, respects (keeps ready_inv) (deliverTx tx))
  (others_untouched : ∀ m j, respects untouched (other_InitGenesis m j))
  (others_no_updates : ∀ m j, returns (.= []) (other_InitGenesis m j))
  (versions_untouched : respects untouched SetModuleVersionMap)
  (fees_untouched : ∀ ps, respects untouched (SetParamSet ps))
  (wasm_genesis_frames : ∀ gs, respects same_poe_store (wasm_InitGenesis (W:=W) (Update := AbciValidatorUpdate) noopValsetUpdater gs))
  (others_begin : ∀ m, respects wstep (other_BeginBlock m)) (others_end : ∀ m, respects wstep (other_EndBlock m))
  (others_updates : ∀ m, returns (.= []) (other_EndBlock m)).

(** The steps of a node. *)
Inductive app_step (a : App W) : App W → Prop :=
  | app_begin votes h header byzantine es r c' :
      app_BeginBlocker commit_events other_BeginBlock votes h header byzantine (mkCtx a es) = (Ok r, c') →
      existsb negative byzantine = false → app_step a (store c')
  | app_poe_msg msg : app_step a (mkApp (deliver (newHandler NewAnyWithValue msg) (keepers a)) (embedded a))
  (** any other transaction *)
  | app_tx w' : wstep (world (keepers a)) w' → app_step a (mkApp (set_world w' (keepers a)) (embedded a))
  | app_end es r c' :
      app_EndBlocker commit_events other_EndBlock (mkCtx a es) = (Ok r, c') → app_step a (store c')
  | app_restart pinned code a' :
      NewPetriApp_loadLatest pinned code (world (keepers a)) = Ok a' → app_step a a'
  (** the stores are replaced by those of a snapshot of a chain that runs *)
  | app_restore {Item} (wasm_Restore : M W Item) w' es item c' :
      respects wstep wasm_Restore → world_inv w' →
      Restore wasm_Restore (mkCtx (mkApp (set_world w' (keepers a)) (embedded a)) es) = (Ok item, c') →
      app_step a (store c').

Lemma app_step_inv a a' : app_step a a' → chain_inv (keepers a) → chain_inv (keepers a').
Proof using All.
  intros Hs Hinv. destruct Hs as [votes h header byz es r c' Hrun Hbyz|msg|w' Hw|es r c' Hrun|pinned code a' Hrun
    |Item rest w' es item c' Hrest Hw Hrun].
  - exact (ends_ok _ _ _ _ _ _ (begin_ends commit_events other_BeginBlock other_EndBlock others_begin others_end others_updates
      votes h header byz (mkCtx a es) Hbyz Hinv) Hrun).
  - cbn. by apply deliver_chain.
  - cbn. by apply wstep_inv.
  - exact (ends_ok _ _ _ _ _ _ (end_ends commit_events other_BeginBlock other_EndBlock others_begin others_end others_updates
      (mkCtx a es) Hinv) Hrun).
  - by eapply restart_inv; [|apply Hinv].
  - eapply restore_inv; [exact Hrest|apply Hinv|exact Hw|exact Hrun].
Qed.

(** C6: On a chain that began on an empty store with a genesis that succeeded, whatever blocks, transactions, restarts
    and snapshots of running chains followed, neither x/poe nor x/twasm nor any contract stops the chain: the begin of a
    block fails only when Tendermint reports evidence with a negative number or when the begin blocker of a module of the
    SDK fails (x/upgrade does when an upgrade is due), and then with that failure; the end of a block fails only when
    the end blocker of such a module fails (x/crisis does on a broken invariant). Every PoE contract is found at its
    address in the store, the registrations and the extensions agree, and the genesis had a validator. The genesis is
    assumed to name a type for every dumped PoE contract, and its x/twasm contracts to have valid extensions, not to
    import a state of their own, and no two of them the same singleton privilege. The modules of the SDK are
    assumed to change, when they return, nothing of x/poe and x/twasm but what contracts may change, and to have
    no validator updates. *)
Theorem chain_goes_on genesis (c c1 : Ctx (App W)) updates a :
  genesis_ok poe_Unmarshal twasm_Unmarshal genesis → fresh (world (keepers (store c))) → contractAddrCache (keepers (store c)) = ∅ →
  app_InitChainer uon TxJSONDecoder Tx_ValidateBasic TxEncoder deliverTx poe_Unmarshal twasm_Unmarshal globalfee_Unmarshal
    other_InitGenesis SetModuleVersionMap fuel (Some genesis) c = (Ok updates, c1) →
  rtc app_step (store c1) a →
  updates ≠ [] ∧
  (∀ votes h header byzantine es f, existsb negative byzantine = false →
     failure_of (app_BeginBlocker commit_events other_BeginBlock votes h header byzantine (mkCtx a es)).1 = Some f →
     fails_in_sdk other_BeginBlock f) ∧
  (∀ es f, failure_of (app_EndBlocker commit_events other_EndBlock (mkCtx a es)).1 = Some f → fails_in_sdk other_EndBlock f) ∧
  (∀ t, t ∈ contract_types → ∃ addr, GetPoEContractAddress (keepers a) t = Ok addr ∧ stored (world (keepers a)) t = Some addr) ∧
  priv_inv (world (keepers a)).
Proof using All.
  intros Hg Hf Hc Hinit Hsteps. edestruct (InitChainer_inv TxJSONDecoder Tx_ValidateBasic) as [Hinv1 Hne]; [done..|exact Hinit|].
  assert (chain_inv (keepers a)) as Hinv.
  { clear Hinit. induction Hsteps as [x|x y z Hs _ IH]; [done|]. by eapply IH, app_step_inv. }
  split_and!; [done|..].
  - intros votes h header byz es f Hbyz. eapply ends_failed.
    by eapply (begin_ends commit_events other_BeginBlock other_EndBlock others_begin others_end others_updates).
  - intros es f. eapply ends_failed.
    by eapply (end_ends commit_events other_BeginBlock other_EndBlock others_begin others_end others_updates).
  - intros t Ht. by apply complete_lookup.
  - apply Hinv.
Qed.
End life.
