(* ===== verification/RefChain.v ===== *)
(** The chain of [RefBootstrap] from its genesis block on. *)
From stdpp Require Import base list strings gmap sets sorting relations pretty.
From Stdlib Require Import ZArith Lia.
From S2P Require Import Prelude ProgramLogic Sdk RefStore Slice Json Privilege TwasmMsgs Wasm TwasmKeeper TwasmHandler TwasmSteps RefWorld TwasmProps TwasmAbci TwasmGenesis GlobalFee GoTime PoETypes PoEMsgs PoETypesProps PoEKeeper PoEKeeperProps PoEContractIO PoEValset PoEServer PoEServerProps RefPoE PoEAdapters PoEQueries PoEBootstrap PoEBootstrapProps RefBootstrap AppBlock AppGenesis AppChain AppLife.
Open Scope Z_scope.

(** A contract without registrations is added, or one keeps its extension. *)
Lemma set_info_psteps a i w :
  match w_infos w !! a with
  | Some j => Extension i = Extension j
  | None => Extension i = None
  end → psteps w (set_info a i w).
Proof.
  intros Hext Hinv. apply rtc_once, TwasmSteps.step_other. split; [done|].
  assert (∀ b, b ≠ a → GetContractInfo (set_info a i w) b = GetContractInfo w b) as Hne
    by (intros b Hb; cbn; by rewrite lookup_insert_ne).
  split.
  - intros b d Hd. destruct (decide (b = a)) as [->|Hb]; [|unfold details_of in *; by rewrite Hne].
    unfold details_of in *. cbn in *. rewrite lookup_insert_eq. destruct (w_infos w !! a) as [j|]; [|done].
    cbn in *. by rewrite Hext.
  - intros b j Hj. destruct (decide (b = a)) as [->|Hb].
    + cbn in Hj. rewrite lookup_insert_eq in Hj. injection Hj as <-. destruct (w_infos w !! a) as [j|] eqn:E.
      * destruct (inv_details w Hinv a j E) as (d & Hr & _). exists d. split; [|left].
        -- cbn in *. by rewrite Hext.
        -- unfold details_of. cbn. rewrite E. cbn in *. by rewrite Hr.
      * exists (mkDetails []). split; [|by right]. cbn. by rewrite Hext.
    + rewrite Hne in Hj by done. destruct (inv_details w Hinv b j Hj) as (d & Hr & _). exists d. split; [done|].
      left. unfold details_of. rewrite Hj. cbn in *. by rewrite Hr.
Qed.

Lemma create_contract_psteps id admin : respects psteps (create_contract id admin).
Proof.
  intros c a c' Hrun. unfold create_contract in Hrun. unfold mbind, M_bind, gets, modify in Hrun. cbn in Hrun.
  destruct (w_infos (store c) !! fresh_address (store c)) as [i|] eqn:E; [done|]. injection Hrun as <- <-. cbn.
  etrans; [apply (set_info_psteps (fresh_address (store c)) (mkContractInfo id (AccAddress_String admin) None)); by rewrite E|].
  by apply frame_psteps.
Qed.

Lemma fresh_nonempty w : fresh_address w ≠ "".
Proof. done. Qed.

#[export] Instance World_chain_laws : ChainLaws World.
Proof.
  constructor; try (by intros; cbn; respects_solve).
  - intros id creator admin msg label deposit. cbn. pose proof create_contract_psteps. respects_solve.
  - intros addr caller new c [] c' Hrun. cbn in Hrun. unfold mbind, M_bind, gets in Hrun.
    destruct (w_infos (store c) !! addr) as [i|] eqn:E; [|done]. case_decide; [|done]. injection Hrun as <-. cbn.
    apply set_info_psteps. by rewrite E.
  - intros p c c' [= <-]. done.
  - intros id creator admin msg label deposit c a c' (x & c1 & Hx & Hrun)%M_bind_ok.
    apply M_bind_ok in Hx as (y & c2 & [-> _]%gets_ok & Hx). do 4 (apply M_bind_ok in Hx as (? & ? & _ & Hx)).
    apply mret_ok in Hx as [-> _]. apply M_bind_ok in Hrun as (? & ? & _ & [-> _]%mret_ok). apply fresh_nonempty.
  - intros s a Hs. cbn [AccAddressFromBech32 Ref_bech32] in Hs. by destruct (strip_prefix _ _) as [[]|]; simplify_eq.
Qed.

(** ** The genesis block *)
#[local] Instance World_fees : FeeParams World := {
  HasMinGasPrices _ := false; GetMinGasPrices _ := Ok []; SetParamSet _ := mret (); GetParamSet _ := Ok [] }.
#[local] Instance World_consensus : ConsensusCtx World := { PubKeyTypes _ := None }.

(** Modules without a genesis of their own, and callbacks that do nothing. *)
Definition no_genesis (_ : AppModuleName) (_ : json) : M World (list AbciValidatorUpdate) := mret [].
Definition idle_begin (_ : AppModuleName) : M World () := mret ().
Definition poe_only : gmap string json := {[ "poe" := JObj [] ]}.
Definition fresh_app : App World := mkApp (store empty_chain) ref_code.
Definition read_poe (_ : json) : outcome PoEGenesisState := Ok ref_genesis.
Definition read_twasm (_ : json) : outcome GenesisState := Err ErrJSON.
Definition read_fees (_ : json) : outcome (list DecCoin) := Ok [].
Definition accept_tx (_ : bytes) : M (KState World) bool := mret true.
Abbreviation ref_init :=
  (app_InitChainer id (λ j : json_bytes, Ok j) (λ _, Ok ()) (λ _, Ok "tx") accept_tx read_poe read_twasm read_fees no_genesis
    (mret ()) 5 (Some poe_only) (mkCtx fresh_app [])).

Definition ref_validator : AbciValidatorUpdate :=
  mkVU (TmEd25519 (String (byte_of 0) (String (byte_of 1) (String (byte_of 2) "")))) 10.
Lemma pair_okA {A S} (r : outcome A * S) x : r.1 = Ok x → r = (Ok x, r.2).
Proof. destruct r as [o c]. cbn. by intros ->. Qed.
Lemma ref_init_1 : ref_init.1 = Ok [ref_validator].
Proof. vm_compute. reflexivity. Qed.
Lemma ref_init_run : ref_init = (Ok [ref_validator], ref_init.2).
Proof. exact (pair_okA ref_init _ ref_init_1). Qed.

(** The node is stopped and started again. *)
Definition restarted : outcome (App World) := NewPetriApp_loadLatest (λ _, Ok ()) ref_code (world (keepers (store ref_init.2))).
Lemma restarted_ok : ∃ a, restarted = Ok a ∧ GetPoEContractAddress (keepers a) PoEContractTypeValset = Ok "contract5".
Proof.
  unfold restarted, NewPetriApp_loadLatest. rewrite init_cache_run. eexists. split; [reflexivity|]. vm_compute. reflexivity.
Qed.

Lemma ref_fresh : fresh (world (keepers fresh_app)).
Proof. split_and!; intros x; cbn; apply lookup_empty. Qed.
Lemma idle_untouched {A} (x : A) : respects untouched (W:=World) (mret x).
Proof. apply respects_ret, _. Qed.
Lemma import_frames gs :
  respects same_poe_store (wasm_InitGenesis (W:=World) (Update := AbciValidatorUpdate) noopValsetUpdater gs).
Proof. intros c r c' (Hkv & _)%import_then%import_infos_spec k. cbn. by rewrite Hkv. Qed.
Lemma idle_succeeds f : ¬ fails_in_sdk idle f.
Proof. by intros (m & w & es & _ & _ & Hf). Qed.
Lemma ref_genesis_ok : genesis_ok read_poe read_twasm poe_only.
Proof. split; [by intros j g _ [= <-] cs [=]|by intros j d _ [=]]. Qed.

(** C6: the genesis of the reference chain, a restart, and the blocks after it: with idle modules the end of
    a block returns. *)
Lemma chain_goes_on_witness :
  ∃ a, restarted = Ok a ∧ GetPoEContractAddress (keepers a) PoEContractTypeValset = Ok "contract5" ∧
    failure_of (app_EndBlocker (λ old new, old ++ new) idle (mkCtx a [])).1 = None.
Proof.
  destruct restarted_ok as (a & Ea & Haddr). exists a. split; [exact Ea|]. split; [exact Haddr|].
  apply eq_None_not_Some. intros [f Hf]. revert Hf.
  refine (λ Hf, idle_succeeds f ((proj1 (proj2 (proj2 (chain_goes_on (W := World) (λ j : json_bytes, Ok j) (λ _, Ok ()) (λ _, Ok "tx") accept_tx
    (λ _, Err ErrJSON) read_poe read_twasm read_fees id 5 (λ old new, old ++ new) no_genesis (mret ()) idle_begin idle
    _ _ _ _ _ import_frames _ _ _ poe_only (mkCtx fresh_app []) ref_init.2 [ref_validator] a ref_genesis_ok ref_fresh eq_refl
    ref_init_run _)))) [] f Hf)).
  - intros tx. apply respects_ret, _.
  - intros m j. apply idle_untouched.
  - by intros m j c r c' [= <- _].
  - apply idle_untouched.
  - intros ps. apply idle_untouched.
  - intros m. apply respects_ret, _.
  - intros m. apply respects_ret, _.
  - by intros m c r c' [= <- _].
  - apply rtc_once. exact (app_restart _ _ _ _ _ (λ _, Ok ()) ref_code a Ea).
Defined.
