(* ===== verification/AppWasm.v ===== *)
(** What the application connects (app/wasm.go, app/app.go): the chain of handlers for the
    messages contracts send, the permissions of the module accounts, the parameter
    subspaces and the upgrade handlers.

    wasmd's own message handler and the addresses of module accounts are parameters. *)
From stdpp Require Import base list strings gmap sets.
From Stdlib Require Import ZArith Lia.
From S2P Require Import Prelude ProgramLogic Sdk RefStore Slice Json Privilege TwasmMsgs Wasm TwasmKeeper TwasmHandler TwasmSteps RefWorld TwasmProps AppUpgrade.
Open Scope Z_scope.

(** ** Messages of contracts *)

(** [wasmvmtypes.CosmosMsg]: the variants this repository looks at, and the others. *)
Record CosmosMsg := mkCosmosMsg { Msg_Staking : option json; Msg_Custom : json_bytes; Msg_Others : json }.
Definition ErrExecuteFailed : error := new_err "wasm/execute wasm contract failed".

Section chain.
Context {W : Type}.
(** [Messenger.DispatchMsg(ctx, contractAddr, contractIBCPortID, msg)]; of the results only the events. *)
Abbreviation Messenger := (AccAddress → CosmosMsg → M W (list Event)).

(** [NewMessageHandlerChain]: a handler that does not know the message passes it on. *)
Fixpoint MessageHandlerChain (handlers : list Messenger) (contractAddr : AccAddress) (msg : CosmosMsg) : M W (list Event) :=
  match handlers with
  | [] => fail_with (Wrap ErrUnknownMsg "no handler found")
  | h :: handlers' => λ c,
      match h contractAddr msg c with
      | (Err err, c') =>
          if ErrIs ErrUnknownMsg err then MessageHandlerChain handlers' contractAddr msg c' else (Err err, c')
      | r => r
      end
  end.

(** The first handler of the chain. *)
Definition disable_staking : Messenger := λ _ msg,
  match Msg_Staking msg with
  | Some _ => fail_with (Wrap ErrExecuteFailed "not supported, yet")
  | None => fail_with ErrUnknownMsg
  end.
End chain.

Section handlers.
Context `{!KVStore W, !WasmKeeper W, !WasmVM W, !Bech32, !SdkCoins, !BankKeeper W, !ConsensusParamsUpdater W, !GovTypes, !ForeignDecoders}.
Variable nested : AccAddress → CosmosMsg → M W (list Event).
Variable govRouter : Router W.

(** [NewPetriHandler(...).DispatchMsg] *)
Definition petri_handler (contractAddr : AccAddress) (msg : CosmosMsg) : M W (list Event) :=
  DispatchMsg govRouter contractAddr (Msg_Custom msg).

(** The message handler that [SetupWasmHandlers] installs around wasmd's. *)
Definition SetupWasmHandlers : AccAddress → CosmosMsg → M W (list Event) :=
  MessageHandlerChain [disable_staking; nested; petri_handler].

(** [json.RawMessage] is nil. *)
Definition no_custom (b : json_bytes) : bool := match b with JNil => true | _ => false end.

(** The custom message of a contract without privileges is unknown. *)
Lemma unprivileged_unknown a custom (c : Ctx W) :
  no_custom custom || negb (IsPrivileged (store c) a) = true → DispatchMsg govRouter a custom c = (Err ErrUnknownMsg, c).
Proof.
  intros Hor. unfold DispatchMsg. destruct custom; [done|..]; cbn in Hor; unfold mbind, M_bind, gets; by rewrite Hor.
Qed.

(** C4: A staking message of a contract is refused before anything else looks at it; what wasmd
    knows is left to wasmd, and only what it does not know reaches x/twasm: a custom message of a
    privileged contract is executed as [DispatchMsg] does, everything else fails and changes nothing. *)
Theorem contract_messages_routed a msg (c : Ctx W) :
  (∀ e c', nested a msg c = (Err e, c') → ErrIs ErrUnknownMsg e = true → c' = c) →
  SetupWasmHandlers a msg c =
  match Msg_Staking msg with
  | Some _ => (Err (Wrap ErrExecuteFailed "not supported, yet"), c)
  | None =>
      match nested a msg c with
      | (Err e, c') =>
          if negb (ErrIs ErrUnknownMsg e) then (Err e, c')
          else if no_custom (Msg_Custom msg) || negb (IsPrivileged (store c) a)
          then (Err (Wrap ErrUnknownMsg "no handler found"), c)
          else match DispatchMsg govRouter a (Msg_Custom msg) c with
               | (Err e, c') => (Err (if ErrIs ErrUnknownMsg e then Wrap ErrUnknownMsg "no handler found" else e), c')
               | r => r
               end
      | r => r
      end
  end.
Proof.
  intros Hn. unfold SetupWasmHandlers. cbn. unfold disable_staking. destruct (Msg_Staking msg); [done|]. cbn.
  destruct (nested a msg c) as [[r|e|p] c'] eqn:E; [done| |done]. destruct (ErrIs ErrUnknownMsg e) eqn:He; [|done].
  cbn [negb]. rewrite (Hn e c' eq_refl He). unfold petri_handler. destruct (_ || _) eqn:Hor.
  - by rewrite unprivileged_unknown.
  - destruct (DispatchMsg _ _ _ _) as [[r|e'|p] c1]; [done| |done]. by destruct (ErrIs _ e').
Qed.
End handlers.

(** C4: on the chain [w3] dave, who is not privileged, sends a custom message, and alice a staking message. *)
Lemma contract_messages_routed_witness :
  let nested (_ : AccAddress) (_ : CosmosMsg) : M World (list Event) := fail_with (Wrap ErrUnknownMsg "custom variant not supported") in
  let router := mkRouter (λ _, false) (λ _, Err ErrNotFound) (λ _ _, Ok ()) (Ok ()) in
  SetupWasmHandlers nested router "dave" (mkCosmosMsg None (JText (JObj [])) JNull) (mkCtx w3 []) =
    (Err (Wrap ErrUnknownMsg "no handler found"), mkCtx w3 []) ∧
  SetupWasmHandlers nested router "alice" (mkCosmosMsg (Some JNull) JNil JNull) (mkCtx w3 []) =
    (Err (Wrap ErrExecuteFailed "not supported, yet"), mkCtx w3 []).
Proof.
  intros nested router. split.
  - rewrite (contract_messages_routed nested router "dave"); [|by intros e c' [= <- <-]]. cbn [Msg_Staking nested fail_with].
    assert (IsPrivileged w3 "dave" = false) as Hp by (vm_compute; reflexivity). cbn [store]. rewrite Hp. reflexivity.
  - rewrite (contract_messages_routed nested router "alice"); [reflexivity|by intros e c' [= <- <-]].
Defined.

(** ** Module accounts *)
Inductive Permission := Minter | Burner | Staking.
#[export] Instance Permission_eq_dec : EqDecision Permission.
Proof. solve_decision. Defined.

Definition maccPerms : list (string * list Permission) :=
  [("transfer", [Minter; Burner]); ("interchainaccounts", []); (ModuleName, [Minter; Burner]); (BondedPoolName, [Burner; Staking])].

Definition ModuleAccountAddrs (NewModuleAddress : string → AccAddress) `{Bech32} : list (string * bool) :=
  (λ acc, (AccAddress_String (NewModuleAddress acc.1), true)) <$> maccPerms.

(** A copy of the map: the order does not matter, the lists are shared. *)
Definition GetMaccPerms : gmap string (list Permission) := list_to_map maccPerms.

Definition has_permission (acc : string) (p : Permission) : bool :=
  match GetMaccPerms !! acc with Some ps => bool_decide (p ∈ ps) | None => false end.

(** The bank panics for a module account without the permission: the account that x/twasm mints
    with may mint, and the pool it delegates to may hold delegations. *)
Lemma handlers_permitted :
  has_permission ModuleName Minter = true ∧ has_permission BondedPoolName Staking = true.
Proof. split; vm_compute; reflexivity. Qed.
Lemma maccPerms_distinct : NoDup maccPerms.*1.
Proof. apply (bool_decide_unpack _). vm_compute. exact I. Qed.

(** ** Parameter subspaces *)
Definition initParamsKeeper : list string :=
  ["auth"; "bank"; "crisis"; "transfer"; "ibc"; "icahost"; "wasm"; "globalfee"; "poe"].
(** The subspaces that [NewPetriApp] asks for; [getSubspace] ignores that one is missing. *)
Definition requested_subspaces : list string :=
  ["auth"; "bank"; "crisis"; "ibc"; "transfer"; "icahost"; "wasm"; "poe"; "globalfee"].
Lemma subspaces_exist : Forall (.∈ initParamsKeeper) requested_subspaces.
Proof. apply (bool_decide_unpack _). vm_compute. exact I. Qed.

(** ** Upgrade handlers *)
Section upgrades.
Context `{!AuthKeeper W, !Bech32}.
Variable RunMigrations : VersionMap → M W VersionMap.

(** [upgradeKeeper.SetUpgradeHandler] for each upgrade; a later one replaces an earlier one of the same name. *)
Definition setupUpgradeHandlers : gmap string (VersionMap → M W VersionMap) :=
  foldl (λ hs u, <[u.1 := u.2]> hs) ∅ (Upgrades RunMigrations).

Lemma upgrade_handlers :
  setupUpgradeHandlers !! "v2" = Some (CreateUpgradeHandler_v2 RunMigrations) ∧
  setupUpgradeHandlers !! "v3" = Some (CreateUpgradeHandler RunMigrations).
Proof. by split. Qed.
End upgrades.
