(* ===== verification/ClientQuery.v ===== *)
(** The query commands (x/poe/client/cli/query.go, x/twasm/client/cli/query.go,
    x/globalfee/client/cli/query.go).

    A command is the function from its arguments and flags to what it prints; the flag library,
    the connection to the node and the printer are parameters: [QueryClient] is the
    generated client, [server_client] the client that reaches the server of [PoEQueries] directly. *)
From stdpp Require Import base list strings gmap sets sorting pretty.
From Stdlib Require Import ZArith Lia Ascii.
From S2P Require Import Prelude Sdk RefStore Slice Json JsonProps Privilege TwasmMsgs Wasm TwasmKeeper TwasmHandler TwasmSteps RefWorld TwasmAbci GlobalFee GoTime PoETypes PoEMsgs PoETypesProps PoEKeeper PoEContractIO PoEValset PoEAdapters PoEServer PoEQueries PoEWasmQuery PoEValsetProps RefPoE RefBootstrap PoEQueriesProps.
Open Scope Z_scope.

(** ** The client of x/poe *)
Record QueryClient := mkQueryClient {
  QC_ContractAddress : Z → outcome string;
  QC_UnbondingPeriod : outcome Z;
  QC_Validators : QueryValidatorsRequest → outcome (list StakingValidator * option bytes);
  QC_Validator : string → outcome StakingValidator;
  QC_HistoricalInfo : Z → outcome HistoricalInfo;
  QC_ValidatorDelegation : string → outcome Coin;
  QC_ValidatorUnbondingDelegations : string → option PageRequest → outcome (list UnbondingEntry);
  QC_ValidatorOutstandingReward : string → outcome DecimalCoin;
  QC_ValidatorEngagementReward : string → outcome DecimalCoin }.

(** What a command prints. *)
Inductive Output :=
  | PrintString (s : string)
  | PrintAddress (address : string)
  | PrintPeriod (period : Z)
  | PrintValidators (validators : list StakingValidator) (nextKey : option bytes)
  | PrintValidator (validator : StakingValidator)
  | PrintHistoricalInfo (hist : HistoricalInfo)
  | PrintBalance (balance : Coin)
  | PrintEntries (entries : list UnbondingEntry)
  | PrintDec (total : Dec).

(** The flags of a command with pages. *)
Record PageFlags := mkPageFlags { flag_page_key : string; flag_limit : Z }.
(** [AddPaginationFlagsToCmd] *)
Definition AddPaginationFlagsToCmd : PageFlags := mkPageFlags "" 100.

(** [client.ReadPageRequest] for a command without the other flags. *)
Class PageRequests := {
  ReadPageRequest : PageFlags → outcome PageRequest;
}.
Class PageRequestLaws `{PageRequests} := {
  ReadPageRequest_spec f : ReadPageRequest f = Ok (mkPageRequest (flag_page_key f) 0 (flag_limit f) false);
}.

(** The key is printed as base64: it is decoded before the SDK reads the flags. *)
Definition withPageKeyDecoded (f : PageFlags) : outcome PageFlags :=
  match b64_decode (flag_page_key f) with
  | Some raw => Ok (mkPageFlags raw (flag_limit f))
  | None => Panic "illegal base64 data at input byte %d"
  end.

(** [strings.Join(names, sep)] *)
Fixpoint Join (names : list string) (sep : string) : string :=
  match names with
  | [] => ""
  | [n] => n
  | n :: names' => n +:+ sep +:+ Join names' sep
  end.
Definition allPoEContractTypeNames : string := Join (PoEContractType_String <$> PoEContractTypes) ", ".

Section commands.
Context `{!Bech32, !SdkMath, !PageRequests}.
(** [client.GetClientQueryContext(cmd)] *)
Variable clientCtx : outcome ().
Variable queryClient : QueryClient.

Definition GetCmdShowPoEContract (arg : string) (address : outcome bool) : outcome Output :=
  clientCtx ;;
  let cbt := PoEContractTypeFrom arg in
  if decide (cbt = PoEContractTypeUndefined) then Err (new_err "unknown contract type: %q")
  else
    res ← QC_ContractAddress queryClient cbt;
    match address with
    | Ok true => Ok (PrintString res)
    | _ => Ok (PrintAddress res)
    end.

Definition GetCmdQueryUnbondingPeriod : outcome Output :=
  clientCtx ;; res ← QC_UnbondingPeriod queryClient; Ok (PrintPeriod res).

(** The status is left empty on purpose. *)
Definition GetCmdQueryValidators (flags : PageFlags) : outcome Output :=
  clientCtx ;;
  decoded ← withPageKeyDecoded flags;
  pageReq ← ReadPageRequest decoded;
  result ← QC_Validators queryClient (mkValidatorsRequest "" (Some pageReq));
  Ok (PrintValidators result.1 result.2).

Definition GetCmdQueryValidator (arg : string) : outcome Output :=
  clientCtx ;;
  addr ← AccAddressFromBech32 arg;
  res ← QC_Validator queryClient (AccAddress_String addr);
  Ok (PrintValidator res).

Definition GetCmdQueryHistoricalInfo (arg : string) : outcome Output :=
  clientCtx ;;
  match ParseInt arg with
  | Ok height =>
      if height <? 0 then Err (new_err "height argument provided must be a non-negative-integer: %v")
      else hist ← QC_HistoricalInfo queryClient height; Ok (PrintHistoricalInfo hist)
  | _ => Err (new_err "height argument provided must be a non-negative-integer: %v")
  end.

(** Validator addresses have the prefix of accounts ([Bech32PrefixValAddr] in app.go): the
    functions for them are those for accounts. *)
Definition GetCmdQueryValidatorDelegation (arg : string) : outcome Output :=
  clientCtx ;;
  valAddr ← AccAddressFromBech32 arg;
  res ← QC_ValidatorDelegation queryClient (AccAddress_String valAddr);
  Ok (PrintBalance res).

Definition GetCmdQueryValidatorUnbondingDelegations (arg : string) (flags : PageFlags) : outcome Output :=
  clientCtx ;;
  valAddr ← AccAddressFromBech32 arg;
  decoded ← withPageKeyDecoded flags;
  pageReq ← ReadPageRequest decoded;
  res ← QC_ValidatorUnbondingDelegations queryClient (AccAddress_String valAddr) (Some pageReq);
  Ok (PrintEntries res).

Definition queryDistributionRewards (valAddr : AccAddress) : outcome DecimalCoin :=
  QC_ValidatorOutstandingReward queryClient (AccAddress_String valAddr).
Definition queryEngagementRewards (valAddr : AccAddress) : outcome DecimalCoin :=
  QC_ValidatorEngagementReward queryClient (AccAddress_String valAddr).

(** [reward, err := query(...); if err != nil { return err }; total = total.Add(reward.Amount)] *)
Definition add_reward (query : outcome DecimalCoin) (total : Dec) : outcome Dec :=
  reward ← query; Dec_Add total (DCoin_Amount reward).

Definition GetCmdQueryValidatorReward (arg : string) (distribution engagement : outcome bool) : outcome Output :=
  clientCtx ;;
  valAddr ← AccAddressFromBech32 arg;
  distrRewards ← distribution;
  engRewards ← engagement;
  let total := dec 0 in
  total ← (if negb (distrRewards || engRewards)
           then total ← add_reward (queryDistributionRewards valAddr) total; add_reward (queryEngagementRewards valAddr) total
           else Ok total);
  total ← (if (distrRewards : bool) then add_reward (queryDistributionRewards valAddr) total else Ok total);
  total ← (if (engRewards : bool) then add_reward (queryEngagementRewards valAddr) total else Ok total);
  Ok (PrintDec total).
End commands.

(** ** The client of a node *)
Section server.
Context `{!KVStore W, !PoEParamStore W, !HistoryCodec, !ContractCalls W, !Bech32, !SdkMath, !SdkText, !SdkDecimal,
  !SdkCoins, !ForeignDecoders, !CoinTypes}.
Context (NewAnyWithValue : PubKey → outcome Any).

(** The request of the unbonding delegations has a page the server does not look at. *)
Definition server_client (k : KState W) : QueryClient :=
  {| QC_ContractAddress t := ContractAddress k (Some t);
     QC_UnbondingPeriod := UnbondingPeriod_query k (Some ());
     QC_Validators r := Validators NewAnyWithValue k (Some r);
     QC_Validator a := Query_Validator NewAnyWithValue k (Some a);
     QC_HistoricalInfo h := HistoricalInfo_query k (Some h);
     QC_ValidatorDelegation a := ValidatorDelegation k (Some a);
     QC_ValidatorUnbondingDelegations a _ := ValidatorUnbondingDelegations k (Some a);
     QC_ValidatorOutstandingReward a := ValidatorOutstandingReward k (Some a);
     QC_ValidatorEngagementReward a := ValidatorEngagementReward k (Some a) |}.
End server.

(** ** The commands of the other modules *)
Section others.
Context `{!KVStore W, !WasmKeeper W, !Bech32} (clientCtx : outcome ()).

Definition GetCmdShowPrivilegedContracts (w : W) (arg : string) : outcome (list string) :=
  clientCtx ;;
  match PrivilegeTypeFrom arg with
  | None => Err (new_err "unknown privilege type: %q")
  | Some cbt => ContractsByPrivilegeType w (PrivilegeType_String cbt)
  end.
Definition GetCmdListPrivilegedContracts (w : W) : outcome (list string) := clientCtx ;; Ok (PrivilegedContracts w).
Definition GetCmdShowMinimumGasPrices `{!FeeParams W} (w : W) : outcome (list DecCoin) := clientCtx ;; MinimumGasPrices w.
End others.

(** ** Pages *)
Section pages.
Context `{!KVStore W, !PoEParamStore W, !HistoryCodec, !ContractCalls W, !Bech32, !SdkMath, !SdkText, !SdkDecimal,
  !SdkCoins, !ForeignDecoders, !CoinTypes, !PageRequests, !PageRequestLaws}.
Context (NewAnyWithValue : PubKey → outcome Any) (k : KState W).

(** A user who asks for the next page with the key that is printed, as base64, until none is printed. *)
Fixpoint follow_pages (fuel : nat) (key : string) (limit : Z) : option (outcome (list StakingValidator)) :=
  match fuel with
  | O => None
  | S n =>
      match GetCmdQueryValidators (Ok ()) (server_client NewAnyWithValue k) (mkPageFlags key limit) with
      | Ok (PrintValidators vs None) => Some (Ok vs)
      | Ok (PrintValidators vs (Some nextKey)) =>
          rest ← follow_pages n (b64_encode nextKey) limit; Some (r ← rest; Ok (vs ++ r))
      | Ok _ => Some (Err (new_err "output"))
      | Err e => Some (Err e)
      | Panic p => Some (Panic p)
      end
  end.

(** The command asks the contract for the page after the operator that the key stands for. *)
Lemma validators_cmd s limit :
  GetCmdQueryValidators (Ok ()) (server_client NewAnyWithValue k) (mkPageFlags (b64_encode s) limit) =
  rsp ← as_status status_Internal
    (ListValidators NewAnyWithValue (world k) (ValsetContract_of k) (Some (mkPaginator s limit)));
  Ok (PrintValidators rsp.1 (if decide (rsp.2 = "") then None else Some rsp.2)).
Proof using All.
  unfold GetCmdQueryValidators, withPageKeyDecoded. cbn [mbind outcome_bind flag_page_key flag_limit].
  rewrite b64_roundtrip. cbn [mbind outcome_bind]. rewrite ReadPageRequest_spec.
  cbn [mbind outcome_bind server_client QC_Validators flag_page_key flag_limit]. unfold Validators, request.
  cbn [mbind outcome_bind VR_Status VR_Pagination]. rewrite bool_decide_false by naive_solver.
  cbn [check mbind outcome_bind NewPaginator PR_Offset CountTotal PR_Key PR_Limit Z.eqb negb].
  by destruct (as_status _ _).
Qed.

Context (addr : AccAddress) (ops : list OperatorResponse) (page : string → nat) (limit : Z).
Hypothesis contract_serves : serves_operators NewAnyWithValue k addr ops page limit.

Lemma follow_from fuel pre rest s :
  ops = pre ++ rest → after_by OR_Operator s ops = rest → (length rest < fuel)%nat →
  ∃ vals, follow_pages fuel (b64_encode s) limit = Some (Ok vals) ∧ SV_OperatorAddress <$> vals = OR_Operator <$> rest.
Proof using All.
  revert pre rest s. induction fuel as [|fuel IH]; [lia|]. intros pre rest s Hops Hafter Hfuel. cbn [follow_pages].
  rewrite validators_cmd. destruct (list_page _ _ _ _ _ _ contract_serves s) as (vals & -> & Hv). rewrite Hafter in *.
  cbn [as_status mbind outcome_bind fst snd].
  destruct (page_step _ _ _ _ _ _ contract_serves pre rest s Hops Hafter) as [[-> Ht]|(u & Hu & Hne & Hlen & Hops' & Hafter')].
  - rewrite Ht in *. cbn [last from_option]. rewrite decide_True by done. by exists vals.
  - rewrite Hu. cbn [from_option]. rewrite decide_False by done.
    destruct (IH _ _ _ Hops' Hafter') as (vs & -> & Hvs); [lia|]. cbn. exists (vals ++ vs). split; [done|].
    by rewrite fmap_app, Hv, Hvs, <-fmap_app, take_drop.
Qed.

(** C38: Following the page keys that the validators command prints lists every operator of the valset
    contract once, in the contract's order, whatever the limit and the sizes of the pages; it ends
    after at most one page per validator and one more. *)
Theorem cli_pages_complete fuel :
  (length ops < fuel)%nat →
  ∃ vals, follow_pages fuel (flag_page_key AddPaginationFlagsToCmd) limit = Some (Ok vals) ∧
    SV_OperatorAddress <$> vals = OR_Operator <$> ops.
Proof using All.
  intros Hf. apply (follow_from fuel [] ops ""); [done| |done]. apply after_all. by destruct contract_serves.
Qed.
End pages.

(** ** Rewards *)
Section rewards.
Context `{!Bech32, !SdkMath, !SdkMathLaws} (queryClient : QueryClient).

(** Without flags the command prints the same as with both. *)
Lemma reward_default arg :
  GetCmdQueryValidatorReward (Ok ()) queryClient arg (Ok false) (Ok false) =
  GetCmdQueryValidatorReward (Ok ()) queryClient arg (Ok true) (Ok true).
Proof using Type.
  unfold GetCmdQueryValidatorReward. cbn. destruct (AccAddressFromBech32 arg) as [a|e|p]; [|done|done]. cbn.
  destruct (add_reward _ _) as [t|e|p]; [|done|done]. cbn. by destruct (add_reward _ _).
Qed.

(** The total adds the amounts, whatever their denoms. *)
Lemma reward_total arg a d e :
  AccAddressFromBech32 arg = Ok a → queryDistributionRewards queryClient a = Ok d → queryEngagementRewards queryClient a = Ok e →
  ∀ x y, DCoin_Amount d = Some x → DCoin_Amount e = Some y → 0 ≤ x → 0 ≤ y → x + y < 2 ^ 315 →
  GetCmdQueryValidatorReward (Ok ()) queryClient arg (Ok false) (Ok false) = Ok (PrintDec (Some (x + y))).
Proof using All.
  intros Ha Hd He x y Hx Hy Hx0 Hy0 Hsum. unfold GetCmdQueryValidatorReward, add_reward. rewrite Ha. cbn.
  rewrite Hd. cbn. rewrite Hx. unfold dec. rewrite Dec_Add_some by lia. cbn. rewrite He. cbn. rewrite Hy, Dec_Add_some by lia. done.
Qed.
End rewards.

(** ** A concrete contract *)
#[local] Instance Ref_pages : PageRequests := { ReadPageRequest f := Ok (mkPageRequest (flag_page_key f) 0 (flag_limit f) false) }.
#[local] Instance Ref_page_laws : PageRequestLaws.
Proof. by constructor. Qed.
#[local] Instance Ref_paged_contract : ContractCalls RefKV := {
  Execute _ _ _ _ := fail_with (new_err "contract");
  QuerySmart _ _ q :=
    match q with
    | JObj [("list_validators", JObj [("limit", _)])] => Ok (op_page "")
    | JObj [("list_validators", JObj [("start_after", JStr s); ("limit", _)])] => Ok (op_page s)
    | _ => Err (new_err "contract")
    end;
}.
#[local] Instance Ref_kv_params : PoEParamStore RefKV := {
  param_HistoricalEntries w := Ok 3;
  param_InitialValEngagementPoints w := Ok 1;
  param_MinDelegationAmounts w := Ok [];
  poe_SetParamSet p := mret ();
}.

Lemma ref_paged : serves_operators ref_any ref_queries "valset" ref_ops (λ _, 1%nat) 100.
Proof.
  constructor.
  - reflexivity.
  - repeat constructor; vm_compute; reflexivity.
  - repeat constructor; discriminate.
  - repeat constructor.
  - intros s. lia.
  - intros s. exists (op_page s). split.
    + cbn. unfold enc_ListValidatorsQuery, nonempty. by case_decide as Hs; [subst|].
    + unfold op_page, ref_ops, after_by. repeat (rewrite filter_cons; case_decide); reflexivity.
Qed.

(** C38: two operators in pages of one, with the default limit. *)
Lemma cli_pages_complete_witness :
  ∃ vals, follow_pages ref_any ref_queries 3 "" 100 = Some (Ok vals) ∧ SV_OperatorAddress <$> vals = ["furya1a"; "furya1b"].
Proof.
  destruct (cli_pages_complete ref_any ref_queries "valset" ref_ops (λ _, 1%nat) 100 ref_paged 3) as (vals & Hf & Hv);
    [vm_compute; lia|].
  exists vals. split; [exact Hf|exact Hv].
Defined.
