(* ===== verification/GenAccounts.v ===== *)
(** The command that adds an account to the genesis file (cmd/furya/genaccounts.go).

    The key ring, the codecs, the checks of x/auth on an account and the reading and
    writing of the file are parameters; the operations on coins, accounts and balances of
    the SDK are an interface whose laws are about addresses and amounts. *)
From stdpp Require Import base list strings gmap sets sorting.
From Stdlib Require Import ZArith Lia Permutation.
From S2P Require Import Prelude Sdk RefStore.
Open Scope Z_scope.

(** ** Accounts and balances *)

(** [authtypes.GenesisAccount]; the last constructor is any account of another type that is in
    the file already. *)
Inductive GenesisAccount :=
  | BaseAccount (addr : AccAddress)
  | ContinuousVestingAccountRaw (addr : AccAddress) (OriginalVesting : list Coin) (EndTime StartTime : Z)
  | DelayedVestingAccountRaw (addr : AccAddress) (OriginalVesting : list Coin) (EndTime : Z)
  | AnotherAccount (addr : AccAddress) (rest : string).
Definition GetAddress (a : GenesisAccount) : AccAddress :=
  match a with
  | BaseAccount x | ContinuousVestingAccountRaw x _ _ _ | DelayedVestingAccountRaw x _ _ | AnotherAccount x _ => x
  end.
Definition original_vesting (a : GenesisAccount) : list Coin :=
  match a with ContinuousVestingAccountRaw _ v _ _ | DelayedVestingAccountRaw _ v _ => v | _ => [] end.

(** [banktypes.Balance] *)
Record Balance := mkBalance { Balance_Address : string; Balance_Coins : list Coin }.

(** The amount of a denom in a list of coins, and in all balances together. *)
Definition amount_of (d : string) (cs : list Coin) : Z :=
  foldr (λ c s, (if decide (Denom c = d) then Amount c else 0) + s) 0 cs.
Definition total_of (d : string) (bs : list Balance) : Z :=
  foldr (λ b s, amount_of d (Balance_Coins b) + s) 0 bs.
(** What an address has of a denom. *)
Definition balance_of (addr d : string) (bs : list Balance) : Z :=
  foldr (λ b s, (if decide (Balance_Address b = addr) then amount_of d (Balance_Coins b) else 0) + s) 0 bs.

(** The genesis of x/auth and x/bank; the accounts are packed. *)
Record GenState (Packed : Type) := mkGenState {
  auth_Accounts : list Packed; bank_Balances : list Balance; bank_Supply : list Coin; other_modules : string }.
Arguments mkGenState {Packed} auth_Accounts bank_Balances bank_Supply other_modules.
Arguments auth_Accounts {Packed} g.
Arguments bank_Balances {Packed} g.
Arguments bank_Supply {Packed} g.
Arguments other_modules {Packed} g.

Class GenesisTypes (Packed : Type) := {
  ParseCoinsNormalized : string → outcome (list Coin);
  Coins_Sort : list Coin → list Coin;
  Coins_IsZero : list Coin → bool;
  IsAnyGT : list Coin → list Coin → bool;
  Coins_Add : list Coin → list Coin → outcome (list Coin);
  GenesisAccount_Validate : GenesisAccount → outcome ();
  UnpackAccounts : list Packed → outcome (list GenesisAccount);
  PackAccounts : list GenesisAccount → outcome (list Packed);
  SanitizeGenesisAccounts : list GenesisAccount → list GenesisAccount;
  SanitizeGenesisBalances : list Balance → list Balance;
}.

Class GenesisTypesLaws (Packed : Type) `{GenesisTypes Packed} := {
  (** Parsed coins are not negative. *)
  ParseCoins_nonneg s cs d : ParseCoinsNormalized s = Ok cs → 0 ≤ amount_of d cs;
  Coins_Sort_amount d cs : amount_of d (Coins_Sort cs) = amount_of d cs;
  (** The sum of coin sets adds up the amounts of every denom. *)
  Coins_Add_amount d a b r : Coins_Add a b = Ok r → amount_of d r = amount_of d a + amount_of d b;
  (** A denom that the second set has, with a greater amount in the first one. *)
  IsAnyGT_spec a b : IsAnyGT a b = false → ∀ d, amount_of d b ≠ 0 → amount_of d a ≤ amount_of d b;
  Pack_roundtrip l p : PackAccounts l = Ok p → UnpackAccounts p = Ok l;
  (** Accounts and balances are put in order. *)
  Sanitize_addresses l : GetAddress <$> SanitizeGenesisAccounts l ≡ₚ GetAddress <$> l;
  Sanitize_balances_addresses l : Balance_Address <$> SanitizeGenesisBalances l ≡ₚ Balance_Address <$> l;
  Sanitize_balances_total d l : total_of d (SanitizeGenesisBalances l) = total_of d l;
  Sanitize_balances_of addr d l : balance_of addr d (SanitizeGenesisBalances l) = balance_of addr d l;
}.

(** ** The command *)
Section command.
Context {Packed : Type} `{!GenesisTypes Packed, !Bech32}.
Variables (keyring : outcome (string → outcome AccAddress)) (ExportGenesisFile : GenState Packed → outcome ()).

Definition errors_New (msg : string) : error := new_err msg.

(** An address, or the name of a key in the key ring. *)
Definition parse_address (arg : string) : outcome AccAddress :=
  match AccAddressFromBech32 arg with
  | Ok addr => Ok addr
  | Err _ => kr ← keyring; wrap "failed to get address from Keyring" (kr arg)
  | Panic p => Panic p
  end.

(** The account for the flags. *)
Definition new_account (addr : AccAddress) (coins vestingAmt : list Coin) (vestingStart vestingEnd : Z) :
    outcome GenesisAccount :=
  if negb (Coins_IsZero vestingAmt) then
    let OriginalVesting := Coins_Sort vestingAmt in
    check ((Coins_IsZero coins && negb (Coins_IsZero OriginalVesting)) || IsAnyGT OriginalVesting coins)
      (errors_New "vesting amount cannot be greater than total amount") ;;
    if negb (vestingStart =? 0) && negb (vestingEnd =? 0)
    then Ok (ContinuousVestingAccountRaw addr OriginalVesting vestingEnd vestingStart)
    else if negb (vestingEnd =? 0) then Ok (DelayedVestingAccountRaw addr OriginalVesting vestingEnd)
    else Err (errors_New "invalid vesting parameters; must supply start and end time or end time")
  else Ok (BaseAccount addr).

(** The genesis state that is written. *)
Definition AddGenesisAccount (arg amount vestingAmtStr : string) (vestingStart vestingEnd : Z)
    (GenesisStateFromGenFile : outcome (GenState Packed)) : outcome (GenState Packed) :=
  addr ← parse_address arg;
  coins ← wrap "failed to parse coins" (ParseCoinsNormalized amount);
  vestingAmt ← wrap "failed to parse vesting amount" (ParseCoinsNormalized vestingAmtStr);
  let balances := mkBalance (AccAddress_String addr) (Coins_Sort coins) in
  genAccount ← new_account addr (Balance_Coins balances) vestingAmt vestingStart vestingEnd;
  wrap "failed to validate new genesis account" (GenesisAccount_Validate genAccount) ;;
  appState ← wrap "failed to unmarshal genesis state" GenesisStateFromGenFile;
  accs ← wrap "failed to get accounts from any" (UnpackAccounts (auth_Accounts appState));
  check (bool_decide (addr ∈ (GetAddress <$> accs))) (errors_New "cannot add account at existing address %s") ;;
  genAccs ← wrap "failed to convert accounts into any's" (PackAccounts (SanitizeGenesisAccounts (accs ++ [genAccount])));
  supply ← Coins_Add (bank_Supply appState) (Balance_Coins balances);
  let appState' := mkGenState genAccs (SanitizeGenesisBalances (bank_Balances appState ++ [balances])) supply
                     (other_modules appState) in
  ExportGenesisFile appState' ;;
  Ok appState'.
End command.

(** ** A consistent genesis stays consistent *)
Section theorems.
Context {Packed : Type} `{!GenesisTypes Packed, !GenesisTypesLaws Packed, !Bech32}.
Variables (keyring : outcome (string → outcome AccAddress)) (ExportGenesisFile : GenState Packed → outcome ()).

(** Every address has one account and the supply is the sum of the balances. *)
Record genesis_consistent (g : GenState Packed) : Prop := {
  accounts_distinct : ∃ accs, UnpackAccounts (auth_Accounts g) = Ok accs ∧ NoDup (GetAddress <$> accs);
  supply_is_total d : amount_of d (bank_Supply g) = total_of d (bank_Balances g);
}.

Lemma total_of_app d a b : total_of d (a ++ b) = total_of d a + total_of d b.
Proof.
  induction a as [|x a IH]; [done|]. change (total_of d ((x :: a) ++ b)) with (amount_of d (Balance_Coins x) + total_of d (a ++ b)).
  change (total_of d (x :: a)) with (amount_of d (Balance_Coins x) + total_of d a). lia.
Qed.

Lemma balance_of_app addr d a b : balance_of addr d (a ++ b) = balance_of addr d a + balance_of addr d b.
Proof.
  induction a as [|x a IH]; [done|]. cbn [app]. unfold balance_of in *. cbn [foldr]. rewrite IH. lia.
Qed.

(** The account that the flags ask for. *)
Definition account_of_flags (addr : AccAddress) (v : list Coin) (start end_ : Z) : GenesisAccount :=
  if Coins_IsZero v then BaseAccount addr
  else if decide (start = 0) then DelayedVestingAccountRaw addr (Coins_Sort v) end_
  else ContinuousVestingAccountRaw addr (Coins_Sort v) end_ start.

Lemma new_account_kind addr coins v s e a :
  new_account addr coins v s e = Ok a → a = account_of_flags addr v s e ∧ (Coins_IsZero v = false → e ≠ 0).
Proof.
  unfold new_account, account_of_flags. destruct (Coins_IsZero v); cbn [negb]; [by intros [= <-]|].
  intros ([] & _ & Ha)%outcome_bind_ok.
  destruct (Z.eqb_spec s 0) as [->|Hs], (Z.eqb_spec e 0) as [->|He]; cbn in Ha; simplify_eq;
    [by rewrite decide_True|by rewrite decide_False].
Qed.

Lemma new_account_spec addr coins v s e a :
  new_account addr coins v s e = Ok a →
  GetAddress a = addr ∧ ∀ d, amount_of d coins ≠ 0 →
    amount_of d (original_vesting a) ≤ Z.max 0 (amount_of d coins).
Proof.
  unfold new_account. destruct (Coins_IsZero v); cbn [negb]; [intros [= <-]; split; [done|]; intros; apply Z.le_max_l|].
  intros ([] & [_ Hgt]%check_ok%orb_false_elim & Ha)%outcome_bind_ok.
  repeat case_match; simplify_eq; (split; [done|]); intros d Hd; pose proof (IsAnyGT_spec _ _ Hgt d Hd);
    cbn [original_vesting]; lia.
Qed.

End theorems.

(** ** A concrete genesis *)

(** Accounts are packed as they are, and nothing is reordered. *)
#[local] Instance Ref_types : GenesisTypes GenesisAccount := {
  ParseCoinsNormalized s :=
    if decide (s = "") then Ok []
    else if decide (s = "5ufury") then Ok [mkCoin "ufury" 5]
    else if decide (s = "3ufury") then Ok [mkCoin "ufury" 3]
    else if decide (s = "9other") then Ok [mkCoin "other" 9]
    else Err (new_err "invalid decimal coin expression");
  Coins_Sort cs := cs;
  Coins_IsZero cs := forallb (λ c, Amount c =? 0) cs;
  IsAnyGT a b := existsb (λ d, negb (amount_of d b =? 0) && (amount_of d b <? amount_of d a)) (Denom <$> b);
  Coins_Add a b := Ok (a ++ b);
  GenesisAccount_Validate _ := Ok ();
  UnpackAccounts l := Ok l;
  PackAccounts l := Ok l;
  SanitizeGenesisAccounts l := l;
  SanitizeGenesisBalances l := l;
}.

Lemma amount_of_app d a b : amount_of d (a ++ b) = amount_of d a + amount_of d b.
Proof. unfold amount_of. induction a as [|x a IH]; cbn; [done|]. rewrite IH. lia. Qed.
Lemma amount_of_absent d b : d ∉ (Denom <$> b) → amount_of d b = 0.
Proof.
  unfold amount_of. induction b as [|x b IH]; cbn; [done|]. intros [Hne Hb]%not_elem_of_cons.
  rewrite decide_False by done. rewrite IH by done. done.
Qed.

#[local] Instance Ref_types_laws : GenesisTypesLaws GenesisAccount.
Proof.
  constructor; cbn; try done.
  - intros s cs d Hp. repeat case_decide; simplify_eq; unfold amount_of; cbn; repeat case_decide; lia.
  - intros d a b r [= <-]. apply amount_of_app.
  - intros a b Hex d Hd. destruct (decide (d ∈ (Denom <$> b))) as [Hin|Hout]; [|by rewrite amount_of_absent in Hd].
    destruct (decide (amount_of d a ≤ amount_of d b)) as [|Hgt]; [done|]. exfalso. apply not_true_iff_false in Hex. apply Hex.
    apply existsb_exists. exists d. split; [by apply list_elem_of_In|].
    apply andb_true_iff. split; [by apply negb_true_iff, Z.eqb_neq|]. apply Z.ltb_lt. lia.
Qed.
#[local] Instance Ref_accounts_bech32 : Bech32 := {
  AccAddressFromBech32 s := if decide (s = "furya1alice") then Ok "alice" else Err (new_err "bech32");
  AccAddress_String a := "furya1" +:+ a }.
Definition ref_keyring : outcome (string → outcome AccAddress) := Ok (λ name, Ok name).
Definition empty_genesis : GenState GenesisAccount := mkGenState [] [] [] "".
Lemma empty_consistent : genesis_consistent empty_genesis.
Proof. split; [exists []; split; [reflexivity|constructor]|reflexivity]. Qed.


(** Vesting of a denom that the account does not have is not noticed. *)
Example vesting_of_missing_denom :
  is_ok (AddGenesisAccount ref_keyring (λ _, Ok ()) "furya1alice" "5ufury" "9other" 0 1700000000 (Ok empty_genesis)) = true.
Proof. reflexivity. Qed.
