(* ===== verification/TestnetIP.v ===== *)
(** The addresses of the nodes of a test network ([getIP] and [calculateIP] of
    cmd/furya/testnet.go).

    The parsing and printing of IPv4 addresses of Go's package net are modelled; the parser of
    IPv6 texts is a parameter, since the command refuses every address that is no IPv4 one. *)
From stdpp Require Import base list strings pretty.
From Stdlib Require Import ZArith Lia Ascii.
From S2P Require Import Prelude Sdk.
Open Scope Z_scope.

(** ** Addresses of the package net *)

(** [strings.Split] at one character *)
Fixpoint split_on (c : ascii) (s : string) : list string :=
  match s with
  | "" => [""]
  | String x s' =>
      if decide (x = c) then "" :: split_on c s'
      else match split_on c s' with p :: ps => String x p :: ps | [] => [String x ""] end
  end.

(** A decimal number up to 255 without leading zeros. *)
Definition parse_octet (s : string) : option Z :=
  match s with
  | String "0" (String _ _) => None
  | _ => n ← unsigned s; if n <=? 255 then Some n else None
  end.

Definition v4InV6Prefix : list Z := [0; 0; 0; 0; 0; 0; 0; 0; 0; 0; 255; 255].
Definition parseIPv4 (s : string) : option (list Z) :=
  match split_on "." s with
  | [a; b; c; d] => x ← parse_octet a; y ← parse_octet b; z ← parse_octet c; t ← parse_octet d; Some (v4InV6Prefix ++ [x; y; z; t])
  | _ => None
  end.

(** The first separator decides on the kind of the address. *)
Fixpoint separator (s : string) : option ascii :=
  match s with
  | "" => None
  | String x s' => if decide (x = "." ∨ x = ":")%char then Some x else separator s'
  end.
Definition ParseIP (parseIPv6 : string → option (list Z)) (s : string) : option (list Z) :=
  match separator s with
  | Some "."%char => parseIPv4 s
  | Some _ => parseIPv6 s
  | None => None
  end.
Definition To4 (ip : list Z) : option (list Z) :=
  if (length ip =? 4)%nat then Some ip
  else if (length ip =? 16)%nat && bool_decide (take 12 ip = v4InV6Prefix) then Some (drop 12 ip)
  else None.

Definition octet_text (b : Z) : string := pretty b.
(** [IP.String] of four bytes *)
Definition IP_String (ip : list Z) : string :=
  match ip with
  | [a; b; c; d] => octet_text a +:+ "." +:+ octet_text b +:+ "." +:+ octet_text c +:+ "." +:+ octet_text d
  | _ => "?"
  end.

(** ** The address of node i *)
Section addresses.
Variables (parseIPv6 : string → option (list Z)) (ExternalIP : outcome string).

(** [ipv4[3]++] on a slice of bytes *)
Definition next_ip (ipv4 : list Z) : list Z := alter (λ b, uint8 (b + 1)) 3%nat ipv4.

Definition calculateIP (ip : string) (i : nat) : outcome string :=
  match ip' ← ParseIP parseIPv6 ip; To4 ip' with
  | None => Err (new_err "%v: non ipv4 address")
  | Some ipv4 => Ok (IP_String (Nat.iter i next_ip ipv4))
  end.

Definition getIP (i : nat) (startingIPAddr : string) : outcome string :=
  if decide (startingIPAddr = "") then ExternalIP else calculateIP startingIPAddr i.
End addresses.

(** ** Texts read back *)
Definition octet (b : Z) : Prop := 0 ≤ b ≤ 255.

Lemma octets_read : forallb (λ n, bool_decide (parse_octet (octet_text (Z.of_nat n)) = Some (Z.of_nat n)) &&
    bool_decide (separator (octet_text (Z.of_nat n)) = None) && negb (bool_decide (octet_text (Z.of_nat n) = "")))
  (seq 0 256) = true.
Proof. vm_compute. reflexivity. Qed.
Lemma octet_reads b : octet b →
  parse_octet (octet_text b) = Some b ∧ separator (octet_text b) = None ∧ octet_text b ≠ "".
Proof.
  intros Hb. pose proof (proj1 (forallb_forall _ _) octets_read (Z.to_nat b)) as Hr. cbn beta in Hr.
  rewrite Z2Nat.id in Hr by (unfold octet in Hb; lia). rewrite !andb_true_iff, negb_true_iff in Hr.
  destruct Hr as [[H1%bool_decide_eq_true H2%bool_decide_eq_true] H3%bool_decide_eq_false]; [|done].
  apply in_seq. unfold octet in Hb. lia.
Qed.

Lemma separator_app a b : separator a = None → separator (a +:+ b) = separator b.
Proof.
  induction a as [|x a IH]; [done|]. change (String x a +:+ b) with (String x (a +:+ b)). cbn [separator]. case_decide; [done|exact IH].
Qed.
Lemma split_on_last a : separator a = None → split_on "." a = [a].
Proof.
  induction a as [|x a IH]; [done|]. cbn. case_decide as Hx; [done|]. intros Ha. rewrite decide_False by tauto. by rewrite (IH Ha).
Qed.
Lemma split_on_app a b : separator a = None → split_on "." (a +:+ "." +:+ b) = a :: split_on "." b.
Proof.
  induction a as [|x a IH]; [done|]. change (String x a +:+ "." +:+ b) with (String x (a +:+ "." +:+ b)).
  cbn [separator split_on]. case_decide as Hx; [done|]. intros Ha. rewrite decide_False by tauto. by rewrite (IH Ha).
Qed.

Lemma ip_reads p6 a b c d : octet a → octet b → octet c → octet d →
  (ip ← ParseIP p6 (IP_String [a; b; c; d]); To4 ip) = Some [a; b; c; d].
Proof.
  intros (Ha & Sa & _)%octet_reads (Hb & Sb & _)%octet_reads (Hc & Sc & _)%octet_reads (Hd & Sd & _)%octet_reads.
  unfold ParseIP, IP_String. rewrite separator_app by done.
  assert (∀ t, separator ("." +:+ t) = Some "."%char) as -> by done. unfold parseIPv4. rewrite !split_on_app, split_on_last by done.
  rewrite Ha, Hb, Hc, Hd. reflexivity.
Qed.

Lemma next_ip_iter a b c d i : octet d → Nat.iter i next_ip [a; b; c; d] = [a; b; c; (d + Z.of_nat i) mod 256].
Proof.
  intros Hd. induction i as [|i IH]; [cbn; rewrite Z.add_0_r, Z.mod_small by (unfold octet in Hd; lia); done|].
  change (Nat.iter (S i) next_ip ?x) with (next_ip (Nat.iter i next_ip x)). rewrite IH. unfold next_ip. cbn. do 4 f_equal.
  unfold uint8, wrap_u. change (2 ^ 8) with 256. rewrite Zplus_mod_idemp_l. f_equal. lia.
Qed.

Lemma calculateIP_text p6 a b c d i : octet a → octet b → octet c → octet d →
  calculateIP p6 (IP_String [a; b; c; d]) i = Ok (IP_String [a; b; c; (d + Z.of_nat i) mod 256]).
Proof. intros Ha Hb Hc Hd. unfold calculateIP. rewrite ip_reads by done. by rewrite next_ip_iter. Qed.

Lemma IP_String_inj a b c d a' b' c' d' : octet a → octet b → octet c → octet d → octet a' → octet b' → octet c' → octet d' →
  IP_String [a; b; c; d] = IP_String [a'; b'; c'; d'] → [a; b; c; d] = [a'; b'; c'; d'].
Proof.
  intros Ha Hb Hc Hd Ha' Hb' Hc' Hd' He. pose proof (ip_reads (λ _, None) a b c d Ha Hb Hc Hd) as Hr.
  rewrite He, ip_reads in Hr by done. by injection Hr as -> -> -> ->.
Qed.

(** From the IPv4 address a.b.c.d the node i of a test network gets the address
    a.b.c.((d + i) mod 256): the last byte wraps around and is not carried into the third one.
    So two nodes share an address exactly when their numbers are equal modulo 256. A
    starting address that is no IPv4 address is an error, and without one all nodes get the
    address of the machine. *)
Lemma getIP_wraps p6 external a b c d i j : octet a → octet b → octet c → octet d →
  let start := IP_String [a; b; c; d] in
  getIP p6 external i start = Ok (IP_String [a; b; c; (d + Z.of_nat i) mod 256]) ∧
  (getIP p6 external i start = getIP p6 external j start ↔ Z.of_nat i mod 256 = Z.of_nat j mod 256) ∧
  getIP p6 external i "" = external ∧
  (∀ s, s ≠ "" → (ip ← ParseIP p6 s; To4 ip) = None → is_ok (getIP p6 external i s) = false).
Proof.
  intros Ha Hb Hc Hd start.
  assert (∀ k, getIP p6 external k start = Ok (IP_String [a; b; c; (d + Z.of_nat k) mod 256])) as Hget.
  { intros k. unfold getIP. rewrite decide_False by (unfold start; cbn; destruct (octet_reads a Ha) as (_ & _ & Hne); by destruct (octet_text a)).
    by apply calculateIP_text. }
  assert (∀ k, octet ((d + k) mod 256)) as Hoct by (intros k; pose proof (Z.mod_pos_bound (d + k) 256 ltac:(lia)); unfold octet; lia).
  split_and!; [by apply Hget| |by unfold getIP|].
  - rewrite !Hget. split.
    + intros [= He]. apply IP_String_inj in He; try done; try apply Hoct. injection He as He.
      replace (Z.of_nat i) with (d + Z.of_nat i - d) by lia. replace (Z.of_nat j) with (d + Z.of_nat j - d) by lia.
      by rewrite (Zminus_mod (d + Z.of_nat i)), (Zminus_mod (d + Z.of_nat j)), He.
    + intros He. by rewrite (Zplus_mod d (Z.of_nat i)), (Zplus_mod d (Z.of_nat j)), He.
  - intros s Hs Hnone. unfold getIP. rewrite decide_False by done. unfold calculateIP. by rewrite Hnone.
Qed.

(** With the default address the last byte wraps around at node 255, and node 256 gets the
    address of node 0. *)
Lemma getIP_wraps_witness :
  let ip := getIP (λ _, None) (Ok "10.0.0.9") in
  ip 3%nat "192.168.0.1" = Ok "192.168.0.4" ∧ ip 255%nat "192.168.0.1" = Ok "192.168.0.0" ∧
  ip 256%nat "192.168.0.1" = ip 0%nat "192.168.0.1" ∧ ip 3%nat "" = Ok "10.0.0.9" ∧ is_ok (ip 3%nat "192.168.0.256") = false.
Proof.
  assert (octet 192 ∧ octet 168 ∧ octet 0 ∧ octet 1) as (H1 & H2 & H3 & H4) by (unfold octet; lia).
  pose proof (getIP_wraps (λ _, None) (Ok "10.0.0.9") 192 168 0 1 3 0 H1 H2 H3 H4) as (G3 & _ & Gx & Ge).
  pose proof (getIP_wraps (λ _, None) (Ok "10.0.0.9") 192 168 0 1 255 0 H1 H2 H3 H4) as (G255 & _).
  pose proof (getIP_wraps (λ _, None) (Ok "10.0.0.9") 192 168 0 1 256 0 H1 H2 H3 H4) as (_ & [_ Geq] & _).
  split; [exact G3|]. split; [exact G255|]. split; [apply Geq; reflexivity|]. split; [exact Gx|].
  apply Ge; [discriminate|reflexivity].
Defined.
