(* ===== verification/Testnet.v ===== *)
(** The set-up of a test network (cmd/furya/testnet.go).

    The command writes the files of all nodes below one directory. The directory is the state:
    a map per kind of file, from the name of the node to the content (for genesis
    transactions, from the name of the file). The nodes share one Tendermint and one
    application configuration, which are changed for every node and written. Key rings, the files of a node's
    validator key, signing, the codecs, coins and the default genesis of the modules are
    parameters. *)
From stdpp Require Import base list strings gmap sets sorting pretty.
From Stdlib Require Import ZArith Lia Ascii.
From S2P Require Import Prelude Sdk RefStore Slice Json Privilege Wasm GoTime PoETypes TwasmMsgs PoEMsgs GenTxCollect GenAccounts TestnetIP.
Open Scope Z_scope.

(** ** The files *)

(** The fields of [tmconfig.Config] that the command sets; the root directory is given by the
    name of the node. *)
Record NodeConfig := mkNodeConfig {
  NC_RootDir : string; NC_Moniker : string; RPC_ListenAddress : string; P2P_ListenAddress : string;
  AddrBookStrict : bool; PexReactor : bool; AllowDuplicateIP : bool; PersistentPeers : string }.
(** The fields of the application's configuration that the command sets. *)
Record AppConfig := mkAppConfig {
  MinGasPrices : string; API_Enable : bool; API_Address : string; GRPC_Address : string; GRPCWeb_Address : string;
  Telemetry_Enabled : bool; PrometheusRetentionTime : Z; EnableHostnameLabel : bool; GlobalLabels : list (list string) }.
(** [types.GenesisDoc]; there are never validators in it. *)
Record GenesisDoc := mkGenesisDoc { Doc_ChainID : string; Doc_AppState : json_bytes; Doc_GenesisTime : option Z }.

Record Files := mkFiles {
  gentxs : gmap string bytes;
  key_seeds : gmap string (gmap string string);
  app_tomls : gmap string AppConfig;
  config_tomls : gmap string NodeConfig;
  genesis_files : gmap string GenesisDoc }.
Definition no_files : Files := mkFiles ∅ ∅ ∅ ∅ ∅.
Definition write_gentx (name : string) (bz : bytes) : M Files () :=
  modify (λ f, mkFiles (<[name := bz]> (gentxs f)) (key_seeds f) (app_tomls f) (config_tomls f) (genesis_files f)).
Definition write_seeds (node : string) (seeds : gmap string string) : M Files () :=
  modify (λ f, mkFiles (gentxs f) (<[node := seeds]> (key_seeds f)) (app_tomls f) (config_tomls f) (genesis_files f)).
Definition write_app (node : string) (cfg : AppConfig) : M Files () :=
  modify (λ f, mkFiles (gentxs f) (key_seeds f) (<[node := cfg]> (app_tomls f)) (config_tomls f) (genesis_files f)).
Definition write_config (node : string) (cfg : NodeConfig) : M Files () :=
  modify (λ f, mkFiles (gentxs f) (key_seeds f) (app_tomls f) (<[node := cfg]> (config_tomls f)) (genesis_files f)).
Definition write_genesis (node : string) (doc : GenesisDoc) : M Files () :=
  modify (λ f, mkFiles (gentxs f) (key_seeds f) (app_tomls f) (config_tomls f) (<[node := doc]> (genesis_files f))).

(** [ioutil.ReadDir] of the directory of genesis transactions: sorted by name. *)
Definition name_le (a b : string * bytes) : Prop := bytes_le a.1 b.1.
#[export] Instance name_le_dec a b : Decision (name_le a b).
Proof. unfold name_le. apply _. Defined.
Definition ReadDir (f : Files) : list FileInfo :=
  (λ p, mkFileInfo p.1 false (Ok p.2)) <$> merge_sort name_le (map_to_list (gentxs f)).

(** [if err != nil { _ = os.RemoveAll(outputDir); return err }] *)
Definition cleanup {A} (m : M Files A) : M Files A := λ c,
  match m c with (Err e, c') => (Err e, mkCtx no_files (events c')) | r => r end.

(** ** JSON *)

(** [strings.ReplaceAll(text, "stake" in quotes, the new denom in quotes)] on a JSON text: the strings that are
    equal to the old denom, names of members included. *)
Definition replace_str (old new s : string) : string := if decide (s = old) then new else s.
Fixpoint replace_json (old new : string) (j : json) : json :=
  match j with
  | JStr s => JStr (replace_str old new s)
  | JArr l => JArr (map (replace_json old new) l)
  | JObj ms => JObj (map (λ m, (replace_str old new m.1, replace_json old new m.2)) ms)
  | _ => j
  end.

(** [json.Marshal] and [json.Unmarshal] of the state of the application. *)
Definition enc_raw_map (st : gmap string json) : json_bytes := JText (JObj (map_to_list st)).
Definition GenesisStateFromGenDoc (appState : json_bytes) : outcome (gmap string json) :=
  match appState with JText j => dec_raw_map j | _ => Err ErrJSON end.

(** The genesis of x/auth and of x/bank; the other fields are carried along. *)
Record AuthGenesis (Packed : Type) := mkAuthGenesis { AG_Accounts : list Packed; AG_rest : json }.
Arguments mkAuthGenesis {Packed} AG_Accounts AG_rest.
Arguments AG_Accounts {Packed} a.
Arguments AG_rest {Packed} a.
Record BankGenesis := mkBankGenesis { BG_Balances : list Balance; BG_Supply : list Coin; BG_rest : json }.

(** [sdk.NewCoin] and [sdk.NewCoins] panic on invalid coins. *)
Class CoinConstructors := {
  NewCoin : string → Z → outcome Coin;
  NewCoins : list Coin → outcome (list Coin);
}.
Class AuthJSON (Packed : Type) := {
  dec_auth : json → outcome (AuthGenesis Packed);
  enc_auth : AuthGenesis Packed → json;
}.
Class BankJSON := {
  dec_bank : json → outcome BankGenesis;
  enc_bank : BankGenesis → json;
  (** [banktypes.GenesisBalancesIterator] *)
  IterateGenesisBalances : gmap string json → outcome (list (AccAddress * list Coin));
}.
Class PoEJSON := {
  poe_UnmarshalJSON : json → outcome PoEGenesisState;
  poe_MarshalJSON : PoEGenesisState → json;
}.
Class TxCodec (Tx : Type) := {
  (** [NewTxBuilder] with the message and the memo *)
  BuildTx : MsgCreateValidator → string → outcome Tx;
  TxJSONEncoder : Tx → outcome json_bytes;
  TxJSONDecoder : bytes → outcome Tx;
  (** the bytes of an encoding, as they are written to a file *)
  json_text : json_bytes → bytes;
  GetMemo : Tx → option string;
  GetMsgs : Tx → list GenMsg;
}.

(** The [Must] functions of the codec. *)
Definition Must {A} (o : outcome A) : outcome A := match o with Err _ => Panic "codec" | _ => o end.
Definition MustUnmarshalJSON {A} (dec : json → outcome A) (data : option json) : outcome A :=
  Must (match data with Some j => dec j | None => Err ErrJSON end).

Definition auth_ModuleName : string := "auth".
Definition bank_ModuleName : string := "bank".
Definition poe_Module : string := "poe".
Definition empty_poe : PoEGenesisState := mkPoEGenesis (mkPoEParams 0 0 []) NoSetup.
(** An absent entry is the empty genesis state. *)
Definition GetGenesisStateFromAppState `{!PoEJSON} (appState : gmap string json) : outcome PoEGenesisState :=
  match appState !! poe_Module with
  | Some j => Must (poe_UnmarshalJSON j)
  | None => Ok empty_poe
  end.
Definition SetGenesisStateInAppState `{!PoEJSON} (appState : gmap string json) (genesisState : PoEGenesisState) :
    gmap string json :=
  <[poe_Module := poe_MarshalJSON genesisState]> appState.

(** ** The nodes *)

(** What the command collects while it sets up the nodes, with the shared configurations. *)
Record Setup := mkSetup {
  genAccounts : list GenesisAccount; genBalances : list Balance;
  genOCMemberAddrs : list string; genAPMemberAddrs : list string; genFiles : list string;
  nodeIDs : list string; valPubKeys : list bytes; bootstrapAccountAddr : AccAddress;
  nodeConfig : NodeConfig; appConfig : AppConfig; p2pPortStart : Z }.

Definition stakingToken : string := "ufury".
Definition rpcPort : Z := 26657.
Definition apiPort : Z := 1317.
Definition grpcPort : Z := 9090.
Definition grpcWebPort : Z := 8090.
(** [sdk.TokensFromConsensusPower(power, sdk.DefaultPowerReduction)] *)
Definition TokensFromConsensusPower (power : Z) : Z := power * 1000000.

(** [--chain-id], or a random one. *)
Definition chain_id_of (flag random : string) : string := if decide (flag = "") then "chain-" +:+ random else flag.

Section testnet.
Context {Packed Tx : Type}
  `{!GenesisTypes Packed, !CoinConstructors, !AuthJSON Packed, !BankJSON, !PoEJSON, !TxCodec Tx, !Bech32, !CoinAmounts}.
(** Directories, files and keys of a node. *)
Variables (MkdirAll : string → outcome ()) (WriteFile : string → outcome ()) (InitializeNodeValidatorFiles : string → outcome (string * bytes))
  (keyring_New : string → outcome ()) (NewSigningAlgoFromString : string → outcome ())
  (GenerateSaveCoinKey : string → string → outcome (AccAddress * string)).
(** Signing of the transaction with the key of a node, packing of public keys. *)
Variables (Sign : string → string → string → Tx → outcome Tx) (NewAnyWithValue : bytes → outcome Any).
Variables (parseIPv6 : string → option (list Z)) (ExternalIP : outcome string).
(** [GenesisDoc.ValidateAndComplete] and the writing of the document *)
Variable SaveAs : GenesisDoc → outcome ().
(** The arguments of the command, and the time. *)
Variables (chainID nodeDirPrefix startingIPAddress algoStr : string) (singleMachine vestingVals : bool) (now genTime : Z).

Definition node_name (i : nat) : string := nodeDirPrefix +:+ pretty i.
Definition portOffset (i : nat) : Z := if singleMachine then Z.of_nat i else 0.
(** [now.Add(d).Unix()] *)
Definition vestingStart : Z := (now + 1 * 30 * 24 * Hour) / Second.
Definition vestingEnd : Z := (now + 18 * 30 * 24 * Hour) / Second.

Definition addGenAccount (addr : AccAddress) (coins : list Coin) (s : Setup) : Setup :=
  mkSetup (genAccounts s ++ [BaseAccount addr]) (genBalances s ++ [mkBalance (AccAddress_String addr) (Coins_Sort coins)])
    (genOCMemberAddrs s) (genAPMemberAddrs s) (genFiles s) (nodeIDs s) (valPubKeys s) (bootstrapAccountAddr s)
    (nodeConfig s) (appConfig s) (p2pPortStart s).
Definition addGenVestingAccount (addr : AccAddress) (vestingAmt : Coin) (liquidAmts : list Coin) (s : Setup) : outcome Setup :=
  vesting ← NewCoins [vestingAmt];
  coins ← Coins_Add vesting liquidAmts;
  OriginalVesting ← NewCoins [vestingAmt];
  Ok (mkSetup (genAccounts s ++ [ContinuousVestingAccountRaw addr OriginalVesting vestingEnd vestingStart])
    (genBalances s ++ [mkBalance (AccAddress_String addr) (Coins_Sort coins)])
    (genOCMemberAddrs s) (genAPMemberAddrs s) (genFiles s) (nodeIDs s) (valPubKeys s) (bootstrapAccountAddr s)
    (nodeConfig s) (appConfig s) (p2pPortStart s)).

Definition set_bootstrap (addr : AccAddress) (s : Setup) : Setup :=
  mkSetup (genAccounts s) (genBalances s) (genOCMemberAddrs s) (genAPMemberAddrs s) (genFiles s) (nodeIDs s) (valPubKeys s)
    addr (nodeConfig s) (appConfig s) (p2pPortStart s).
Definition add_OC (addr : string) (s : Setup) : Setup :=
  mkSetup (genAccounts s) (genBalances s) (genOCMemberAddrs s ++ [addr]) (genAPMemberAddrs s) (genFiles s) (nodeIDs s)
    (valPubKeys s) (bootstrapAccountAddr s) (nodeConfig s) (appConfig s) (p2pPortStart s).
Definition add_AP (addr : string) (s : Setup) : Setup :=
  mkSetup (genAccounts s) (genBalances s) (genOCMemberAddrs s) (genAPMemberAddrs s ++ [addr]) (genFiles s) (nodeIDs s)
    (valPubKeys s) (bootstrapAccountAddr s) (nodeConfig s) (appConfig s) (p2pPortStart s).

(** A new key in the key ring of the node with an account that has [amount] of the staking token. *)
Definition keyed_account (node name : string) (amount : Z) (s : Setup) (seeds : gmap string string) :
    M Files (AccAddress * Setup * gmap string string) :=
  k ← cleanup (lift (GenerateSaveCoinKey node name));
  coin ← lift (NewCoin stakingToken amount);
  mret (k.1, addGenAccount k.1 [coin] s, <[AccAddress_String k.1 := k.2]> seeds).

(** Members of the oversight community or of the arbiter pool. *)
Fixpoint add_members (node : string) (add : string → Setup → Setup) (names : list string) (s : Setup) (seeds : gmap string string) :
    M Files (Setup * gmap string string) :=
  match names with
  | [] => mret (s, seeds)
  | name :: names' =>
      r ← keyed_account node name 1000000000 s seeds;
      add_members node add names' (add (AccAddress_String r.1.1) r.1.2) r.2
  end.

(** The accounts of the first node besides its validator. *)
Definition system_accounts (node : string) (s : Setup) (seeds : gmap string string) : M Files (Setup * gmap string string) :=
  r ← keyed_account node "bootstrap-account" 100000000000 s seeds;
  oc ← add_members node add_OC ["oc-member-1"; "oc-member-2"; "oc-member-3"] (set_bootstrap r.1.1 r.1.2) r.2;
  add_members node add_AP ["ap-member-1"; "ap-member-2"] oc.1 oc.2.

(** The account of the validator, with the liquid and the vesting amount of its stake. *)
Definition validator_account (node : string) (addr : AccAddress) (s : Setup) : outcome (Setup * (Z * Z)) :=
  let liquidTokens := TokensFromConsensusPower 1000 in
  let vestingTokens := TokensFromConsensusPower 600 in
  let valTokens := TokensFromConsensusPower 100 in
  if vestingVals then
    vesting ← NewCoin stakingToken vestingTokens;
    own ← NewCoin (node +:+ "token") valTokens;
    liquid ← NewCoin stakingToken liquidTokens;
    s' ← addGenVestingAccount addr vesting [own; liquid] s;
    Ok (s', (0, TokensFromConsensusPower 600))
  else
    own ← NewCoin (node +:+ "token") valTokens;
    coin ← NewCoin stakingToken (liquidTokens + vestingTokens);
    Ok (addGenAccount addr [own; coin] s, (TokensFromConsensusPower 700, 0)).

(** [tcp://0.0.0.0:port] and the like *)
Definition listen (scheme : string) (port : Z) : string := scheme +:+ "0.0.0.0:" +:+ pretty port.

(** The configurations for node [i]. *)
Definition config_of (i : nat) (c : NodeConfig) : NodeConfig :=
  let relaxed := if singleMachine then mkNodeConfig (NC_RootDir c) (NC_Moniker c) (RPC_ListenAddress c) (P2P_ListenAddress c)
                      false false true (PersistentPeers c) else c in
  mkNodeConfig (node_name i) (node_name i) (RPC_ListenAddress relaxed) (P2P_ListenAddress relaxed)
    (AddrBookStrict relaxed) (PexReactor relaxed) (AllowDuplicateIP relaxed) (PersistentPeers relaxed).
Definition app_config_of (i : nat) (c : AppConfig) : AppConfig :=
  mkAppConfig (MinGasPrices c) (API_Enable c) (listen "tcp://" (apiPort + portOffset i)) (listen "" (grpcPort + portOffset i))
    (listen "" (grpcWebPort + portOffset i)) (Telemetry_Enabled c) (PrometheusRetentionTime c) (EnableHostnameLabel c) (GlobalLabels c).

Definition begin_node (i : nat) (s : Setup) : Setup :=
  mkSetup (genAccounts s) (genBalances s) (genOCMemberAddrs s) (genAPMemberAddrs s) (genFiles s) (nodeIDs s) (valPubKeys s)
    (bootstrapAccountAddr s) (config_of i (nodeConfig s)) (app_config_of i (appConfig s))
    (if singleMachine then 16656 else p2pPortStart s).
Definition add_node (file id : string) (key : bytes) (s : Setup) : Setup :=
  mkSetup (genAccounts s) (genBalances s) (genOCMemberAddrs s) (genAPMemberAddrs s) (genFiles s ++ [file]) (nodeIDs s ++ [id])
    (valPubKeys s ++ [key]) (bootstrapAccountAddr s) (nodeConfig s) (appConfig s) (p2pPortStart s).

Definition memo_of (id ip : string) (port : Z) : string := id +:+ "@" +:+ ip +:+ ":" +:+ pretty port.
Definition moniker_of (i : nat) : string := "moniker-" +:+ pretty i.

(** The signed genesis transaction of a validator. *)
Definition create_gentx (i : nat) (addr : AccAddress) (pubKey : bytes) (liquidStaking vestingStaking : Z) (memo : string) :
    outcome Tx :=
  liquid ← NewCoin stakingToken liquidStaking;
  vesting ← NewCoin stakingToken vestingStaking;
  createValMsg ← NewMsgCreateValidator NewAnyWithValue addr (Some pubKey)
    (mkWCoin (Denom liquid) (Some (Amount liquid))) (mkWCoin (Denom vesting) (Some (Amount vesting)))
    (mkDescription (moniker_of i) "" "" "" "");
  tx ← BuildTx createValMsg memo;
  Sign (node_name i) chainID memo tx.

(** One round of the loop over the nodes. *)
Definition node_step (i : nat) (s : Setup) : M Files Setup :=
  let node := node_name i in
  let s1 := begin_node i s in
  cleanup (lift (MkdirAll node)) ;;
  ip ← cleanup (lift (getIP parseIPv6 ExternalIP i startingIPAddress));
  v ← cleanup (lift (InitializeNodeValidatorFiles node));
  let memo := memo_of v.1 ip (p2pPortStart s1 + portOffset i) in
  let s2 := add_node node v.1 v.2 s1 in
  lift (keyring_New node) ;;
  lift (NewSigningAlgoFromString algoStr) ;;
  k ← cleanup (lift (GenerateSaveCoinKey node node));
  let seeds := <["secret" := k.2]> ∅ in
  r ← (if decide (i = 0%nat) then system_accounts node s2 seeds else mret (s2, seeds));
  lift (WriteFile (node +:+ "/key_seed.json")) ;;
  write_seeds node r.2 ;;
  acc ← lift (validator_account node k.1 r.1);
  tx ← lift (create_gentx i k.1 v.2 acc.2.1 acc.2.2 memo);
  txBz ← lift (TxJSONEncoder tx);
  lift (WriteFile ("gentxs/" +:+ node +:+ ".json")) ;;
  write_gentx (node +:+ ".json") (json_text txBz) ;;
  write_app node (appConfig acc.1) ;;
  mret acc.1.

Fixpoint nodes (idx : list nat) (s : Setup) : M Files Setup :=
  match idx with
  | [] => mret s
  | i :: idx' => s' ← node_step i s; nodes idx' s'
  end.

(** ** The genesis files *)

(** [total = total.Add(v.Coins...)] over all balances. *)
Fixpoint add_all (bs : list Balance) (total : list Coin) : outcome (list Coin) :=
  match bs with
  | [] => Ok total
  | v :: bs' => total' ← Coins_Add total (Balance_Coins v); add_all bs' total'
  end.

(** Every account gets engagement points, in descending order. *)
Definition engagement_members (accs : list GenesisAccount) : list TG4Member :=
  imap (λ i a, mkTG4Member (AccAddress_String (GetAddress a)) (uint64 (Z.of_nat (length accs) - Z.of_nat i))) accs.

Definition with_network (c : SeedContracts) (s : Setup) : SeedContracts :=
  {| GenTxs := GenTxs c; BootstrapAccountAddress := AccAddress_String (bootstrapAccountAddr s);
     Engagement := Engagement c ++ engagement_members (genAccounts s);
     StakeConfig := StakeConfig c; ValsetConfig := ValsetConfig c; EngagementConfig := EngagementConfig c;
     BondDenom := BondDenom c; OversightCommitteeConfig := OversightCommitteeConfig c;
     CommunityPoolConfig := CommunityPoolConfig c; ValidatorVotingConfig := ValidatorVotingConfig c;
     OversightCommunityMembers := genOCMemberAddrs s; ArbiterPoolMembers := genAPMemberAddrs s;
     ArbiterPoolConfig := ArbiterPoolConfig c; MixerConfig := MixerConfig c |}.

(** The state of the application. [SanitizeGenesisBalances] sorts the slice it is given, so the
    balances that are stored are the sorted ones. *)
Definition genesis_app_state (DefaultGenesis : gmap string json) (s : Setup) : outcome (gmap string json) :=
  auth ← MustUnmarshalJSON dec_auth (DefaultGenesis !! auth_ModuleName);
  accounts ← PackAccounts (genAccounts s);
  let st1 := <[auth_ModuleName := enc_auth (mkAuthGenesis accounts (AG_rest auth))]> DefaultGenesis in
  bank ← MustUnmarshalJSON dec_bank (st1 !! bank_ModuleName);
  let balances := SanitizeGenesisBalances (genBalances s) in
  total ← add_all balances [];
  supply ← Coins_Add (BG_Supply bank) total;
  let st2 := <[bank_ModuleName := enc_bank (mkBankGenesis balances supply (BG_rest bank))]> st1 in
  poe ← GetGenesisStateFromAppState st2;
  match GetSeedContracts poe with
  | None => Panic "invalid memory address or nil pointer dereference"
  | Some c =>
      Ok (SetGenesisStateInAppState st2
            (mkPoEGenesis (GS_Params poe) (GenesisState_SeedContracts (Some (with_network c s)))))
  end.

(** The same document for every node; the denom of the SDK is replaced by ours in its text. *)
Definition denom_replaced (appState : json_bytes) : json_bytes :=
  match appState with JText j => JText (replace_json "stake" stakingToken j) | _ => appState end.
Definition initGenFiles (DefaultGenesis : gmap string json) (numValidators : nat) (s : Setup) : M Files () :=
  appGenState ← lift (genesis_app_state DefaultGenesis s);
  let genDoc := mkGenesisDoc chainID (denom_replaced (enc_raw_map appGenState)) None in
  forM (seq 0 numValidators) (λ i,
    match genFiles s !! i with
    | Some file => lift (SaveAs genDoc) ;; write_genesis file genDoc
    | None => panic "index out of range"
    end).

(** ** The collection *)
Definition collect_config (i : nat) (p2pStart : Z) (c : NodeConfig) : NodeConfig :=
  mkNodeConfig (node_name i) (node_name i) (listen "tcp://" (rpcPort + portOffset i)) (listen "tcp://" (p2pStart + portOffset i))
    (AddrBookStrict c) (PexReactor c) (AllowDuplicateIP c) (PersistentPeers c).
Definition set_peers (peers : string) (c : NodeConfig) : NodeConfig :=
  mkNodeConfig (NC_RootDir c) (NC_Moniker c) (RPC_ListenAddress c) (P2P_ListenAddress c)
    (AddrBookStrict c) (PexReactor c) (AllowDuplicateIP c) peers.

(** One round; the state of the first node becomes the state of all. *)
Definition collect_node (p2pStart : Z) (i : nat) (c : NodeConfig) (canonical : option json_bytes) :
    M Files (NodeConfig * option json_bytes) :=
  let node := node_name i in
  let cfg := collect_config i p2pStart c in
  file ← gets (λ f, genesis_files f !! node);
  genDoc ← lift (match file with Some d => Ok d | None => Err (new_err "couldn't read GenesisDoc file") end);
  fos ← gets ReadDir;
  let with_state gs := match GenesisStateFromGenDoc (Doc_AppState genDoc) with
                       | Ok st => enc_raw_map (SetGenesisStateInAppState st gs)
                       | _ => JNil
                       end in
  let '(peers, result) :=
    AddGenTxsToGenesisFile TxJSONDecoder GetMemo GetMsgs IterateGenesisBalances TxJSONEncoder GetGenesisStateFromAppState
      (λ gs, SaveAs (mkGenesisDoc (Doc_ChainID genDoc) (with_state gs) (Doc_GenesisTime genDoc)))
      (Doc_AppState genDoc) (NC_Moniker cfg) (Ok fos) in
  let cfg' := match peers with Some p => set_peers p cfg | None => cfg end in
  match peers with Some _ => write_config node cfg' | None => mret () end ;;
  gs ← lift result;
  let nodeAppState := with_state gs in
  write_genesis node (mkGenesisDoc (Doc_ChainID genDoc) nodeAppState (Doc_GenesisTime genDoc)) ;;
  let appState := default nodeAppState canonical in
  let doc := mkGenesisDoc chainID appState (Some genTime) in
  lift (SaveAs doc) ;;
  write_genesis node doc ;;
  mret (cfg', Some appState).

Fixpoint collect_nodes (p2pStart : Z) (idx : list nat) (c : NodeConfig) (canonical : option json_bytes) : M Files () :=
  match idx with
  | [] => mret ()
  | i :: idx' => r ← collect_node p2pStart i c canonical; collect_nodes p2pStart idx' r.1 r.2
  end.
Definition collectGenFiles (numValidators : nat) (s : Setup) : M Files () :=
  collect_nodes (p2pPortStart s) (seq 0 numValidators) (nodeConfig s) None.

(** ** The command *)
Definition initial_app_config (default_config : AppConfig) (minGasPrices : string) : AppConfig :=
  mkAppConfig minGasPrices true (API_Address default_config) (GRPC_Address default_config) (GRPCWeb_Address default_config)
    true 60 false [["chain_id"; chainID]].
Definition InitTestnet (DefaultGenesis : gmap string json) (default_node : NodeConfig) (default_app : AppConfig)
    (minGasPrices : string) (numValidators : Z) : M Files () :=
  if numValidators <? 0 then panic "makeslice: len out of range"
  else
    let n := Z.to_nat numValidators in
    s ← nodes (seq 0 n) (mkSetup [] [] [] [] [] [] [] "" default_node (initial_app_config default_app minGasPrices) 26656);
    initGenFiles DefaultGenesis n s ;;
    collectGenFiles n s.
End testnet.
