(* ===== verification/TestnetLaws.v ===== *)
(** What the theorems on test networks build on: the replacement of the denom in the text
    of the genesis, the names of nodes, keys and files, the validity of the default
    configuration, and the laws of the SDK's functions that the command calls. *)
From stdpp Require Import base list strings gmap sets sorting pretty.
From Stdlib Require Import ZArith Lia Ascii.
From S2P Require Import Prelude Sdk RefStore Slice Json Privilege Wasm GoTime PoETypes TwasmMsgs PoEMsgs PoETypesProps GenTxCollect GenAccounts TestnetIP Testnet.
Open Scope Z_scope.

(** ** The replacement of the denom *)
Fixpoint mentions (s : string) (j : json) : bool :=
  match j with
  | JStr t => bool_decide (t = s)
  | JArr l => existsb (mentions s) l
  | JObj ms => existsb (λ m, bool_decide (m.1 = s) || mentions s m.2) ms
  | _ => false
  end.

Lemma replace_str_other old new s : s ≠ old → replace_str old new s = s.
Proof. intros Hs. unfold replace_str. by rewrite decide_False. Qed.

(** A text without the old denom is not changed. *)
Lemma replace_fresh old new : ∀ j, mentions old j = false → replace_json old new j = j.
Proof.
  fix IH 1. intros [ | | | |s|l|ms] Hm; cbn [replace_json mentions] in *; try reflexivity.
  - apply bool_decide_eq_false in Hm. by rewrite replace_str_other.
  - f_equal. induction l as [|j l IHl]; [done|]. cbn in Hm |- *. apply orb_false_elim in Hm as [Hj Hl].
    f_equal; [by apply IH|by apply IHl].
  - f_equal. induction ms as [|[k j] ms IHl]; [done|]. cbn in Hm |- *.
    apply orb_false_elim in Hm as [[Hk%bool_decide_eq_false Hj]%orb_false_elim Hl].
    f_equal; [|by apply IHl]. by rewrite replace_str_other, (IH j) by done.
Qed.

Lemma list_to_map_renamed {A B} (f : string → string) (g : A → B) (l : list (string * A)) m :
  (∀ k, f k = m ↔ k = m) →
  (list_to_map (prod_map f g <$> l) : gmap string B) !! m = g <$> (list_to_map l : gmap string A) !! m.
Proof.
  intros Hf. induction l as [|[k x] l IH]; [done|]. cbn. destruct (decide (k = m)) as [->|Hk].
  - rewrite (proj2 (Hf m)) by done. by rewrite !lookup_insert_eq.
  - rewrite !lookup_insert_ne by (try done; by rewrite Hf). done.
Qed.

Lemma raw_map_roundtrip st : GenesisStateFromGenDoc (enc_raw_map st) = Ok st.
Proof.
  cbn. f_equal. rewrite <-(list_to_map_to_list st) at 2. apply list_to_map_proper.
  - rewrite fmap_reverse, reverse_Permutation. apply NoDup_fst_map_to_list.
  - apply reverse_Permutation.
Qed.

(** After the replacement the entries of modules that do not mention the old denom are there. *)
Lemma denom_replaced_state st :
  ∃ st', GenesisStateFromGenDoc (denom_replaced (enc_raw_map st)) = Ok st' ∧
    ∀ m, m ≠ "stake" → m ≠ stakingToken → st' !! m = replace_json "stake" stakingToken <$> st !! m.
Proof.
  eexists. split; [reflexivity|]. intros m Hs Hu.
  change (map ?f (map_to_list st)) with (prod_map (replace_str "stake" stakingToken) (replace_json "stake" stakingToken) <$> map_to_list st).
  rewrite <-fmap_reverse. rewrite list_to_map_renamed.
  - f_equal. pose proof (raw_map_roundtrip st) as [= Hr]. by rewrite Hr.
  - intros k. unfold replace_str. case_decide; naive_solver.
Qed.

(** ** Names *)
Lemma node_name_inj p i j : node_name p i = node_name p j → i = j.
Proof. unfold node_name. intros He%(inj (String.append p)). by apply (inj pretty) in He. Qed.
Lemma append_cons x (a b : string) : String x a +:+ b = String x (a +:+ b).
Proof. done. Qed.
Lemma length_append (a b : string) : String.length (a +:+ b) = (String.length a + String.length b)%nat.
Proof. induction a as [|x a IH]; [done|]. rewrite append_cons. cbn [String.length]. by rewrite IH. Qed.
Lemma append_cancel_r (a b t : string) : a +:+ t = b +:+ t → a = b.
Proof.
  revert b. induction a as [|x a IH]; intros [|y b] He; [done| | |].
  - apply (f_equal String.length) in He. rewrite !length_append in He. cbn [String.length] in He. lia.
  - apply (f_equal String.length) in He. rewrite !length_append in He. cbn [String.length] in He. lia.
  - injection He as -> He. f_equal. by apply IH.
Qed.
Lemma gentx_name_suffix a : HasSuffix (a +:+ ".json") ".json" = true.
Proof.
  unfold HasSuffix. rewrite length_append. cbn [String.length].
  replace (String.length a + 5 - 5)%nat with (String.length a) by lia. apply andb_true_iff. split; [apply Nat.leb_le; lia|].
  apply bool_decide_eq_true. induction a as [|x a IH]; [done|exact IH].
Qed.

(** The keys that node [i] generates, in the order of the accounts. *)
Definition system_names : list string :=
  ["bootstrap-account"; "oc-member-1"; "oc-member-2"; "oc-member-3"; "ap-member-1"; "ap-member-2"].
Definition key_names (p : string) (i : nat) : list (string * string) :=
  (if decide (i = 0%nat) then pair (node_name p 0) <$> system_names else []) ++ [(node_name p i, node_name p i)].

Lemma node_name_not_system p : node_name p 0 ∉ system_names.
Proof.
  unfold node_name. change (pretty 0%nat) with "0". unfold system_names. intros Hin.
  repeat (apply elem_of_cons in Hin as [Hin|Hin]; [exfalso; repeat (destruct p as [|? p]; [discriminate Hin|first [discriminate Hin|injection Hin as -> Hin]])|]).
  by apply elem_of_nil in Hin.
Qed.
Lemma key_names_NoDup p l : NoDup l → NoDup (l ≫= key_names p).
Proof.
  intros Hl. apply NoDup_bind; [| |done].
  - intros i j [a b] Hi Hj Ha Hb. unfold key_names in Ha, Hb. apply (node_name_inj p).
    assert (∀ k, (a, b) ∈ (if decide (k = 0%nat) then pair (node_name p 0) <$> system_names else []) ++ [(node_name p k, node_name p k)]
      → a = node_name p k) as Hk; [|by rewrite <-(Hk _ Ha), <-(Hk _ Hb)].
    intros k [Hs|Hs%list_elem_of_singleton]%elem_of_app; [|by simplify_eq].
    case_decide; [subst|by apply elem_of_nil in Hs]. apply list_elem_of_fmap in Hs as (? & ? & _). by simplify_eq.
  - intros i _. unfold key_names. apply NoDup_app. split_and!.
    + case_decide; [|constructor]. apply NoDup_fmap_2; [intros ?? [=]; done|].
      unfold system_names. apply (bool_decide_unpack _). vm_compute. done.
    + intros x Hx Hy%list_elem_of_singleton. subst x. case_decide; [subst|by apply elem_of_nil in Hx].
      apply list_elem_of_fmap in Hx as (y & Hy & Hin). simplify_eq. by apply (node_name_not_system p).
    + apply NoDup_singleton.
Qed.

(** A relation that determines its first argument carries distinctness over. *)
Lemma Forall2_NoDup {A B} (R : A → B → Prop) l k :
  NoDup l → Forall2 R l k → (∀ x x' y, R x y → R x' y → x = x') → NoDup k.
Proof.
  intros Hnd Hk HR. induction Hk as [|x y l k Hx Hk IH]; [constructor|]. apply NoDup_cons in Hnd as [Hn Hnd].
  constructor; [|by apply IH]. intros (j & Hj)%list_elem_of_lookup.
  destruct (Forall2_lookup_r _ _ _ _ _ Hk Hj) as (x' & Hj' & Hx'). rewrite (HR _ _ _ Hx Hx') in Hn.
  apply Hn. by eapply list_elem_of_lookup_2.
Qed.

(** ** The default configuration is valid *)
Lemma default_rules_valid p q t : p ≠ 0 → 1 ≤ q ≤ 100 → 50 ≤ t ≤ 100 → rules_valid (default_rules p q t).
Proof.
  intros Hp Hq Ht. unfold rules_valid, default_rules, dec, one. cbn [VotingPeriod Quorum Threshold]. split; [done|].
  split; eexists; (split; [reflexivity|]); lia.
Qed.
Lemma default_circle_valid `{!Bech32} name p q t : (1 ≤ String.length name ≤ 100)%nat → p ≠ 0 → 1 ≤ q ≤ 100 → 50 ≤ t ≤ 100 →
  circle_valid name (mkWCoin DefaultBondDenom (Some 1000000)) (default_rules p q t) "".
Proof.
  intros Hn Hp Hq Ht. split; [done|]. split; [by exists 1000000|]. split; [by apply default_rules_valid|done].
Qed.
Lemma period_valid_nonneg conv d : 0 ≤ d → (Second | d) → period_valid conv d.
Proof. intros Hd Hs. unfold period_valid. by rewrite decide_True. Qed.
Lemma default_valset_valid boot v : ValsetConfig (DefaultSeedContracts boot) = Some v → valset_valid v.
Proof.
  intros [= <-]. unfold valset_valid, nonzero_seconds, Hour, Minute, Second, dec, one.
  cbn [VerifyValidators MaxValidators Scaling EpochLength OfflineJailDuration EngagementRewardRatio CommunityPoolRewardRatio ValidatorRewardRatio FeePercentage].
  split; [done|]. split; [done|]. split; [done|].
  split; [split; [done|by exists 60]|]. split; [split; [done|by exists 86400]|].
  do 4 eexists. do 4 (split; [reflexivity|]). lia.
Qed.
Lemma default_configs_valid `{!Bech32} conv boot : configs_valid conv (DefaultSeedContracts boot).
Proof.
  do 7 eexists. split; [reflexivity|]. split; [exists (180 * 24 * 3600); cbn; reflexivity|].
  split; [reflexivity|]. split; [by apply (default_valset_valid boot)|]. split; [reflexivity|]. split; [reflexivity|]. split.
  { unfold stake_valid. cbn [MinBond TokensPerPoint UnbondingPeriod]. split_and!; [done|done|done|].
    apply period_valid_nonneg; [vm_compute; discriminate|]. exists (21 * 24 * 3600). reflexivity. }
  split; [reflexivity|]. split; [reflexivity|]. split; [apply default_circle_valid; [cbn|..]; lia|].
  split; [reflexivity|]. split; [apply period_valid_nonneg; [done|by exists 0]|]. split; [apply default_circle_valid; [cbn|..]; lia|].
  split; [reflexivity|]. split; [apply default_rules_valid; lia|]. split; [reflexivity|]. split; [apply default_rules_valid; lia|].
  do 3 eexists. split; [reflexivity|done].
Qed.
Lemma default_typed boot : typed (DefaultSeedContracts boot).
Proof.
  unfold typed, is_s, small. split_and!; intros c Hc; injection Hc as <-; [|(split; vm_compute; [discriminate|reflexivity])..].
  split; [split; vm_compute; [discriminate|reflexivity]|]. split; [split; vm_compute; [discriminate|reflexivity]|].
  split_and!; intros x Hx; injection Hx as <-; reflexivity.
Qed.

(** ** What the command relies on *)
Class CoinConstructorLaws `{CoinConstructors} := {
  NewCoin_is d a c : NewCoin d a = Ok c → c = mkCoin d a;
  NewCoins_amount d cs r : NewCoins cs = Ok r → amount_of d r = amount_of d cs;
}.
(** Sorting permutes, sums have one coin per denom, and the amount of a denom is found in a
    sorted set of coins. *)
Class CoinSetLaws (Packed : Type) `{GenesisTypes Packed, CoinAmounts} := {
  Coins_Sort_perm cs : Coins_Sort cs ≡ₚ cs;
  Coins_Add_denoms a b r : Coins_Add a b = Ok r → NoDup (Denom <$> r);
  AmountOf_sorted cs : NoDup (Denom <$> cs) → Coins_AmountOf (Coins_Sort cs) stakingToken = Ok (Some (amount_of stakingToken cs));
  (** The balances are sorted by address, and the coins of every balance. *)
  Sanitize_sorts l : ∃ l', l' ≡ₚ l ∧
    SanitizeGenesisBalances l = (λ b, mkBalance (Balance_Address b) (Coins_Sort (Balance_Coins b))) <$> l';
}.
Class BankJSONLaws `{BankJSON, Bech32} := {
  (** The iterator decodes the addresses of the balances. *)
  iterate_balances st b addrs :
    st !! bank_ModuleName = Some (enc_bank b) →
    Forall2 (λ a x, AccAddressFromBech32 (Balance_Address x) = Ok a) addrs (BG_Balances b) →
    IterateGenesisBalances st = Ok (zip addrs (Balance_Coins <$> BG_Balances b));
}.
Class PoEJSONLaws `{PoEJSON} := { poe_json_roundtrip g : poe_UnmarshalJSON (poe_MarshalJSON g) = Ok g }.
Class TxCodecLaws (Tx : Type) `{TxCodec Tx} := {
  BuildTx_is msg memo tx : BuildTx msg memo = Ok tx → GetMsgs tx = [GMCreateValidator msg] ∧ GetMemo tx = Some memo;
  tx_json_roundtrip tx bz : TxJSONEncoder tx = Ok bz → TxJSONDecoder (json_text bz) = Ok tx;
}.

