(* ===== verification/TestnetProps.v ===== *)
(** The files of a test network fit together.

    The nodes are set up one after the other; an invariant relates what the command has
    collected to the files it has written. The collection of the genesis
    transactions then succeeds on these files, and leaves every node with the same genesis. *)
From stdpp Require Import base list strings gmap sets sorting pretty.
From Stdlib Require Import ZArith Lia Ascii.
From S2P Require Import Prelude Sdk RefStore Slice Json Privilege Wasm GoTime PoETypes TwasmMsgs PoEMsgs PoETypesProps GenTxCollect GenAccounts TestnetIP Testnet TestnetLaws.
Open Scope Z_scope.

Lemma cleanup_ok {A} (m : M Files A) c a c' : cleanup m c = (Ok a, c') ↔ m c = (Ok a, c').
Proof. unfold cleanup. destruct (m c) as [[] ?]; naive_solver. Qed.
#[local] Hint Rewrite @cleanup_ok : go_db.

Section setup.
Context {Packed Tx : Type}
  {gt : GenesisTypes Packed} {cc : CoinConstructors} {aj : AuthJSON Packed} {bj : BankJSON} {pj : PoEJSON} {tc : TxCodec Tx}
  {b32 : Bech32} {ca : CoinAmounts}
  {gtl : GenesisTypesLaws Packed} {ccl : CoinConstructorLaws} {csl : CoinSetLaws Packed} {bjl : BankJSONLaws}
  {pjl : PoEJSONLaws} {tcl : TxCodecLaws Tx} {b32l : Bech32Laws} {cal : CoinAmountsLaws}.
Variables (MkdirAll : string → outcome ()) (WriteFile : string → outcome ())
  (InitializeNodeValidatorFiles : string → outcome (string * bytes))
  (keyring_New : string → outcome ()) (NewSigningAlgoFromString : string → outcome ())
  (GenerateSaveCoinKey : string → string → outcome (AccAddress * string)).
Variables (Sign : string → string → string → Tx → outcome Tx) (NewAnyWithValue : bytes → outcome Any).
Variables (parseIPv6 : string → option (list Z)) (ExternalIP : outcome string).
Variable SaveAs : GenesisDoc → outcome ().
Variables (chainID nodeDirPrefix startingIPAddress algoStr : string) (singleMachine vestingVals : bool) (now genTime : Z).
Local Abbreviation node := (node_name nodeDirPrefix).
Local Abbreviation step := (node_step MkdirAll WriteFile InitializeNodeValidatorFiles keyring_New NewSigningAlgoFromString
  GenerateSaveCoinKey Sign NewAnyWithValue parseIPv6 ExternalIP chainID nodeDirPrefix startingIPAddress algoStr singleMachine
  vestingVals now).

(** ** Accounts *)
Definition keyed (k : string * string) (a : AccAddress) : Prop := ∃ secret, GenerateSaveCoinKey k.1 k.2 = Ok (a, secret).

(** The balance of an account, which covers what vests. *)
Definition backed (a : GenesisAccount) (b : Balance) : Prop :=
  Balance_Address b = AccAddress_String (GetAddress a) ∧
  ∃ cs, Balance_Coins b = Coins_Sort cs ∧ NoDup (Denom <$> cs) ∧ ∀ d, amount_of d (original_vesting a) ≤ amount_of d cs.

(** Accounts for the keys [ks] were added, with members of the oversight community and of the
    arbiter pool for the keys [oc] and [ap]. *)
Record grown (ks oc ap : list (string * string)) (s s' : Setup) : Prop := {
  gr_accounts : ∃ accs bals, genAccounts s' = genAccounts s ++ accs ∧ genBalances s' = genBalances s ++ bals ∧
    Forall2 keyed ks (GetAddress <$> accs) ∧ Forall2 backed accs bals;
  gr_oc : ∃ l, genOCMemberAddrs s' = genOCMemberAddrs s ++ (AccAddress_String <$> l) ∧ Forall2 keyed oc l;
  gr_ap : ∃ l, genAPMemberAddrs s' = genAPMemberAddrs s ++ (AccAddress_String <$> l) ∧ Forall2 keyed ap l;
  gr_files : genFiles s' = genFiles s;
  gr_ids : nodeIDs s' = nodeIDs s;
  gr_keys : valPubKeys s' = valPubKeys s;
  gr_boot : bootstrapAccountAddr s' = bootstrapAccountAddr s;
  gr_port : p2pPortStart s' = p2pPortStart s;
  gr_cfg : nodeConfig s' = nodeConfig s;
}.

Lemma grown_refl s : grown [] [] [] s s.
Proof. split; try done; [exists [], []|exists []..]; by rewrite ?app_nil_r. Qed.
Lemma grown_app ks oc ap ks' oc' ap' s1 s2 s3 :
  grown ks oc ap s1 s2 → grown ks' oc' ap' s2 s3 → grown (ks ++ ks') (oc ++ oc') (ap ++ ap') s1 s3.
Proof.
  intros [(a & b & Ha & Hb & Hk & Hbk) (o & Ho & Hok) (p & Hp & Hpk) Hf Hi Hv Hbt Hpt Hc]
    [(a' & b' & Ha' & Hb' & Hk' & Hbk') (o' & Ho' & Hok') (p' & Hp' & Hpk') Hf' Hi' Hv' Hbt' Hpt' Hc'].
  split; try congruence.
  - exists (a ++ a'), (b ++ b'). rewrite Ha', Hb', Ha, Hb, !app_assoc, fmap_app. split_and!; try done; by apply Forall2_app.
  - exists (o ++ o'). rewrite Ho', Ho, fmap_app, app_assoc. split; [done|]. by apply Forall2_app.
  - exists (p ++ p'). rewrite Hp', Hp, fmap_app, app_assoc. split; [done|]. by apply Forall2_app.
Qed.

Lemma amount_of_perm d cs cs' : cs ≡ₚ cs' → amount_of d cs = amount_of d cs'.
Proof. unfold amount_of. induction 1; cbn; repeat case_decide; lia. Qed.

Lemma grown_base k addr cs s : keyed k addr → NoDup (Denom <$> cs) → (∀ d, 0 ≤ amount_of d cs) →
  grown [k] [] [] s (addGenAccount addr cs s).
Proof.
  intros Hk Hnd Hpos. split; try done; [|exists []; by rewrite app_nil_r..].
  exists [BaseAccount addr], [mkBalance (AccAddress_String addr) (Coins_Sort cs)]. split_and!; [done|done|by repeat constructor|].
  constructor; [|constructor]. split; [done|]. exists cs. split_and!; [done|done|]. intros d. apply Hpos.
Qed.

Lemma keyed_account_ok nd name amount s seeds c r c' : 0 ≤ amount →
  keyed_account GenerateSaveCoinKey nd name amount s seeds c = (Ok r, c') →
  c' = c ∧ keyed (nd, name) r.1.1 ∧ grown [(nd, name)] [] [] s r.1.2.
Proof using ccl.
  intros Hpos Hr. unfold keyed_account in Hr. go_inv.
  match goal with H : NewCoin _ _ = Ok _ |- _ => apply NewCoin_is in H as -> end.
  match goal with H : GenerateSaveCoinKey _ _ = Ok ?k |- _ => destruct k as [a secret]; assert (keyed (nd, name) a) as Hk by (by exists secret) end.
  split_and!; [done|done|]. apply grown_base; [done|apply NoDup_singleton|].
  intros d. unfold amount_of. cbn. case_decide; lia.
Qed.

Lemma add_members_ok nd add (oc ap : string → list (string * string)) names s seeds c r c' :
  (∀ name a s1, keyed (nd, name) a → grown [] (oc name) (ap name) s1 (add (AccAddress_String a) s1)) →
  add_members GenerateSaveCoinKey nd add names s seeds c = (Ok r, c') →
  c' = c ∧ grown (pair nd <$> names) (names ≫= oc) (names ≫= ap) s r.1.
Proof using ccl.
  intros Hadd. revert s seeds. induction names as [|name names IH]; intros s seeds Hr; cbn [add_members] in Hr; go_inv.
  { split; [done|]. apply grown_refl. }
  match goal with H : keyed_account _ _ _ _ _ _ _ = _ |- _ => apply keyed_account_ok in H as (-> & Hk & Hg); [|done] end.
  match goal with H : add_members _ _ _ _ _ _ _ = _ |- _ => apply IH in H as [-> Hg'] end.
  split; [done|]. pose proof (grown_app _ _ _ _ _ _ _ _ _ (grown_app _ _ _ _ _ _ _ _ _ Hg (Hadd _ _ _ Hk)) Hg') as Hall.
  by rewrite !app_nil_l in Hall.
Qed.

Definition oc_names : list string := ["oc-member-1"; "oc-member-2"; "oc-member-3"].
Definition ap_names : list string := ["ap-member-1"; "ap-member-2"].
Lemma member_names_NoDup : NoDup oc_names ∧ NoDup ap_names.
Proof. apply (bool_decide_unpack _). vm_compute. done. Qed.
Lemma system_accounts_ok nd s seeds c r c' :
  system_accounts GenerateSaveCoinKey nd s seeds c = (Ok r, c') →
  c' = c ∧ ∃ a, keyed (nd, "bootstrap-account") a ∧
    grown (pair nd <$> system_names) (pair nd <$> oc_names) (pair nd <$> ap_names) (set_bootstrap a s) r.1.
Proof using ccl.
  unfold system_accounts. intros (x & c1 & Hacc & (o & c2 & Ho & Hp)%M_bind_ok)%M_bind_ok.
  apply keyed_account_ok in Hacc as (-> & Hk & Hg); [|done].
  apply (add_members_ok _ _ (λ n, [(nd, n)]) (λ _, [])) in Ho as [-> Ho];
    [|intros name a s1 Ha; split; try done; [exists [], []|exists [a]|exists []]; rewrite ?app_nil_r; by repeat constructor].
  apply (add_members_ok _ _ (λ _, []) (λ n, [(nd, n)])) in Hp as [-> Hp];
    [|intros name a s1 Ha; split; try done; [exists [], []|exists []|exists [a]]; rewrite ?app_nil_r; by repeat constructor].
  split; [done|]. exists x.1.1. split; [done|].
  pose proof (grown_app _ _ _ _ _ _ _ _ _ Ho Hp) as Hop. destruct Hg as [(accs & bals & Ha & Hb & Hk' & Hbk) (lo & Hlo & Hko) (lp & Hlp & Hkp) Hf Hi Hv Hbt Hpt Hc].
  apply (grown_app [(nd, "bootstrap-account")] [] [] _ _ _ _ _ _) with (2 := Hop).
  split; try done; [by exists accs, bals|by exists lo|by exists lp].
Qed.

(** ** The validator of a node *)
Lemma token_not_staking nd : nd +:+ "token" ≠ stakingToken.
Proof.
  unfold stakingToken. intros He. repeat (destruct nd as [|? nd]; [discriminate He|first [discriminate He|injection He as -> He]]).
Qed.

(** The stake is positive and covered by the balance. *)
Definition stake_covered (stake : Z * Z) (b : Balance) : Prop :=
  0 ≤ stake.1 ∧ 0 ≤ stake.2 ∧ 0 < stake.1 + stake.2 ∧ stake.1 + stake.2 ≤ amount_of stakingToken (Balance_Coins b) ∧
  stake.1 + stake.2 ≤ 700000000.

Lemma validator_account_ok nd addr s r :
  keyed (nd, nd) addr → validator_account vestingVals now nd addr s = Ok r →
  grown [(nd, nd)] [] [] s r.1 ∧
  ∃ b, b ∈ genBalances r.1 ∧ Balance_Address b = AccAddress_String addr ∧ stake_covered r.2 b.
Proof using ccl csl gtl.
  intros Hk. unfold validator_account, addGenVestingAccount. pose proof (token_not_staking nd) as Hne.
  destruct vestingVals; intros Hr; go_inv;
    repeat match goal with H : NewCoin _ _ = Ok _ |- _ => apply NewCoin_is in H as -> end.
  - repeat match goal with H : NewCoins _ = Ok ?v |- _ =>
      assert (∀ d, amount_of d v = amount_of d [mkCoin stakingToken (TokensFromConsensusPower 600)]) by (intros d; by apply NewCoins_amount);
      clear H end.
    match goal with H : Coins_Add _ _ = Ok ?v |- _ =>
      pose proof (Coins_Add_denoms _ _ _ H) as Hnd;
      assert (∀ d, amount_of d v = amount_of d [mkCoin stakingToken (TokensFromConsensusPower 600)] +
        amount_of d [mkCoin (nd +:+ "token") (TokensFromConsensusPower 100); mkCoin stakingToken (TokensFromConsensusPower 1000)]) as Hsum
        by (intros d; rewrite (Coins_Add_amount d _ _ _ H); congruence); clear H; rename v into cs end.
    split.
    + split; try done; [|exists []; by rewrite app_nil_r..]. eexists [_], [_]. split_and!; [done|done|by repeat constructor|].
      constructor; [|constructor]. split; [done|]. exists cs. split_and!; [done|done|]. intros d. cbn [original_vesting].
      rewrite Hsum. match goal with H : ∀ d, amount_of d ?v = _ |- amount_of d ?v ≤ _ => rewrite H end.
      unfold amount_of. cbn. repeat case_decide; cbv; congruence.
    + eexists. split; [cbn [genBalances]; apply elem_of_app; right; by left|]. split; [done|].
      unfold stake_covered. cbn [Balance_Coins]. rewrite Coins_Sort_amount, Hsum. unfold amount_of. cbn.
      repeat case_decide; try (exfalso; by apply Hne); cbv; split_and!; congruence.
  - split.
    + apply grown_base; [done| |].
      * cbn. constructor; [|apply NoDup_singleton]. by intros ?%list_elem_of_singleton.
      * intros d. unfold amount_of. cbn. repeat case_decide; cbv; congruence.
    + eexists. split; [cbn [genBalances addGenAccount]; apply elem_of_app; right; by left|]. split; [done|].
      unfold stake_covered. cbn [Balance_Coins]. rewrite Coins_Sort_amount. unfold amount_of. cbn.
      repeat case_decide; try (exfalso; by apply Hne); cbv; split_and!; congruence.
Qed.

(** ** One node *)
Hypothesis Sign_keeps : ∀ nd chain memo tx tx', Sign nd chain memo tx = Ok tx' → GetMsgs tx' = GetMsgs tx ∧ GetMemo tx' = GetMemo tx.

(** The address of a node for its peers. *)
Definition p2pStart : Z := if singleMachine then 16656 else 26656.
Definition node_memo (i : nat) (memo : string) : Prop :=
  ∃ id pk ip, InitializeNodeValidatorFiles (node i) = Ok (id, pk) ∧
    getIP parseIPv6 ExternalIP i startingIPAddress = Ok ip ∧ memo = memo_of id ip (p2pStart + portOffset singleMachine i).
Definition create_msg (i : nat) (addr : AccAddress) (pk : Any) (stake : Z * Z) : MsgCreateValidator :=
  mkMsgCreateValidator (mkDescription (moniker_of i) "" "" "" "") (AccAddress_String addr) (Some pk)
    (mkWCoin stakingToken (Some stake.1)) (mkWCoin stakingToken (Some stake.2)).

(** The transaction of node [i]: its validator, whose stake is covered. *)
Definition gentx_for (bals : list Balance) (i : nat) (tx : Tx) : Prop :=
  ∃ memo id key pk addr stake b, GetMemo tx = Some memo ∧ node_memo i memo ∧
    InitializeNodeValidatorFiles (node i) = Ok (id, key) ∧ NewAnyWithValue key = Ok pk ∧
    keyed (node i, node i) addr ∧ GetMsgs tx = [GMCreateValidator (create_msg i addr pk stake)] ∧
    b ∈ bals ∧ Balance_Address b = AccAddress_String addr ∧ stake_covered stake b.
Definition gentx_file (bals : list Balance) (i : nat) (e : string * bytes) : Prop :=
  e.1 = node i +:+ ".json" ∧ ∃ tx enc, TxJSONEncoder tx = Ok enc ∧ e.2 = json_text enc ∧ gentx_for bals i tx.

Lemma gentx_file_more bals bals' i e : gentx_file bals i e → gentx_file (bals ++ bals') i e.
Proof.
  intros (Hn & tx & enc & He & Hj & memo & id & key & pk & addr & stake & b & Hm & Hnm & Hi & Hk & Ha & Hmsg & Hb & Hbb & Hst).
  split; [done|]. exists tx, enc. split_and!; try done. exists memo, id, key, pk, addr, stake, b. split_and!; try done.
  apply elem_of_app. by left.
Qed.

Lemma create_gentx_ok i addr key l v memo tx :
  create_gentx Sign NewAnyWithValue chainID nodeDirPrefix i addr key l v memo = Ok tx →
  ∃ pk, NewAnyWithValue key = Ok pk ∧ GetMsgs tx = [GMCreateValidator (create_msg i addr pk (l, v))] ∧ GetMemo tx = Some memo.
Proof using ccl tcl Sign_keeps.
  unfold create_gentx, NewMsgCreateValidator. intros Hr. go_inv.
  repeat match goal with H : NewCoin _ _ = Ok _ |- _ => apply NewCoin_is in H as -> end.
  match goal with H : Sign _ _ _ _ = Ok _ |- _ => apply Sign_keeps in H as [-> ->] end.
  match goal with H : BuildTx _ _ = Ok _ |- _ => apply BuildTx_is in H as [-> ->] end.
  match goal with H : NewAnyWithValue _ = Ok ?p |- _ => by exists p end.
Qed.

Definition at_first {A} (i : nat) (l : list A) : list A := if decide (i = 0%nat) then l else [].

Lemma node_step_ok i s c s' c' :
  (singleMachine = false → p2pPortStart s = 26656) → step i s c = (Ok s', c') →
  ∃ e id key boot seeds apps,
    c' = mkCtx (mkFiles (<[e.1 := e.2]> (gentxs (store c))) seeds apps (config_tomls (store c)) (genesis_files (store c))) (events c) ∧
    gentx_file (genBalances s') i e ∧
    (if decide (i = 0%nat) then keyed (node 0, "bootstrap-account") boot else boot = bootstrapAccountAddr s) ∧
    grown (key_names nodeDirPrefix i) (at_first i (pair (node 0) <$> oc_names)) (at_first i (pair (node 0) <$> ap_names))
      (set_bootstrap boot (add_node (node i) id key (begin_node nodeDirPrefix singleMachine i s))) s'.
Proof using ccl csl gtl tcl Sign_keeps.
  intros Hport Hr. unfold node_step in Hr.
  apply M_bind_ok in Hr as ([] & c1 & [_ ->]%cleanup_ok%lift_ok & Hr).
  apply M_bind_ok in Hr as (ip & c2 & [Hip ->]%cleanup_ok%lift_ok & Hr).
  apply M_bind_ok in Hr as ([id key] & c3 & [Hv ->]%cleanup_ok%lift_ok & Hr).
  apply M_bind_ok in Hr as ([] & c4 & [_ ->]%lift_ok & Hr). apply M_bind_ok in Hr as ([] & c5 & [_ ->]%lift_ok & Hr).
  apply M_bind_ok in Hr as ([addr secret] & c6 & [Hk ->]%cleanup_ok%lift_ok & Hr).
  assert (keyed (node i, node i) addr) as Hkeyed by (by exists secret).
  apply M_bind_ok in Hr as ([s3 seeds] & c7 & Hsys & Hr). cbn [fst snd] in *.
  apply M_bind_ok in Hr as ([] & c8 & [_ ->]%lift_ok & Hr). apply M_bind_ok in Hr as ([] & c9 & ->%modify_ok & Hr).
  apply M_bind_ok in Hr as ([s4 stake] & c10 & [Hval ->]%lift_ok & Hr). cbn [fst snd] in *.
  apply M_bind_ok in Hr as (tx & c11 & [Htx ->]%lift_ok & Hr). apply M_bind_ok in Hr as (bz & c12 & [Hbz ->]%lift_ok & Hr).
  apply M_bind_ok in Hr as ([] & c13 & [_ ->]%lift_ok & Hr). apply M_bind_ok in Hr as ([] & c14 & ->%modify_ok & Hr).
  apply M_bind_ok in Hr as ([] & c15 & ->%modify_ok & [-> ->]%mret_ok). cbn [store events].
  assert (c7 = c ∧ ∃ boot, (if decide (i = 0%nat) then keyed (node 0, "bootstrap-account") boot else boot = bootstrapAccountAddr s) ∧
    grown (at_first i (pair (node 0) <$> system_names)) (at_first i (pair (node 0) <$> oc_names)) (at_first i (pair (node 0) <$> ap_names))
      (set_bootstrap boot (add_node (node i) id key (begin_node nodeDirPrefix singleMachine i s))) s3) as (-> & boot & Hboot & Hg).
  { unfold at_first. case_decide as Hi.
    - subst i. apply system_accounts_ok in Hsys as (-> & boot & Hb & Hg). split; [done|]. by exists boot.
    - apply mret_ok in Hsys as [[= -> ->] ->]. split; [done|]. exists (bootstrapAccountAddr s). split; [done|].
      destruct s. apply grown_refl. }
  destruct (validator_account_ok _ _ _ _ Hkeyed Hval) as (Hg' & b & Hb & Hba & Hst). cbn [fst snd] in *.
  destruct (create_gentx_ok _ _ _ _ _ _ _ Htx) as (pk & Hpk & Hmsg & Hmemo).
  exists (node i +:+ ".json", json_text bz), id, key, boot, (<[node i := seeds]> (key_seeds (store c))), (<[node i := appConfig s4]> (app_tomls (store c))).
  split_and!; [done| |done|].
  - split; [done|]. exists tx, bz. split_and!; [done|done|].
    eexists _, id, key, pk, addr, stake, b. split_and!; try done.
    exists id, key, ip. split_and!; [done|done|]. f_equal. f_equal. unfold p2pStart. cbn. destruct singleMachine; [done|by apply Hport].
  - pose proof (grown_app _ _ _ _ _ _ _ _ _ Hg Hg') as Hall. rewrite !app_nil_r in Hall. exact Hall.
Qed.

(** ** All nodes *)
Definition first_keys (names : list string) (i : nat) : list (string * string) := at_first i (pair (node 0) <$> names).

(** After the nodes [seen]. *)
Record setup_inv (seen : list nat) (s : Setup) (f : Files) : Prop := {
  si_accounts : Forall2 keyed (seen ≫= key_names nodeDirPrefix) (GetAddress <$> genAccounts s);
  si_backed : Forall2 backed (genAccounts s) (genBalances s);
  si_oc : ∃ l, genOCMemberAddrs s = AccAddress_String <$> l ∧ Forall2 keyed (seen ≫= first_keys oc_names) l;
  si_ap : ∃ l, genAPMemberAddrs s = AccAddress_String <$> l ∧ Forall2 keyed (seen ≫= first_keys ap_names) l;
  si_boot : (0%nat ∈ seen) → keyed (node 0, "bootstrap-account") (bootstrapAccountAddr s);
  si_files : genFiles s = node <$> seen;
  si_port : singleMachine = false → p2pPortStart s = 26656;
  si_start : seen ≠ [] → p2pPortStart s = p2pStart;
  si_gentxs : ∃ es, map_to_list (gentxs f) ≡ₚ es ∧ Forall2 (gentx_file (genBalances s)) seen es;
}.

Lemma setup_inv_start cfg app : setup_inv [] (mkSetup [] [] [] [] [] [] [] "" cfg app 26656) no_files.
Proof.
  split; try done; try (exists []; split; [done|constructor]); try constructor.
  - intros Hin. by apply elem_of_nil in Hin.
Qed.

Lemma gentx_names_differ i j : node i +:+ ".json" = node j +:+ ".json" → i = j.
Proof. intros He%append_cancel_r. by apply node_name_inj in He. Qed.

Lemma node_step_inv seen i s c s' c' :
  i ∉ seen → setup_inv seen s (store c) → step i s c = (Ok s', c') →
  setup_inv (seen ++ [i]) s' (store c') ∧ events c' = events c.
Proof using ccl csl gtl tcl Sign_keeps.
  intros Hi [Ha Hb (lo & Ho & Hko) (lp & Hp & Hkp) Hboot Hf Hport Hstart (es & Hes & Htx)] Hr.
  apply (node_step_ok _ _ _ _ _ Hport) in Hr as (e & id & key & boot & seeds & apps & -> & He & Hb' & Hg).
  destruct Hg as [(accs & bals & Ga & Gb & Gk & Gbk) (o & Go & Gok) (p & Gp & Gpk) Gf Gi Gv Gbt Gpt Gc].
  cbn [store gentxs genAccounts genBalances genOCMemberAddrs genAPMemberAddrs set_bootstrap add_node begin_node genFiles
    bootstrapAccountAddr p2pPortStart] in *.
  split; [|done]. split; rewrite ?bind_app; cbn [mbind list_bind]; rewrite ?app_nil_r.
  - rewrite Ga, fmap_app. by apply Forall2_app.
  - rewrite Ga, Gb. by apply Forall2_app.
  - exists (lo ++ o). rewrite Go, Ho, fmap_app. split; [done|]. by apply Forall2_app.
  - exists (lp ++ p). rewrite Gp, Hp, fmap_app. split; [done|]. by apply Forall2_app.
  - intros Hin. rewrite Gbt. case_decide as H0; [done|]. rewrite Hb'. apply Hboot.
    apply elem_of_app in Hin as [Hin|Hin%list_elem_of_singleton]; [done|]. by subst.
  - rewrite Gf, Hf, fmap_app. done.
  - intros Hs. rewrite Gpt. rewrite Hs. by apply Hport.
  - intros _. rewrite Gpt. unfold p2pStart. destruct singleMachine; [done|]. by apply Hport.
  - exists (es ++ [e]). split.
    + destruct e as [name bz]. cbn [gentxs fst snd]. rewrite map_to_list_insert.
      * rewrite Hes. apply Permutation_cons_append.
      * apply eq_None_not_Some. intros [bz' Hlook%elem_of_map_to_list]. rewrite Hes in Hlook.
        apply list_elem_of_lookup in Hlook as [k Hk]. destruct (Forall2_lookup_r _ _ _ _ _ Htx Hk) as (j & Hj & Hn & _).
        destruct He as [Hn' _]. cbn in Hn, Hn'. rewrite Hn in Hn'. apply gentx_names_differ in Hn' as ->.
        apply Hi. by eapply list_elem_of_lookup_2.
    + rewrite Gb in He |- *. apply Forall2_app; [|constructor; [exact He|constructor]].
      eapply Forall2_impl; [exact Htx|]. intros x y. apply gentx_file_more.
Qed.

Lemma nodes_inv idx seen s c s' c' :
  NoDup (seen ++ idx) → setup_inv seen s (store c) →
  nodes MkdirAll WriteFile InitializeNodeValidatorFiles keyring_New NewSigningAlgoFromString GenerateSaveCoinKey Sign NewAnyWithValue
    parseIPv6 ExternalIP chainID nodeDirPrefix startingIPAddress algoStr singleMachine vestingVals now idx s c = (Ok s', c') →
  setup_inv (seen ++ idx) s' (store c') ∧ events c' = events c.
Proof using ccl csl gtl tcl Sign_keeps.
  revert seen s c. induction idx as [|i idx IH]; intros seen s c Hnd Hinv Hr; cbn [nodes] in Hr.
  { apply mret_ok in Hr as [-> ->]. rewrite app_nil_r. done. }
  apply M_bind_ok in Hr as (s1 & c1 & Hstep & Hr).
  assert (i ∉ seen) as Hi. { apply NoDup_app in Hnd as (_ & Hd & _). intros Hin. apply (Hd i Hin). by left. }
  destruct (node_step_inv _ _ _ _ _ _ Hi Hinv Hstep) as [Hinv1 He1].
  replace (seen ++ i :: idx) with ((seen ++ [i]) ++ idx) in Hnd |- * by (by rewrite <-app_assoc).
  destruct (IH _ _ _ Hnd Hinv1 Hr) as [Hinv' He']. split; [done|congruence].
Qed.

(** ** The addresses are distinct *)

(** Two new keys never have the same address. *)
Hypothesis keys_fresh : ∀ k k' a, keyed k a → keyed k' a → k = k'.
Hypothesis keys_valid : ∀ k a, keyed k a → a ≠ "" ∧ (String.length a ≤ 255)%nat.

Lemma keyed_NoDup ks l : NoDup ks → Forall2 keyed ks l → NoDup l.
Proof using keys_fresh. intros Hnd Hk. exact (Forall2_NoDup _ _ _ Hnd Hk keys_fresh). Qed.
Lemma keyed_decodes ks l : Forall2 keyed ks l → Forall (λ a, AccAddressFromBech32 (AccAddress_String a) = Ok a) l.
Proof using keys_valid b32l.
  intros Hk. induction Hk as [|k a ks l Ha Hk IH]; constructor; [|done]. destruct (keys_valid _ _ Ha). by apply bech32_roundtrip.
Qed.
Lemma keyed_texts ks l : NoDup ks → Forall2 keyed ks l → NoDup (AccAddress_String <$> l).
Proof using keys_fresh keys_valid b32l.
  intros Hnd Hk. pose proof (keyed_NoDup _ _ Hnd Hk) as Hl. pose proof (keyed_decodes _ _ Hk) as Hd. clear Hk Hnd ks.
  induction Hl as [|a l Hn Hl IH]; [constructor|]. apply Forall_cons in Hd as [Ha Hd]. cbn. constructor; [|by apply IH].
  intros (a' & He & Hin)%list_elem_of_fmap. pose proof (proj1 (Forall_forall _ _) Hd a' Hin) as Ha'. cbn in Ha'.
  rewrite <-He, Ha in Ha'. injection Ha' as ->. done.
Qed.

Lemma backed_addresses accs bals :
  Forall2 backed accs bals → Balance_Address <$> bals = AccAddress_String <$> (GetAddress <$> accs).
Proof. induction 1 as [|a b accs bals [Hb _] _ IH]; [done|]. cbn. by rewrite Hb, IH. Qed.

(** ** Balances *)
Lemma add_all_amount d bs t r : add_all bs t = Ok r → amount_of d r = amount_of d t + total_of d bs.
Proof using gtl.
  revert t. induction bs as [|b bs IH]; intros t Hr; cbn [add_all] in Hr.
  { injection Hr as <-. unfold total_of. cbn. lia. }
  apply outcome_bind_ok in Hr as (t' & Ht & Hr). rewrite (IH _ Hr), (Coins_Add_amount d _ _ _ Ht).
  change (total_of d (b :: bs)) with (amount_of d (Balance_Coins b) + total_of d bs). lia.
Qed.

(** The balances as the collection reads them. *)
Lemma sanitized_lookup bals st rest supply :
  NoDup (Balance_Address <$> bals) →
  Forall (λ x, ∃ a, AccAddressFromBech32 (Balance_Address x) = Ok a ∧ AccAddress_String a = Balance_Address x) bals →
  st !! bank_ModuleName = Some (enc_bank (mkBankGenesis (SanitizeGenesisBalances bals) supply rest)) →
  ∃ l, IterateGenesisBalances st = Ok l ∧
    ∀ b cs, b ∈ bals → Balance_Coins b = Coins_Sort cs → NoDup (Denom <$> cs) →
      ∃ coins, balances_map l !! Balance_Address b = Some coins ∧
        Coins_AmountOf coins stakingToken = Ok (Some (amount_of stakingToken (Balance_Coins b))).
Proof using csl bjl.
  intros Hnd Hdec Hst. destruct (Sanitize_sorts bals) as (l' & Hperm & Hsan). set (bs := SanitizeGenesisBalances bals) in *.
  assert (∃ addrs, Forall2 (λ a x, AccAddressFromBech32 (Balance_Address x) = Ok a ∧ AccAddress_String a = Balance_Address x) addrs bs)
    as (addrs & Haddrs).
  { rewrite Hsan. rewrite <-Hperm in Hdec. clear -Hdec. induction Hdec as [|x l (a & Ha) _ (as_ & IH)]; [by exists []|].
    exists (a :: as_). by constructor. }
  eexists. split; [apply (iterate_balances _ _ addrs Hst); eapply Forall2_impl; [exact Haddrs|]; by intros ?? [? _]|].
  cbn [BG_Balances]. intros b cs Hb Hcoins Hcs.
  assert (prod_map AccAddress_String id <$> zip addrs (Balance_Coins <$> bs) = (λ x, (Balance_Address x, Balance_Coins x)) <$> bs) as Hl.
  { clear -Haddrs. induction Haddrs as [|a x addrs bs [_ Ha] _ IH]; [done|]. cbn. by rewrite Ha, IH. }
  exists (Coins_Sort (Balance_Coins b)). split.
  - unfold balances_map. rewrite Hl. apply elem_of_list_to_map_1.
    + rewrite fmap_reverse, reverse_Permutation, <-list_fmap_compose. change (fst ∘ _) with Balance_Address.
      rewrite Hsan, <-list_fmap_compose. change (Balance_Address ∘ _) with Balance_Address. by rewrite Hperm.
    + apply elem_of_reverse. rewrite Hsan, <-list_fmap_compose. apply list_elem_of_fmap. exists b. split; [done|]. by rewrite Hperm.
  - apply AmountOf_sorted. rewrite Hcoins. by rewrite Coins_Sort_perm.
Qed.

(** ** The collection accepts the transactions *)
Local Abbreviation funded := (funded_file TxJSONDecoder GetMemo GetMsgs).

(** The entry that the collection makes of the file of node [i]. *)
Definition entry_for (bals : list Balance) (i : nat) (e : GenTxEntry (Tx:=Tx)) : Prop :=
  gentx_for bals i (entry_tx e) ∧ node_memo i (entry_memo e) ∧ Moniker (CV_Description (entry_msg e)) = moniker_of i ∧
  ∃ enc, TxJSONEncoder (entry_tx e) = Ok enc.

Lemma gentx_file_funded accs bals l i e :
  Forall2 backed accs bals →
  (∀ b cs, b ∈ bals → Balance_Coins b = Coins_Sort cs → NoDup (Denom <$> cs) →
     ∃ coins, balances_map l !! Balance_Address b = Some coins ∧
       Coins_AmountOf coins stakingToken = Ok (Some (amount_of stakingToken (Balance_Coins b)))) →
  gentx_file bals i e →
  ∃ g, funded (balances_map l) (mkFileInfo e.1 false (Ok e.2)) g ∧ entry_for bals i g.
Proof using tcl.
  intros Hbacked Hl (Hn & tx & enc & Henc & He & Hfor).
  destruct Hfor as (memo & id & key & pk & addr & stake & b & Hmemo & Hnm & Hi & Hk & Ha & Hmsg & Hb & Hba & Hst).
  pose proof Hb as (j & Hj)%list_elem_of_lookup. destruct (Forall2_lookup_r _ _ _ _ _ Hbacked Hj) as (a & _ & _ & cs & Hcs & Hnd & _).
  destruct (Hl b cs Hb Hcs Hnd) as (coins & Hlook & Hamt).
  exists (mkEntryOf tx (create_msg i addr pk stake) memo). split.
  - exists (json_text enc), coins, stake.1, (amount_of stakingToken (Balance_Coins b)). cbn. rewrite <-Hba. split_and!; try done.
    + by rewrite He.
    + by apply tx_json_roundtrip.
    + destruct Hnm as (id' & pk' & ip & _ & _ & ->). unfold memo_of. by destruct id'.
    + destruct Hst as (_ & ? & _ & ? & _). lia.
  - split_and!; [|done|done|by exists enc]. exists memo, id, key, pk, addr, stake, b. by split_and!.
Qed.

(** The entries of the whole directory, one per node. *)
Lemma directory_funded accs bals l seen f es :
  Forall2 backed accs bals →
  (∀ b cs, b ∈ bals → Balance_Coins b = Coins_Sort cs → NoDup (Denom <$> cs) →
     ∃ coins, balances_map l !! Balance_Address b = Some coins ∧
       Coins_AmountOf coins stakingToken = Ok (Some (amount_of stakingToken (Balance_Coins b)))) →
  map_to_list (gentxs f) ≡ₚ es → Forall2 (gentx_file bals) seen es →
  ∃ gs order, Forall2 (funded (balances_map l)) (filter (λ fo, skipped fo = false) (ReadDir f)) gs ∧
    order ≡ₚ seen ∧ Forall2 (entry_for bals) order gs.
Proof using tcl.
  intros Hbacked Hl Hes Htx.
  assert (es ≡ₚ merge_sort name_le (map_to_list (gentxs f))) as Hsort by (by rewrite merge_sort_Permutation).
  apply Forall2_flip in Htx. destruct (Permutation_Forall2 Hsort Htx) as (order & Hord & Htx').
  assert (filter (λ fo, skipped fo = false) (ReadDir f) = ReadDir f) as ->.
  { apply filter_all. intros fo (p & -> & Hp)%list_elem_of_fmap. rewrite merge_sort_Permutation, Hes in Hp.
    apply list_elem_of_lookup in Hp as (j & Hj). destruct (Forall2_lookup_l _ _ _ _ _ Htx Hj) as (i & _ & Hn & _).
    unfold skipped. cbn. by rewrite Hn, gentx_name_suffix. }
  unfold ReadDir. assert (∃ gs, Forall2 (funded (balances_map l)) ((λ p, mkFileInfo p.1 false (Ok p.2)) <$> merge_sort name_le (map_to_list (gentxs f))) gs ∧
    Forall2 (entry_for bals) order gs) as (gs & Hgs & Hent); [|by exists gs, order].
  clear Hes Htx Hord Hsort. induction Htx' as [|e i es' order' He _ (gs & IH1 & IH2)]; [by exists []|].
  destruct (gentx_file_funded _ _ _ _ _ Hbacked Hl He) as (g & Hg & Hg'). exists (g :: gs). split; by constructor.
Qed.

Lemma encode_all (bals : list Balance) order gs :
  Forall2 (entry_for bals) order gs →
  ∃ bzs, encode_txs TxJSONEncoder (entry_tx <$> gs) = Ok bzs ∧
    Forall2 (λ i bz, ∃ tx, TxJSONEncoder tx = Ok bz ∧ gentx_for bals i tx) order bzs.
Proof.
  induction 1 as [|i g order gs (Hfor & _ & _ & enc & Henc) _ (bzs & Hb & Hf)]; [by exists []|].
  exists (enc :: bzs). cbn. rewrite Henc. cbn. rewrite Hb. split; [done|]. constructor; [|done]. by exists (entry_tx g).
Qed.

(** ** The state of the application *)
Lemma MustUnmarshal_ok {A} (d : json → outcome A) data a : MustUnmarshalJSON d data = Ok a → ∃ j, data = Some j ∧ d j = Ok a.
Proof. unfold MustUnmarshalJSON, Must. destruct data as [j|]; [|done]. intros Hd. exists j. split; [done|]. by destruct (d j). Qed.

Lemma genesis_app_state_ok D s st :
  genesis_app_state D s = Ok st →
  ∃ poe c accounts arest bank j supply,
    GetGenesisStateFromAppState D = Ok poe ∧ GetSeedContracts poe = Some c ∧
    PackAccounts (genAccounts s) = Ok accounts ∧ D !! bank_ModuleName = Some j ∧ dec_bank j = Ok bank ∧
    (∀ d, amount_of d supply = amount_of d (BG_Supply bank) + total_of d (SanitizeGenesisBalances (genBalances s))) ∧
    st !! auth_ModuleName = Some (enc_auth (mkAuthGenesis accounts arest)) ∧
    st !! bank_ModuleName = Some (enc_bank (mkBankGenesis (SanitizeGenesisBalances (genBalances s)) supply (BG_rest bank))) ∧
    st !! poe_Module = Some (poe_MarshalJSON (mkPoEGenesis (GS_Params poe) (GenesisState_SeedContracts (Some (with_network c s))))).
Proof using gtl.
  unfold genesis_app_state. intros Hst. apply outcome_bind_ok in Hst as (auth & Hauth & Hst).
  apply outcome_bind_ok in Hst as (accounts & Hacc & Hst). apply outcome_bind_ok in Hst as (bank & Hbank & Hst).
  apply outcome_bind_ok in Hst as (total & Htot & Hst). apply outcome_bind_ok in Hst as (supply & Hsup & Hst).
  apply outcome_bind_ok in Hst as (poe & Hpoe & Hst). destruct (GetSeedContracts poe) as [c|] eqn:Hc; [|done].
  injection Hst as <-. apply MustUnmarshal_ok in Hbank as (j & Hj & Hbank). rewrite lookup_insert_ne in Hj by done.
  exists poe, c, accounts, (AG_rest auth), bank, j, supply. unfold SetGenesisStateInAppState.
  split_and!; try done.
  - unfold GetGenesisStateFromAppState in *. rewrite !lookup_insert_ne in Hpoe by done. exact Hpoe.
  - intros d. rewrite (Coins_Add_amount d _ _ _ Hsup), (add_all_amount d _ _ _ Htot). unfold amount_of at 2. cbn. lia.
  - by rewrite !lookup_insert_ne, lookup_insert_eq by done.
  - by rewrite lookup_insert_ne, lookup_insert_eq by done.
  - by rewrite lookup_insert_eq.
Qed.

(** ** The collection of one node *)
Hypothesis saved : ∀ st t, SaveAs (mkGenesisDoc chainID st t) = Ok ().
Local Abbreviation collect_one := (collect_node (Tx:=Tx) SaveAs chainID nodeDirPrefix singleMachine genTime).

(** The peers of a node, unless monikers clash: the addresses of all nodes. *)
Definition peers_all (seen : list nat) (cfg : NodeConfig) : Prop :=
  ∃ peers order, PersistentPeers cfg = join peers ∧ order ≡ₚ seen ∧ Forall2 node_memo order peers.
Definition gentxs_for (bals : list Balance) (seen : list nat) (bzs : list json_bytes) : Prop :=
  ∃ order, order ≡ₚ seen ∧ Forall2 (λ i bz, ∃ tx, TxJSONEncoder tx = Ok bz ∧ gentx_for bals i tx) order bzs.

Definition with_txs (st : gmap string json) (params : PoEParams) (c : SeedContracts) (bzs : list json_bytes) : gmap string json :=
  SetGenesisStateInAppState st (mkPoEGenesis params (GenesisState_SeedContracts (Some (with_gentxs c bzs)))).
Definition final_doc (app : json_bytes) : GenesisDoc := mkGenesisDoc chainID app (Some genTime).

Lemma entry_peers bals order gs moniker :
  (∀ j, moniker ≠ moniker_of j) → Forall2 (entry_for bals) order gs →
  Forall2 node_memo order (omap (peer_of moniker) gs).
Proof.
  intros Hne. induction 1 as [|i g order gs (_ & Hm & Hmon & _) _ IH]; [constructor|]. cbn. unfold peer_of.
  rewrite decide_True by (rewrite Hmon; intros He; by apply (Hne i)). by constructor.
Qed.

Lemma collect_node_ok seen s st params c p i cfg canonical (k : Ctx Files) doc :
  setup_inv seen s (store k) → NoDup seen → seen ≠ [] →
  genesis_files (store k) !! node i = Some doc → Doc_ChainID doc = chainID →
  GenesisStateFromGenDoc (Doc_AppState doc) = Ok st →
  (∃ supply rest, st !! bank_ModuleName = Some (enc_bank (mkBankGenesis (SanitizeGenesisBalances (genBalances s)) supply rest))) →
  st !! poe_Module = Some (poe_MarshalJSON (mkPoEGenesis params (GenesisState_SeedContracts (Some c)))) →
  ∃ cfg' bzs,
    let app := default (enc_raw_map (with_txs st params c bzs)) canonical in
    collect_one p i cfg canonical k = (Ok (cfg', Some app),
      mkCtx (mkFiles (gentxs (store k)) (key_seeds (store k)) (app_tomls (store k)) (<[node i := cfg']> (config_tomls (store k)))
        (<[node i := final_doc app]> (genesis_files (store k)))) (events k)) ∧
    gentxs_for (genBalances s) seen bzs ∧ ((∀ j, node i ≠ moniker_of j) → peers_all seen cfg').
Proof using bjl b32l csl cal keys_fresh keys_valid pjl tcl saved gtl.
  intros Hinv Hnd Hne Hdoc Hchain Hst (supply & rest & Hbank) Hpoe.
  pose proof (si_accounts _ _ _ Hinv) as Hkeys. pose proof (si_backed _ _ _ Hinv) as Hbacked.
  destruct (si_gentxs _ _ _ Hinv) as (es & Hes & Htx).
  pose proof (key_names_NoDup nodeDirPrefix seen Hnd) as Hknd. pose proof (backed_addresses _ _ Hbacked) as Haddr.
  destruct (sanitized_lookup (genBalances s) st rest supply) as (l & Hl & Hlook).
  { rewrite Haddr. by eapply keyed_texts. }
  { assert (Forall (λ t, ∃ a, AccAddressFromBech32 t = Ok a ∧ AccAddress_String a = t) (Balance_Address <$> genBalances s)) as Hd.
    - rewrite Haddr. apply Forall_fmap. eapply Forall_impl; [by eapply keyed_decodes|]. intros a Ha. by exists a.
    - rewrite Forall_fmap in Hd. exact Hd. }
  { done. }
  destruct (directory_funded _ _ _ _ _ _ Hbacked Hlook Hes Htx) as (gs & order & Hgs & Hord & Hent).
  destruct (encode_all _ _ _ Hent) as (bzs & Hbzs & Hfor).
  assert (gs ≠ []) as Hgne.
  { intros ->. apply Forall2_nil_inv_r in Hent. subst order. apply Hne. by apply Permutation_nil_l in Hord. }
  destruct doc as [chain app time]. cbn in Hchain, Hst. subst chain.
  set (g := mkPoEGenesis params (GenesisState_SeedContracts (Some (with_gentxs c bzs)))).
  assert (AddGenTxsToGenesisFile TxJSONDecoder GetMemo GetMsgs IterateGenesisBalances TxJSONEncoder GetGenesisStateFromAppState
    (λ gs, SaveAs (mkGenesisDoc chainID (match GenesisStateFromGenDoc app with Ok st => enc_raw_map (SetGenesisStateInAppState st gs) | _ => JNil end) time))
    app (node i) (Ok (ReadDir (store k))) = (Some (join (merge_sort bytes_le (omap (peer_of (node i)) gs))), Ok g)) as Hadd.
  { destruct app as [|j|]; [done| |done].
    apply (AddGenTxs_ok _ _ _ IterateGenesisBalances TxJSONEncoder GetGenesisStateFromAppState _ j st _ l
      (mkPoEGenesis params (GenesisState_SeedContracts (Some c)))); [exact Hst|exact Hl| |].
    - unfold GetGenesisStateFromAppState. rewrite Hpoe, poe_json_roundtrip. done.
    - exists gs, c, bzs. split_and!; try done. }
  exists (set_peers (join (merge_sort bytes_le (omap (peer_of (node i)) gs))) (collect_config nodeDirPrefix singleMachine i p cfg)), bzs.
  cbn zeta. split_and!.
  - unfold collect_node. unfold mbind, M_bind, gets, lift. cbn [store]. rewrite Hdoc. cbn [Doc_ChainID Doc_AppState Doc_GenesisTime NC_Moniker collect_config].
    rewrite Hadd, Hst. unfold write_config, write_genesis, modify. cbn [store events gentxs key_seeds app_tomls config_tomls genesis_files].
    rewrite saved. cbn [mret M_ret]. unfold mret, M_ret. rewrite insert_insert_eq. done.
  - by exists order.
  - intros Hmon. exists (merge_sort bytes_le (omap (peer_of (node i)) gs)).
    assert (omap (peer_of (node i)) gs ≡ₚ merge_sort bytes_le (omap (peer_of (node i)) gs)) as Hperm
      by (by rewrite merge_sort_Permutation).
    pose proof (entry_peers _ _ _ _ Hmon Hent) as Hm. apply Forall2_flip in Hm.
    destruct (Permutation_Forall2 Hperm Hm) as (order' & Hord' & Hm'). exists order'. split_and!; [done| |by apply Forall2_flip].
    by rewrite <-Hord'.
Qed.

(** ** The collection of all nodes *)
Lemma setup_inv_gentxs seen s f f' : gentxs f' = gentxs f → setup_inv seen s f → setup_inv seen s f'.
Proof. intros He [? ? ? ? ? ? ? ? (es & Hes & Htx)]. split; try done. exists es. by rewrite He. Qed.

Local Abbreviation collect_all := (collect_nodes (Tx:=Tx) SaveAs chainID nodeDirPrefix singleMachine genTime).

(** A node is ready: it has the genesis, and it knows its peers. *)
Definition node_ready (seen : list nat) (app : json_bytes) (f : Files) (i : nat) : Prop :=
  genesis_files f !! node i = Some (final_doc app) ∧
  ∃ cfg, config_tomls f !! node i = Some cfg ∧ ((∀ j, node i ≠ moniker_of j) → peers_all seen cfg).

Section collection.
Variables (seen : list nat) (s : Setup) (st : gmap string json) (params : PoEParams) (c : SeedContracts) (doc : GenesisDoc).
Hypothesis (seen_NoDup : NoDup seen) (seen_nonempty : seen ≠ []) (doc_chain : Doc_ChainID doc = chainID)
  (doc_state : GenesisStateFromGenDoc (Doc_AppState doc) = Ok st)
  (doc_bank : ∃ supply rest, st !! bank_ModuleName = Some (enc_bank (mkBankGenesis (SanitizeGenesisBalances (genBalances s)) supply rest)))
  (doc_poe : st !! poe_Module = Some (poe_MarshalJSON (mkPoEGenesis params (GenesisState_SeedContracts (Some c))))).

(** The nodes after the first one take over its state. *)
Lemma collect_rest p app idx cfg (k : Ctx Files) :
  NoDup idx → setup_inv seen s (store k) → (∀ i, i ∈ idx → genesis_files (store k) !! node i = Some doc) →
  ∃ k', collect_all p idx cfg (Some app) k = (Ok (), k') ∧ events k' = events k ∧
    (∀ i, i ∈ idx → node_ready seen app (store k') i) ∧
    (∀ i, i ∉ idx → node_ready seen app (store k) i → node_ready seen app (store k') i).
Proof using All.
  revert cfg k. induction idx as [|i idx IH]; intros cfg k Hnd Hinv Hfiles.
  { exists k. split_and!; [done|done|set_solver|done]. }
  apply NoDup_cons in Hnd as [Hi Hnd].
  destruct (collect_node_ok seen s st params c p i cfg (Some app) k doc) as (cfg' & bzs & Hone & _ & Hpeers);
    [done|done|done|by apply Hfiles; left|done..|].
  cbn zeta in Hone. cbn [default] in Hone.
  edestruct (IH cfg') as (k' & Hrun & Hev & Hready & Hkeep); [exact Hnd| | |].
  3: { exists k'. cbn [collect_nodes]. unfold mbind, M_bind. rewrite Hone. cbn [fst snd].
    split_and!; [exact Hrun|exact Hev| |].
    - intros j [->|Hj]%elem_of_cons; [|by apply Hready]. apply Hkeep; [done|].
      split; [by cbn; rewrite lookup_insert_eq|]. exists cfg'. split; [by cbn; rewrite lookup_insert_eq|done].
    - intros j [Hji Hj]%not_elem_of_cons [Hg (cfg0 & Hc & Hp)]. apply Hkeep; [done|].
      assert (node j ≠ node i) by (by intros He%node_name_inj).
      split; [by cbn; rewrite lookup_insert_ne|]. exists cfg0. split; [by cbn; rewrite lookup_insert_ne|done]. }
  - eapply setup_inv_gentxs; [|exact Hinv]. done.
  - intros j Hj. cbn. rewrite lookup_insert_ne; [apply Hfiles; by right|]. intros He%node_name_inj. by subst.
Qed.

(** The first node sets the state that all nodes get. *)
Lemma collect_nodes_ok p cfg (k : Ctx Files) :
  setup_inv seen s (store k) → (∀ i, i ∈ seen → genesis_files (store k) !! node i = Some doc) →
  ∃ k' bzs, collect_all p seen cfg None k = (Ok (), k') ∧ events k' = events k ∧
    gentxs_for (genBalances s) seen bzs ∧ ∀ i, i ∈ seen → node_ready seen (enc_raw_map (with_txs st params c bzs)) (store k') i.
Proof using All.
  intros Hinv Hfiles. assert (∃ i idx, seen = i :: idx) as (i & idx & E) by (destruct seen; [done|eauto]).
  destruct (collect_node_ok seen s st params c p i cfg None k doc) as (cfg' & bzs & Hone & Htxs & Hpeers);
    [done|done|done|apply Hfiles; rewrite E; by left|done..|].
  cbn zeta in Hone. cbn [default] in Hone. pose proof seen_NoDup as Hnd. rewrite E in Hnd. apply NoDup_cons in Hnd as [Hi Hnd].
  edestruct (collect_rest p (enc_raw_map (with_txs st params c bzs)) idx cfg') as (k' & Hrun & Hev & Hready & Hkeep); [exact Hnd| | |].
  3: { exists k', bzs. rewrite E at 1. cbn [collect_nodes]. unfold mbind, M_bind. rewrite Hone. cbn [fst snd].
    split_and!; [exact Hrun|exact Hev|exact Htxs|]. intros j Hj. rewrite E in Hj. apply elem_of_cons in Hj as [->|Hj]; [|by apply Hready].
    apply Hkeep; [done|]. split; [by cbn; rewrite lookup_insert_eq|]. exists cfg'. split; [by cbn; rewrite lookup_insert_eq|done]. }
  - eapply setup_inv_gentxs; [|exact Hinv]. done.
  - intros j Hj. cbn. rewrite lookup_insert_ne; [apply Hfiles; rewrite E; by right|]. intros He%node_name_inj. by subst.
Qed.
End collection.

(** All nodes get the document. *)
Lemma save_all D n s st (k : Ctx Files) :
  genFiles s = node <$> seq 0 n → genesis_app_state D s = Ok st →
  let doc := mkGenesisDoc chainID (denom_replaced (enc_raw_map st)) None in
  ∃ k', initGenFiles SaveAs chainID D n s k = (Ok (), k') ∧ events k' = events k ∧ gentxs (store k') = gentxs (store k) ∧
    ∀ i, (i < n)%nat → genesis_files (store k') !! node i = Some doc.
Proof using saved.
  intros Hfiles Hst doc. unfold initGenFiles. unfold mbind, M_bind, lift. rewrite Hst. fold doc.
  set (body := λ i, match genFiles s !! i with Some file => _ | None => _ end).
  set (saved_at := λ i (k : Ctx Files), mkCtx (mkFiles (gentxs (store k)) (key_seeds (store k)) (app_tomls (store k)) (config_tomls (store k))
      (<[node i := doc]> (genesis_files (store k)))) (events k)).
  assert (∀ i k, (i < n)%nat → body i k = (Ok (), saved_at i k)) as Hbody.
  { intros i k0 Hi. unfold body. rewrite Hfiles, list_lookup_fmap, lookup_seq_lt by done. cbn. unfold doc. by rewrite saved. }
  assert (∀ idx (k : Ctx Files), (∀ i, i ∈ idx → (i < n)%nat) →
    ∃ k', forM idx body k = (Ok (), k') ∧ events k' = events k ∧ gentxs (store k') = gentxs (store k) ∧
      (∀ i, i ∈ idx ∨ genesis_files (store k) !! node i = Some doc → genesis_files (store k') !! node i = Some doc)) as Hloop.
  { intros idx. induction idx as [|i idx IH]; intros k0 Hlt.
    { exists k0. split_and!; try done. intros i [Hin|Hin]; [by apply elem_of_nil in Hin|done]. }
    destruct (IH (saved_at i k0)) as (k' & Hrun & Hev & Hg & Hkeep); [intros j Hj; apply Hlt; by right|].
    exists k'. cbn [forM]. unfold mbind, M_bind. rewrite Hbody by (apply Hlt; by left).
    split_and!; [exact Hrun|done|done|]. intros j Hj. apply Hkeep. cbn. destruct (decide (j = i)) as [->|Hne].
    - right. by rewrite lookup_insert_eq.
    - rewrite lookup_insert_ne by (by intros He%node_name_inj). destruct Hj as [[->|Hj]%elem_of_cons|Hj]; auto. done. }
  destruct (Hloop (seq 0 n) k) as (k' & Hrun & Hev & Hg & Hkeep); [intros i Hi%elem_of_seq; lia|].
  exists k'. split_and!; [exact Hrun|done|done|]. intros i Hi. apply Hkeep. left. apply elem_of_seq. lia.
Qed.

(** ** The genesis of the module is valid *)
Section validity.
Context {sm : SdkMath} {sml : SdkMathLaws}.
Variables (conv : Z → Z) (Any_String : option Any → string).
(** Two nodes never have the same public key. *)
Hypothesis pubkeys_fresh : ∀ i j id id' key key' pk pk',
  InitializeNodeValidatorFiles (node i) = Ok (id, key) → InitializeNodeValidatorFiles (node j) = Ok (id', key') →
  NewAnyWithValue key = Ok pk → NewAnyWithValue key' = Ok pk' → Any_String (Some pk) = Any_String (Some pk') → i = j.
Hypothesis denom_valid : is_ok (ValidateDenom stakingToken) = true.

(** [txJSONDecoder], then [GetMsgs] *)
Definition decode_gentx (bz : json_bytes) : outcome (list GenMsg) := tx ← TxJSONDecoder (json_text bz); Ok (GetMsgs tx).

Lemma keyed_fun k a a' : keyed k a → keyed k a' → a = a'.
Proof. intros [x Hx] [y Hy]. rewrite Hx in Hy. by injection Hy. Qed.

Lemma keyed_members_valid ks l : ks ≠ [] → NoDup ks → Forall2 keyed ks l → members_valid (AccAddress_String <$> l).
Proof using keys_fresh keys_valid b32l.
  intros Hne Hnd Hk. split_and!.
  - intros He. apply fmap_nil_inv in He. subst l. apply Forall2_nil_inv_r in Hk. done.
  - apply Forall_fmap. eapply Forall_impl; [by eapply keyed_decodes|]. intros a Ha. cbn. by rewrite Ha.
  - by eapply keyed_texts.
Qed.

Lemma engagement_addresses accs : Member_Address <$> engagement_members accs = AccAddress_String <$> (GetAddress <$> accs).
Proof.
  unfold engagement_members. rewrite fmap_imap. rewrite <-list_fmap_compose, <-imap_const. by apply imap_ext.
Qed.
Lemma engagement_points accs : Z.of_nat (length accs) < 2 ^ 64 → Forall (λ m, Points m ≠ 0) (engagement_members accs).
Proof.
  intros Hlen. apply Forall_lookup. intros i m Hm. unfold engagement_members in Hm. rewrite list_lookup_imap in Hm.
  destruct (accs !! i) as [a|] eqn:Ha; [|done]. injection Hm as <-. cbn. apply lookup_lt_Some in Ha.
  unfold uint64. rewrite wrap_u_small; unfold is_u; lia.
Qed.

Lemma gentxs_valid bals order bzs :
  NoDup order → Forall2 (λ i bz, ∃ tx, TxJSONEncoder tx = Ok bz ∧ gentx_for bals i tx) order bzs →
  ∃ ms addrs, gentxs_of decode_gentx bzs ms ∧ CV_OperatorAddress <$> ms = AccAddress_String <$> addrs ∧
    Forall2 keyed ((λ i, (node i, node i)) <$> order) addrs ∧ NoDup (Any_String ∘ CV_Pubkey <$> ms).
Proof using tcl keys_valid b32l pubkeys_fresh denom_valid sml.
  intros Hnd Hf.
  assert (∃ ms addrs, gentxs_of decode_gentx bzs ms ∧ CV_OperatorAddress <$> ms = AccAddress_String <$> addrs ∧
    Forall2 keyed ((λ i, (node i, node i)) <$> order) addrs ∧
    Forall2 (λ i key, ∃ id k pk, InitializeNodeValidatorFiles (node i) = Ok (id, k) ∧ NewAnyWithValue k = Ok pk ∧ key = Any_String (Some pk))
      order (Any_String ∘ CV_Pubkey <$> ms)) as (ms & addrs & Hms & Hops & Hk & Hp).
  { clear Hnd. induction Hf as [|i bz order bzs (tx & Henc & Hfor) _ (ms & addrs & Hms & Hops & Hk & Hp)].
    { exists [], []. split_and!; constructor. }
    destruct Hfor as (memo & id & key & pk & addr & stake & b & _ & _ & Hi & Hpk & Ha & Hmsg & _ & _ & Hst).
    destruct Hst as (H1 & H2 & H3 & _ & H5). destruct (keys_valid _ _ Ha) as [Hne Hlen].
    exists (create_msg i addr pk stake :: ms), (addr :: addrs). split_and!.
    - constructor; [|done]. split.
      + unfold decode_gentx. rewrite (tx_json_roundtrip _ _ Henc). cbn. by rewrite Hmsg.
      + exists addr, pk, stakingToken, stake.1, stake.2. cbn [create_msg CV_OperatorAddress CV_Pubkey CV_Amount CV_VestingAmount CV_Description Moniker].
        split_and!; try done; [by apply bech32_roundtrip|lia|].
        unfold moniker_of. rewrite length_append. cbn [String.length]. lia.
    - cbn. by rewrite Hops.
    - cbn. by constructor.
    - cbn. constructor; [|done]. by exists id, key, pk. }
  exists ms, addrs. split_and!; try done. apply (Forall2_NoDup _ _ _ Hnd Hp).
  intros i j y (id & k & pk & Hi & Hpk & ->) (id' & k' & pk' & Hj & Hpk' & He). by eapply pubkeys_fresh.
Qed.

Lemma bind_first {A B} (f : A → list B) x l : (x :: l) ≫= f = f x ++ (l ≫= f).
Proof. done. Qed.
Lemma first_keys_rest names l : (0%nat ∉ l) → l ≫= first_keys names = [].
Proof.
  induction l as [|i l IH]; [done|]. intros [Hi Hl]%not_elem_of_cons. rewrite bind_first, (IH Hl), app_nil_r.
  unfold first_keys, at_first. by rewrite decide_False.
Qed.
Lemma first_keys_seq names n : (0 < n)%nat → seq 0 n ≫= first_keys names = pair (node 0) <$> names.
Proof.
  intros Hn. destruct n as [|n]; [lia|]. cbn [seq]. rewrite bind_first, first_keys_rest, app_nil_r; [done|].
  intros Hi%elem_of_seq. lia.
Qed.
Lemma accounts_length n : (0 < n)%nat → length (seq 0 n ≫= key_names nodeDirPrefix) = (n + 6)%nat.
Proof.
  assert (∀ m k, (0 < k)%nat → length (seq k m ≫= key_names nodeDirPrefix) = m) as Hrest.
  { induction m as [|m IH]; intros k Hk; [done|]. cbn [seq]. rewrite bind_first, length_app, (IH (S k)) by lia.
    unfold key_names. by rewrite decide_False by lia. }
  intros Hn. destruct n as [|n]; [lia|]. cbn [seq]. rewrite bind_first, length_app, (Hrest n 1%nat) by lia.
  unfold key_names. rewrite decide_True, length_app, length_fmap by done. cbn. lia.
Qed.

Lemma network_valid n s f boot bzs :
  (0 < n)%nat → Z.of_nat n < 2 ^ 63 → is_ok (Coins_Validate []) = true → setup_inv (seq 0 n) s f →
  gentxs_for (genBalances s) (seq 0 n) bzs →
  ValidateGenesis conv decode_gentx Any_String
    (mkPoEGenesis DefaultParams (GenesisState_SeedContracts (Some (with_gentxs (with_network (DefaultSeedContracts boot) s) bzs)))) = Ok ().
Proof using tcl keys_fresh keys_valid b32l pubkeys_fresh denom_valid sml.
  intros Hn Hmax Hcoins Hinv (order & Hord & Htxs). set (c := with_gentxs (with_network (DefaultSeedContracts boot) s) bzs).
  pose proof (key_names_NoDup nodeDirPrefix (seq 0 n) (NoDup_seq 0 n)) as Hknd. pose proof (si_accounts _ _ _ Hinv) as Hacc.
  assert (length (genAccounts s) = (n + 6)%nat) as Hlen.
  { apply Forall2_length in Hacc. by rewrite length_fmap, accounts_length in Hacc. }
  assert (seed_valid conv decode_gentx Any_String c) as Hvalid.
  { split_and!.
    - exact (default_configs_valid conv boot).
    - exact denom_valid.
    - pose proof (si_boot _ _ _ Hinv ltac:(apply elem_of_seq; lia)) as Hb. destruct (keys_valid _ _ Hb).
      cbn. by rewrite bech32_roundtrip.
    - cbn [c with_gentxs with_network Engagement DefaultSeedContracts]. rewrite app_nil_l, engagement_addresses.
      eapply keyed_members_valid; [|exact Hknd|exact Hacc]. intros He. apply (f_equal length) in He.
      rewrite accounts_length in He by done. cbn in He. lia.
    - cbn [c with_gentxs with_network Engagement DefaultSeedContracts]. rewrite app_nil_l. apply engagement_points. rewrite Hlen. lia.
    - assert (NoDup order) as Hond by (rewrite Hord; apply NoDup_seq).
      destruct (gentxs_valid _ _ _ Hond Htxs) as (ms & addrs & Hms & Hops & Hk & Hkeys).
      exists ms. split_and!; [exact Hms| | |exact Hkeys].
      + cbn [c with_gentxs with_network Engagement DefaultSeedContracts]. rewrite app_nil_l, engagement_addresses, Hops.
        intros t (a & -> & (j & Hj)%list_elem_of_lookup)%list_elem_of_fmap. apply list_elem_of_fmap. exists a. split; [done|].
        destruct (Forall2_lookup_r _ _ _ _ _ Hk Hj) as (k & Hk1 & Hka). apply list_elem_of_lookup_2 in Hk1.
        apply list_elem_of_fmap in Hk1 as (i & -> & Hi).
        assert ((node i, node i) ∈ (seq 0 n ≫= key_names nodeDirPrefix)) as (m & Hm)%list_elem_of_lookup.
        { apply list_elem_of_bind. exists i. split; [unfold key_names; apply elem_of_app; right; by left|]. by rewrite <-Hord. }
        destruct (Forall2_lookup_l _ _ _ _ _ Hacc Hm) as (a' & Ha' & Hka'). rewrite (keyed_fun _ _ _ Hka Hka').
        by eapply list_elem_of_lookup_2.
      + rewrite Hops. eapply keyed_texts; [|exact Hk]. apply NoDup_fmap_2; [|done]. intros i j [= He _]. by apply node_name_inj in He.
    - destruct (si_oc _ _ _ Hinv) as (l & Hl & Hk). rewrite first_keys_seq in Hk by done. cbn [c with_gentxs with_network OversightCommunityMembers].
      rewrite Hl. eapply keyed_members_valid; [| |exact Hk]; [done|]. apply NoDup_fmap_2; [intros ?? [=]; done|]. apply member_names_NoDup.
    - destruct (si_ap _ _ _ Hinv) as (l & Hl & Hk). rewrite first_keys_seq in Hk by done. cbn [c with_gentxs with_network ArbiterPoolMembers].
      rewrite Hl. eapply keyed_members_valid; [| |exact Hk]; [done|]. apply NoDup_fmap_2; [intros ?? [=]; done|]. apply member_names_NoDup. }
  unfold ValidateGenesis. rewrite wrap_then, is_ok_unit. split; [rewrite is_ok_unit in Hcoins; unfold Params_Validate; cbn; by rewrite Hcoins|].
  cbn [GetSeedContracts GetImportDump GS_SetupMode]. rewrite wrap_ok. apply seed_spec; [exact (default_typed boot)|exact Hvalid].
Qed.

(** The bank's part of the genesis fits the accounts. *)
Definition accounts_consistent (st : gmap string json) : Prop :=
  ∃ accounts arest balances supply brest,
    st !! auth_ModuleName = Some (enc_auth (mkAuthGenesis accounts arest)) ∧
    st !! bank_ModuleName = Some (enc_bank (mkBankGenesis balances supply brest)) ∧
    genesis_consistent (mkGenState accounts balances supply "").

Local Abbreviation set_up_nodes := (nodes MkdirAll WriteFile InitializeNodeValidatorFiles keyring_New NewSigningAlgoFromString
  GenerateSaveCoinKey Sign NewAnyWithValue parseIPv6 ExternalIP chainID nodeDirPrefix startingIPAddress algoStr singleMachine
  vestingVals now).
Local Abbreviation run_testnet := (InitTestnet MkdirAll WriteFile InitializeNodeValidatorFiles keyring_New NewSigningAlgoFromString
  GenerateSaveCoinKey Sign NewAnyWithValue parseIPv6 ExternalIP SaveAs chainID nodeDirPrefix startingIPAddress algoStr singleMachine
  vestingVals now genTime).

(** C23: When the files and keys of all nodes of a test network could be made, the command succeeds: the
    genesis transactions it has written pass its own collection. Every node then
    has the same genesis document, and, unless the prefix of the node directories is made to clash with the
    monikers, every node lists all nodes as its peers, itself included. In the document every address has one account, the supply is the sum of the
    balances, and the part of the proof of engagement module passes its validation: it has one
    transaction per node, whose stake is covered by the balance of a member of the
    engagement group. *)
Theorem testnet_consistent D cfg app prices n s k1 st boot jb bank :
  (0 < n)%nat → Z.of_nat n < 2 ^ 63 → is_ok (Coins_Validate []) = true →
  D !! bank_ModuleName = Some jb → dec_bank jb = Ok bank → (∀ d, amount_of d (BG_Supply bank) = 0) →
  GetGenesisStateFromAppState D = Ok (DefaultGenesisState boot) →
  set_up_nodes (seq 0 n) (mkSetup [] [] [] [] [] [] [] "" cfg (initial_app_config chainID app prices) 26656) (mkCtx no_files [])
    = (Ok s, k1) →
  genesis_app_state D s = Ok st →
  (∀ m j, m ∈ [auth_ModuleName; bank_ModuleName; poe_Module] → st !! m = Some j → mentions "stake" j = false) →
  ∃ f st' g c, run_testnet D cfg app prices (Z.of_nat n) (mkCtx no_files []) = (Ok (), mkCtx f []) ∧
    (∀ i, (i < n)%nat → node_ready (seq 0 n) (enc_raw_map st') f i) ∧
    accounts_consistent st' ∧ st' !! poe_Module = Some (poe_MarshalJSON g) ∧
    ValidateGenesis conv decode_gentx Any_String g = Ok () ∧ GetSeedContracts g = Some c ∧
    gentxs_for (genBalances s) (seq 0 n) (GenTxs c) ∧ length (Engagement c) = (n + 6)%nat.
Proof using All.
  intros Hn Hmax Hcoins Hjb Hbank Hzero Hpoe Hnodes Hst Hfresh.
  destruct (nodes_inv (seq 0 n) [] _ (mkCtx no_files []) s k1 (NoDup_seq 0 n) (setup_inv_start cfg _) Hnodes) as [Hinv Hev].
  cbn [events] in Hev. rewrite app_nil_l in Hinv.
  destruct (genesis_app_state_ok D s st Hst) as (poe & c & accounts & arest & bank' & jb' & supply & Hpoe' & Hc & Hpack & Hjb' & Hbank' & Hsup & Sa & Sb & Sp).
  rewrite Hpoe in Hpoe'. injection Hpoe' as <-. injection Hc as <-. rewrite Hjb in Hjb'. injection Hjb' as <-.
  rewrite Hbank in Hbank'. injection Hbank' as <-. cbn [GS_Params DefaultGenesisState] in Sp.
  destruct (save_all D n s st k1 (si_files _ _ _ Hinv) Hst) as (k2 & Hinit & Hev2 & Hg2 & Hdoc).
  destruct (denom_replaced_state st) as (st1 & Hst1 & Hlook).
  assert (∀ m, m ∈ [auth_ModuleName; bank_ModuleName; poe_Module] → st1 !! m = st !! m) as Hsame.
  { intros m Hm. rewrite Hlook by (intros ->; revert Hm; apply (bool_decide_unpack (¬ _)); vm_compute; done).
    destruct (st !! m) as [j|] eqn:Hj; [|done]. cbn. f_equal. apply replace_fresh. by eapply Hfresh. }
  pose proof (Hsame auth_ModuleName ltac:(by left)) as Ha. pose proof (Hsame bank_ModuleName ltac:(by right; left)) as Hb.
  pose proof (Hsame poe_Module ltac:(by right; right; left)) as Hp. rewrite Sa in Ha. rewrite Sb in Hb. rewrite Sp in Hp.
  pose proof (setup_inv_gentxs _ _ _ _ Hg2 Hinv) as Hinv2.
  edestruct (collect_nodes_ok (seq 0 n) s st1 DefaultParams (with_network (DefaultSeedContracts boot) s)
    (mkGenesisDoc chainID (denom_replaced (enc_raw_map st)) None)) as (k3 & bzs & Hrun & Hev3 & Htxs & Hready);
    [apply NoDup_seq|destruct n; [lia|done]|done|exact Hst1| | |exact Hinv2| |].
  { eexists _, _. exact Hb. }
  { exact Hp. }
  { intros i Hi%elem_of_seq. apply Hdoc. lia. }
  set (g := mkPoEGenesis DefaultParams (GenesisState_SeedContracts (Some (with_gentxs (with_network (DefaultSeedContracts boot) s) bzs)))).
  exists (store k3), (with_txs st1 DefaultParams (with_network (DefaultSeedContracts boot) s) bzs), g, (with_gentxs (with_network (DefaultSeedContracts boot) s) bzs).
  split_and!.
  - unfold InitTestnet. destruct (Z.ltb_spec (Z.of_nat n) 0); [lia|]. rewrite Nat2Z.id. unfold mbind, M_bind. rewrite Hnodes, Hinit.
    unfold collectGenFiles. rewrite Hrun. f_equal. destruct k3. cbn in *. congruence.
  - intros i Hi. apply Hready, elem_of_seq. lia.
  - exists accounts, arest, (SanitizeGenesisBalances (genBalances s)), supply, (BG_rest bank). unfold with_txs, SetGenesisStateInAppState.
    rewrite !lookup_insert_ne by done. split_and!; [done|done|]. split.
    + exists (genAccounts s). split; [by apply Pack_roundtrip|]. eapply keyed_NoDup; [|exact (si_accounts _ _ _ Hinv)].
      apply key_names_NoDup, NoDup_seq.
    + intros d. cbn [bank_Supply bank_Balances]. rewrite Hsup, Hzero. lia.
  - unfold with_txs, SetGenesisStateInAppState. by rewrite lookup_insert_eq.
  - by eapply network_valid.
  - done.
  - done.
  - cbn [with_gentxs with_network Engagement DefaultSeedContracts]. unfold engagement_members. rewrite app_nil_l, length_imap.
    pose proof (Forall2_length _ _ _ (si_accounts _ _ _ Hinv)) as Hlen. rewrite length_fmap, accounts_length in Hlen by done. done.
Qed.
End validity.
End setup.
