(* ===== verification/RefTestnet.v ===== *)
(** A concrete test network: the laws that the theorems on [testnet] use hold together, and
    the command sets up two nodes. *)
From stdpp Require Import base list strings gmap sets sorting pretty.
From Stdlib Require Import ZArith Lia Ascii.
From S2P Require Import Prelude Sdk RefStore Slice Json Privilege Wasm GoTime PoETypes TwasmMsgs PoEMsgs PoETypesProps GenTxCollect GenAccounts TestnetIP Testnet TestnetLaws TestnetProps.
Open Scope Z_scope.

(** ** A JSON encoding that reads back *)
Class JsonCodec (A : Type) := { enc : A → json; dec_json : json → option A; dec_enc a : dec_json (enc a) = Some a }.
#[local] Instance json_codec : JsonCodec json := { enc j := j; dec_json j := Some j; dec_enc j := eq_refl }.
#[local] Instance Z_codec : JsonCodec Z.
Proof. refine {| enc := JNum; dec_json j := match j with JNum z => Some z | _ => None end |}. done. Defined.
#[local] Instance string_codec : JsonCodec string.
Proof. refine {| enc := JStr; dec_json j := match j with JStr z => Some z | _ => None end |}. done. Defined.
#[local] Instance bool_codec : JsonCodec bool.
Proof. refine {| enc := JBool; dec_json j := match j with JBool z => Some z | _ => None end |}. done. Defined.
#[local] Instance option_codec `{JsonCodec A} : JsonCodec (option A).
Proof.
  refine {| enc o := match o with Some a => JArr [enc a] | None => JNull end;
    dec_json j := match j with JArr [x] => Some <$> dec_json x | JNull => Some None | _ => None end |}.
  intros [a|]; [|done]. by rewrite dec_enc.
Defined.
#[local] Instance list_codec `{JsonCodec A} : JsonCodec (list A).
Proof.
  refine {| enc l := JArr (enc <$> l); dec_json j := match j with JArr l => mapM dec_json l | _ => None end |}.
  intros l. induction l as [|a l IH]; [done|]. cbn. rewrite dec_enc. cbn. cbn in IH. by rewrite IH.
Defined.
#[local] Instance prod_codec `{JsonCodec A, JsonCodec B} : JsonCodec (A * B).
Proof.
  refine {| enc p := JArr [enc p.1; enc p.2];
    dec_json j := match j with JArr [x; y] => a ← dec_json x; b ← dec_json y; Some (a, b) | _ => None end |}.
  intros [a b]. cbn. by rewrite !dec_enc.
Defined.

(** A record that is made of the values of a tuple. *)
Definition codec_via {A B} `{JsonCodec B} (to : A → B) (from : B → A) (E : ∀ a, from (to a) = a) : JsonCodec A.
Proof. refine {| enc a := enc (to a); dec_json j := from <$> dec_json j |}. intros a. rewrite dec_enc. cbn. by rewrite E. Defined.
Ltac via to from := exact (codec_via to from ltac:(by intros [])).

#[local] Instance bytes_codec : JsonCodec json_bytes.
Proof.
  refine {| enc b := match b with JNil => JNull | JText j => JArr [j] | JInvalid s => JStr s end;
    dec_json j := match j with JNull => Some JNil | JArr [x] => Some (JText x) | JStr s => Some (JInvalid s) | _ => None end |}.
  by intros [].
Defined.
#[local] Instance coin_codec : JsonCodec Coin.
Proof. via (λ c, (Denom c, Amount c)) (λ p : string * Z, mkCoin p.1 p.2). Defined.
#[local] Instance wcoin_codec : JsonCodec WireCoin.
Proof. via (λ c, (WCoin_Denom c, WCoin_Amount c)) (λ p : string * option Z, mkWCoin p.1 p.2). Defined.
#[local] Instance params_codec : JsonCodec PoEParams.
Proof.
  via (λ p, (HistoricalEntries_p p, InitialValEngagementPoints p, MinDelegationAmounts p))
    (λ p : Z * Z * list Coin, mkPoEParams p.1.1 p.1.2 p.2).
Defined.
#[local] Instance rules_codec : JsonCodec VotingRules.
Proof.
  via (λ r, (VotingPeriod r, Quorum r, (Threshold r, AllowEndEarly r)))
    (λ p : Z * option Z * (option Z * bool), mkVotingRules p.1.1 p.1.2 p.2.1 p.2.2).
Defined.
#[local] Instance stake_codec : JsonCodec StakeContractConfig.
Proof.
  via (λ c, (MinBond c, TokensPerPoint c, (UnbondingPeriod c, ClaimAutoreturnLimit c)))
    (λ p : Z * Z * (Z * Z), mkStakeConfig p.1.1 p.1.2 p.2.1 p.2.2).
Defined.
#[local] Instance valset_codec : JsonCodec ValsetContractConfig.
Proof.
  via (λ c, ([MinPoints c; MaxValidators c; EpochLength c; Scaling c; OfflineJailDuration c], EpochReward c,
             [FeePercentage c; DoubleSignSlashRatio c; ValidatorRewardRatio c; EngagementRewardRatio c; CommunityPoolRewardRatio c],
             (AutoUnjail c, VerifyValidators c)))
    (λ p : list Z * WireCoin * list (option Z) * (bool * bool),
       let '(z, r, d, (u, v)) := p in let n i := nth i z 0 in let m i := nth i d None in
       mkValsetConfig (n 0%nat) (n 1%nat) (n 2%nat) r (n 3%nat) (m 0%nat) u (m 1%nat) (m 2%nat) (m 3%nat) (m 4%nat) v (n 4%nat)).
Defined.
#[local] Instance engagement_codec : JsonCodec EngagementContractConfig.
Proof. via Halflife mkEngagementConfig. Defined.
#[local] Instance oc_codec : JsonCodec OversightCommitteeContractConfig.
Proof.
  via (λ c, (OC_Name c, OC_EscrowAmount c, (OC_VotingRules c, OC_DenyListContractAddress c)))
    (λ p : string * WireCoin * (VotingRules * string), mkOCConfig p.1.1 p.1.2 p.2.1 p.2.2).
Defined.
#[local] Instance cp_codec : JsonCodec CommunityPoolContractConfig.
Proof. via CP_VotingRules mkCPConfig. Defined.
#[local] Instance vv_codec : JsonCodec ValidatorVotingContractConfig.
Proof. via VV_VotingRules mkVVConfig. Defined.
#[local] Instance ap_codec : JsonCodec ArbiterPoolContractConfig.
Proof.
  via (λ c, (AP_Name c, AP_EscrowAmount c, (AP_VotingRules c, AP_DenyListContractAddress c), (DisputeCost c, WaitingPeriod c)))
    (λ p : string * WireCoin * (VotingRules * string) * (WireCoin * Z),
       mkAPConfig p.1.1.1 p.1.1.2 p.1.2.1 p.1.2.2 p.2.1 p.2.2).
Defined.
#[local] Instance mixer_codec : JsonCodec MixerContractConfig.
Proof.
  exact (codec_via (λ c, (MaxPoints (Mixer_Sigmoid c), P (Mixer_Sigmoid c), S_ (Mixer_Sigmoid c)))
    (λ p : Z * option Z * option Z, mkMixerConfig (mkSigmoid p.1.1 p.1.2 p.2)) ltac:(by intros [[]])).
Defined.
#[local] Instance member_codec : JsonCodec TG4Member.
Proof. via (λ c, (Member_Address c, Points c)) (λ p : string * Z, mkTG4Member p.1 p.2). Defined.
#[local] Instance contract_codec : JsonCodec PoEContract.
Proof. via (λ c, (ContractType c, PoE_Address c)) (λ p : Z * string, mkPoEContract p.1 p.2). Defined.
#[local] Instance seed_codec : JsonCodec SeedContracts.
Proof.
  via (λ c, (GenTxs c, BootstrapAccountAddress c, (Engagement c, StakeConfig c), (ValsetConfig c, EngagementConfig c),
             (BondDenom c, OversightCommitteeConfig c), (CommunityPoolConfig c, ValidatorVotingConfig c),
             (OversightCommunityMembers c, ArbiterPoolMembers c), (ArbiterPoolConfig c, MixerConfig c)))
    (λ p : _, let '(g, b, (e, s), (v, ec), (bd, oc), (cp, vv), (om, am), (ap, mx)) := p in
       mkSeedContracts g b e s v ec bd oc cp vv om am ap mx).
Defined.
#[local] Instance poe_codec : JsonCodec PoEGenesisState.
Proof.
  exact (codec_via (λ g, (GS_Params g, match GS_SetupMode g with
                       | NoSetup => (0, None, None)
                       | GenesisState_SeedContracts s => (1, s, None)
                       | GenesisState_ImportDump d => (2, None, d)
                       end))
    (λ p : PoEParams * (Z * option SeedContracts * option (list PoEContract)),
       mkPoEGenesis p.1 (if p.2.1.1 =? 0 then NoSetup
                         else if p.2.1.1 =? 1 then GenesisState_SeedContracts p.2.1.2 else GenesisState_ImportDump p.2.2))
    ltac:(by intros [? []])).
Defined.
#[local] Instance balance_codec : JsonCodec Balance.
Proof. via (λ b, (Balance_Address b, Balance_Coins b)) (λ p : string * list Coin, mkBalance p.1 p.2). Defined.
#[local] Instance bank_codec : JsonCodec BankGenesis.
Proof.
  via (λ b, (BG_Balances b, BG_Supply b, BG_rest b)) (λ p : list Balance * list Coin * json, mkBankGenesis p.1.1 p.1.2 p.2).
Defined.

(** ** Coins, accounts and codecs *)
Fixpoint add_coin (c : Coin) (l : list Coin) : list Coin :=
  match l with
  | [] => [c]
  | x :: l' => if decide (Denom x = Denom c) then mkCoin (Denom x) (Amount x + Amount c) :: l' else x :: add_coin c l'
  end.
Definition sum_coins (l : list Coin) : list Coin := foldr add_coin [] l.
Lemma add_coin_amount d c l : amount_of d (add_coin c l) = amount_of d [c] + amount_of d l.
Proof.
  unfold amount_of. induction l as [|x l IH]; [cbn; lia|]. cbn [add_coin]. case_decide as E; cbn in *; [|rewrite IH; lia].
  rewrite E. case_decide; lia.
Qed.
Lemma add_coin_denoms c l : ∀ d, d ∈ (Denom <$> add_coin c l) ↔ d = Denom c ∨ (d ∈ (Denom <$> l)).
Proof.
  intros d. induction l as [|x l IH]; [cbn; set_solver|]. cbn [add_coin]. case_decide as E; cbn; rewrite ?elem_of_cons, ?IH; [|tauto].
  cbn. rewrite E. tauto.
Qed.
Lemma sum_coins_amount d l : amount_of d (sum_coins l) = amount_of d l.
Proof.
  induction l as [|c l IH]; [done|]. cbn [sum_coins foldr]. rewrite add_coin_amount. unfold sum_coins in IH. rewrite IH.
  unfold amount_of. cbn. lia.
Qed.
Lemma sum_coins_NoDup l : NoDup (Denom <$> sum_coins l).
Proof.
  assert (∀ c l, NoDup (Denom <$> l) → NoDup (Denom <$> add_coin c l)) as Hadd.
  { intros c k. induction k as [|x k IH]; intros Hk; [apply NoDup_singleton|]. cbn [add_coin].
    apply NoDup_cons in Hk as [Hx Hk]. case_decide as E; cbn; constructor; [done|done| |by apply IH].
    rewrite add_coin_denoms. intros [He|He]; [by apply E|by apply Hx]. }
  induction l as [|c l IH]; [constructor|]. by apply Hadd.
Qed.

#[local] Instance Net_types : GenesisTypes GenesisAccount := {
  ParseCoinsNormalized := @ParseCoinsNormalized _ Ref_types;
  Coins_Sort cs := cs;
  Coins_IsZero := @Coins_IsZero _ Ref_types;
  IsAnyGT := @IsAnyGT _ Ref_types;
  Coins_Add a b := Ok (sum_coins (a ++ b));
  GenesisAccount_Validate _ := Ok ();
  UnpackAccounts l := Ok l;
  PackAccounts l := Ok l;
  SanitizeGenesisAccounts l := l;
  SanitizeGenesisBalances l := l;
}.
#[local] Instance Net_types_laws : GenesisTypesLaws GenesisAccount.
Proof.
  constructor; cbn [ParseCoinsNormalized Coins_Sort IsAnyGT Coins_Add UnpackAccounts PackAccounts SanitizeGenesisAccounts SanitizeGenesisBalances Net_types]; try done.
  - apply (@ParseCoins_nonneg _ Ref_types Ref_types_laws).
  - intros d a b r [= <-]. rewrite sum_coins_amount. apply amount_of_app.
  - apply (@IsAnyGT_spec _ Ref_types Ref_types_laws).
Qed.
#[local] Instance Net_coins : CoinConstructors := {
  NewCoin d a := if a <? 0 then Panic "negative coin amount" else Ok (mkCoin d a);
  NewCoins cs := Ok cs }.
#[local] Instance Net_coins_laws : CoinConstructorLaws.
Proof. constructor; cbn; [intros d a c; by destruct (a <? 0); intros [= <-]|by intros d cs r [= <-]]. Qed.
#[local] Instance Net_sets_laws : CoinSetLaws GenesisAccount.
Proof.
  constructor; cbn [Coins_Sort Coins_Add Coins_AmountOf SanitizeGenesisBalances Net_types Ref_amounts]; [done| |done|].
  - intros a b r [= <-]. apply sum_coins_NoDup.
  - intros l. exists l. split; [done|]. induction l as [|[] l IH]; [done|]. cbn. by rewrite <-IH.
Qed.

(** Addresses are texts with a prefix. *)
#[local] Instance Net_bech32 : Bech32 := {
  AccAddressFromBech32 s := match s with
    | String "f" (String ":" a) => if decide (a = "") then Err (new_err "empty") else Ok a
    | _ => Err (new_err "bech32") end;
  AccAddress_String a := "f:" +:+ a }.
#[local] Instance Net_bech32_laws : Bech32Laws.
Proof.
  constructor. intros a Ha _. change (AccAddressFromBech32 (AccAddress_String a)) with (if decide (a = "") then Err (new_err "empty") else Ok a).
  by rewrite decide_False.
Qed.

#[local] Instance Net_auth : AuthJSON GenesisAccount := {
  dec_auth _ := Ok (mkAuthGenesis [] JNull);
  enc_auth a := JArr (JStr <$> (AccAddress_String <$> (GetAddress <$> AG_Accounts a))) }.
Definition opt_outcome {A} (o : option A) : outcome A := match o with Some a => Ok a | None => Err ErrJSON end.
Fixpoint decode_balances (l : list Balance) : outcome (list (AccAddress * list Coin)) :=
  match l with
  | [] => Ok []
  | b :: l' => a ← AccAddressFromBech32 (Balance_Address b); r ← decode_balances l'; Ok ((a, Balance_Coins b) :: r)
  end.
#[local] Instance Net_bank : BankJSON := {
  dec_bank j := opt_outcome (dec_json j);
  enc_bank := enc;
  IterateGenesisBalances st := j ← opt_outcome (st !! bank_ModuleName); b ← opt_outcome (dec_json (A:=BankGenesis) j);
    decode_balances (BG_Balances b) }.
#[local] Instance Net_bank_laws : BankJSONLaws.
Proof.
  constructor. intros st b addrs Hst Hf. change (enc_bank b) with (enc b) in Hst. unfold IterateGenesisBalances, Net_bank. rewrite Hst. cbn [opt_outcome mbind outcome_bind].
  rewrite dec_enc. cbn [opt_outcome mbind outcome_bind]. clear Hst. induction Hf as [|a x addrs l Ha _ IH]; [done|].
  cbn [decode_balances]. rewrite Ha. cbn [mbind outcome_bind]. rewrite IH. done.
Qed.
#[local] Instance Net_poe : PoEJSON := { poe_UnmarshalJSON j := opt_outcome (dec_json j); poe_MarshalJSON := enc }.
#[local] Instance Net_poe_laws : PoEJSONLaws.
Proof. constructor. intros g. unfold poe_UnmarshalJSON, poe_MarshalJSON, Net_poe. by rewrite dec_enc. Qed.

(** ** Two nodes *)
Definition net_key (nd name : string) : outcome (AccAddress * string) :=
  if decide ((nd = "node0" ∨ nd = "node1") ∧ (String.length name ≤ 200)%nat) then Ok (nd +:+ name, "words") else Err (new_err "keyring").
Definition net_files (nd : string) : outcome (string * bytes) := Ok ("id-" +:+ nd, nd).
Definition net_any (key : bytes) : outcome Any := Ok (mkAny "/key" key).

(** The transactions of the two nodes, and no others. *)
Definition net_msg (i : nat) : MsgCreateValidator :=
  create_msg i (node_name "node" i +:+ node_name "node" i) (mkAny "/key" (node_name "node" i)) (700000000, 0).
Definition net_memo (i : nat) : string :=
  memo_of ("id-" +:+ node_name "node" i) ("192.168.0." +:+ pretty (S i)) 26656.
#[local] Instance Any_eq_dec : EqDecision Any.
Proof. solve_decision. Defined.
#[local] Instance Msg_eq_dec : EqDecision MsgCreateValidator.
Proof. solve_decision. Defined.
Definition tx_text (second : bool) : string := if second then "tx1" else "tx0".
#[local] Instance Net_tx : TxCodec bool := {
  BuildTx msg memo :=
    if decide (msg = net_msg 0 ∧ memo = net_memo 0) then Ok false
    else if decide (msg = net_msg 1 ∧ memo = net_memo 1) then Ok true else Err (new_err "tx");
  TxJSONEncoder tx := Ok (JText (JStr (tx_text tx)));
  TxJSONDecoder bz := if decide (bz = "tx0") then Ok false else if decide (bz = "tx1") then Ok true else Err ErrJSON;
  json_text b := match b with JText (JStr s) => s | _ => "" end;
  GetMemo tx := Some (net_memo (Nat.b2n tx));
  GetMsgs tx := [GMCreateValidator (net_msg (Nat.b2n tx))] }.
#[local] Instance Net_tx_laws : TxCodecLaws bool.
Proof.
  constructor.
  - intros msg memo tx. unfold BuildTx, Net_tx. repeat case_decide; [| |done]; intros [= <-]; destruct_and?; subst; done.
  - intros [] bz [= <-]; done.
Qed.

Lemma net_keys_fresh k k' a : keyed net_key k a → keyed net_key k' a → k = k'.
Proof.
  intros [w Hk] [w' Hk']. destruct k as [nd name], k' as [nd' name']. unfold net_key in *. cbn [fst snd] in *.
  case_decide as H1; [|done]. case_decide as H2; [|done]. injection Hk as <- _. injection Hk' as He _.
  destruct H1 as [[-> | ->] _], H2 as [[-> | ->] _]; simplify_eq/=; done.
Qed.
Lemma net_keys_valid k a : keyed net_key k a → a ≠ "" ∧ (String.length a ≤ 255)%nat.
Proof.
  intros [w Hk]. destruct k as [nd name]. unfold net_key in Hk. cbn [fst snd] in Hk. case_decide as H1; [|done]. injection Hk as <- _.
  rewrite length_append. destruct H1 as [[-> | ->] Hl]; (split; [done|]); cbn [String.length]; lia.
Qed.

Definition net_default : gmap string json :=
  {[ auth_ModuleName := JArr []; bank_ModuleName := enc (mkBankGenesis [] [] JNull);
     poe_Module := enc (DefaultGenesisState "f:boot"); "crisis" := JObj [("denom", JStr "stake")] ]}.
Definition net_config : NodeConfig := mkNodeConfig "" "" "" "" true true false "".
Definition net_app : AppConfig := mkAppConfig "" false "" "" "" false 0 true [].

Local Abbreviation fine := (λ _ : string, Ok ()).
Definition net_nodes : outcome Setup * Ctx Files :=
  nodes (Packed:=GenesisAccount) fine fine net_files fine fine net_key (λ _ _ _ tx, Ok tx) net_any (λ _, None) (Ok "10.0.0.9")
    "chain" "node" "192.168.0.1" "secp256k1" false false 0 (seq 0 2)
    (mkSetup [] [] [] [] [] [] [] "" net_config (initial_app_config "chain" net_app "0ufury") 26656) (mkCtx no_files []).
Definition net_setup : Setup := match net_nodes.1 with Ok s => s | _ => mkSetup [] [] [] [] [] [] [] "" net_config net_app 0 end.
Lemma net_nodes_ok : net_nodes = (Ok net_setup, net_nodes.2).
Proof. vm_compute. reflexivity. Qed.

Definition net_state : gmap string json :=
  match genesis_app_state net_default net_setup with Ok st => st | _ => ∅ end.
Lemma net_state_ok : genesis_app_state net_default net_setup = Ok net_state.
Proof. vm_compute. reflexivity. Qed.
Lemma net_state_fresh m j :
  m ∈ [auth_ModuleName; bank_ModuleName; poe_Module] → net_state !! m = Some j → mentions "stake" j = false.
Proof.
  assert (forallb (λ m, match net_state !! m with Some j => negb (mentions "stake" j) | None => true end)
    [auth_ModuleName; bank_ModuleName; poe_Module] = true) as Hall by (vm_compute; reflexivity).
  intros Hm Hj. rewrite forallb_forall in Hall. specialize (Hall m). rewrite Hj in Hall. apply negb_true_iff, Hall. by apply list_elem_of_In.
Qed.
Lemma net_pubkeys_fresh i j id id' key key' pk pk' :
  net_files (node_name "node" i) = Ok (id, key) → net_files (node_name "node" j) = Ok (id', key') →
  net_any key = Ok pk → net_any key' = Ok pk' → ref_key (Some pk) = ref_key (Some pk') → i = j.
Proof. intros [= _ <-] [= _ <-] [= <-] [= <-] He. by apply node_name_inj in He. Qed.

Definition net_run : outcome () * Ctx Files :=
  InitTestnet (Packed:=GenesisAccount) fine fine net_files fine fine net_key (λ _ _ _ tx, Ok tx) net_any (λ _, None) (Ok "10.0.0.9")
    (λ _, Ok ()) "chain" "node" "192.168.0.1" "secp256k1" false false 0 7 net_default net_config net_app "0ufury" 2 (mkCtx no_files []).

(** C23: a network of two nodes. Both have the same genesis. *)
Lemma testnet_consistent_witness :
  ∃ f doc, net_run = (Ok (), mkCtx f []) ∧ genesis_files f !! "node0" = Some doc ∧ genesis_files f !! "node1" = Some doc ∧
    ∃ cfg, config_tomls f !! "node1" = Some cfg.
Proof.
  destruct (testnet_consistent (Packed:=GenesisAccount) (sm:=Ref_math) fine fine net_files fine fine net_key (λ _ _ _ tx, Ok tx) net_any (λ _, None)
    (Ok "10.0.0.9") (λ _, Ok ()) "chain" "node" "192.168.0.1" "secp256k1" false false 0 7
    ltac:(by intros ????? [= ->]) net_keys_fresh net_keys_valid ltac:(done) id ref_key net_pubkeys_fresh ltac:(reflexivity)
    net_default net_config net_app "0ufury" 2 net_setup net_nodes.2 net_state "f:boot"
    (enc (mkBankGenesis [] [] JNull)) (mkBankGenesis [] [] JNull)) as (f & st & g & c & Hrun & Hready & _).
  - lia.
  - reflexivity.
  - reflexivity.
  - vm_compute. reflexivity.
  - reflexivity.
  - reflexivity.
  - vm_compute. reflexivity.
  - exact net_nodes_ok.
  - exact net_state_ok.
  - exact net_state_fresh.
  - destruct (Hready 0%nat ltac:(lia)) as [H0 _]. destruct (Hready 1%nat ltac:(lia)) as [H1 (cfg & Hc & _)].
    exists f, (final_doc "chain" 7 (enc_raw_map st)). split; [exact Hrun|]. split; [exact H0|]. split; [exact H1|]. exists cfg. exact Hc.
Defined.

(** Every node is a peer of itself. *)
Example own_address_listed :
  (PersistentPeers <$> config_tomls (store net_run.2) !! "node0") = Some "id-node0@192.168.0.1:26656,id-node1@192.168.0.2:26656".
Proof. vm_compute. reflexivity. Qed.
