(* ===== verification/ClientTx.v ===== *)
(** The commands that build transactions of the module (x/poe/client/cli/tx.go) and the
    command that writes a genesis transaction (x/poe/client/cli/genutil_gentx.go).

    A command is the function from its flags and arguments to the messages it
    signs and sends. The flag library, the key ring, the codecs, signing and the queries
    of the client are parameters. *)
From stdpp Require Import base list strings gmap sets sorting pretty.
From Stdlib Require Import ZArith Lia Ascii.
From S2P Require Import Prelude Sdk RefStore Slice Json Privilege Wasm GoTime PoETypes TwasmMsgs PoEMsgs PoETypesProps PoEKeeper PoEContractIO PoEValset PoEAdapters GenTxCollect.
Open Scope Z_scope.

(** ** Flags *)
Definition FlagPubKey : string := "pubkey".
Definition FlagAmount : string := "amount".
Definition FlagVestingAmount : string := "vesting-amount".
Definition FlagMoniker : string := "moniker".
Definition FlagIdentity : string := "identity".
Definition FlagWebsite : string := "website".
Definition FlagSecurityContact : string := "security-contact".
Definition FlagDetails : string := "details".
Definition FlagNodeID : string := "node-id".
Definition FlagIP : string := "ip".

(** [GetString], an error for a flag that the command does not have; [v, _ := GetString]
    ignores it and takes the empty text. *)
Abbreviation FlagSet := (string → outcome string) (only parsing).
Definition value_of (fs : FlagSet) (flag : string) : string := match fs flag with Ok s => s | _ => "" end.

(** [wasmtypes.MsgExecuteContract] without funds *)
Record MsgExecuteContract := mkMsgExecute { Exec_Sender : string; Exec_Contract : string; Exec_Msg : json }.

Record TxCreateValidatorConfig := mkTxConfig {
  Cfg_ChainID : string; Cfg_NodeID : string; Cfg_Moniker : string; Cfg_LiquidAmount : string; Cfg_VestingAmount : string;
  Cfg_PubKey : option bytes; Cfg_IP : string; Cfg_Website : string; Cfg_SecurityContact : string;
  Cfg_Details : string; Cfg_Identity : string }.
Definition with_amounts (c : TxCreateValidatorConfig) (liquid vesting : string) : TxCreateValidatorConfig :=
  mkTxConfig (Cfg_ChainID c) (Cfg_NodeID c) (Cfg_Moniker c) liquid vesting (Cfg_PubKey c) (Cfg_IP c) (Cfg_Website c)
    (Cfg_SecurityContact c) (Cfg_Details c) (Cfg_Identity c).

(** The text [nodeID@ip:26656], when both are known. *)
Definition peer_memo (nodeID ip : string) : option string :=
  if decide (nodeID ≠ "" ∧ ip ≠ "") then Some (nodeID +:+ "@" +:+ ip +:+ ":26656") else None.

(** Parsing of coins, and their sum. *)
Class ClientCoins := {
  ParseCoinNormalized : string → outcome WireCoin;
  ParseCoinsNormalized : string → outcome (list Coin);
  (** [Coins.Add] *)
  Coins_Add : list Coin → list Coin → outcome (list Coin);
  (** [Int.GT] *)
  Int_GT : Int → Int → outcome bool;
}.

Section commands.
Context `{!Bech32, !SdkMath, !ClientCoins}.
Variables (NewAnyWithValue : bytes → outcome Any) (UnmarshalInterfaceJSON : string → outcome bytes).
(** The address of the sender, and the address of a contract as the chain reports it. *)
Variables (fromAddress : AccAddress) (ContractAddress : Z → outcome string).
(** [wasmtypes.MsgExecuteContract.ValidateBasic] *)
Variable MsgExecuteContract_ValidateBasic : MsgExecuteContract → outcome ().
(** [DefaultTokens.String() + types.DefaultBondDenom] *)
Variable defaultAmount : string.

(** The memo of the factory, if it is set, and the message. *)
Definition NewBuildCreateValidatorMsg (fs : FlagSet) (generateOnly : outcome bool) :
    outcome (option string * MsgCreateValidator) :=
  liquidAmt ← wrap "liquid" (fs FlagAmount);
  liquidStakeAmount ← wrap "liquid" (ParseCoinNormalized liquidAmt);
  vestingAmt ← wrap "vesting" (fs FlagVestingAmount);
  vestingStakeAmount ← wrap "vesting" (ParseCoinNormalized vestingAmt);
  pkStr ← fs FlagPubKey;
  pk ← UnmarshalInterfaceJSON pkStr;
  let description := mkDescription (value_of fs FlagMoniker) (value_of fs FlagIdentity) (value_of fs FlagWebsite)
                       (value_of fs FlagSecurityContact) (value_of fs FlagDetails) in
  msg ← NewMsgCreateValidator NewAnyWithValue fromAddress (Some pk) liquidStakeAmount vestingStakeAmount description;
  MsgCreateValidator_ValidateBasic msg ;;
  genOnly ← wrap "generate flag" generateOnly;
  Ok (if (genOnly : bool) then peer_memo (value_of fs FlagNodeID) (value_of fs FlagIP) else None, msg).

(** The details are first stored as the security contact; all fields are set again below. *)
Definition PrepareConfigForTxCreateValidator (flagSet : FlagSet) (moniker nodeID chainID : string) (valPubKey : option bytes) :
    outcome TxCreateValidatorConfig :=
  ip ← flagSet FlagIP;
  website ← flagSet FlagWebsite;
  securityContact ← flagSet FlagSecurityContact;
  details ← flagSet FlagDetails;
  identity ← flagSet FlagIdentity;
  liquidAmount ← flagSet FlagAmount;
  vestingAmount ← flagSet FlagVestingAmount;
  Ok (mkTxConfig chainID nodeID moniker (if decide (liquidAmount = "") then defaultAmount else liquidAmount) vestingAmount
        valPubKey ip website securityContact details identity).

Definition BuildCreateValidatorMsg (config : TxCreateValidatorConfig) (generateOnly : bool) :
    outcome (option string * MsgCreateValidator) :=
  liquidStakeAmount ← ParseCoinNormalized (Cfg_LiquidAmount config);
  vestingStakeAmount ← ParseCoinNormalized (Cfg_VestingAmount config);
  let description := mkDescription (Cfg_Moniker config) (Cfg_Identity config) (Cfg_Website config)
                       (Cfg_SecurityContact config) (Cfg_Details config) in
  msg ← NewMsgCreateValidator NewAnyWithValue fromAddress (Cfg_PubKey config) liquidStakeAmount vestingStakeAmount description;
  Ok (if generateOnly then peer_memo (Cfg_NodeID config) (Cfg_IP config) else None, msg).

(** *** The other commands *)
Definition NewEditValidatorCmd (fs : FlagSet) : outcome MsgUpdateValidator :=
  let description := mkDescription (value_of fs FlagMoniker) (value_of fs FlagIdentity) (value_of fs FlagWebsite)
                       (value_of fs FlagSecurityContact) (value_of fs FlagDetails) in
  let msg := NewMsgUpdateValidator fromAddress description in
  MsgUpdateValidator_ValidateBasic msg ;; Ok msg.

Definition NewDelegateCmd (liquid vesting : string) : outcome MsgDelegate :=
  amount ← ParseCoinNormalized liquid;
  vestingAmount ← ParseCoinNormalized vesting;
  let msg := NewMsgDelegate fromAddress amount vestingAmount in
  MsgDelegate_ValidateBasic msg ;; Ok msg.

Definition NewUnbondCmd (arg : string) : outcome MsgUndelegate :=
  amount ← ParseCoinNormalized arg;
  let msg := NewMsgUndelegate fromAddress amount in
  MsgUndelegate_ValidateBasic msg ;; Ok msg.

(** A message to one of the PoE contracts. *)
Definition execute_contract (what : string) (ctype : Z) (m : json) : outcome MsgExecuteContract :=
  address ← wrap what (ContractAddress ctype);
  let msg := mkMsgExecute (AccAddress_String fromAddress) address m in
  MsgExecuteContract_ValidateBasic msg ;; Ok msg.

Definition NewUnjailTxCmd : outcome MsgExecuteContract :=
  execute_contract "query valset contract address" PoEContractTypeValset (enc_TG4ValsetExecute (Unjail "")).

Definition NewSetWithdrawAddressCmd (arg : string) : outcome MsgExecuteContract :=
  address ← wrap "query engagement contract address" (ContractAddress PoEContractTypeEngagement);
  delegateAddress ← AccAddressFromBech32 arg;
  let msg := mkMsgExecute (AccAddress_String fromAddress) address
               (enc_TG4EngagementExecute (DelegateWithdrawal (AccAddress_String delegateAddress))) in
  MsgExecuteContract_ValidateBasic msg ;; Ok msg.

Definition buildDistributionWithdrawRewardsMsgExecute : outcome MsgExecuteContract :=
  execute_contract "query distribution contract address" PoEContractTypeDistribution (enc_TrustedCircleExecute TC_WithdrawRewards).
Definition buildEngagementWithdrawRewardsMsgExecute : outcome MsgExecuteContract :=
  execute_contract "query engagement contract address" PoEContractTypeEngagement
    (enc_TG4EngagementExecute (WithdrawRewards None None)).

Definition NewClaimRewardsCmd (distribution engagement : outcome bool) : outcome (list MsgExecuteContract) :=
  distrRewards ← distribution;
  engRewards ← engagement;
  d ← (if distrRewards || negb (distrRewards || engRewards)
       then m ← buildDistributionWithdrawRewardsMsgExecute; Ok [m] else Ok []);
  e ← (if engRewards || negb (distrRewards || engRewards)
       then m ← buildEngagementWithdrawRewardsMsgExecute; Ok [m] else Ok []);
  Ok (d ++ e).
End commands.

(** ** Genesis transactions *)

(** The entry of a key ring; an offline key, or one of several signers, cannot sign. *)
Record KeyInfo := mkKeyInfo { Key_GetAddress : AccAddress; Key_Offline : bool }.

(** What the command leaves behind: the printed unsigned transaction, or the file. *)
Inductive GenTxResult (Tx : Type) := Printed (memo : option string) (msg : MsgCreateValidator) | Written (tx : Tx).
Arguments Printed {Tx} memo msg.
Arguments Written {Tx} tx.

Section gentx.
Context `{!Bech32, !SdkMath, !CoinAmounts, !ClientCoins} {Tx : Type}.
Variables (NewAnyWithValue : bytes → outcome Any) (UnmarshalInterfaceJSON : string → outcome bytes).
Variable defaultAmount : string.
(** [GetGenesisStateFromAppState] and the balances of x/bank. *)
Variables (genesisState : gmap string json → outcome PoEGenesisState)
  (IterateGenesisBalances : gmap string json → outcome (list (AccAddress * list Coin))).

(** The loop of the iterator ends at the account. *)
Fixpoint find_balance (addr : AccAddress) (coins : list Coin) (bondDenom : string) (l : list (AccAddress * list Coin)) :
    outcome () :=
  match l with
  | [] => Err (new_err "account %s does not have a balance in the genesis state")
  | (accAddress, accCoins) :: l' =>
      if decide (accAddress = addr) then
        want ← Coins_AmountOf coins bondDenom;
        have ← Coins_AmountOf accCoins bondDenom;
        gt ← Int_GT want have;
        check gt (new_err "account %s has a balance in genesis, but it only has %v%s available to stake, not %v%s")
      else find_balance addr coins bondDenom l'
  end.

(** The seed contracts are dereferenced. *)
Definition ValidateAccountInGenesis (appGenesisState : gmap string json) (addr : AccAddress) (coins : list Coin) : outcome () :=
  gs ← genesisState appGenesisState;
  match GetSeedContracts gs with
  | None => Panic "nil pointer"
  | Some seed =>
      l ← IterateGenesisBalances appGenesisState;
      find_balance addr coins (BondDenom seed) l
  end.

(** The node's files, the key ring, the checks of all modules on the genesis state, and the way of
    a message to a signed transaction in a file. *)
Variables (node : outcome (string * option bytes)) (Keyring_Key : string → outcome KeyInfo)
  (mbm_ValidateGenesis : gmap string json → outcome ()) (sign_and_write : option string → MsgCreateValidator → outcome Tx).

Definition GenTxCmd (flags : FlagSet) (config_Moniker : string) (genDoc : outcome (string * json_bytes))
    (name liquidAmount vestedAmount : string) : outcome (GenTxResult Tx) :=
  nv ← wrap "failed to initialize node validator files" node;
  let nodeID := if decide (value_of flags FlagNodeID ≠ "") then value_of flags FlagNodeID else nv.1 in
  valPubKey ← (if decide (value_of flags FlagPubKey ≠ "")
               then pk ← wrap "failed to unmarshal validator public key" (UnmarshalInterfaceJSON (value_of flags FlagPubKey));
                    Ok (Some pk)
               else Ok nv.2);
  doc ← wrap "failed to read genesis doc file %s" genDoc;
  state ← wrap "failed to unmarshal genesis state" (match doc.2 with JText j => dec_raw_map j | _ => Err ErrJSON end);
  wrap "failed to validate genesis state" (mbm_ValidateGenesis state) ;;
  key ← wrap "failed to fetch '%s' from the keyring" (Keyring_Key name);
  let moniker := if decide (value_of flags FlagMoniker ≠ "") then value_of flags FlagMoniker else config_Moniker in
  createValCfg ← wrap "error creating configuration to create validator msg"
    (PrepareConfigForTxCreateValidator defaultAmount flags moniker nodeID doc.1 valPubKey);
  liquidCoins ← wrap "failed to parse coins for liquid amount" (ParseCoinsNormalized liquidAmount);
  vestedCoins ← wrap "failed to parse coins for vested amount" (ParseCoinsNormalized vestedAmount);
  coins ← Coins_Add liquidCoins vestedCoins;
  wrap "failed to validate account in genesis" (ValidateAccountInGenesis state (Key_GetAddress key) coins) ;;
  check (bool_decide (Cfg_LiquidAmount createValCfg ≠ "" ∧ Cfg_LiquidAmount createValCfg ≠ liquidAmount))
    (new_err "liquid amount param and argument missmatch") ;;
  check (bool_decide (Cfg_VestingAmount createValCfg ≠ "" ∧ Cfg_VestingAmount createValCfg ≠ vestedAmount))
    (new_err "vesting amount param and argument missmatch") ;;
  r ← wrap "failed to build create-validator message"
    (BuildCreateValidatorMsg NewAnyWithValue (Key_GetAddress key) (with_amounts createValCfg liquidAmount vestedAmount) true);
  if Key_Offline key then Ok (Printed r.1 r.2)
  else tx ← wrap "failed to sign std tx" (sign_and_write r.1 r.2); Ok (Written tx).
End gentx.

(** ** Two ways to the message that creates a validator *)
Section builders.
Context `{!Bech32, !SdkMath, !ClientCoins}.
Variables (NewAnyWithValue : bytes → outcome Any) (UnmarshalInterfaceJSON : string → outcome bytes).
Variables (fromAddress : AccAddress) (defaultAmount : string).

(** The command on flags [vals'] that have the amount of the configuration, and otherwise the values it was made of. *)
Lemma builders_agree vals vals' chainID pk g r :
  UnmarshalInterfaceJSON (vals FlagPubKey) = Ok pk →
  vals' FlagAmount = (if decide (vals FlagAmount = "") then defaultAmount else vals FlagAmount) →
  (∀ f, f ≠ FlagAmount → vals' f = vals f) →
  NewBuildCreateValidatorMsg NewAnyWithValue UnmarshalInterfaceJSON fromAddress (λ f, Ok (vals' f)) (Ok g) = Ok r ↔
  BuildCreateValidatorMsg NewAnyWithValue fromAddress
    (mkTxConfig chainID (vals FlagNodeID) (vals FlagMoniker) (if decide (vals FlagAmount = "") then defaultAmount else vals FlagAmount)
       (vals FlagVestingAmount) (Some pk) (vals FlagIP) (vals FlagWebsite) (vals FlagSecurityContact) (vals FlagDetails)
       (vals FlagIdentity)) g = Ok r ∧ MsgCreateValidator_ValidateBasic r.2 = Ok ().
Proof.
  intros Hpk Hamt Heq. unfold NewBuildCreateValidatorMsg, BuildCreateValidatorMsg.
  cbn [wrap mbind outcome_bind value_of Cfg_LiquidAmount Cfg_VestingAmount Cfg_Moniker Cfg_Identity Cfg_Website
       Cfg_SecurityContact Cfg_Details Cfg_PubKey Cfg_NodeID Cfg_IP]. rewrite Hamt, !Heq, Hpk by done. cbn [mbind outcome_bind].
  generalize (if decide (vals FlagAmount = "") then defaultAmount else vals FlagAmount) as amount. intros amount. split.
  - intros (l & Hl%wrap_ok & Hr)%outcome_bind_ok. apply outcome_bind_ok in Hr as (v & Hv%wrap_ok & Hr).
    apply outcome_bind_ok in Hr as (msg & Hmsg & Hr). apply outcome_bind_ok in Hr as ([] & Hb & [= <-]).
    rewrite Hl. cbn [mbind outcome_bind]. rewrite Hv. cbn [mbind outcome_bind]. rewrite Hmsg. done.
  - intros [(l & Hl & Hr)%outcome_bind_ok Hb]. apply outcome_bind_ok in Hr as (v & Hv & Hr).
    apply outcome_bind_ok in Hr as (msg & Hmsg & [= <-]). rewrite Hl. cbn [wrap mbind outcome_bind].
    rewrite Hv. cbn [wrap mbind outcome_bind]. rewrite Hmsg. cbn [mbind outcome_bind]. cbn [snd] in Hb. by rewrite Hb.
Qed.

(** The flags with the default amount in the place of an empty one. *)
Definition or_default (vals : string → string) (flag : string) : string :=
  if decide (flag = FlagAmount ∧ vals FlagAmount = "") then defaultAmount else vals flag.

(** C22: From the same flags, with a readable public key, the command create-validator and the pair of functions behind
    gentx build the same message with the same memo up to two differences. Only the command checks the message: when an
    amount is given it succeeds exactly when the others do and the message is valid. And only the pair takes the
    default amount when none is given: it then builds what the command builds from the default amount, while the command
    itself fails, the empty text not being a coin. *)
Theorem create_validator_builders vals chainID pk :
  UnmarshalInterfaceJSON (vals FlagPubKey) = Ok pk →
  ∃ cfg, PrepareConfigForTxCreateValidator defaultAmount (λ f, Ok (vals f)) (vals FlagMoniker) (vals FlagNodeID)
           chainID (Some pk) = Ok cfg ∧
    ∀ generateOnly r,
      (NewBuildCreateValidatorMsg NewAnyWithValue UnmarshalInterfaceJSON fromAddress (λ f, Ok (or_default vals f)) (Ok generateOnly) = Ok r ↔
       BuildCreateValidatorMsg NewAnyWithValue fromAddress cfg generateOnly = Ok r ∧ MsgCreateValidator_ValidateBasic r.2 = Ok ()) ∧
      (vals FlagAmount ≠ "" →
       NewBuildCreateValidatorMsg NewAnyWithValue UnmarshalInterfaceJSON fromAddress (λ f, Ok (vals f)) (Ok generateOnly) = Ok r ↔
       BuildCreateValidatorMsg NewAnyWithValue fromAddress cfg generateOnly = Ok r ∧ MsgCreateValidator_ValidateBasic r.2 = Ok ()) ∧
      (vals FlagAmount = "" → is_ok (ParseCoinNormalized "") = false →
       NewBuildCreateValidatorMsg NewAnyWithValue UnmarshalInterfaceJSON fromAddress (λ f, Ok (vals f)) (Ok generateOnly) ≠ Ok r).
Proof.
  intros Hpk. eexists. split; [reflexivity|]. intros g r. split_and!.
  - apply (builders_agree vals (or_default vals)); [done| |].
    + unfold or_default. by destruct (decide (vals FlagAmount = "")); [rewrite decide_True|rewrite decide_False by tauto].
    + intros f Hf. unfold or_default. by rewrite decide_False by tauto.
  - intros Hamt. apply (builders_agree vals vals); [done| |done]. by rewrite decide_False.
  - intros Hamt Hno (a & Ha & (c & Hc%wrap_ok & _)%outcome_bind_ok)%outcome_bind_ok. injection Ha as <-.
    rewrite Hamt in Hc. by rewrite Hc in Hno.
Qed.
End builders.

(** ** Genesis transactions are accepted by the collection *)
Class ClientCoinsLaws `{ClientCoins, CoinAmounts} := {
  (** Both parsers read a coin as the same, non-negative amount. *)
  parse_agree s c cs d x :
    ParseCoinNormalized s = Ok c → ParseCoinsNormalized s = Ok cs → Coins_AmountOf cs d = Ok x →
    ∃ a, WCoin_Amount c = Some a ∧ 0 ≤ a ∧ x = Some (if decide (WCoin_Denom c = d) then a else 0);
  parse_nonneg s cs d x : ParseCoinsNormalized s = Ok cs → Coins_AmountOf cs d = Ok (Some x) → 0 ≤ x;
  Coins_Add_amounts a b r d x :
    Coins_Add a b = Ok r → Coins_AmountOf r d = Ok (Some x) →
    ∃ y z, Coins_AmountOf a d = Ok (Some y) ∧ Coins_AmountOf b d = Ok (Some z) ∧ x = y + z;
  Int_GT_some a b : Int_GT (Some a) (Some b) = Ok (b <? a);
}.

Section collectable.
Context `{!Bech32, !SdkMath, !CoinAmounts, !CoinAmountsLaws, !ClientCoins, !ClientCoinsLaws} {Tx : Type}.
Variables (NewAnyWithValue : bytes → outcome Any) (UnmarshalInterfaceJSON : string → outcome bytes).
Variable defaultAmount : string.
Variables (genesisState : gmap string json → outcome PoEGenesisState)
  (IterateGenesisBalances : gmap string json → outcome (list (AccAddress * list Coin))).
Variables (Keyring_Key : string → outcome KeyInfo) (mbm_ValidateGenesis : gmap string json → outcome ())
  (sign_and_write : option string → MsgCreateValidator → outcome Tx).
Variables (txJSONDecoder : bytes → outcome Tx) (GetMemo : Tx → option string) (GetMsgs : Tx → list GenMsg).
(** A signed transaction has the memo and the message it was made of. *)
Hypothesis signed : ∀ memo msg tx, sign_and_write (Some memo) msg = Ok tx →
  GetMemo tx = Some memo ∧ GetMsgs tx = [GMCreateValidator msg].

Lemma find_balance_ok addr coins bond l :
  find_balance addr coins bond l = Ok () →
  ∃ accCoins want have, (addr, accCoins) ∈ l ∧ Coins_AmountOf coins bond = Ok (Some want) ∧
    Coins_AmountOf accCoins bond = Ok (Some have) ∧ want ≤ have.
Proof.
  induction l as [|[x cs] l IH]; [done|]. cbn. case_decide as Hx.
  - subst x. intros (want & Hw & Hr)%outcome_bind_ok. apply outcome_bind_ok in Hr as (have & Hh & Hr).
    apply outcome_bind_ok in Hr as (gt & Hg & ->%check_ok).
    destruct (Coins_AmountOf_set _ _ _ Hw) as [w ->], (Coins_AmountOf_set _ _ _ Hh) as [h ->].
    rewrite Int_GT_some in Hg. injection Hg as Hg%Z.ltb_ge. exists cs, w, h. split_and!; [by left|done..].
  - intros (accCoins & want & have & Hin & ?)%IH. exists accCoins, want, have. split; [by right|done].
Qed.

Lemma balances_map_lookup (l : list (AccAddress * list Coin)) addr cs :
  NoDup (AccAddress_String <$> l.*1) → (addr, cs) ∈ l → balances_map l !! AccAddress_String addr = Some cs.
Proof.
  intros Hnd Hin. unfold balances_map. apply elem_of_list_to_map.
  - rewrite fmap_reverse, <-list_fmap_compose. rewrite reverse_Permutation.
    rewrite <-list_fmap_compose in Hnd. exact Hnd.
  - apply elem_of_reverse, list_elem_of_fmap. by exists (addr, cs).
Qed.

Lemma BuildCreateValidatorMsg_ok from cfg r :
  BuildCreateValidatorMsg NewAnyWithValue from cfg true = Ok r →
  ∃ liquid, ParseCoinNormalized (Cfg_LiquidAmount cfg) = Ok liquid ∧ r.1 = peer_memo (Cfg_NodeID cfg) (Cfg_IP cfg) ∧
    CV_Amount r.2 = liquid ∧ CV_OperatorAddress r.2 = AccAddress_String from.
Proof.
  intros (l & Hl & Hr)%outcome_bind_ok. apply outcome_bind_ok in Hr as (v & _ & Hr).
  apply outcome_bind_ok in Hr as (msg & Hmsg & [= <-]). exists l. split; [done|].
  apply outcome_bind_ok in Hmsg as (a & _ & [= <-]). done.
Qed.

Lemma peer_memo_Some nodeID ip : nodeID ≠ "" → ip ≠ "" → ∃ m, peer_memo nodeID ip = Some m ∧ m ≠ "".
Proof.
  intros Hn Hi. unfold peer_memo. rewrite decide_True by done. eexists. split; [done|]. by destruct nodeID.
Qed.

(** What a written transaction says about the run of the command. *)
Lemma GenTxCmd_written flags id key ip amountFlag moniker0 chainID j st name liquid vested tx :
  flags FlagIP = Ok ip → flags FlagAmount = Ok amountFlag → dec_raw_map j = Ok st →
  GenTxCmd NewAnyWithValue UnmarshalInterfaceJSON defaultAmount genesisState IterateGenesisBalances (Ok (id, key))
    Keyring_Key mbm_ValidateGenesis sign_and_write flags moniker0 (Ok (chainID, JText j)) name liquid vested = Ok (Written tx) →
  ∃ k liquidCoins vestedCoins coins cfg r, Keyring_Key name = Ok k ∧
    ParseCoinsNormalized liquid = Ok liquidCoins ∧ ParseCoinsNormalized vested = Ok vestedCoins ∧
    Coins_Add liquidCoins vestedCoins = Ok coins ∧
    ValidateAccountInGenesis genesisState IterateGenesisBalances st (Key_GetAddress k) coins = Ok () ∧
    (let a := if decide (amountFlag = "") then defaultAmount else amountFlag in a = "" ∨ a = liquid) ∧
    Cfg_IP cfg = ip ∧ Cfg_NodeID cfg = (if decide (value_of flags FlagNodeID ≠ "") then value_of flags FlagNodeID else id) ∧
    Cfg_LiquidAmount cfg = liquid ∧
    BuildCreateValidatorMsg NewAnyWithValue (Key_GetAddress k) cfg true = Ok r ∧ sign_and_write r.1 r.2 = Ok tx.
Proof.
  clear signed. intros Hip Hamt Hst Hrun. unfold GenTxCmd in Hrun. cbn [wrap mbind outcome_bind fst snd] in Hrun.
  apply outcome_bind_ok in Hrun as (pk & _ & Hrun). rewrite Hst in Hrun. cbn [wrap mbind outcome_bind] in Hrun.
  apply outcome_bind_ok in Hrun as ([] & _ & Hrun). apply outcome_bind_ok in Hrun as (k & Hk%wrap_ok & Hrun).
  apply outcome_bind_ok in Hrun as (cfg & Hcfg%wrap_ok & Hrun).
  apply outcome_bind_ok in Hrun as (lc & Hlc%wrap_ok & Hrun). apply outcome_bind_ok in Hrun as (vc & Hvc%wrap_ok & Hrun).
  apply outcome_bind_ok in Hrun as (coins & Hadd & Hrun). apply outcome_bind_ok in Hrun as ([] & Hacc%wrap_ok & Hrun).
  apply outcome_bind_ok in Hrun as ([] & Hl%check_ok%bool_decide_eq_false & Hrun).
  apply outcome_bind_ok in Hrun as ([] & _ & Hrun). apply outcome_bind_ok in Hrun as (r & Hr%wrap_ok & Hrun).
  destruct (Key_Offline k); [done|]. apply outcome_bind_ok in Hrun as (t & Ht%wrap_ok & [= ->]).
  unfold PrepareConfigForTxCreateValidator in Hcfg. rewrite Hip in Hcfg. cbn [mbind outcome_bind] in Hcfg.
  do 4 (apply outcome_bind_ok in Hcfg as (? & _ & Hcfg)). rewrite Hamt in Hcfg. cbn [mbind outcome_bind] in Hcfg.
  apply outcome_bind_ok in Hcfg as (? & _ & [= <-]). cbn [Cfg_LiquidAmount] in Hl.
  eexists k, lc, vc, coins, _, r. split_and!; [exact Hk|exact Hlc|exact Hvc|done|exact Hacc| | | | |exact Hr|exact Ht];
    [|reflexivity..].
  cbn zeta. destruct (decide ((if decide (amountFlag = "") then defaultAmount else amountFlag) = "")); [by left|right].
  apply dec_stable. naive_solver.
Qed.

(** Whether the collection takes the file of a transaction with this memo and message. *)
Lemma collect_written fo bz tx moniker balances msg memo accCoins amount :
  File_Content fo = Ok bz → txJSONDecoder bz = Ok tx → GetMemo tx = Some memo → memo ≠ "" →
  GetMsgs tx = [GMCreateValidator msg] → balances !! CV_OperatorAddress msg = Some accCoins →
  WCoin_Amount (CV_Amount msg) = Some amount →
  (∃ peer, collect_file txJSONDecoder GetMemo GetMsgs moniker balances fo = Ok (tx, peer)) ↔
  ∃ balance, Coins_AmountOf accCoins (WCoin_Denom (CV_Amount msg)) = Ok (Some balance) ∧ amount ≤ balance.
Proof using All.
  intros Hfo Hbz Hm Hne Hmsgs Hbal Ha. split.
  - intros (peer & (e & (bz' & bal & x & b & Hfo' & Hbz' & _ & _ & Hmsgs' & Hbal' & Hx & Hb & Hle) & Hr)%collect_file_spec).
    destruct e as [tx' msg' memo']. cbn in *. simplify_eq. rewrite Hmsgs in Hmsgs'. injection Hmsgs' as <-. exists b. split; congruence.
  - intros (b & Hb & Hle). exists (peer_of moniker (mkEntryOf tx msg memo)). apply collect_file_spec.
    exists (mkEntryOf tx msg memo). split; [|done]. by exists bz, accCoins, amount, b.
Qed.

(** C21: A transaction that gentx has signed and written for a chain with a seeded genesis where every address has one
    balance, on a node with an identifier and an IP address, is one that the collection accepts exactly when the
    genesis balance of the signer covers the liquid amount in the denom of that amount: its file has a memo and
    a single message of the signer. The balance always does when the liquid amount is in the bond denom; in another
    denom gentx does not look at it, and may write a file that is refused. The amount of the argument is the one
    of the flag, and the (non-empty) default amount when the flag is not set. *)
Theorem gentx_collectable flags id key ip amountFlag moniker0 chainID j st gs seed l name liquid vested tx fo bz moniker :
  flags FlagIP = Ok ip → ip ≠ "" → id ≠ "" → flags FlagAmount = Ok amountFlag → defaultAmount ≠ "" →
  dec_raw_map j = Ok st → genesisState st = Ok gs → GetSeedContracts gs = Some seed →
  IterateGenesisBalances st = Ok l → NoDup (AccAddress_String <$> l.*1) →
  GenTxCmd NewAnyWithValue UnmarshalInterfaceJSON defaultAmount genesisState IterateGenesisBalances (Ok (id, key))
    Keyring_Key mbm_ValidateGenesis sign_and_write flags moniker0 (Ok (chainID, JText j)) name liquid vested = Ok (Written tx) →
  File_Content fo = Ok bz → txJSONDecoder bz = Ok tx →
  liquid = (if decide (amountFlag = "") then defaultAmount else amountFlag) ∧
  ∃ signer accCoins c amount,
    Keyring_Key name = Ok signer ∧ (Key_GetAddress signer, accCoins) ∈ l ∧
    ParseCoinNormalized liquid = Ok c ∧ WCoin_Amount c = Some amount ∧
    let covered := ∃ balance, Coins_AmountOf accCoins (WCoin_Denom c) = Ok (Some balance) ∧ amount ≤ balance in
    ((∃ peer, collect_file txJSONDecoder GetMemo GetMsgs moniker (balances_map l) fo = Ok (tx, peer)) ↔ covered) ∧
    (WCoin_Denom c = BondDenom seed → covered).
Proof using All.
  intros Hip Hipne Hid Hamt Hdef Hst Hgs Hseed Hl Hnd Hrun Hfo Hbz.
  destruct (GenTxCmd_written _ _ _ _ _ _ _ _ _ _ _ _ _ Hip Hamt Hst Hrun) as
    (k & lc & vc & coins & cfg & r & Hk & Hlc & Hvc & Hadd & Hacc & Heq & HcIP & HcID & Hcl & Hr & Hsign).
  split; [cbn zeta in Heq; destruct (decide (amountFlag = "")), Heq; congruence|].
  unfold ValidateAccountInGenesis in Hacc. rewrite Hgs in Hacc. cbn [mbind outcome_bind] in Hacc. rewrite Hseed, Hl in Hacc.
  cbn [mbind outcome_bind] in Hacc.
  destruct (find_balance_ok _ _ _ _ Hacc) as (accCoins & want & have & Hin & Hwant & Hhave & Hle).
  destruct (Coins_Add_amounts _ _ _ _ _ Hadd Hwant) as (y & z & Hy & Hz & ->).
  pose proof (parse_nonneg _ _ _ _ Hvc Hz) as Hz0.
  destruct (BuildCreateValidatorMsg_ok _ _ _ Hr) as (c & Hc & Hmemo & Hamount & Hop). rewrite Hcl in Hc.
  destruct (parse_agree _ _ _ _ _ Hc Hlc Hy) as (a & Ha & _ & [= ->]).
  destruct (peer_memo_Some (Cfg_NodeID cfg) (Cfg_IP cfg)) as (m & Hm & Hmne);
    [rewrite HcID; by destruct (decide (value_of flags FlagNodeID ≠ ""))|by rewrite HcIP|]. rewrite Hmemo, Hm in Hsign.
  apply signed in Hsign as [Hgm Hmsgs]. pose proof (balances_map_lookup _ _ _ Hnd Hin) as Hbal.
  exists k, accCoins, c, a. do 4 (split; [done|]). cbn zeta. split.
  - rewrite <-Hamount. rewrite <-Hamount in Ha. rewrite <-Hop in Hbal.
    exact (collect_written _ _ _ _ _ _ _ _ _ Hfo Hbz Hgm Hmne Hmsgs Hbal Ha).
  - intros Hd. exists have. rewrite Hd. split; [done|]. rewrite decide_True in Hle by done. lia.
Qed.
End collectable.

(** ** A concrete client *)
#[local] Instance Plain_bech32 : Bech32 := { AccAddressFromBech32 s := Ok s; AccAddress_String a := a }.

(** Texts of amounts with one digit and a denom. *)
Definition digit_amount (s : string) : option (string * Z) :=
  match s with
  | String a rest => if decide (rest ≠ "" ∧ 48 ≤ of_byte a ≤ 57) then Some (rest, of_byte a - 48) else None
  | "" => None
  end.
#[local] Instance Ref_client_coins : ClientCoins := {
  ParseCoinNormalized s :=
    match digit_amount s with Some (d, a) => Ok (mkWCoin d (Some a)) | None => Err (new_err "invalid coin") end;
  ParseCoinsNormalized s :=
    match digit_amount s with Some (d, a) => Ok [mkCoin d a] | None => Err (new_err "invalid coin") end;
  Coins_Add a b := Ok (a ++ b);
  Int_GT a b := match a, b with Some x, Some y => Ok (y <? x) | _, _ => Panic "nil" end;
}.

Lemma digit_amount_nonneg s d a : digit_amount s = Some (d, a) → 0 ≤ a.
Proof. destruct s as [|c rest]; cbn; [done|]. case_decide as Hd; [|done]. intros [= _ <-]. lia. Qed.

#[local] Instance Ref_client_laws : ClientCoinsLaws.
Proof.
  constructor; cbn.
  - intros s c cs d x. destruct (digit_amount s) as [[d' a]|] eqn:Ha; [|done]. intros [= <-] [= <-] [= <-].
    exists a. split_and!; [done|by eapply digit_amount_nonneg|]. cbn. repeat case_decide; f_equal; lia.
  - intros s cs d x. destruct (digit_amount s) as [[d' a]|] eqn:Ha; [|done]. intros [= <-] [= <-].
    apply digit_amount_nonneg in Ha. cbn. case_decide; lia.
  - intros a b r d x [= <-] [= <-]. eexists _, _. split; [reflexivity|]. split; [reflexivity|].
    induction a as [|y a IH]; cbn; [done|]. rewrite IH. lia.
  - done.
Qed.

Definition vals_alice (flag : string) : string :=
  if decide (flag = FlagAmount) then "5ufury" else if decide (flag = FlagVestingAmount) then "2ufury"
  else if decide (flag = FlagMoniker) then "alice's node" else if decide (flag = FlagPubKey) then "key"
  else if decide (flag = FlagNodeID) then "id" else if decide (flag = FlagIP) then "10.0.0.1" else "".
Definition raw_any (pk : bytes) : outcome Any := Ok (mkAny "ed25519" pk).

(** C22: the command and the functions build alice's message. *)
Lemma create_validator_builders_witness :
  ∃ cfg, PrepareConfigForTxCreateValidator "9ufury" (λ f, Ok (vals_alice f)) "alice's node" "id" "chain" (Some "key") = Ok cfg ∧
    ∃ r, BuildCreateValidatorMsg raw_any "alice" cfg true = Ok r ∧ r.1 = Some "id@10.0.0.1:26656" ∧
      NewBuildCreateValidatorMsg raw_any Ok "alice" (λ f, Ok (vals_alice f)) (Ok true) = Ok r.
Proof.
  destruct (create_validator_builders raw_any Ok "alice" "9ufury" vals_alice "chain" "key") as (cfg & Hcfg & Hiff);
    [reflexivity|].
  exists cfg. split; [exact Hcfg|]. injection Hcfg as <-. eexists. split; [vm_compute; reflexivity|].
  split; [reflexivity|]. apply Hiff; [discriminate|]. split; vm_compute; reflexivity.
Defined.

(** A transaction is the pair of its memo and its message. *)
Definition pair_tx (memo : option string) (msg : MsgCreateValidator) : outcome (string * MsgCreateValidator) :=
  Ok (default "" memo, msg).

Definition alice_tx : string * MsgCreateValidator :=
  ("id@10.0.0.1:26656",
   mkMsgCreateValidator (mkDescription "alice's node" "" "" "" "") "alice" (Some (mkAny "ed25519" "key"))
     (mkWCoin "ufury" (Some 5)) (mkWCoin "ufury" (Some 2))).
Definition alice_balances : list (AccAddress * list Coin) := [("alice", [mkCoin "ufury" 7])].
Definition alice_file : FileInfo := mkFileInfo "alice.json" false (Ok "").

(** C21: the transaction of alice, who has seven tokens, is collected. *)
Lemma gentx_collectable_witness :
  GenTxCmd raw_any Ok "9ufury" (λ _, Ok seed_state) (λ _, Ok alice_balances) (Ok ("node", Some "pk"))
    (λ name, Ok (mkKeyInfo name false)) (λ _, Ok ()) pair_tx (λ f, Ok (vals_alice f)) "host" (Ok ("chain", JText (JObj [])))
    "alice" "5ufury" "2ufury" = Ok (Written alice_tx) ∧
  ∃ peer, collect_file (λ _, Ok alice_tx) (λ t, Some t.1) (λ t, [GMCreateValidator t.2]) "host"
    (balances_map alice_balances) alice_file = Ok (alice_tx, peer).
Proof.
  assert (GenTxCmd raw_any Ok "9ufury" (λ _, Ok seed_state) (λ _, Ok alice_balances) (Ok ("node", Some "pk"))
    (λ name, Ok (mkKeyInfo name false)) (λ _, Ok ()) pair_tx (λ f, Ok (vals_alice f)) "host" (Ok ("chain", JText (JObj [])))
    "alice" "5ufury" "2ufury" = Ok (Written alice_tx)) as Hrun by (vm_compute; reflexivity).
  split; [exact Hrun|].
  edestruct (gentx_collectable raw_any Ok "9ufury" (λ _, Ok seed_state) (λ _, Ok alice_balances)
    (λ name, Ok (mkKeyInfo name false)) (λ _, Ok ()) pair_tx (λ _, Ok alice_tx) (λ t, Some t.1) (λ t, [GMCreateValidator t.2]))
    with (fo := alice_file) (moniker := "host") as [_ (k & cs & c & a & _ & _ & Hc & _ & Hiff & Hbond)].
  12: exact Hrun.
  all: try reflexivity; try discriminate.
  - by intros memo msg tx [= <-].
  - apply (bool_decide_unpack _). reflexivity.
  - apply Hiff, Hbond. injection Hc as <-. reflexivity.
Defined.

(** In another denom, of which she has nothing, alice's transaction is written but not collected. *)
Definition vals_other (flag : string) : string := if decide (flag = FlagAmount) then "5uother" else vals_alice flag.
Definition other_tx : string * MsgCreateValidator :=
  (alice_tx.1, mkMsgCreateValidator (CV_Description alice_tx.2) "alice" (CV_Pubkey alice_tx.2) (mkWCoin "uother" (Some 5))
     (mkWCoin "ufury" (Some 2))).
Lemma gentx_other_denom :
  GenTxCmd raw_any Ok "9ufury" (λ _, Ok seed_state) (λ _, Ok alice_balances) (Ok ("node", Some "pk"))
    (λ name, Ok (mkKeyInfo name false)) (λ _, Ok ()) pair_tx (λ f, Ok (vals_other f)) "host" (Ok ("chain", JText (JObj [])))
    "alice" "5uother" "2ufury" = Ok (Written other_tx) ∧
  is_ok (collect_file (λ _, Ok other_tx) (λ t, Some t.1) (λ t, [GMCreateValidator t.2]) "host"
    (balances_map alice_balances) alice_file) = false.
Proof. split; vm_compute; reflexivity. Qed.
