(* ===== verification/Root.v ===== *)
(** The root command of the daemon (cmd/furya/root.go): the limit on fees, the units of the
    coin, the reset of a node, and the export of the state at a height.

    The flag library, the parsing and conversion of coins, and the commands of the
    server package are parameters. *)
From stdpp Require Import base list strings gmap sets sorting pretty.
From Stdlib Require Import ZArith Lia Ascii.
From S2P Require Import Prelude Sdk RefStore Slice Json Privilege Wasm GlobalFee GoTime PoETypes TwasmMsgs PoEMsgs PoETypesProps PoEKeeper PoEKeeperProps PoEContractIO PoEValset PoEValsetProps PoEQueries PoEBootstrap AppExport GenTxCollect GenAccounts AppBlock AppGenesis AppLife.
Open Scope Z_scope.

(** ** Units of the coin *)
Definition HumanCoinUnit : string := "furya".
Definition BaseCoinUnit : string := "ufury".
Definition FuryExponent : Z := 6.
Definition maxFees : Z := 100.

(** The SDK's registry of denoms, as the state [R], and its parsers. *)
Class CoinText (R : Type) := {
  (** an error for an invalid or a known denom *)
  RegisterDenom : string → Z → R → outcome R;
  unit_of : R → string → option Z;
  (** coins are converted to the base denom, the one of the smallest unit *)
  sdk_ParseCoinsNormalized : R → string → outcome (list Coin);
  (** [sdk.ParseUint] *)
  sdk_ParseUint : string → outcome Z;
  ParseDecCoins : string → outcome (list DecCoin);
  DecCoins_AmountOf : list DecCoin → string → outcome Z;
  (** [Dec.MulInt] *)
  MulInt : Z → Z → outcome Z;
}.
(** No text, or a digit, a point, or a byte that blanks are made of. *)
Definition starts_coin (s : string) : bool :=
  match s with
  | "" => true
  | String c _ => bool_decide (48 ≤ of_byte c ≤ 57) || bool_decide (c = "."%char) || bool_decide (of_byte c ≤ 32 ∨ 127 ≤ of_byte c)
  end.
Class CoinTextLaws (R : Type) `{CoinText R, CoinAmounts} := {
  RegisterDenom_unit d u r r' :
    RegisterDenom d u r = Ok r' → unit_of r' d = Some u ∧ ∀ d', d' ≠ d → unit_of r' d' = unit_of r d';
  (** No coin is left of a denom that is not of the smallest unit. *)
  normalized r s cs d d' u u' :
    sdk_ParseCoinsNormalized r s = Ok cs → unit_of r d = Some u → unit_of r d' = Some u' → u' < u → amount_of d cs = 0;
  parsed_amount r s cs :
    sdk_ParseCoinsNormalized r s = Ok cs → Coins_AmountOf cs HumanCoinUnit = Ok (Some (amount_of HumanCoinUnit cs));
  (** The text of coins begins with a number, after blanks. *)
  ParseDecCoins_number s : starts_coin s = false → is_ok (ParseDecCoins s) = false;
}.

Section fees.
Context `{!CoinText R, !CoinAmounts}.

(** [if err != nil { panic(err) }] *)
Definition panics {A} (o : outcome A) : outcome A := match o with Err _ => Panic "registerDenoms" | _ => o end.
Definition registerDenoms (r : R) : outcome R :=
  r1 ← panics (RegisterDenom HumanCoinUnit (NewDec 1) r);
  panics (RegisterDenom BaseCoinUnit (NewDec 1 / 10 ^ FuryExponent) r1).

(** [Int.GT] *)
Definition Int_GT_lit (a : Int) (b : Z) : outcome bool := match a with Some x => Ok (b <? x) | None => Panic "nil" end.
(** [Uint.Uint64] panics on more than 64 bits. *)
Definition Uint_Uint64 (a : Z) : outcome Z := if a <? 2 ^ 64 then Ok a else Panic "Uint64() out of bounds".

Definition FlagFees : string := "fees".
Definition FlagGas : string := "gas".
Definition FlagGasPrices : string := "gas-prices".
Definition GasFlagAuto : string := "auto".

(** [if v, err := GetString(flag); err == nil && v != ""] *)
Definition set_flag (flags : string → outcome string) (name : string) : option string :=
  match flags name with Ok v => if decide (v = "") then None else Some v | _ => None end.

(** The error of a parser makes the fees fine. *)
Definition or_false {A} (o : outcome A) (f : A → outcome bool) : outcome bool :=
  match o with Ok a => f a | Err _ => Ok false | Panic p => Panic p end.

Definition areFeesTooHigh (r : R) (flags : string → outcome string) : outcome bool :=
  match set_flag flags FlagFees with
  | Some fees =>
      or_false (sdk_ParseCoinsNormalized r fees) (λ parsedFees,
        a ← Coins_AmountOf parsedFees HumanCoinUnit;
        Int_GT_lit a maxFees)
  | None =>
      match set_flag flags FlagGas with
      | Some gas =>
          if decide (gas = GasFlagAuto) then Ok false
          else
            or_false (sdk_ParseUint gas) (λ parsedGas,
              or_false (ParseDecCoins FlagGasPrices) (λ parsedGasPrices,
                g ← Uint_Uint64 parsedGas;
                price ← DecCoins_AmountOf parsedGasPrices HumanCoinUnit;
                fee ← MulInt price (int64 g);
                Ok (NewDec maxFees <? fee)))
      | None => Ok false
      end
  end.

(** [PersistentPreRunE] *)
Definition PersistentPreRun (r : R) (flags : string → outcome string)
    (ReadPersistentCommandFlags ReadFromClientConfig SetCmdClientContextHandler InterceptConfigsPreRunHandler : outcome ()) : outcome () :=
  ReadPersistentCommandFlags ;;
  high ← areFeesTooHigh r flags;
  check high (new_err "are you really really sure that you want to send this amount of fees? CLI is preventing fees higher than %dfurya") ;;
  ReadFromClientConfig ;;
  SetCmdClientContextHandler ;;
  InterceptConfigsPreRunHandler.
End fees.

(** ** The reset of a node *)
Section reset.
Context {W : Type}.

(** A command with its function; the daemon's commands have subcommands. *)
Record Command := mkCommand { Cmd_Use : string; Cmd_RunE : M W () }.
Record Branch := mkBranch { Branch_Use : string; Branch_Commands : list Command }.

(** The wrapper of the reset: an error of the reset is swallowed. *)
Definition reset_all (serverRunE RemoveWasm : M W ()) : M W () :=
  r ← try serverRunE;
  match r with
  | inr _ => mret ()
  | inl _ => RemoveWasm
  end.

(** The first command of the name is wrapped; [None] when there is none. *)
Fixpoint wrap_first (name : string) (RemoveWasm : M W ()) (cmds : list Command) : option (list Command) :=
  match cmds with
  | [] => None
  | cmd :: cmds' =>
      if decide (Cmd_Use cmd = name) then Some (mkCommand (Cmd_Use cmd) (reset_all (Cmd_RunE cmd) RemoveWasm) :: cmds')
      else (cmd ::.) <$> wrap_first name RemoveWasm cmds'
  end.
Fixpoint extendUnsafeResetAllCmd (unsafeResetCmd : string) (RemoveWasm : M W ()) (branches : list Branch) : list Branch :=
  match branches with
  | [] => []
  | b :: bs =>
      if decide (Branch_Use b ≠ "tendermint") then b :: extendUnsafeResetAllCmd unsafeResetCmd RemoveWasm bs
      else match wrap_first unsafeResetCmd RemoveWasm (Branch_Commands b) with
           | Some cmds => mkBranch (Branch_Use b) cmds :: bs
           | None => b :: extendUnsafeResetAllCmd unsafeResetCmd RemoveWasm bs
           end
  end.
End reset.
Arguments Command W : clear implicits.
Arguments Branch W : clear implicits.

(** ** The export *)
Section export.
Context `{!KVStore W, !ContractCalls W, !Bech32} {Params : Type}.
Variables (NewAnyWithValue : PubKey → outcome Any) (PubKeyFromProto : TmPubKey → outcome TmPubKey) (Key_Address : TmPubKey → bytes).
Variables (InitializePinnedCodes : W → outcome ()) (code : EmbeddedContracts).
(** [ExportGenesis] of the modules and the consensus parameters, which are read from the store: that of x/poe iterates
    over the stored addresses and does not use the cache. *)
Variables (genState : W → outcome json) (params : W → Params).
(** The versions in the database: the last one and its height, and the one of a height. *)
Variables (LastBlockHeight : Z) (latest : W) (LoadVersion : Z → outcome W).

(** [homePath, ok := appOpts.Get(flags.FlagHome).(string)] *)
Definition appExport (fuel : nat) (home : option string) (height : Z) (forZeroHeight : bool) : option (outcome (ExportedApp Params)) :=
  let export k h := ExportAppStateAndValidators NewAnyWithValue PubKeyFromProto Key_Address genState h params fuel (world k)
                      (ValsetContract_of k) forZeroHeight in
  if decide (default "" home = "") then Some (Err (errors_New "application home is not set"))
  else if height =? -1 then
    match NewPetriApp_loadLatest InitializePinnedCodes code latest with
    | Ok a => export (keepers a) LastBlockHeight
    | Err e => Some (Err e)
    | Panic p => Some (Panic p)
    end
  else
    match LoadVersion height with
    | Ok w => export (mkKState w ∅ []) height
    | Err e => Some (Err e)
    | Panic p => Some (Panic p)
    end.
End export.

(** ** Theorems *)
Section fee_theorems.
Context `{!CoinText R, !CoinAmounts, !CoinTextLaws R}.

Lemma units_registered r0 r :
  registerDenoms r0 = Ok r → unit_of r HumanCoinUnit = Some (NewDec 1) ∧ unit_of r BaseCoinUnit = Some (10 ^ 12).
Proof.
  unfold registerDenoms, panics. intros (r1 & H1 & H2)%outcome_bind_ok.
  destruct (RegisterDenom HumanCoinUnit _ r0) eqn:E1; simplify_eq/=. destruct (RegisterDenom BaseCoinUnit _ r1) eqn:E2; simplify_eq/=.
  apply RegisterDenom_unit in E1 as [E1 _], E2 as [E2 E2']. by rewrite E2' by done.
Qed.

(** C39: The limit on fees compares the amount of furya in the fees with 100, and does not look
    at the gas when fees are given. But once the units of the coin are registered, parsed
    fees are in ufury; and without fees it is the name of the flag for the gas prices
    that is parsed as a price, and that is none. So no fees are ever refused. *)
Theorem fee_limit_ineffective r flags :
  (∀ fees cs, set_flag flags FlagFees = Some fees → sdk_ParseCoinsNormalized r fees = Ok cs →
     areFeesTooHigh r flags = Ok (maxFees <? amount_of HumanCoinUnit cs)) ∧
  (∀ r0, registerDenoms r0 = Ok r → areFeesTooHigh r flags ≠ Ok true).
Proof.
  assert (∀ fees cs, set_flag flags FlagFees = Some fees → sdk_ParseCoinsNormalized r fees = Ok cs →
     areFeesTooHigh r flags = Ok (maxFees <? amount_of HumanCoinUnit cs)) as Hspec.
  { intros fees cs Hf Hp. unfold areFeesTooHigh. rewrite Hf, Hp. cbn [or_false]. by rewrite (parsed_amount _ _ _ Hp). }
  split; [exact Hspec|]. intros r0 [Hh Hb]%units_registered. destruct (set_flag flags FlagFees) as [fees|] eqn:Hf.
  - destruct (sdk_ParseCoinsNormalized r fees) as [cs|e|p] eqn:Hp; [|unfold areFeesTooHigh; rewrite Hf, Hp; done..].
    rewrite (Hspec fees cs eq_refl Hp), (normalized r fees cs HumanCoinUnit BaseCoinUnit _ _ Hp Hh Hb) by done. done.
  - unfold areFeesTooHigh. rewrite Hf. destruct (set_flag flags FlagGas) as [gas|]; [|done]. case_decide; [done|].
    destruct (sdk_ParseUint gas); [|done..]. cbn [or_false]. pose proof (ParseDecCoins_number FlagGasPrices eq_refl) as Hno.
    by destruct (ParseDecCoins FlagGasPrices).
Qed.
End fee_theorems.

Section reset_theorems.
Context {W : Type}.

(** A reset that fails is reported as a success, with the files of the contracts in place. *)
Lemma reset_error_swallowed (serverRunE RemoveWasm : M W ()) c e c' :
  serverRunE c = (Err e, c') → reset_all serverRunE RemoveWasm c = (Ok (), c').
Proof. intros Hr. unfold reset_all, try, mbind, M_bind. by rewrite Hr. Qed.
Lemma reset_removes_wasm (serverRunE RemoveWasm : M W ()) c c' :
  serverRunE c = (Ok (), c') → reset_all serverRunE RemoveWasm c = RemoveWasm c'.
Proof. intros Hr. unfold reset_all, try, mbind, M_bind. by rewrite Hr. Qed.

(** At most one command is changed. *)
Lemma wrap_first_spec name (RemoveWasm : M W ()) cmds cmds' :
  wrap_first name RemoveWasm cmds = Some cmds' ↔
  ∃ l cmd r, cmds = l ++ cmd :: r ∧ Forall (λ x, Cmd_Use x ≠ name) l ∧ Cmd_Use cmd = name ∧
    cmds' = l ++ mkCommand name (reset_all (Cmd_RunE cmd) RemoveWasm) :: r.
Proof.
  revert cmds'. induction cmds as [|cmd cmds IH]; intros cmds'; cbn [wrap_first].
  { split; [done|]. intros (l & cmd & r & He & _). by destruct l. }
  case_decide as E.
  - split; [intros [= <-]; exists [], cmd, cmds; by rewrite E|].
    intros (l & cmd0 & r & He & Hl & Hc & ->). destruct l as [|x l]; [injection He as -> ->; cbn; by rewrite Hc|]. injection He as -> _.
    apply Forall_cons in Hl as [? _]. done.
  - rewrite fmap_Some. setoid_rewrite IH. split.
    + intros (x & (l & cmd0 & r & -> & Hl & Hc & ->) & ->). exists (cmd :: l), cmd0, r. split_and!; try done. by constructor.
    + intros (l & cmd0 & r & He & Hl & Hc & ->). destruct l as [|x l]; [injection He as -> ->; by destruct E|]. injection He as -> ->.
      apply Forall_cons in Hl as [_ Hl]. eexists. split; [by exists l, cmd0, r|done].
Qed.
End reset_theorems.

Section export_theorems.
Context `{!KVStore W, !KVLaws W, !ContractCalls W, !Bech32} {Params : Type}.
Variables (NewAnyWithValue : PubKey → outcome Any) (PubKeyFromProto : TmPubKey → outcome TmPubKey) (Key_Address : TmPubKey → bytes).
Variables (InitializePinnedCodes : W → outcome ()) (code : EmbeddedContracts) (genState : W → outcome json) (params : W → Params).
Variables (LastBlockHeight : Z) (latest : W) (LoadVersion : Z → outcome W).
Local Abbreviation export := (appExport NewAnyWithValue PubKeyFromProto Key_Address InitializePinnedCodes code genState params
  LastBlockHeight latest LoadVersion).

Lemma empty_cache_inv w : registry_ok w → keeper_inv (mkKState w ∅ []).
Proof. intros Hr. split; [exact Hr|]. intros t a Ht. cbn in Ht. by rewrite lookup_empty in Ht. Qed.

Lemma loaded_lookup a t :
  registry_ok latest → t ∈ contract_types → NewPetriApp_loadLatest InitializePinnedCodes code latest = Ok a →
  world (keepers a) = latest ∧ GetPoEContractAddress (keepers a) t = GetPoEContractAddress (mkKState latest ∅ []) t.
Proof.
  intros Hreg Ht Ha. unfold NewPetriApp_loadLatest in Ha. destruct (InitializePinnedCodes latest); [|done..].
  destruct (InitContractAddressCache (mkCtx (mkKState latest ∅ []) [])) as [o c] eqn:Hc. pose proof Hc as Hrun. rewrite init_cache_run in Hrun.
  injection Hrun as <- Hstore. injection Ha as <-. cbn [keepers].
  pose proof (init_cache_inv _ _ _ Hc (empty_cache_inv latest Hreg)) as Hk.
  rewrite (lookup_stored _ t Hk Ht), (lookup_stored _ t (empty_cache_inv latest Hreg) Ht). by subst c.
Qed.
Lemma load_total : is_ok (InitializePinnedCodes latest) = true → ∃ a, NewPetriApp_loadLatest InitializePinnedCodes code latest = Ok a.
Proof.
  intros Hpin. unfold NewPetriApp_loadLatest. destruct (InitializePinnedCodes latest); [|done..]. rewrite init_cache_run. by eexists.
Qed.

(** C19: The export of the last height is the same whether the height is given or not, although the
    address cache of the module is only filled when it is not. Without a home directory and for a height
    that is not in the database nothing is exported. *)
Theorem export_height_agrees fuel home zero :
  registry_ok latest → 0 ≤ LastBlockHeight → is_ok (InitializePinnedCodes latest) = true →
  LoadVersion LastBlockHeight = Ok latest →
  (home ≠ None → home ≠ Some "" → export fuel home (-1) zero = export fuel home LastBlockHeight zero) ∧
  (∀ h, export fuel None h zero = Some (Err (errors_New "application home is not set"))) ∧
  (∀ h e, home ≠ None → home ≠ Some "" → h ≠ -1 → LoadVersion h = Err e → export fuel home h zero = Some (Err e)).
Proof.
  intros Hreg Hh Hpin Hload. split_and!; [|done|].
  - intros Hn He. unfold appExport. rewrite !decide_False by (destruct home as [s|]; cbn; congruence).
    rewrite Z.eqb_refl. destruct (Z.eqb_spec LastBlockHeight (-1)) as [|_]; [lia|]. rewrite Hload.
    destruct (load_total Hpin) as [a Ha]. rewrite Ha.
    destruct (loaded_lookup a PoEContractTypeValset Hreg ltac:(apply (bool_decide_unpack _); vm_compute; done) Ha) as [Hw Hl].
    unfold ValsetContract_of. by rewrite Hw, Hl.
  - intros h e Hn He Hne Hl. unfold appExport. rewrite decide_False by (destruct home as [s|]; cbn; congruence).
    destruct (Z.eqb_spec h (-1)); [done|]. by rewrite Hl.
Qed.
End export_theorems.

(** ** A concrete node *)

(** Two registered units; the fees [200furya] are 200000000 ufury. *)
#[local] Instance Ref_coins : CoinText (gmap string Z) := {
  RegisterDenom d u r := match r !! d with Some _ => Err (new_err "denom already registered") | None => Ok (<[d := u]> r) end;
  unit_of r d := r !! d;
  sdk_ParseCoinsNormalized r s :=
    if decide (s = "200furya") then
      match r !! "ufury" with
      | Some x => if decide (map_Forall (λ _ u, x ≤ u) r) then Ok [mkCoin "ufury" 200000000] else Err (new_err "base")
      | None => if decide (size r = 0%nat) then Ok [mkCoin "furya" 200] else Err (new_err "unit")
      end
    else Err (new_err "invalid decimal coin expression");
  sdk_ParseUint s := match unsigned s with Some z => Ok z | None => Err ErrSyntax end;
  ParseDecCoins s := if starts_coin s then Ok [] else Err (new_err "invalid decimal coin expression");
  DecCoins_AmountOf _ _ := Ok 0;
  MulInt a b := Ok (a * b);
}.
#[local] Instance Ref_coins_laws : CoinTextLaws (gmap string Z).
Proof.
  constructor.
  - intros d u r r'. unfold RegisterDenom, unit_of, Ref_coins. case_match; [done|]. intros [= <-].
    split; [apply lookup_insert_eq|]. intros d' Hd. by apply lookup_insert_ne.
  - intros r s cs d d' u u'. unfold sdk_ParseCoinsNormalized, unit_of, Ref_coins. case_decide; [|done].
    destruct (r !! "ufury") as [x|] eqn:Hu.
    + case_decide as Hall; [|done]. intros [= <-] Hd Hd' Hlt. unfold amount_of. cbn [foldr Denom Amount]. case_decide as E; [|done].
      subst d. rewrite Hu in Hd. injection Hd as ->. specialize (Hall d' u' Hd'). cbn in Hall. lia.
    + case_decide as Hs; [|done]. intros _ Hd. apply map_size_empty_inv in Hs. subst r. done.
  - intros r s cs _. done.
  - intros s Hs. unfold ParseDecCoins, Ref_coins. by rewrite Hs.
Qed.
Definition two_units : gmap string Z := <["ufury" := 10 ^ 12]> (<["furya" := 10 ^ 18]> ∅).
Definition fee_flags (name : string) : outcome string := if decide (name = FlagFees) then Ok "200furya" else Err (new_err "flag").

(** C39: 200 furya are accepted; before the units are registered they are refused. *)
Lemma fee_limit_ineffective_witness :
  registerDenoms ∅ = Ok two_units ∧ areFeesTooHigh two_units fee_flags ≠ Ok true ∧
  areFeesTooHigh (∅ : gmap string Z) fee_flags = Ok true.
Proof.
  assert (registerDenoms (∅ : gmap string Z) = Ok two_units) as Hreg by reflexivity.
  destruct (fee_limit_ineffective two_units fee_flags) as [_ Hno]. specialize (Hno ∅ Hreg).
  destruct (fee_limit_ineffective (∅ : gmap string Z) fee_flags) as [Hspec _].
  split; [exact Hreg|]. split.
  - exact Hno.
  - apply (Hspec "200furya" [mkCoin "furya" 200]); reflexivity.
Defined.

(** A store with the address of the valset contract, and the contract. *)
#[local] Instance RefKV_valset : ContractCalls RefKV := {
  Execute _ _ _ _ := fail_with (new_err "contract");
  QuerySmart _ a q := @QuerySmart _ Ref_named_valset ref_vals a q;
}.
#[local] Instance Plain_addresses : Bech32 := { AccAddressFromBech32 s := Ok s; AccAddress_String a := a }.
Definition valset_store : RefKV := kv_set poe_StoreKey (poeContractAddressKey PoEContractTypeValset) "valset" ∅.
Lemma valset_store_ok : registry_ok valset_store.
Proof.
  assert (keeper_inv (mkKState (∅ : RefKV) ∅ [])) as Hinv.
  { split; [intros s a Ha; cbn in Ha; by rewrite lookup_empty in Ha|]. intros t a Ha. cbn in Ha. by rewrite lookup_empty in Ha. }
  destruct (SetPoEContractAddress PoEContractTypeValset "valset" (mkCtx (mkKState (∅ : RefKV) ∅ []) [])) as [o c] eqn:Hset.
  pose proof Hset as [= <- <-]. eapply set_inv in Hset; [exact (proj1 Hset)| |done|done].
  apply (bool_decide_unpack _). vm_compute. done.
Qed.
Definition node_export (height : Z) : option (outcome (ExportedApp ())) :=
  appExport plain_any Ok (λ _, "addr") (λ _, Ok ()) (mkEmbedded "" "" "" "" "" "" "" "" "") (λ _, Ok (JObj [])) (λ _, ())
    9 valset_store (λ h, if h =? 9 then Ok valset_store else Err (new_err "version does not exist")) 5 (Some "/home") height false.

(** C19: the three validators are exported both ways, and height 10 is not there yet. *)
Lemma export_height_agrees_witness :
  node_export (-1) = node_export 9 ∧ node_export 10 = Some (Err (new_err "version does not exist")) ∧
  (∃ e, node_export 9 = Some (Ok e) ∧ length (Exported_Validators e) = 3%nat ∧ Exported_Height e = 10).
Proof.
  destruct (export_height_agrees plain_any Ok (λ _, "addr") (λ _, Ok ()) (mkEmbedded "" "" "" "" "" "" "" "" "") (λ _, Ok (JObj [])) (λ _, ())
    9 valset_store (λ h, if h =? 9 then Ok valset_store else Err (new_err "version does not exist")) 5 (Some "/home") false
    valset_store_ok ltac:(lia) eq_refl eq_refl) as (Hsame & _ & Herr).
  split; [exact (Hsame ltac:(discriminate) ltac:(discriminate))|].
  split; [exact (Herr 10 (new_err "version does not exist") ltac:(discriminate) ltac:(discriminate) ltac:(discriminate) eq_refl)|].
  eexists. split; [vm_compute; reflexivity|]. split; reflexivity.
Defined.
