(* ===== verification/ModuleGenesis.v ===== *)
(** The genesis functions of the modules' [AppModuleBasic] and [AppModule] (x/twasm/module.go,
    x/poe/module.go, x/globalfee/module.go) and the default genesis of the application.

    A codec for the state of a module is an interface with its law; the states of the modules of the SDK are
    a parameter. *)
From stdpp Require Import base list strings gmap sets sorting.
From Stdlib Require Import ZArith Lia.
From S2P Require Import Prelude Sdk RefStore Slice Json Privilege Wasm TwasmMsgs TwasmKeeper TwasmHandler TwasmGenesis GlobalFee GoTime PoETypes PoEMsgs PoETypesProps PoEKeeper.
Open Scope Z_scope.

(** [codec.JSONCodec] for the genesis state of a module. *)
Class GenesisJSON (A : Type) := { MarshalJSON : A → json; UnmarshalJSON : json → outcome A }.
Class GenesisJSONLaws (A : Type) `{GenesisJSON A} := { genesis_json_roundtrip (a : A) : UnmarshalJSON (MarshalJSON a) = Ok a }.

(** ** twasm *)
Section twasm.
Context `{!WasmGenesis W, !WasmKeeper W, !KVStore W, !WasmVM W, !Bech32, !GenesisJSON GenesisState}.

Definition twasm_DefaultGenesis (DefaultParams : bytes) : json := MarshalJSON (mkGenesis DefaultParams [] [] "" "" [] []).
Definition twasm_ValidateGenesis (message : json) : outcome () :=
  data ← wrap "validate genesis" (UnmarshalJSON message);
  GenesisState_ValidateBasic (W:=W) data.
Definition twasm_ExportGenesis : M W json :=
  gs ← TwasmGenesis.ExportGenesis;
  mret (MarshalJSON gs).
End twasm.

(** ** poe *)
Section poe.
Context `{!KVStore W, !PoEParamStore W, !Bech32, !SdkMath, !GenesisJSON PoEGenesisState}.
Variables (conv : Z → Z) (decode_tx : json_bytes → outcome (list GenMsg)) (Any_String : option Any → string).

(** The bootstrap address of the defaults is random. *)
Definition poe_DefaultGenesis (bootstrap : string) : json := MarshalJSON (DefaultGenesisState bootstrap).
Definition poe_ValidateGenesis (bz : json) : outcome () :=
  data ← match UnmarshalJSON bz with
         | Err e => Err (mkErr (err_root e) ("failed to unmarshal %s genesis state: %w" :: err_msgs e))
         | o => o
         end;
  PoEMsgs.ValidateGenesis conv decode_tx Any_String data.
Definition poe_ExportGenesis (k : KState W) : outcome json :=
  gs ← PoEKeeper.ExportGenesis k;
  Ok (MarshalJSON gs).
End poe.

(** ** globalfee *)
Section globalfee.
Context `{!FeeParams W, !SdkDec, !GenesisJSON (list DecCoin)}.
Definition globalfee_DefaultGenesis : json := MarshalJSON GlobalFee.DefaultParams.
Definition globalfee_ValidateGenesis (message : json) : outcome () := GlobalFee.ValidateGenesis (UnmarshalJSON message).
Definition globalfee_ExportGenesis (w : W) : outcome json :=
  genState ← GlobalFee.ExportGenesis w;
  Ok (MarshalJSON genState).
End globalfee.

(** ** The application *)
Section application.
Context `{!WasmGenesis W, !WasmKeeper W, !KVStore W, !WasmVM W, !Bech32, !SdkMath, !SdkDec,
  !GenesisJSON GenesisState, !GenesisJSON PoEGenesisState, !GenesisJSON (list DecCoin)}.
Variables (conv : Z → Z) (decode_tx : json_bytes → outcome (list GenMsg)) (Any_String : option Any → string).
(** [DefaultGenesis] and [ValidateGenesis] of the modules of the SDK. *)
Variables (others : gmap string json) (other_ValidateGenesis : string → json → outcome ()).

(** [ModuleBasics.DefaultGenesis] *)
Definition NewDefaultGenesisState (wasm_DefaultParams : bytes) (bootstrap : string) : gmap string json :=
  <["wasm" := twasm_DefaultGenesis wasm_DefaultParams]>
  (<["poe" := poe_DefaultGenesis bootstrap]>
  (<["globalfee" := globalfee_DefaultGenesis]> others)).

(** The part of a module of the genesis file, as [validate-genesis] checks it. *)
Definition module_ValidateGenesis (name : string) (message : json) : outcome () :=
  if decide (name = "wasm") then twasm_ValidateGenesis (W:=W) message
  else if decide (name = "poe") then poe_ValidateGenesis conv decode_tx Any_String message
  else if decide (name = "globalfee") then globalfee_ValidateGenesis message
  else other_ValidateGenesis name message.

Context `{!GenesisJSONLaws GenesisState, !GenesisJSONLaws PoEGenesisState, !GenesisJSONLaws (list DecCoin)}.

(** The defaults of twasm and of globalfee are valid; those of poe are refused as long as the engagement
    group is empty. *)
Lemma default_genesis_validity wasm_params bootstrap j :
  wasm_ValidateBasic (RawWasmState (mkGenesis wasm_params [] [] "" "" [] [])) = Ok () →
  DecCoins_Validate [] = Ok () → Coins_Validate [] = Ok () →
  (NewDefaultGenesisState wasm_params bootstrap !! "wasm" = Some j → module_ValidateGenesis "wasm" j = Ok ()) ∧
  (NewDefaultGenesisState wasm_params bootstrap !! "globalfee" = Some j → module_ValidateGenesis "globalfee" j = Ok ()) ∧
  (NewDefaultGenesisState wasm_params bootstrap !! "poe" = Some j →
     ∃ e, module_ValidateGenesis "poe" j = Err e ∧ ErrIs ErrInvalidGenesis e = true).
Proof using All.
  intros Hw Hd Hc. split_and!; unfold NewDefaultGenesisState, module_ValidateGenesis.
  - rewrite lookup_insert_eq. intros [= <-]. rewrite decide_True by done. unfold twasm_ValidateGenesis, twasm_DefaultGenesis.
    rewrite genesis_json_roundtrip. cbn [wrap mbind outcome_bind]. unfold GenesisState_ValidateBasic. rewrite Hw.
    cbn [wrap mbind outcome_bind unique_addresses unique_pinned unique_loop PrivilegedContractAddresses PinnedCodeIDs].
    change (check_extensions _) with (Ok ()). cbn [mbind outcome_bind].
    by rewrite !bool_decide_eq_false_2 by (intros Hx; apply Hx; set_solver).
  - rewrite !lookup_insert_ne, lookup_insert_eq by done. intros [= <-]. rewrite !decide_False, decide_True by done.
    unfold globalfee_ValidateGenesis, globalfee_DefaultGenesis, GlobalFee.ValidateGenesis. rewrite genesis_json_roundtrip.
    change (wrap "params" (DecCoins_Validate []) = Ok ()). by rewrite Hd.
  - rewrite lookup_insert_ne, lookup_insert_eq by done. intros [= <-]. rewrite decide_False, decide_True by done.
    unfold poe_ValidateGenesis, poe_DefaultGenesis. rewrite genesis_json_roundtrip. cbn [mbind outcome_bind].
    unfold PoEMsgs.ValidateGenesis, Params_Validate. change (MinDelegationAmounts _) with (@nil Coin). rewrite Hc.
    eexists. split; reflexivity.
Qed.
End application.
