(* ===== verification/ContractMsgs.v ===== *)
(** The messages and queries of the voting contracts and of the engagement contract (x/poe/contract/voting.go,
    petri_validator_voting.go, petri_ap_voting.go, pt4_engagement.go, pt4.go), as records of optional members with
    their JSON form.

    The lemmas show what a reader gets back: consensus parameters that are proposed are read by the chain as they
    were written, votes and members survive encoding, and the members of a group are sorted the way the contract
    lists them. *)
From stdpp Require Import base list strings gmap sorting.
From Stdlib Require Import ZArith Lia.
From S2P Require Import Prelude Sdk RefStore Slice Json JsonProps Privilege TwasmMsgs Wasm GoTime PoETypes PoEMsgs PoEContractIO PoEAdapters PoEBootstrap.
Open Scope Z_scope.

(** A member of type [*struct{}]. *)
Definition enc_empty (set : bool) : option json := if set then Some (JObj []) else None.
(** A slice: nil is written as null, or left out when it is tagged omitempty and has no elements. *)
Definition enc_slice {A} (enc : A → json) (l : option (list A)) : json :=
  match l with Some l => JArr (enc <$> l) | None => JNull end.
Definition enc_nonempty {A} (enc : A → json) (l : list A) : option json :=
  match l with [] => None | _ => Some (JArr (enc <$> l)) end.

(** ** voting.go *)
Inductive Vote := YesVote | NoVote | AbstainVote | VetoVote.
Definition Vote_value (v : Vote) : string :=
  match v with YesVote => "yes" | NoVote => "no" | AbstainVote => "abstain" | VetoVote => "veto" end.
Inductive ProposalStatus :=
  ProposalStatusPending | ProposalStatusOpen | ProposalStatusRejected | ProposalStatusPassed | ProposalStatusExecuted.
Definition ProposalStatus_value (s : ProposalStatus) : string :=
  match s with
  | ProposalStatusPending => "pending"
  | ProposalStatusOpen => "open"
  | ProposalStatusRejected => "rejected"
  | ProposalStatusPassed => "passed"
  | ProposalStatusExecuted => "executed"
  end.

Definition enc_ProposalID (id : Z) : json := JObj [("proposal_id", JNum id)].

Record ListProposalQuery := mkListProposal { LP_StartAfter : Z; LP_Limit : Z }.
Record VoteQuery := mkVoteQuery { VQ_ProposalID : Z; VQ_Voter : string }.
Record ListVotesQuery := mkListVotes { LV_ProposalID : Z; LV_StartAfter : string; LV_Limit : Z }.
Record ListVotersQuery := mkListVoters { LVs_StartAfter : string; LVs_Limit : Z }.
Record ProposalsQuery := mkProposalsQuery {
  PQ_Rules : bool;
  PQ_Proposal : option Z;
  PQ_ListProposals : option ListProposalQuery;
  PQ_ReverseProposals : option ListProposalQuery;
  PQ_Vote : option VoteQuery;
  PQ_ListVotes : option ListVotesQuery;
  PQ_Voter : option string;
  PQ_ListVoters : option ListVotersQuery;
}.
Definition no_query : ProposalsQuery := mkProposalsQuery false None None None None None None None.

Definition enc_ListProposalQuery (q : ListProposalQuery) : json :=
  enc_omitempty [("start_after", nonzero (LP_StartAfter q)); ("limit", nonzero (LP_Limit q))].
Definition enc_VoteQuery (q : VoteQuery) : json :=
  JObj [("proposal_id", JNum (VQ_ProposalID q)); ("voter", JStr (VQ_Voter q))].
Definition enc_ListVotesQuery (q : ListVotesQuery) : json :=
  enc_omitempty [("proposal_id", Some (JNum (LV_ProposalID q))); ("start_after", nonempty (LV_StartAfter q));
                 ("limit", nonzero (LV_Limit q))].
Definition enc_VoterQuery (address : string) : json := JObj [("address", JStr address)].
Definition enc_ListVotersQuery (q : ListVotersQuery) : json :=
  enc_omitempty [("start_after", nonempty (LVs_StartAfter q)); ("limit", nonzero (LVs_Limit q))].
Definition enc_ProposalsQuery (q : ProposalsQuery) : json :=
  enc_omitempty
    [("rules", enc_empty (PQ_Rules q)); ("proposal", enc_ProposalID <$> PQ_Proposal q);
     ("list_proposals", enc_ListProposalQuery <$> PQ_ListProposals q);
     ("reverse_proposals", enc_ListProposalQuery <$> PQ_ReverseProposals q);
     ("vote", enc_VoteQuery <$> PQ_Vote q); ("list_votes", enc_ListVotesQuery <$> PQ_ListVotes q);
     ("voter", enc_VoterQuery <$> PQ_Voter q); ("list_voters", enc_ListVotersQuery <$> PQ_ListVoters q)].

Record VoteInfo := mkVoteInfo { VoteInfo_Voter : string; VoteInfo_Vote : string; VoteInfo_Weight : Z }.
Record VoterDetail := mkVoterDetail { VoterDetail_Addr : string; VoterDetail_Weight : Z }.
Definition zero_vote : VoteInfo := mkVoteInfo "" "" 0.
Definition dec_VoteInfo : decoder VoteInfo := dec_struct
  [ field "voter" VoteInfo_Voter (λ x '(mkVoteInfo _ b c), mkVoteInfo x b c) dec_string;
    field "vote" VoteInfo_Vote (λ x '(mkVoteInfo a _ c), mkVoteInfo a x c) dec_string;
    field "weight" VoteInfo_Weight (λ x '(mkVoteInfo a b _), mkVoteInfo a b x) dec_uint64 ].
Definition enc_VoteInfo (v : VoteInfo) : json :=
  JObj [("voter", JStr (VoteInfo_Voter v)); ("vote", JStr (VoteInfo_Vote v)); ("weight", JNum (VoteInfo_Weight v))].
Definition dec_VoteListResponse : decoder (list VoteInfo) := dec_struct
  [ field "votes" id (λ x _, x) (dec_list zero_vote dec_VoteInfo) ].
Definition dec_VoteResponse : decoder (option VoteInfo) := dec_struct
  [ field "vote" id (λ x _, x) (dec_ptr zero_vote dec_VoteInfo) ].
Definition dec_VoterResponse : decoder (option Z) := dec_struct [ field "weight" id (λ x _, x) (dec_ptr 0 dec_uint64) ].
Definition dec_VoterDetail : decoder VoterDetail := dec_struct
  [ field "addr" VoterDetail_Addr (λ x v, mkVoterDetail x (VoterDetail_Weight v)) dec_string;
    field "weight" VoterDetail_Weight (λ x v, mkVoterDetail (VoterDetail_Addr v) x) dec_uint64 ].
Definition dec_VoterListResponse : decoder (list VoterDetail) := dec_struct
  [ field "voters" id (λ x _, x) (dec_list (mkVoterDetail "" 0) dec_VoterDetail) ].

(** ** petri_validator_voting.go *)
Record ChainUpgrade := mkChainUpgrade { CU_Name : string; CU_Height : Z; CU_Info : string }.
Record Migration := mkMigration { Migration_Contract : string; Migration_CodeID : Z; MigrateMsg : option bytes }.
Record ValidatorProposal := mkValidatorProposal {
  VP_RegisterUpgrade : option ChainUpgrade;
  VP_CancelUpgrade : bool;
  VP_PinCodes : list Z;
  VP_UnpinCodes : list Z;
  VP_UpdateConsensusBlockParams : option BlockParams;
  VP_UpdateConsensusEvidenceParams : option EvidenceParams;
  VP_MigrateContract : option Migration;
  VP_Text : bool;
}.
Record ValidatorVotingPropose := mkValidatorPropose { VVP_Title : string; VVP_Description : string; VVP_Proposal : ValidatorProposal }.
Record ValidatorVotingExecuteMsg := mkVVExecute {
  VVE_Propose : option ValidatorVotingPropose; VVE_Vote : bool; VVE_Execute : bool }.

Definition enc_ChainUpgrade (u : ChainUpgrade) : json :=
  JObj [("name", JStr (CU_Name u)); ("height", JNum (CU_Height u)); ("info", JStr (CU_Info u))].
Definition enc_BlockParams (p : BlockParams) : json :=
  enc_omitempty [("max_bytes", JNum <$> BP_MaxBytes p); ("max_gas", JNum <$> BP_MaxGas p)].
Definition enc_EvidenceParams (p : EvidenceParams) : json :=
  enc_omitempty [("max_age_num_blocks", JNum <$> EP_MaxAgeNumBlocks p);
    ("max_age_duration", JNum <$> EP_MaxAgeDuration p); ("max_bytes", JNum <$> EP_MaxBytes p)].
Definition enc_ConsensusParamsUpdate (c : ConsensusParamsUpdate) : json :=
  enc_omitempty [("block", enc_BlockParams <$> CPU_Block c); ("evidence", enc_EvidenceParams <$> CPU_Evidence c)].
(** A nil [MigrateMsg] is written as null. *)
Definition enc_Migration (m : Migration) : json :=
  JObj [("contract", JStr (Migration_Contract m)); ("code_id", JNum (Migration_CodeID m));
        ("migrate_msg", default JNull (JStr ∘ b64_encode <$> MigrateMsg m))].
Definition enc_ValidatorProposal (p : ValidatorProposal) : json :=
  enc_omitempty
    [("register_upgrade", enc_ChainUpgrade <$> VP_RegisterUpgrade p); ("cancel_upgrade", enc_empty (VP_CancelUpgrade p));
     ("pin_codes", enc_nonempty JNum (VP_PinCodes p)); ("unpin_codes", enc_nonempty JNum (VP_UnpinCodes p));
     ("update_consensus_block_params", enc_BlockParams <$> VP_UpdateConsensusBlockParams p);
     ("update_consensus_evidence_params", enc_EvidenceParams <$> VP_UpdateConsensusEvidenceParams p);
     ("migrate_contract", enc_Migration <$> VP_MigrateContract p); ("text", enc_empty (VP_Text p))].
Definition enc_ValidatorVotingPropose (p : ValidatorVotingPropose) : json :=
  JObj [("title", JStr (VVP_Title p)); ("description", JStr (VVP_Description p));
        ("proposal", enc_ValidatorProposal (VVP_Proposal p))].
Definition enc_ValidatorVotingExecuteMsg (m : ValidatorVotingExecuteMsg) : json :=
  enc_omitempty [("propose", enc_ValidatorVotingPropose <$> VVE_Propose m); ("vote", enc_empty (VVE_Vote m));
                 ("execute", enc_empty (VVE_Execute m))].

(** ** petri_ap_voting.go *)
Section arbiters.
Context `{!Bech32}.

(** An [sdk.AccAddress] is written as its text. *)
Record ProposeArbiters := mkProposeArbiters { PA_CaseID : Z; PA_Arbiters : option (list AccAddress) }.
Record APProposal := mkAPProposal { APP_Text : bool; APP_ProposeArbiters : option ProposeArbiters }.
Record Propose := mkPropose { Propose_Title : string; Propose_Description : string; Propose_APProposal : APProposal }.
Record RegisterComplaint := mkRegisterComplaint { RC_Title : string; RC_Description : string; RC_Defendant : string }.
Record WithdrawComplaint := mkWithdrawComplaint { WCo_ComplaintID : Z; WCo_Reason : string }.
Record RenderDecision := mkRenderDecision { RD_ComplaintID : Z; RD_Summary : string; RD_IpfsLink : string }.
(** A vote is a proposal and a choice. *)
Record APVotingExecute := mkAPVoting {
  AP_Propose : option Propose;
  AP_Vote : option (Z * Vote);
  AP_Execute : option Z;
  AP_Close : option Z;
  AP_RegisterComplaint : option RegisterComplaint;
  AP_AcceptComplaint : option Z;
  AP_WithdrawComplaint : option WithdrawComplaint;
  AP_RenderDecision : option RenderDecision;
}.

Definition enc_ProposeArbiters (p : ProposeArbiters) : json :=
  JObj [("case_id", JNum (PA_CaseID p)); ("arbiters", enc_slice (JStr ∘ AccAddress_String) (PA_Arbiters p))].
Definition enc_APProposal (p : APProposal) : json :=
  enc_omitempty [("text", enc_empty (APP_Text p)); ("propose_arbiters", enc_ProposeArbiters <$> APP_ProposeArbiters p)].
Definition enc_Propose (p : Propose) : json :=
  JObj [("title", JStr (Propose_Title p)); ("description", JStr (Propose_Description p));
        ("arbiter_pool_proposal", enc_APProposal (Propose_APProposal p))].
Definition enc_VoteProposal (v : Z * Vote) : json :=
  JObj [("proposal_id", JNum v.1); ("vote", JStr (Vote_value v.2))].
Definition enc_RegisterComplaint (c : RegisterComplaint) : json :=
  JObj [("title", JStr (RC_Title c)); ("description", JStr (RC_Description c)); ("defendant", JStr (RC_Defendant c))].
Definition enc_AcceptComplaint (id : Z) : json := JObj [("complaint_id", JNum id)].
Definition enc_WithdrawComplaint (c : WithdrawComplaint) : json :=
  JObj [("complaint_id", JNum (WCo_ComplaintID c)); ("reason", JStr (WCo_Reason c))].
Definition enc_RenderDecision (d : RenderDecision) : json :=
  JObj [("complaint_id", JNum (RD_ComplaintID d)); ("summary", JStr (RD_Summary d)); ("ipfs_link", JStr (RD_IpfsLink d))].
Definition enc_APVotingExecute (m : APVotingExecute) : json :=
  enc_omitempty
    [("propose", enc_Propose <$> AP_Propose m); ("vote", enc_VoteProposal <$> AP_Vote m);
     ("execute", enc_ProposalID <$> AP_Execute m); ("close", enc_ProposalID <$> AP_Close m);
     ("register_complaint", enc_RegisterComplaint <$> AP_RegisterComplaint m);
     ("accept_complaint", enc_AcceptComplaint <$> AP_AcceptComplaint m);
     ("withdraw_complaint", enc_WithdrawComplaint <$> AP_WithdrawComplaint m);
     ("render_decision", enc_RenderDecision <$> AP_RenderDecision m)].
End arbiters.

(** ** pt4_engagement.go *)
Record ListMembersQuery := mkListMembers { LM_StartAfter : string; LM_Limit : Z }.
Record ListMembersByPointsQuery := mkListByPoints { LMP_StartAfter : option ContractMember; LMP_Limit : Z }.
Record MemberQuery := mkMemberQuery { MQ_Addr : string; MQ_AtHeight : Z }.
Record EngagementQuery := mkEngagementQuery {
  EQ_Admin : bool; EQ_TotalPoints : bool;
  EQ_ListMembers : option ListMembersQuery;
  EQ_ListMembersByPoints : option ListMembersByPointsQuery;
  EQ_Member : option MemberQuery;
  EQ_Hooks : bool; EQ_Preauths : bool;
  EQ_WithdrawableRewards : option string;
  EQ_DistributedRewards : bool; EQ_UndistributedRewards : bool;
  EQ_Delegated : option string;
  EQ_Halflife : bool;
  EQ_IsSlasher : option string;
  EQ_ListSlashers : bool; EQ_DistributionData : bool;
  EQ_WithdrawAdjustmentData : option string;
}.
Definition enc_ListMembersQuery (q : ListMembersQuery) : json :=
  enc_omitempty [("start_after", nonempty (LM_StartAfter q)); ("limit", nonzero (LM_Limit q))].
Definition enc_ListMembersByPointsQuery (q : ListMembersByPointsQuery) : json :=
  enc_omitempty [("start_after", enc_ContractMember <$> LMP_StartAfter q); ("limit", nonzero (LMP_Limit q))].
Definition enc_member_at (q : MemberQuery) : json :=
  enc_omitempty [("addr", Some (JStr (MQ_Addr q))); ("at_height", nonzero (MQ_AtHeight q))].
Definition enc_owner (owner : string) : json := JObj [("owner", JStr owner)].
Definition enc_addr (addr : string) : json := JObj [("addr", JStr addr)].
Definition enc_EngagementQuery (q : EngagementQuery) : json :=
  enc_omitempty
    [("admin", enc_empty (EQ_Admin q)); ("total_points", enc_empty (EQ_TotalPoints q));
     ("list_members", enc_ListMembersQuery <$> EQ_ListMembers q);
     ("list_members_by_points", enc_ListMembersByPointsQuery <$> EQ_ListMembersByPoints q);
     ("member", enc_member_at <$> EQ_Member q); ("hooks", enc_empty (EQ_Hooks q)); ("preauths", enc_empty (EQ_Preauths q));
     ("withdrawable_rewards", enc_owner <$> EQ_WithdrawableRewards q);
     ("distributed_rewards", enc_empty (EQ_DistributedRewards q)); ("undistributed_rewards", enc_empty (EQ_UndistributedRewards q));
     ("delegated", enc_owner <$> EQ_Delegated q); ("halflife", enc_empty (EQ_Halflife q));
     ("is_slasher", enc_addr <$> EQ_IsSlasher q); ("list_slashers", enc_empty (EQ_ListSlashers q));
     ("distribution_data", enc_empty (EQ_DistributionData q));
     ("withdraw_adjustment_data", enc_addr <$> EQ_WithdrawAdjustmentData q)].
Definition no_engagement_query : EngagementQuery :=
  mkEngagementQuery false false None None None false false None false false None false None false false None.

Definition dec_SlasherResponse : decoder bool := dec_struct [ field "is_slasher" id (λ x _, x) dec_bool ].
Record WithdrawAdjustmentResponse := mkAdjustment { PointsCorrection : string; WithdrawnFunds : string; WA_Delegated : string }.
Definition dec_WithdrawAdjustmentResponse : decoder WithdrawAdjustmentResponse := dec_struct
  [ field "points_correction" PointsCorrection (λ x '(mkAdjustment _ b c), mkAdjustment x b c) dec_string;
    field "withdrawn_funds" WithdrawnFunds (λ x '(mkAdjustment a _ c), mkAdjustment a x c) dec_string;
    field "delegated" WA_Delegated (λ x '(mkAdjustment a b _), mkAdjustment a b x) dec_string ].

(** [UpdateMembersMsg.ToJSON]: the nil slices. *)
Record UpdateMembersMsg := mkUpdateMembers { UM_Add : option (list ContractMember); UM_Remove : option (list string) }.
Definition enc_UpdateMembersMsg (m : UpdateMembersMsg) : json :=
  JObj [("add", enc_slice enc_ContractMember (UM_Add m)); ("remove", enc_slice JStr (UM_Remove m))].
Definition UpdateMembersMsg_ToJSON (m : UpdateMembersMsg) : json :=
  let m' := match UM_Add m, UM_Remove m with
            | None, r => mkUpdateMembers (Some []) r
            | a, None => mkUpdateMembers a (Some [])
            | _, _ => m
            end in
  JObj [("update_members", enc_UpdateMembersMsg m')].

(** ** pt4.go *)

(** More points first; among members with the same points, by address. *)
Definition heavier (a b : ContractMember) : Prop :=
  CM_Points b < CM_Points a ∨ CM_Points a = CM_Points b ∧ bytes_lt (CM_Addr a) (CM_Addr b).
(** Not less in the order of [sort.Slice], as the negation of [heavier b a]. *)
Definition not_lighter (a b : ContractMember) : Prop :=
  CM_Points b < CM_Points a ∨ CM_Points a = CM_Points b ∧ bytes_le (CM_Addr a) (CM_Addr b).
#[export] Instance heavier_dec : RelDecision heavier.
Proof. intros a b. unfold heavier. apply _. Defined.
#[export] Instance not_lighter_dec : RelDecision not_lighter.
Proof. intros a b. unfold not_lighter. apply _. Defined.

(** [sort.Slice] is not stable: members with equal points and address may come in any order. *)
Definition SortByWeightDesc (s : list ContractMember) : list ContractMember := merge_sort not_lighter s.

(** * Theorems *)

Lemma not_lighter_spec a b : not_lighter a b ↔ ¬ heavier b a.
Proof.
  unfold not_lighter, heavier.
  assert (Hle : bytes_le (CM_Addr a) (CM_Addr b) ↔ ¬ bytes_lt (CM_Addr b) (CM_Addr a)).
  { unfold bytes_le, bytes_lt. rewrite (String.compare_antisym (CM_Addr a)).
    by destruct (String.compare (CM_Addr b) (CM_Addr a)). }
  rewrite Hle. split.
  - intros [?|[? ?]] [?|[? ?]]; done || lia.
  - intros H. destruct (Z.lt_trichotomy (CM_Points a) (CM_Points b)) as [?|[?|?]]; [by destruct H; left| |by left].
    right. split; [done|]. intros ?. by apply H; right.
Qed.
#[export] Instance not_lighter_trans : Transitive not_lighter.
Proof.
  intros a b c [?|[? H]] [?|[? H']]; try (left; lia). right. split; [lia|]. by transitivity (CM_Addr b).
Qed.
#[export] Instance not_lighter_total : Total not_lighter.
Proof.
  intros a b. unfold not_lighter.
  destruct (Z.lt_trichotomy (CM_Points a) (CM_Points b)) as [?|[?|?]]; [tauto| |tauto].
  destruct (total bytes_le (CM_Addr a) (CM_Addr b)); [left|right]; right; split; done || lia.
Qed.

(** The members are only rearranged, and none comes before a heavier one. *)
Lemma SortByWeightDesc_spec s :
  SortByWeightDesc s ≡ₚ s ∧ StronglySorted (λ a b, ¬ heavier b a) (SortByWeightDesc s).
Proof.
  split; [apply merge_sort_Permutation|].
  assert (Hs : StronglySorted not_lighter (SortByWeightDesc s)) by (apply StronglySorted_merge_sort; apply _).
  induction Hs as [|a l _ IH Ha]; constructor; [done|].
  eapply Forall_impl; [exact Ha|]. intros b. apply not_lighter_spec.
Qed.

(** With distinct addresses the result does not depend on the algorithm: every sorted rearrangement is the same. *)
Lemma SortByWeightDesc_unique s l :
  NoDup (CM_Addr <$> s) → l ≡ₚ s → StronglySorted not_lighter l → l = SortByWeightDesc s.
Proof.
  intros Hnd Hp Hs. destruct (SortByWeightDesc_spec s) as [Hp' _].
  eapply (StronglySorted_unique_strong not_lighter); [|done| |by rewrite Hp', Hp].
  - intros a b Ha Hb H1 H2.
    assert (Heq : CM_Addr a = CM_Addr b).
    { destruct H1 as [?|[? Hab]], H2 as [?|[? Hba]]; try lia.
      apply bytes_le_lt_eq in Hab, Hba. destruct Hab as [Hab|]; [|done]. destruct Hba as [Hba|]; [|done].
      exfalso. unfold bytes_lt in *. by rewrite String.compare_antisym, Hab in Hba. }
    rewrite Hp in Ha. rewrite Hp' in Hb. clear -Hnd Ha Hb Heq.
    apply list_elem_of_lookup in Ha as [i Hi], Hb as [j Hj].
    assert (i = j) as ->; [|congruence].
    eapply NoDup_lookup; [exact Hnd| |]; rewrite list_lookup_fmap; [rewrite Hi|rewrite Hj]; cbn; by rewrite ?Heq.
  - apply StronglySorted_merge_sort; apply _.
Qed.

(** Values that fit their fields. *)
Definition BlockParams_fits (p : BlockParams) : Prop := on_ptr (is_s 64) (BP_MaxBytes p) ∧ on_ptr (is_s 64) (BP_MaxGas p).
Definition EvidenceParams_fits (p : EvidenceParams) : Prop :=
  on_ptr (is_s 64) (EP_MaxAgeNumBlocks p) ∧ on_ptr (is_s 64) (EP_MaxAgeDuration p) ∧ on_ptr (is_s 64) (EP_MaxBytes p).

Lemma dec_int64_fits z n : is_s 64 z → dec_int64 (JNum z) n = Ok z.
Proof. unfold dec_int64, dec_int, is_s. intros H. rewrite (proj2 (andb_true_iff _ _)); [done|]. split; lia. Qed.
Lemma dec_uint64_fits z n : is_u 64 z → dec_uint64 (JNum z) n = Ok z.
Proof. unfold dec_uint64, dec_int, is_u. intros H. rewrite (proj2 (andb_true_iff _ _)); [done|]. split; lia. Qed.

(** Parameters that validators propose are read by the chain as they were written: the pointers of the update
    stay nil exactly where they were. *)
Lemma BlockParams_roundtrip p :
  BlockParams_fits p → dec_BlockParams (enc_BlockParams p) (mkBlockParams None None) = Ok p.
Proof.
  destruct p as [mb mg]. intros [Hb Hg]. cbn in Hb, Hg.
  destruct mb as [b|], mg as [g|]; cbv -[dec_int64]; rewrite ?dec_int64_fits by auto; done.
Qed.
Lemma EvidenceParams_roundtrip p :
  EvidenceParams_fits p → dec_EvidenceParams (enc_EvidenceParams p) (mkEvidenceParams None None None) = Ok p.
Proof.
  destruct p as [nb du mb]. intros (Hn & Hd & Hb). cbn in Hn, Hd, Hb.
  destruct nb as [n|], du as [d|], mb as [b|]; cbv -[dec_int64]; rewrite ?dec_int64_fits by auto; cbv -[dec_int64];
    rewrite ?dec_int64_fits by auto; done.
Qed.
Lemma ConsensusParamsUpdate_roundtrip c :
  on_ptr BlockParams_fits (CPU_Block c) → on_ptr EvidenceParams_fits (CPU_Evidence c) →
  dec_ConsensusParamsUpdate (enc_ConsensusParamsUpdate c) (mkCPU None None) = Ok c.
Proof.
  destruct c as [ob oe]. intros Hb He. cbn in Hb, He.
  assert (Hblock : ∀ p, ob = Some p → dec_ptr (mkBlockParams None None) dec_BlockParams (enc_BlockParams p) None = Ok (Some p)).
  { intros p ->. unfold dec_ptr. cbn [default]. rewrite BlockParams_roundtrip by auto. done. }
  assert (Hev : ∀ p, oe = Some p →
            dec_ptr (mkEvidenceParams None None None) dec_EvidenceParams (enc_EvidenceParams p) None = Ok (Some p)).
  { intros p ->. unfold dec_ptr. cbn [default]. rewrite EvidenceParams_roundtrip by auto. done. }
  destruct ob as [b|], oe as [e|];
    cbv -[dec_ptr dec_BlockParams dec_EvidenceParams enc_BlockParams enc_EvidenceParams];
    rewrite ?(Hblock _ eq_refl); cbv -[dec_ptr dec_EvidenceParams enc_EvidenceParams]; rewrite ?(Hev _ eq_refl); done.
Qed.

Lemma VoteInfo_roundtrip v zero : is_u 64 (VoteInfo_Weight v) → dec_VoteInfo (enc_VoteInfo v) zero = Ok v.
Proof.
  destruct v, zero. intros H. cbn in H. cbv -[dec_uint64]. by rewrite dec_uint64_fits.
Qed.
(** The votes of a response, in order. *)
Lemma VoteListResponse_roundtrip vs old :
  Forall (is_u 64 ∘ VoteInfo_Weight) vs →
  dec_VoteListResponse (JObj [("votes", JArr (enc_VoteInfo <$> vs))]) old = Ok vs.
Proof.
  intros Hvs. assert (Hl : dec_elems zero_vote dec_VoteInfo (enc_VoteInfo <$> vs) = Ok vs).
  { induction Hvs as [|v vs Hv _ IH]; cbn [fmap list_fmap dec_elems]; [done|].
    rewrite VoteInfo_roundtrip by done. cbn. by rewrite IH. }
  unfold dec_VoteListResponse, dec_struct. cbv -[dec_elems dec_VoteInfo enc_VoteInfo zero_vote fmap list_fmap].
  by rewrite Hl.
Qed.

(** One of the two nil slices is replaced by an empty one, not both. *)
Lemma ToJSON_nil_slices m :
  UpdateMembersMsg_ToJSON m = JObj [("update_members", JObj
    [("add", JArr (enc_ContractMember <$> default [] (UM_Add m)));
     ("remove", match UM_Add m, UM_Remove m with
                | None, None => JNull
                | _, r => JArr (JStr <$> default [] r)
                end)])].
Proof. by destruct m as [[a|] [r|]]. Qed.

Section queries.
Context `{!ContractCalls W, !Bech32, !SdkMath, !SdkText, !SdkDecimal, !SdkCoins, !ForeignDecoders}.
Implicit Types (w : W).

(** What the adapters ask is a value of the query types. *)
Lemma LatestProposal_query w a :
  LatestProposal w a = (proposals ← wrap "contract query" (adapter_doQuery w a
    (enc_ProposalsQuery (mkProposalsQuery false None None (Some (mkListProposal 0 1)) None None None None))
    dec_OCProposalListResponse []); Ok (head (proposals : list OCProposalResponse))).
Proof. done. Qed.
Lemma QueryProposal_query w a id :
  QueryProposal w a id = wrap "contract query" (adapter_doQuery w a
    (enc_ProposalsQuery (mkProposalsQuery false (Some id) None None None None None None)) dec_OCProposalResponse zero_proposal).
Proof. done. Qed.
End queries.
