(* ===== verification/CollectCmd.v ===== *)
(** The command [collect-gentxs] (x/poe/client/cli/genutil_collect.go): the collection of GenTxCollect.v around
    the files of a node, and what is printed.

    The file system is a function from paths to directories; the key and genesis files are read by functions of the
    SDK and of Tendermint, which are parameters. [filepath.Join] is modelled for Unix paths. *)
From stdpp Require Import base list strings gmap sets sorting.
From Stdlib Require Import ZArith Lia Ascii.
From S2P Require Import Prelude Sdk RefStore Slice Json Privilege Wasm GoTime PoETypes TwasmMsgs PoEMsgs GenTxCollect.
Open Scope Z_scope.

(** ** path/filepath *)

(** The elements of a path; the last one is the text after the last separator. *)
Fixpoint split_path (s : string) : list string :=
  match s with
  | "" => [""]
  | String a s' =>
      if decide (a = "/"%char) then "" :: split_path s'
      else match split_path s' with
           | e :: es => String a e :: es
           | [] => [String a ""]
           end
  end.
Fixpoint join_path (es : list string) : string :=
  match es with
  | [] => ""
  | [e] => e
  | e :: es' => e +:+ "/" +:+ join_path es'
  end.
(** One element on the stack of elements that are kept, the last one first. *)
Definition clean_step (rooted : bool) (stack : list string) (e : string) : list string :=
  if decide (e = "" ∨ e = ".") then stack
  else if decide (e = "..") then
    match stack with
    | top :: rest => if decide (top = "..") then e :: stack else rest
    | [] => if rooted then [] else [e]
    end
  else e :: stack.
Definition filepath_Clean (p : string) : string :=
  let rooted := match p with String "/" _ => true | _ => false end in
  let body := join_path (reverse (foldl (clean_step rooted) [] (split_path p))) in
  if rooted then "/" +:+ body else if decide (body = "") then "." else body.
Definition filepath_Join (es : list string) : string :=
  match filter (λ e, e ≠ "") es with
  | [] => ""
  | es' => filepath_Clean (join_path es')
  end.

(** ** The command *)
Record printInfo := mkPrintInfo {
  Info_Moniker : string; Info_ChainID : string; Info_NodeID : string; Info_GenTxsDir : string;
  Info_AppMessage : json }.
Definition newPrintInfo (moniker chainID nodeID genTxsDir : string) (appMessage : json) : printInfo :=
  mkPrintInfo moniker chainID nodeID genTxsDir appMessage.

(** The printed object; [MustSortJSON] sorts the members of every object by name. *)
Definition displayInfo (sort_members : json → json) (info : printInfo) : json :=
  JObj [("app_message", sort_members (Info_AppMessage info)); ("chain_id", JStr (Info_ChainID info));
        ("gentxs_dir", JStr (Info_GenTxsDir info)); ("moniker", JStr (Info_Moniker info));
        ("node_id", JStr (Info_NodeID info))].

(** An empty flag stands for the directory of the node. *)
Definition genTxsDir_of (rootDir genTxDir : string) : string :=
  if decide (genTxDir = "") then filepath_Join [rootDir; "config"; "gentx"] else genTxDir.

Section command.
Context `{!CoinAmounts, !Bech32} {Tx PubKeyT : Type}.
Variables (txJSONDecoder : bytes → outcome Tx) (GetMemo : Tx → option string) (GetMsgs : Tx → list GenMsg)
  (IterateGenesisBalances : gmap string json → outcome (list (AccAddress * list Coin)))
  (txJSONEncoder : Tx → outcome json_bytes) (genesisState : gmap string json → outcome PoEGenesisState)
  (exportGenesisFile : PoEGenesisState → outcome ()) (marshal : PoEGenesisState → json) (sort_members : json → json).

(** The peers for the configuration, and what is printed. The document is its chain id and its state. *)
Definition CollectGenTxsCmd (InitializeNodeValidatorFiles : outcome (string * PubKeyT))
    (GenesisDocFromFile : outcome (string * json_bytes)) (flagGenTxDir : outcome string)
    (rootDir moniker : string) (ReadDir : string → outcome (list FileInfo)) : option string * outcome json :=
  match (node ← wrap "failed to initialize node validator files" InitializeNodeValidatorFiles;
         genDoc ← wrap "failed to read genesis doc from file" GenesisDocFromFile;
         genTxDir ← wrap "failed to read %q flag" flagGenTxDir;
         Ok (node.1, genDoc, genTxsDir_of rootDir genTxDir)) with
  | Ok (nodeID, genDoc, genTxsDir) =>
      let r := AddGenTxsToGenesisFile txJSONDecoder GetMemo GetMsgs IterateGenesisBalances txJSONEncoder genesisState
                 exportGenesisFile genDoc.2 moniker (ReadDir genTxsDir) in
      (r.1,
       appMessage ← wrap "failed to get genesis app state from config" r.2;
       Ok (displayInfo sort_members (newPrintInfo moniker genDoc.1 nodeID genTxsDir (marshal appMessage))))
  | Err e => (None, Err e)
  | Panic p => (None, Panic p)
  end.
End command.

(** * Theorems *)

Example join_clean : filepath_Join ["/home/a/"; "config"; "gentx"] = "/home/a/config/gentx".
Proof. reflexivity. Qed.
Example join_dots : filepath_Join ["./x/../y"; "config"; "gentx"] = "y/config/gentx".
Proof. reflexivity. Qed.

(** Elements that stay: neither empty nor a dot, and without a separator. *)
Definition plain_element (e : string) : Prop := e ≠ "" ∧ e ≠ "." ∧ e ≠ ".." ∧ split_path e = [e].

Lemma clean_plain rooted es stack :
  Forall plain_element es → foldl (clean_step rooted) stack es = reverse es ++ stack.
Proof.
  intros Hes. revert stack. induction Hes as [|e es (H1 & H2 & H3 & _) _ IH]; intros stack; [done|].
  cbn [foldl]. rewrite IH. unfold clean_step. rewrite decide_False by (by intros [?|?]). rewrite decide_False by done.
  by rewrite reverse_cons, <-app_assoc.
Qed.

Lemma split_path_app e s : split_path e = [e] → split_path (e +:+ "/" +:+ s) = e :: split_path s.
Proof.
  induction e as [|a e IH]; [done|]. intros He.
  change (split_path (String a e +:+ "/" +:+ s)) with
    (if decide (a = "/"%char) then "" :: split_path (e +:+ "/" +:+ s)
     else match split_path (e +:+ "/" +:+ s) with e' :: es => String a e' :: es | [] => [String a ""] end).
  cbn [split_path] in He. destruct (decide (a = "/"%char)); [by destruct (split_path e)|].
  destruct (split_path e) as [|e' es] eqn:Hs; [by destruct e; [done|]; cbn in Hs; destruct (decide _);
    [done|destruct (split_path e)]|].
  injection He as -> ->. by rewrite IH.
Qed.
Lemma split_join es : es ≠ [] → Forall plain_element es → split_path (join_path es) = es.
Proof.
  intros Hne Hes. induction Hes as [|e es (_ & _ & _ & He) Hes IH]; [done|].
  destruct es as [|e' es]; [done|]. change (join_path (e :: e' :: es)) with (e +:+ "/" +:+ join_path (e' :: es)).
  rewrite split_path_app by done. by rewrite IH.
Qed.

(** A clean absolute path is left alone. *)
Lemma Clean_absolute es :
  es ≠ [] → Forall plain_element es → filepath_Clean ("/" +:+ join_path es) = "/" +:+ join_path es.
Proof.
  intros Hne Hes. unfold filepath_Clean. change ("/" +:+ join_path es) with (String "/" (join_path es)).
  cbn [split_path]. rewrite decide_True by done. rewrite split_join by done. cbn [foldl].
  unfold clean_step at 2. rewrite decide_True by by left. rewrite clean_plain by done.
  by rewrite app_nil_r, reverse_involutive.
Qed.

Lemma append_assoc (a b c : string) : (a +:+ b) +:+ c = a +:+ (b +:+ c).
Proof. induction a as [|x a IH]; [done|]. change (String x ((a +:+ b) +:+ c) = String x (a +:+ (b +:+ c))). by rewrite IH. Qed.
Lemma join_path_app es es' : es ≠ [] → es' ≠ [] → join_path (es ++ es') = join_path es +:+ "/" +:+ join_path es'.
Proof.
  intros Hne Hne'. induction es as [|e es IH]; [done|]. destruct es as [|f es].
  - by destruct es'.
  - change (join_path ((e :: f :: es) ++ es')) with (e +:+ "/" +:+ join_path ((f :: es) ++ es')).
    rewrite IH by done. change (join_path (e :: f :: es)) with (e +:+ "/" +:+ join_path (f :: es)).
    by rewrite !append_assoc.
Qed.

(** The default directory lies below a clean absolute root. *)
Lemma default_dir es :
  es ≠ [] → Forall plain_element es →
  genTxsDir_of ("/" +:+ join_path es) "" = "/" +:+ join_path es +:+ "/config/gentx".
Proof.
  intros Hne Hes. unfold genTxsDir_of, filepath_Join. rewrite decide_True by done.
  rewrite filter_cons_True by done. cbn [filter list_filter]. rewrite !decide_True by done.
  change (join_path ["/" +:+ join_path es; "config"; "gentx"]) with ("/" +:+ (join_path es +:+ "/" +:+ join_path ["config"; "gentx"])).
  rewrite <-join_path_app, Clean_absolute by (done || (try by destruct es) || (apply Forall_app; split; [done|]; repeat constructor; done)).
  by rewrite join_path_app.
Qed.

Section theorems.
Context `{!CoinAmounts, !CoinAmountsLaws, !Bech32} {Tx PubKeyT : Type}.
Variables (txJSONDecoder : bytes → outcome Tx) (GetMemo : Tx → option string) (GetMsgs : Tx → list GenMsg)
  (iterate : gmap string json → outcome (list (AccAddress * list Coin)))
  (enc : Tx → outcome json_bytes) (genesis : gmap string json → outcome PoEGenesisState)
  (save : PoEGenesisState → outcome ()) (marshal : PoEGenesisState → json) (sort_members : json → json).

(** What is printed is the state that was saved, and every transaction of the chosen directory that is not skipped
    is funded. *)
Lemma CollectGenTxsCmd_ok nodeID (pk : PubKeyT) chainID j st l gs dir root moniker ReadDir fos peers out :
  dec_raw_map j = Ok st → iterate st = Ok l → genesis st = Ok gs → ReadDir (genTxsDir_of root dir) = Ok fos →
  CollectGenTxsCmd txJSONDecoder GetMemo GetMsgs iterate enc genesis save marshal sort_members
    (Ok (nodeID, pk)) (Ok (chainID, JText j)) (Ok dir) root moniker ReadDir = (Some peers, Ok out) →
  ∃ es s bz, es ≠ [] ∧
    Forall2 (funded_file txJSONDecoder GetMemo GetMsgs (balances_map l)) (filter (λ fo, skipped fo = false) fos) es ∧
    GetSeedContracts gs = Some s ∧ encode_txs enc (entry_tx <$> es) = Ok bz ∧
    let gs' := mkPoEGenesis (GS_Params gs) (GenesisState_SeedContracts (Some (with_gentxs s bz))) in
    save gs' = Ok () ∧
    out = displayInfo sort_members (mkPrintInfo moniker chainID nodeID (genTxsDir_of root dir) (marshal gs')).
Proof.
  intros Hst Hl Hgs Hdir. unfold CollectGenTxsCmd. cbn [wrap mbind outcome_bind fst snd]. rewrite Hdir.
  destruct (AddGenTxsToGenesisFile _ _ _ _ _ _ _ _ _ _) as [ps [g|e|p]] eqn:Ha; cbn; [|done..].
  intros [= -> <-]. apply (AddGenTxs_ok _ _ _ iterate enc genesis save j st fos l gs moniker g peers Hst Hl Hgs)
    in Ha as (es & s & bz & ? & ? & ? & ? & -> & ? & _).
  by exists es, s, bz.
Qed.
End theorems.
