(* ===== verification/Simulation.v ===== *)
(** The messages that the simulator of the SDK is given (x/poe/simulation/operations.go).

    A generator of random numbers is state; the random functions of the SDK are an interface with laws for
    the ranges they document. The chain is only read: what an operation decides is a value, a message with the account
    that signs it or the reason for none, and the delivery is the SDK's. *)
From stdpp Require Import base list strings gmap.
From Stdlib Require Import ZArith Lia.
From S2P Require Import Prelude ProgramLogic Sdk RefStore Slice Json Privilege TwasmMsgs Wasm GoTime PoETypes PoEMsgs PoEKeeper PoEContractIO PoEValset PoEAdapters PoEServer PoEQueries GenTxCollect GenAccounts.
Open Scope Z_scope.

(** [simtypes.Account]: the private key may be missing. *)
Record SimAccount := mkSimAccount { Sim_Address : AccAddress; Sim_PrivKey : option bytes; Sim_ConsKey : option bytes }.

Class SimRand (R : Type) := {
  (** [simtypes.RandomAcc] panics without accounts. *)
  RandomAcc : list SimAccount → M R SimAccount;
  RandPositiveInt : Int → M R Z;
  RandomFees : list Coin → M R (list Coin);
  RandStringOfLength : nat → M R string;
  (** [rand.Intn] of the generator the process shares *)
  Intn : Z → M R Z;
}.
Class SimCoins := {
  (** [Coins.SafeSub]: the difference, and whether an amount is negative. *)
  SafeSub : list Coin → list Coin → outcome (list Coin * bool);
}.
Class SimBank (W : Type) := {
  GetBalance : W → AccAddress → string → WireCoin;
  SpendableCoins : W → AccAddress → list Coin;
}.

(** The messages, and what is handed to the SDK to deliver one. *)
Inductive SimMsg :=
  | SimCreateValidator (msg : MsgCreateValidator)
  | SimUpdateValidator (msg : MsgUpdateValidator)
  | SimDelegate (msg : MsgDelegate)
  | SimUndelegate (msg : MsgUndelegate).
Definition SimMsg_Type (m : SimMsg) : string :=
  match m with
  | SimCreateValidator _ => TypeMsgCreateValidator
  | SimUpdateValidator _ => TypeMsgUpdateValidator
  | SimDelegate _ => TypeMsgDelegate
  | SimUndelegate _ => TypeMsgUndelegate
  end.
Record OperationInput := mkInput {
  OI_Msg : SimMsg; OI_MsgType : string; OI_SimAccount : SimAccount; OI_ModuleName : string; CoinsSpentInMsg : list Coin }.
Inductive Operation :=
  | NoOpMsg (route name comment : string)
  | GenAndDeliverTx (txCtx : OperationInput) (fees : list Coin)
  | GenAndDeliverTxWithRandFees (txCtx : OperationInput).
(** The operation and the error that is returned with it. *)
Definition OpResult : Type := Operation * option error.

Definition PoEModuleName : string := "poe".
Definition BuildOperationInput (msg : SimMsg) (simAccount : SimAccount) (deposit : list Coin) : OperationInput :=
  mkInput msg (SimMsg_Type msg) simAccount PoEModuleName deposit.

(** [simtypes.FindAccount] *)
Definition FindAccount (accs : list SimAccount) (address : AccAddress) : option SimAccount :=
  snd <$> list_find (λ a, Sim_Address a = address) accs.

Section operations.
Context `{!SimRand R, !SimCoins, !CoinAmounts, !CoinTypes, !SdkCoins, !SdkMath, !Bech32, !ContractCalls W, !KVStore W,
  !SdkText, !SdkDecimal, !ForeignDecoders, !SimBank W}.
Variables (NewAnyWithValue : PubKey → outcome Any) (NewAnyOfKey : bytes → outcome Any).
(** The text of an error. *)
Variable Error : error → string.
Implicit Types (k : KState W).

(** [if err != nil { return NoOpMsg(...), nil, err }] *)
Definition or_noop {A} (o : M R A) (on_err : error → OpResult) (f : A → M R OpResult) : M R OpResult := λ c,
  match o c with
  | (Ok a, c') => f a c'
  | (Err e, c') => (Ok (on_err e), c')
  | (Panic p, c') => (Panic p, c')
  end.
Definition noop (name comment : string) : OpResult := (NoOpMsg PoEModuleName name comment, None).
Definition noop_err (name comment : string) (e : error) : OpResult := (NoOpMsg PoEModuleName name comment, Some e).
(** A coin as a field of a message. *)
Definition wire (c : Coin) : WireCoin := mkWCoin (Denom c) (Some (Amount c)).

(** An error is built from the text of [err], which is nil when there are just no validators. *)
Definition getRandValidator k : M R (StakingValidator * AccAddress) :=
  match ListValidators NewAnyWithValue (world k) (ValsetContract_of k) None with
  | Ok ([], _) => panic "invalid memory address or nil pointer dereference"
  | Ok (validators, _) =>
      i ← Intn (Z.of_nat (length validators));
      val ← lift (match validators !! Z.to_nat i with Some v => Ok v | None => Panic "index out of range" end);
      valAddr ← lift (AccAddressFromBech32 (SV_OperatorAddress val));
      mret (val, valAddr)
  | Err e => fail_with (new_err "cannot fetch validator list: %s")
  | Panic p => panic p
  end.

Definition random_description : M R StakingDescription :=
  moniker ← RandStringOfLength 10;
  identity ← RandStringOfLength 10;
  website ← RandStringOfLength 10;
  contact ← RandStringOfLength 10;
  details ← RandStringOfLength 10;
  mret (mkDescription moniker identity ("https://" +:+ website) contact details).

(** The guards on the balance, the amount and the fees are the same for two operations, the name in one answer apart. *)
Definition delegation_amount k (name : string) (addr : AccAddress)
    (f : Coin → list Coin → M R OpResult) : M R OpResult :=
  let denom := GetBondDenom in
  let balance := GetBalance (world k) addr denom in
  bad ← lift (nil_or (WCoin_Amount balance) (p ← Int_IsPositive (WCoin_Amount balance); Ok (negb p)));
  if (bad : bool) then mret (noop name "balance is negative")
  else
    spendable ← lift (Coins_AmountOf (SpendableCoins (world k) addr) denom);
    positive ← lift (Int_IsPositive spendable);
    if negb positive then mret (noop TypeMsgDelegate "spendable coins amount is negative")
    else or_noop (RandPositiveInt spendable) (noop_err name "unable to generate positive amount") (λ amount,
      selfDelegation ← lift (NewSdkCoin denom (Some amount));
      all ← lift (NewSdkCoin denom spendable);
      allCoins ← lift (NewCoins [all]);
      diff ← lift (SafeSub allCoins [selfDelegation]);
      if (diff.2 : bool) then f selfDelegation []
      else or_noop (RandomFees diff.1) (noop_err name "unable to generate fees") (f selfDelegation)).

Definition SimulateMsgCreateValidator k (accs : list SimAccount) : M R OpResult :=
  simAccount ← RandomAcc accs;
  let address := Sim_Address simAccount in
  or_noop (lift (QueryValidator NewAnyWithValue (world k) (ValsetContract_of k) address))
    (λ e, noop_err TypeMsgCreateValidator (Error e) e) (λ found,
  match found with
  | Some _ => mret (noop TypeMsgCreateValidator "validator exists")
  | None =>
      delegation_amount k TypeMsgCreateValidator address (λ selfDelegation fees,
        description ← random_description;
        vesting ← lift (NewSdkCoin GetBondDenom (Some 0));
        (* the message is nil when it could not be made, and its type is asked for *)
        match NewMsgCreateValidator NewAnyOfKey address (Sim_ConsKey simAccount) (wire selfDelegation) (wire vesting) description with
        | Ok msg => mret (GenAndDeliverTx (BuildOperationInput (SimCreateValidator msg) simAccount []) fees, None)
        | Err _ => panic "invalid memory address or nil pointer dereference"
        | Panic p => panic p
        end)
  end).

Definition validator_not_found (name : string) : OpResult :=
  noop_err name "unable to find account" (new_err "validator %s not found").

Definition SimulateMsgUpdateValidator k (accs : list SimAccount) : M R OpResult :=
  or_noop (getRandValidator k) (noop_err TypeMsgUpdateValidator "cannot fetch random validator") (λ v,
  match FindAccount accs v.2 with
  | None => mret (validator_not_found TypeMsgUpdateValidator)
  | Some simAccount =>
      description ← random_description;
      mret (GenAndDeliverTxWithRandFees
        (BuildOperationInput (SimUpdateValidator (NewMsgUpdateValidator v.2 description)) simAccount []), None)
  end).

Definition SimulateMsgDelegate k (accs : list SimAccount) : M R OpResult :=
  or_noop (getRandValidator k) (noop_err TypeMsgDelegate "cannot fetch random validator") (λ v,
  match FindAccount accs v.2 with
  | None => mret (validator_not_found TypeMsgDelegate)
  | Some simAccount =>
      delegation_amount k TypeMsgDelegate (Sim_Address simAccount) (λ selfDelegation fees,
        vesting ← lift (NewSdkCoin GetBondDenom (Some 0));
        mret (GenAndDeliverTx
          (BuildOperationInput (SimDelegate (NewMsgDelegate (Sim_Address simAccount) (wire selfDelegation) (wire vesting))) simAccount []) fees, None))
  end).

Definition SimulateMsgUndelegate k (accs : list SimAccount) : M R OpResult :=
  or_noop (getRandValidator k) (noop_err TypeMsgUndelegate "cannot fetch random validator") (λ v,
  match StakedAmount (world k) (StakeContract_of k) v.2 with
  | Ok (Some delegated) =>
      or_noop (RandPositiveInt (Some delegated)) (noop_err TypeMsgUndelegate "invalid unbond amount") (λ unbondAmt,
      if unbondAmt =? 0 then mret (noop TypeMsgUndelegate "unbond amount is zero")
      else
        amount ← lift (NewSdkCoin GetBondDenom (Some unbondAmt));
        let msg := NewMsgUndelegate v.2 (wire amount) in
        match FindAccount accs v.2 with
        | None => mret (noop_err TypeMsgUndelegate "unable to find account" (new_err "delegator %s not found"))
        | Some simAccount =>
            if Sim_PrivKey simAccount is Some _ then
              mret (GenAndDeliverTxWithRandFees (BuildOperationInput (SimUndelegate msg) simAccount []), None)
            else mret (noop_err TypeMsgUndelegate "account private key is nil"
                         (new_err "delegation addr: %s does not exist in simulation accounts"))
        end)
  | Ok None | Err _ => mret (noop TypeMsgUndelegate "validator does not have any delegation entries")
  | Panic p => panic p
  end).

(** ** Weights *)

(** [AppParams.GetOrGenerate] for a number: what the parameters have, or else the default. *)
Definition GetOrGenerate (appParams : gmap string Z) (key : string) (default_weight : Z) : Z :=
  default default_weight (appParams !! key).

Definition OpWeightMsgCreateValidator : string := "op_weight_msg_create_validator".
Definition OpWeightMsgUpdateValidator : string := "op_weight_msg_update_validator".
Definition OpWeightMsgDelegate : string := "op_weight_msg_delegate".
Definition OpWeightMsgUndelegate : string := "op_weight_msg_undelegate".
Definition DefaultWeightMsgCreateValidator : Z := 100.
Definition DefaultWeightMsgUpdateValidator : Z := 10.
Definition DefaultWeightMsgDelegate : Z := 200.
Definition DefaultWeightMsgUndelegate : Z := 50.

Definition WeightedOperations (appParams : gmap string Z) k : list (Z * (list SimAccount → M R OpResult)) :=
  [(GetOrGenerate appParams OpWeightMsgCreateValidator DefaultWeightMsgCreateValidator, SimulateMsgCreateValidator k);
   (GetOrGenerate appParams OpWeightMsgUpdateValidator DefaultWeightMsgUpdateValidator, SimulateMsgUpdateValidator k);
   (GetOrGenerate appParams OpWeightMsgDelegate DefaultWeightMsgDelegate, SimulateMsgDelegate k);
   (GetOrGenerate appParams OpWeightMsgUndelegate DefaultWeightMsgUndelegate, SimulateMsgUndelegate k)].
End operations.

(** * Theorems *)

(** The documented ranges. *)
Class SimRandLaws (R : Type) `{SimRand R} := {
  RandomAcc_in accs : returns (λ a, a ∈ accs) (RandomAcc accs);
  (** From one to the maximum; an [sdk.Int] has at most 256 bits. *)
  RandPositiveInt_range max : returns (λ a, ∃ m, max = Some m ∧ 1 ≤ a ≤ m ∧ a < 2 ^ 256) (RandPositiveInt max);
  (** Fees are taken from what is there. *)
  RandomFees_affordable coins :
    returns (λ fees, ∀ d, 0 ≤ amount_of d fees ≤ Z.max 0 (amount_of d coins)) (RandomFees coins);
  RandStringOfLength_length n : returns (λ s, String.length s = n) (RandStringOfLength n);
}.
Class SimCoinsLaws `{SimCoins, CoinTypes, SdkCoins, SdkMath} := {
  NewSdkCoin_ok d a c :
    NewSdkCoin d a = Ok c → ∃ n, a = Some n ∧ c = mkCoin d n ∧ 0 ≤ n ∧ ValidateDenom d = Ok ();
  NewCoins_amount cs r d : NewCoins cs = Ok r → amount_of d r = amount_of d cs;
  SafeSub_amount a b r d : SafeSub a b = Ok (r, false) → amount_of d r = amount_of d a - amount_of d b;
}.

(** When the random functions and the coins return. *)
Class SimRunLaws (R : Type) `{SimRand R, SimCoins, CoinTypes, SdkCoins, SdkMath} := {
  RandomAcc_total accs c : accs ≠ [] → ∃ a c', RandomAcc accs c = (Ok a, c');
  (** An error for a maximum that is not positive. *)
  RandPositiveInt_quiet m c : is_panic (RandPositiveInt (Some m) c).1 = false;
  RandomFees_quiet coins c : Forall (λ x, 0 ≤ Amount x) coins → is_panic (RandomFees coins c).1 = false;
  RandStringOfLength_total n c : ∃ s c', RandStringOfLength n c = (Ok s, c');
  Intn_total n c : 0 < n → ∃ i c', Intn n c = (Ok i, c') ∧ 0 ≤ i < n;
  NewSdkCoin_total d n : 0 ≤ n → ValidateDenom d = Ok () → is_ok (NewSdkCoin d (Some n)) = true;
  NewCoins_single d n : 0 ≤ n → ValidateDenom d = Ok () → is_ok (NewCoins [mkCoin d n]) = true;
  SafeSub_single d n m r : NewCoins [mkCoin d n] = Ok r → 0 ≤ m ≤ n → is_ok (SafeSub r [mkCoin d m]) = true;
  SafeSub_nonneg a b r : SafeSub a b = Ok (r, false) → Forall (λ x, 0 ≤ Amount x) r;
}.

Lemma returns_or_noop {W} {A} (P : A → Prop) (Q : OpResult → Prop) (m : M W A) on_err f :
  returns P m → (∀ e, Q (on_err e)) → (∀ a, P a → returns Q (f a)) → returns Q (or_noop m on_err f).
Proof.
  intros Hm He Hf c b c'. unfold or_noop. destruct (m c) as [[a|e|p] c1] eqn:Hrun; [|by intros [= <- _]|done].
  apply Hf. by eapply Hm.
Qed.

(** ** Every message that is delivered is valid and paid for *)
Section validity.
Context `{!SimRand R, !SimRandLaws R, !SimCoins, !CoinAmounts, !CoinTypes, !SdkCoins, !SdkMath, !SdkMathLaws, !SimCoinsLaws,
  !Bech32, !Bech32Laws, !ContractCalls W, !KVStore W, !SdkText, !SdkDecimal, !ForeignDecoders, !SimBank W}.
Variables (NewAnyWithValue : PubKey → outcome Any) (NewAnyOfKey : bytes → outcome Any) (Error : error → string).
Implicit Types (k : KState W).

Definition SimMsg_ValidateBasic (m : SimMsg) : outcome () :=
  match m with
  | SimCreateValidator msg => MsgCreateValidator_ValidateBasic msg
  | SimUpdateValidator msg => MsgUpdateValidator_ValidateBasic msg
  | SimDelegate msg => MsgDelegate_ValidateBasic msg
  | SimUndelegate msg => MsgUndelegate_ValidateBasic msg
  end.
Definition SimMsg_operator (m : SimMsg) : string :=
  match m with
  | SimCreateValidator msg => CV_OperatorAddress msg
  | SimUpdateValidator msg => UV_OperatorAddress msg
  | SimDelegate msg => MD_OperatorAddress msg
  | SimUndelegate msg => MU_OperatorAddress msg
  end.
(** What the message takes from the account. *)
Definition SimMsg_spends (m : SimMsg) : Z :=
  match m with
  | SimCreateValidator msg => default 0 (WCoin_Amount (CV_Amount msg)) + default 0 (WCoin_Amount (CV_VestingAmount msg))
  | SimDelegate msg => default 0 (WCoin_Amount (MD_Amount msg)) + default 0 (WCoin_Amount (MD_VestingAmount msg))
  | _ => 0
  end.

(** Accounts as the simulator makes them. *)
Definition sim_accounts (accs : list SimAccount) : Prop :=
  ∀ a, a ∈ accs → Sim_Address a ≠ "" ∧ (String.length (Sim_Address a) ≤ 255)%nat ∧ is_Some (Sim_ConsKey a).

(** The message is valid and signed by one of the accounts. *)
Definition well_formed (accs : list SimAccount) (i : OperationInput) : Prop :=
  OI_SimAccount i ∈ accs ∧ SimMsg_ValidateBasic (OI_Msg i) = Ok () ∧
  GetSigners (SimMsg_operator (OI_Msg i)) = Ok [Sim_Address (OI_SimAccount i)] ∧
  OI_MsgType i = SimMsg_Type (OI_Msg i).
(** The account can pay the message and the fees, which are in the same denom. *)
Definition affordable k (i : OperationInput) (fees : list Coin) : Prop :=
  ∃ s, Coins_AmountOf (SpendableCoins (world k) (Sim_Address (OI_SimAccount i))) GetBondDenom = Ok (Some s) ∧
    0 < SimMsg_spends (OI_Msg i) ∧ SimMsg_spends (OI_Msg i) + amount_of GetBondDenom fees ≤ s ∧
    ∀ d, d ≠ GetBondDenom → amount_of d fees = 0.
(** Not more is undelegated than the contract reports. *)
Definition covered k (i : OperationInput) : Prop :=
  match OI_Msg i with
  | SimUndelegate msg => ∃ staked n, StakedAmount (world k) (StakeContract_of k) (Sim_Address (OI_SimAccount i)) = Ok (Some staked) ∧
      MU_Amount msg = mkWCoin GetBondDenom (Some n) ∧ 0 < n ≤ staked
  | _ => True
  end.
Definition deliverable k (accs : list SimAccount) (r : OpResult) : Prop :=
  match r.1 with
  | NoOpMsg route _ _ => route = PoEModuleName
  | GenAndDeliverTx i fees => r.2 = None ∧ well_formed accs i ∧ affordable k i fees
  | GenAndDeliverTxWithRandFees i => r.2 = None ∧ well_formed accs i ∧ covered k i
  end.

Lemma FindAccount_ok accs a acc : FindAccount accs a = Some acc → acc ∈ accs ∧ Sim_Address acc = a.
Proof.
  unfold FindAccount. destruct (list_find _ accs) as [[i x]|] eqn:Hf; [|done]. intros [= <-].
  apply list_find_Some in Hf as (Hi & Ha & _). split; [by eapply list_elem_of_lookup_2|done].
Qed.

Lemma random_description_moniker : returns (λ d, String.length (Moniker d) = 10%nat) random_description.
Proof.
  unfold random_description. eapply returns_bind; [apply RandStringOfLength_length|]. intros m Hm.
  do 4 (apply (returns_bind (λ _, True)); [by intros ? ? ?|]; intros ? _). by apply returns_ret.
Qed.

Lemma signers_own accs a : sim_accounts accs → a ∈ accs → AccAddressFromBech32 (AccAddress_String (Sim_Address a)) = Ok (Sim_Address a).
Proof. intros Hs Ha. destruct (Hs a Ha) as (? & ? & _). by apply bech32_roundtrip. Qed.

(** What the continuation of the guards may rely on. *)
Lemma delegation_amount_returns k name addr f (Q : OpResult → Prop) :
  (∀ n c, Q (noop n c)) → (∀ n c e, Q (noop_err n c e)) →
  (∀ s amount fees, Coins_AmountOf (SpendableCoins (world k) addr) GetBondDenom = Ok (Some s) →
     0 < amount < 2 ^ 256 → amount + amount_of GetBondDenom fees ≤ s → (∀ d, d ≠ GetBondDenom → amount_of d fees = 0) →
     ValidateDenom GetBondDenom = Ok () → returns Q (f (mkCoin GetBondDenom amount) fees)) →
  returns Q (delegation_amount k name addr f).
Proof.
  intros Hno Herr Hf. unfold delegation_amount.
  apply (returns_bind (λ _, True)); [by intros ? ? ?|]. intros bad _. destruct bad; [by apply returns_ret|].
  eapply returns_bind; [by apply returns_lift; intros a Ha; exact Ha|]. intros spendable Hs.
  apply (returns_bind (λ _, True)); [by intros ? ? ?|]. intros pos _. destruct (negb pos); [by apply returns_ret|].
  eapply returns_or_noop; [apply RandPositiveInt_range|by auto|]. intros amount (s & -> & Hr & Hmax).
  eapply returns_bind; [by apply returns_lift; intros a Ha; exact Ha|]. intros self (n & [= <-] & -> & _ & Hd)%NewSdkCoin_ok.
  eapply returns_bind; [by apply returns_lift; intros a Ha; exact Ha|]. intros all (n & [= <-] & -> & _ & _)%NewSdkCoin_ok.
  eapply returns_bind; [by apply returns_lift; intros a Ha; exact Ha|]. intros allCoins Hall.
  eapply returns_bind; [by apply returns_lift; intros a Ha; exact Ha|]. intros [diff neg] Hdiff. cbn [fst snd].
  destruct neg.
  - eapply Hf; [exact Hs|lia|cbn; lia|done|done].
  - eapply returns_or_noop; [apply RandomFees_affordable|by auto|]. intros fees Hfees.
    assert (Hamt : ∀ d, amount_of d diff = amount_of d [mkCoin GetBondDenom s] - amount_of d [mkCoin GetBondDenom amount]).
    { intros d. by rewrite (SafeSub_amount _ _ _ d Hdiff), (NewCoins_amount _ _ d Hall). }
    eapply Hf; [exact Hs|lia| | |done].
    + specialize (Hfees GetBondDenom). rewrite Hamt in Hfees. unfold amount_of in Hfees at 3 4. cbn [foldr Denom Amount] in Hfees.
      rewrite !decide_True in Hfees by done. lia.
    + intros d Hne. specialize (Hfees d). rewrite Hamt in Hfees. unfold amount_of in Hfees at 3 4. cbn [foldr Denom Amount] in Hfees.
      rewrite !decide_False in Hfees by done. lia.
Qed.

Lemma valid_coin d a : ValidateDenom d = Ok () → 0 ≤ a → WCoin_IsValid (mkWCoin d (Some a)) = Ok true.
Proof. intros Hd Ha. rewrite WCoin_IsValid_some, Hd. cbn. f_equal. lia. Qed.

Lemma create_valid addr key liquid desc msg :
  AccAddressFromBech32 (AccAddress_String addr) = Ok addr → addr ≠ "" → is_Some key → ValidateDenom GetBondDenom = Ok () →
  0 < liquid < 2 ^ 256 → String.length (Moniker desc) = 10%nat →
  NewMsgCreateValidator NewAnyOfKey addr key (mkWCoin GetBondDenom (Some liquid)) (mkWCoin GetBondDenom (Some 0)) desc = Ok msg →
  CV_OperatorAddress msg = AccAddress_String addr ∧ CV_Amount msg = mkWCoin GetBondDenom (Some liquid) ∧
  CV_VestingAmount msg = mkWCoin GetBondDenom (Some 0) ∧ MsgCreateValidator_ValidateBasic msg = Ok ().
Proof.
  intros Haddr Hne [pk ->] Hden Hliq Hmon. unfold NewMsgCreateValidator.
  intros (pkAny & (any & _ & [= <-])%outcome_bind_ok & [= <-])%outcome_bind_ok.
  split_and!; [done..|]. unfold MsgCreateValidator_ValidateBasic, checkM, nil_or_invalid, nil_or.
  cbn [CV_OperatorAddress CV_Pubkey CV_Amount CV_VestingAmount CV_Description WCoin_Amount IsNil].
  assert (desc ≠ mkDescription "" "" "" "" "") as Hdesc by (intros ->; done).
  rewrite Haddr. cbn [mbind outcome_bind]. rewrite (bool_decide_eq_false_2 _ Hne). cbn [check mbind outcome_bind]. unfold IsNil.
  rewrite (bool_decide_eq_false_2 _ Hdesc), !bool_decide_eq_false_2 by done. rewrite !valid_coin by (done || lia). cbn [negb check mbind outcome_bind].
  rewrite WCoin_Add_same by lia. cbn [mbind outcome_bind]. rewrite WCoin_IsZero_some. cbn [mbind outcome_bind].
  rewrite (proj2 (Z.eqb_neq _ _)) by lia. cbn [check mbind outcome_bind].
  by rewrite Hmon.
Qed.

Lemma delegate_valid addr amount :
  AccAddressFromBech32 (AccAddress_String addr) = Ok addr → ValidateDenom GetBondDenom = Ok () → 0 < amount →
  MsgDelegate_ValidateBasic (NewMsgDelegate addr (mkWCoin GetBondDenom (Some amount)) (mkWCoin GetBondDenom (Some 0))) = Ok ().
Proof.
  intros Haddr Hden Ha. unfold MsgDelegate_ValidateBasic, NewMsgDelegate, operator_address.
  cbn [MD_OperatorAddress MD_Amount MD_VestingAmount]. rewrite Haddr. cbn [mbind outcome_bind].
  rewrite !valid_coin by (done || lia). cbn [negb check mbind outcome_bind].
  rewrite (WCoin_IsZero_some _ amount). cbn [mbind outcome_bind]. by rewrite (proj2 (Z.eqb_neq amount 0)) by lia.
Qed.

Lemma undelegate_valid addr amount :
  AccAddressFromBech32 (AccAddress_String addr) = Ok addr → ValidateDenom GetBondDenom = Ok () → 0 < amount →
  MsgUndelegate_ValidateBasic (NewMsgUndelegate addr (mkWCoin GetBondDenom (Some amount))) = Ok ().
Proof.
  intros Haddr Hden Ha. unfold MsgUndelegate_ValidateBasic, NewMsgUndelegate, operator_address.
  cbn [MU_OperatorAddress MU_Amount]. rewrite Haddr. cbn [mbind outcome_bind].
  rewrite valid_coin by (done || lia). cbn [negb mbind outcome_bind WCoin_Amount]. rewrite Int_IsPositive_some.
  cbn [mbind outcome_bind]. by rewrite (proj2 (Z.ltb_lt 0 amount)) by lia.
Qed.

Lemma update_valid addr desc :
  AccAddressFromBech32 (AccAddress_String addr) = Ok addr → String.length (Moniker desc) = 10%nat →
  MsgUpdateValidator_ValidateBasic (NewMsgUpdateValidator addr desc) = Ok ().
Proof.
  intros Haddr Hmon. unfold MsgUpdateValidator_ValidateBasic, NewMsgUpdateValidator.
  cbn [UV_OperatorAddress UV_Description]. rewrite Haddr. cbn [mbind outcome_bind].
  rewrite !bool_decide_eq_false_2 by (intros ->; done). cbn [orb check mbind outcome_bind]. by rewrite Hmon.
Qed.

Lemma create_deliverable k accs :
  sim_accounts accs → returns (deliverable k accs) (SimulateMsgCreateValidator NewAnyWithValue NewAnyOfKey Error k accs).
Proof.
  intros Hs. unfold SimulateMsgCreateValidator.
  eapply returns_bind; [apply RandomAcc_in|]. intros acc Hacc. pose proof (signers_own accs acc Hs Hacc) as Hown.
  destruct (Hs acc Hacc) as (Hne & _ & Hkey).
  apply (returns_or_noop (λ _, True)); [by intros ? ? ?|done|]. intros [v|] _; [by apply returns_ret|].
  apply delegation_amount_returns; [done..|]. intros s amount fees Hsp Ham Hle Hoth Hden.
  eapply returns_bind; [apply random_description_moniker|]. intros desc Hdesc.
  eapply returns_bind; [by apply returns_lift; intros a Ha; exact Ha|]. intros vest (n & [= <-] & -> & _ & _)%NewSdkCoin_ok.
  destruct (NewMsgCreateValidator _ _ _ _ _ _) as [msg|e|p] eqn:Hmsg; [|apply returns_panic..].
  destruct (create_valid _ _ _ _ _ Hown Hne Hkey Hden Ham Hdesc Hmsg) as (Hop & Hl & Hv & Hvalid).
  apply returns_ret. split; [done|]. split.
  - split_and!; [done|exact Hvalid| |done]. cbn. unfold GetSigners. by rewrite Hop, Hown.
  - exists s. cbn. rewrite Hl, Hv. cbn. split_and!; [done|lia|lia|done].
Qed.

(** The account of a validator, if there is one. *)
Lemma found_account accs addr acc :
  sim_accounts accs → FindAccount accs addr = Some acc →
  acc ∈ accs ∧ Sim_Address acc = addr ∧ AccAddressFromBech32 (AccAddress_String addr) = Ok addr.
Proof.
  intros Hs [Hin Ha]%FindAccount_ok. split_and!; [done..|]. rewrite <-Ha. by eapply signers_own.
Qed.

Lemma update_deliverable k accs :
  sim_accounts accs → returns (deliverable k accs) (SimulateMsgUpdateValidator NewAnyWithValue k accs).
Proof.
  intros Hs. apply (returns_or_noop (λ _, True)); [by intros ? ? ?|done|]. intros [v addr] _. cbn [snd].
  destruct (FindAccount accs addr) as [acc|] eqn:Hf; [|by apply returns_ret].
  destruct (found_account _ _ _ Hs Hf) as (Hin & Ha & Hown).
  eapply returns_bind; [apply random_description_moniker|]. intros desc Hdesc.
  apply returns_ret. split; [done|]. split; [|done].
  split_and!; [done|by apply update_valid| |done]. cbn. unfold GetSigners. by rewrite Hown, Ha.
Qed.

Lemma delegate_deliverable k accs :
  sim_accounts accs → returns (deliverable k accs) (SimulateMsgDelegate NewAnyWithValue k accs).
Proof.
  intros Hs. apply (returns_or_noop (λ _, True)); [by intros ? ? ?|done|]. intros [v addr] _. cbn [snd].
  destruct (FindAccount accs addr) as [acc|] eqn:Hf; [|by apply returns_ret].
  destruct (found_account _ _ _ Hs Hf) as (Hin & Ha & Hown). rewrite <-Ha in Hown.
  apply delegation_amount_returns; [done..|]. intros s amount fees Hsp Ham Hle Hoth Hden.
  eapply returns_bind; [by apply returns_lift; intros a Hc; exact Hc|]. intros vest (n & [= <-] & -> & _ & _)%NewSdkCoin_ok.
  apply returns_ret. split; [done|]. split.
  - split_and!; [done|apply delegate_valid; [done..|cbn; lia]| |done]. cbn. unfold GetSigners. by rewrite Hown.
  - exists s. cbn. split_and!; [done|lia|lia|done].
Qed.

Lemma undelegate_deliverable k accs :
  sim_accounts accs → returns (deliverable k accs) (SimulateMsgUndelegate NewAnyWithValue k accs).
Proof.
  intros Hs. apply (returns_or_noop (λ _, True)); [by intros ? ? ?|done|]. intros [v addr] _. cbn [snd].
  destruct (StakedAmount _ _ _) as [[staked|]|e|p] eqn:Hst; [|by apply returns_ret..|apply returns_panic].
  eapply returns_or_noop; [apply RandPositiveInt_range|done|]. intros amount (m & [= <-] & Ham & _).
  destruct (amount =? 0); [by apply returns_ret|].
  eapply returns_bind; [by apply returns_lift; intros a Hc; exact Hc|]. intros coin (n & [= <-] & -> & _ & Hden)%NewSdkCoin_ok.
  destruct (FindAccount accs addr) as [acc|] eqn:Hf; [|by apply returns_ret].
  destruct (found_account _ _ _ Hs Hf) as (Hin & Ha & Hown).
  destruct (Sim_PrivKey acc); apply returns_ret; [|done]. split; [done|]. split.
  - split_and!; [done|apply undelegate_valid; [done..|cbn; lia]| |done]. cbn. unfold GetSigners. by rewrite Hown, Ha.
  - exists staked, amount. split_and!; [cbn; by rewrite Ha|done|lia|lia].
Qed.

(** All operations. *)
Lemma operations_deliverable appParams k accs weight op :
  sim_accounts accs → (weight, op) ∈ WeightedOperations NewAnyWithValue NewAnyOfKey Error appParams k →
  returns (deliverable k accs) (op accs).
Proof.
  intros Hs Hop. unfold WeightedOperations in Hop.
  repeat (apply elem_of_cons in Hop as [[= -> ->]|Hop]); [..|by apply not_elem_of_nil in Hop].
  - by apply create_deliverable.
  - by apply update_deliverable.
  - by apply delegate_deliverable.
  - by apply undelegate_deliverable.
Qed.

(** On a chain without validators the operations on validators panic: the text of a nil error is asked for. *)
Lemma no_validators_panic k accs cursor :
  ListValidators NewAnyWithValue (world k) (ValsetContract_of k) None = Ok ([], cursor) → ∀ c : Ctx R,
  is_panic (SimulateMsgUpdateValidator NewAnyWithValue k accs c).1 = true ∧
  is_panic (SimulateMsgDelegate NewAnyWithValue k accs c).1 = true ∧
  is_panic (SimulateMsgUndelegate NewAnyWithValue k accs c).1 = true.
Proof.
  intros Hl c. unfold SimulateMsgUpdateValidator, SimulateMsgDelegate, SimulateMsgUndelegate, or_noop, getRandValidator.
  by rewrite Hl.
Qed.
End validity.

(** ** Operations return *)

(** A run that returns, with a result that satisfies [P], and a run that does not panic. *)
Definition completes {W A} (P : A → Prop) (m : M W A) : Prop := ∀ c, ∃ a c', m c = (Ok a, c') ∧ P a.
Definition quiet {W A} (P : A → Prop) (m : M W A) : Prop := returns P m ∧ ∀ c, is_panic (m c).1 = false.

Section completes_rules.
Context {W : Type}.
Lemma completes_ret {A} (P : A → Prop) a : P a → completes (W:=W) P (mret a).
Proof. intros Ha c. by exists a, c. Qed.
Lemma completes_lift {A} (P : A → Prop) o : is_ok o = true → (∀ a, o = Ok a → P a) → completes (W:=W) P (lift o).
Proof. intros Ho HP c. destruct o as [a|e|p]; [|done..]. exists a, c. split; [done|by apply HP]. Qed.
Lemma completes_bind {A B} (P : A → Prop) (Q : B → Prop) (m : M W A) (f : A → M W B) :
  completes P m → (∀ a, P a → completes Q (f a)) → completes Q (m ≫= f).
Proof.
  intros Hm Hf c. destruct (Hm c) as (a & c1 & Hrun & Ha). destruct (Hf a Ha c1) as (b & c2 & Hrun2 & Hb).
  exists b, c2. split; [|done]. unfold mbind, M_bind. by rewrite Hrun.
Qed.
Lemma completes_or_noop {A} (P : A → Prop) (Q : OpResult → Prop) (m : M W A) on_err f :
  quiet P m → (∀ e, Q (on_err e)) → (∀ a, P a → completes Q (f a)) → completes Q (or_noop m on_err f).
Proof.
  intros [Hr Hq] He Hf c. unfold or_noop. specialize (Hq c). destruct (m c) as [[a|e|p] c1] eqn:Hrun; [|by eexists _, _|done].
  apply Hf. by eapply Hr.
Qed.
Lemma quiet_lift {A} (o : outcome A) : is_panic o = false → quiet (W:=W) (λ a, o = Ok a) (lift o).
Proof. intros Ho. split; [by apply returns_lift|done]. Qed.
Lemma quiet_completes {A} (P : A → Prop) (m : M W A) : completes P m → quiet P m.
Proof.
  intros Hm. split.
  - intros c a c' Hrun. destruct (Hm c) as (a' & c1 & Hrun' & Ha). rewrite Hrun in Hrun'. by simplify_eq.
  - intros c. by destruct (Hm c) as (a & c1 & -> & _).
Qed.
Lemma quiet_bind {A B} (P : A → Prop) (Q : B → Prop) (m : M W A) (f : A → M W B) :
  quiet P m → (∀ a, P a → quiet Q (f a)) → quiet Q (m ≫= f).
Proof.
  intros [Hr Hq] Hf. split; [eapply returns_bind; [exact Hr|]; intros a Ha; by apply Hf|].
  intros c. unfold mbind, M_bind. specialize (Hq c). destruct (m c) as [[a|e|p] c1] eqn:Hrun; [|done|done].
  apply Hf. by eapply Hr.
Qed.
End completes_rules.

Section totality.
Context `{!SimRand R, !SimRandLaws R, !SimCoins, !CoinAmounts, !CoinTypes, !SdkCoins, !SdkMath, !SdkMathLaws, !SimCoinsLaws,
  !SimRunLaws R, !Bech32, !Bech32Laws, !ContractCalls W, !KVStore W, !SdkText, !SdkDecimal, !ForeignDecoders, !SimBank W}.
Variables (NewAnyWithValue : PubKey → outcome Any) (NewAnyOfKey : bytes → outcome Any) (Error : error → string).
Implicit Types (k : KState W).

(** What the operations need to return: there are accounts and a validator, contracts and addresses are answered with a
    result or an error, the spendable amounts are known, the bond denom is valid, and the keys of the accounts can be packed. *)
Record sim_ready k (accs : list SimAccount) : Prop := {
  ready_accounts : accs ≠ [];
  ready_denom : ValidateDenom GetBondDenom = Ok ();
  ready_keys key : is_ok (NewAnyOfKey key) = true;
  ready_addresses s : is_panic (AccAddressFromBech32 s) = false;
  ready_validators :
    match ListValidators NewAnyWithValue (world k) (ValsetContract_of k) None with
    | Ok (vs, _) => vs ≠ [] | Err _ => True | Panic _ => False end;
  ready_validator a : is_panic (QueryValidator NewAnyWithValue (world k) (ValsetContract_of k) a) = false;
  ready_stake a : is_panic (StakedAmount (world k) (StakeContract_of k) a) = false;
  ready_spendable a : ∃ s, Coins_AmountOf (SpendableCoins (world k) a) GetBondDenom = Ok (Some s);
}.

Lemma coin_completes n : 0 ≤ n → ValidateDenom GetBondDenom = Ok () →
  completes (W:=R) (λ c, c = mkCoin GetBondDenom n) (lift (NewSdkCoin GetBondDenom (Some n))).
Proof.
  intros Hn Hd. apply completes_lift; [by apply NewSdkCoin_total|]. by intros c (x & [= <-] & -> & _)%NewSdkCoin_ok.
Qed.

Lemma delegation_amount_completes k accs name addr f :
  sim_ready k accs → (∀ amount fees, completes (λ _, True) (f (mkCoin GetBondDenom amount) fees)) →
  completes (W:=R) (λ _, True) (delegation_amount k name addr f).
Proof.
  intros Hk Hf. unfold delegation_amount. destruct (ready_spendable _ _ Hk addr) as [s Hs].
  pose proof (ready_denom _ _ Hk) as Hden.
  apply (completes_bind (λ _, True)); [apply completes_lift; [|done]|].
  { unfold nil_or. destruct (WCoin_Amount _) as [x|]; [|done]. cbn [IsNil]. by rewrite Int_IsPositive_some. }
  intros [] _; [by apply completes_ret|]. rewrite Hs.
  apply (completes_bind (λ x, x = Some s)); [apply completes_lift; [done|]; by intros ? [= <-]|]. intros ? ->.
  apply (completes_bind (λ b, b = (0 <? s))); [apply completes_lift; rewrite Int_IsPositive_some; [done|]; by intros ? [= <-]|].
  intros ? ->. destruct (Z.ltb_spec 0 s) as [Hpos|_]; [|by apply completes_ret]. cbn [negb].
  eapply completes_or_noop; [split; [apply RandPositiveInt_range|intros c; apply RandPositiveInt_quiet]|done|].
  intros amount (m & [= <-] & Hr & _).
  eapply completes_bind; [apply (coin_completes amount); [lia|done]|]. intros ? ->.
  eapply completes_bind; [apply (coin_completes s); [lia|done]|]. intros ? ->.
  apply (completes_bind (λ r, NewCoins [mkCoin GetBondDenom s] = Ok r)); [apply completes_lift; [|done]; apply NewCoins_single; [lia|done]|].
  intros allCoins Hall.
  apply (completes_bind (λ r, SafeSub allCoins [mkCoin GetBondDenom amount] = Ok r));
    [apply completes_lift; [|done]; eapply SafeSub_single; [exact Hall|lia]|].
  intros [diff []] Hdiff; [apply Hf|].
  eapply (completes_or_noop (λ _, True)); [split; [done|]|done|by intros fees _; apply Hf].
  intros c. apply RandomFees_quiet. by eapply SafeSub_nonneg.
Qed.

Lemma description_completes : completes (W:=R) (λ _, True) random_description.
Proof.
  unfold random_description.
  do 5 (apply (completes_bind (λ _, True));
    [intros c; destruct (RandStringOfLength_total 10 c) as (? & ? & Hr); by eexists _, _|intros ? _]).
  by apply completes_ret.
Qed.

Lemma getRandValidator_quiet k accs : sim_ready k accs → quiet (W:=R) (λ _, True) (getRandValidator NewAnyWithValue k).
Proof.
  intros Hk. unfold getRandValidator. pose proof (ready_validators _ _ Hk) as Hv.
  destruct (ListValidators _ _ _ _) as [[vs cursor]|e|p]; [|by split|done]. destruct vs as [|v vs]; [done|].
  apply (quiet_bind (λ i, 0 ≤ i < Z.of_nat (length (v :: vs)))).
  { apply quiet_completes. intros c. destruct (Intn_total (Z.of_nat (length (v :: vs))) c) as (i & c' & Hr & Hi); [cbn; lia|].
    by exists i, c'. }
  intros i Hi. destruct (lookup_lt_is_Some_2 (v :: vs) (Z.to_nat i)) as [x Hx]; [lia|]. rewrite Hx.
  apply (quiet_bind (λ y, y = x)); [apply quiet_completes, completes_lift; [done|]; by intros ? [= <-]|]. intros ? ->.
  eapply quiet_bind; [apply quiet_lift, (ready_addresses _ _ Hk)|]. intros a _. by apply quiet_completes, completes_ret.
Qed.

(** Every operation returns. *)
Lemma operations_complete appParams k accs weight op :
  sim_ready k accs → (weight, op) ∈ WeightedOperations NewAnyWithValue NewAnyOfKey Error appParams k →
  completes (W:=R) (λ _, True) (op accs).
Proof.
  intros Hk Hop. pose proof (coin_completes 0 ltac:(done) (ready_denom _ _ Hk)) as Hzero.
  pose proof (getRandValidator_quiet k accs Hk) as Hrand. unfold WeightedOperations in Hop.
  repeat (apply elem_of_cons in Hop as [[= -> ->]|Hop]); [..|by apply not_elem_of_nil in Hop].
  - apply (completes_bind (λ _, True)).
    { intros c. destruct (RandomAcc_total accs c (ready_accounts _ _ Hk)) as (a & c' & Hr). by exists a, c'. }
    intros acc _. eapply completes_or_noop; [apply quiet_lift, (ready_validator _ _ Hk)|done|].
    intros [v|] _; [by apply completes_ret|]. eapply delegation_amount_completes; [exact Hk|]. intros amount fees.
    eapply completes_bind; [apply description_completes|]. intros desc _. eapply completes_bind; [exact Hzero|]. intros ? ->.
    unfold NewMsgCreateValidator. destruct (Sim_ConsKey acc) as [key|]; [|by apply completes_ret]. cbn [mbind outcome_bind].
    pose proof (ready_keys _ _ Hk key) as Hkey. destruct (NewAnyOfKey key); [|done..]. by apply completes_ret.
  - eapply completes_or_noop; [exact Hrand|done|]. intros [v addr] _. destruct (FindAccount accs _); [|by apply completes_ret].
    eapply completes_bind; [apply description_completes|]. intros desc _. by apply completes_ret.
  - eapply completes_or_noop; [exact Hrand|done|]. intros [v addr] _. destruct (FindAccount accs _); [|by apply completes_ret].
    eapply delegation_amount_completes; [exact Hk|]. intros amount fees. eapply completes_bind; [exact Hzero|]. intros ? ->. by apply completes_ret.
  - eapply completes_or_noop; [exact Hrand|done|]. intros [v addr] _. cbn [snd]. pose proof (ready_stake _ _ Hk addr) as Hst.
    destruct (StakedAmount _ _ _) as [[staked|]|e|p]; [|by apply completes_ret..|done].
    eapply completes_or_noop; [split; [apply RandPositiveInt_range|intros c; apply RandPositiveInt_quiet]|done|].
    intros amount (m & _ & Ham & _). destruct (amount =? 0); [by apply completes_ret|].
    eapply completes_bind; [apply (coin_completes amount); [lia|apply (ready_denom _ _ Hk)]|]. intros ? ->.
    destruct (FindAccount accs addr) as [acc|]; [|by apply completes_ret]. destruct (Sim_PrivKey acc); by apply completes_ret.
Qed.

(** C40: For accounts with an address and a consensus key, whatever the generator yields, an operation of the simulator that
    returns either does nothing, or it delivers a message
    that passes [ValidateBasic], is signed by one of the accounts, and can be paid: the delegated amount and
    the fees together are at most what the account can spend of the bond denom, no fees are taken in another
    denom, and not more is undelegated than the staking contract reports. An error is only returned together with
    doing nothing. Every operation returns when there are accounts and a validator, when the queries to contracts end with
    an answer or an error, and when the bond denom is valid, the spendable amounts are known and keys can be packed. On a chain
    without validators the three operations on validators panic. *)
Theorem simulated_operations_valid appParams k accs :
  sim_accounts accs →
  (∀ weight op, (weight, op) ∈ WeightedOperations NewAnyWithValue NewAnyOfKey Error appParams k →
     (∀ (c c' : Ctx R) r, op accs c = (Ok r, c') → deliverable k accs r) ∧
     (sim_ready k accs → ∀ c : Ctx R, ∃ r c', op accs c = (Ok r, c'))) ∧
  (∀ cursor (c : Ctx R), ListValidators NewAnyWithValue (world k) (ValsetContract_of k) None = Ok ([], cursor) →
     is_panic (SimulateMsgUpdateValidator NewAnyWithValue k accs c).1 = true ∧
     is_panic (SimulateMsgDelegate NewAnyWithValue k accs c).1 = true ∧
     is_panic (SimulateMsgUndelegate NewAnyWithValue k accs c).1 = true).
Proof.
  intros Hs. split.
  - intros weight op Hop. split.
    + intros c c' r Hrun. by apply (operations_deliverable NewAnyWithValue NewAnyOfKey Error appParams k accs weight op Hs Hop c r c').
    + intros Hk c. destruct (operations_complete appParams k accs weight op Hk Hop c) as (r & c' & Hr & _). by exists r, c'.
  - intros cursor c Hl. by eapply no_validators_panic.
Qed.
End totality.
