(* ===== verification/RefSimulation.v ===== *)
(** A simulator for a chain with one validator: the assumptions on random functions and coins hold together, and the
    operations deliver messages. *)
From stdpp Require Import base list strings gmap.
From Stdlib Require Import ZArith Lia Ascii.
From S2P Require Import Prelude ProgramLogic Sdk RefStore Slice Json Privilege TwasmMsgs Wasm GoTime PoETypes PoETypesProps PoEMsgs PoEKeeper PoEContractIO PoEValset PoEAdapters PoEServer PoEQueries GenTxCollect GenAccounts RefWorld RefPoE RefBootstrap RefTestnet Simulation.
Open Scope Z_scope.

(** The generator counts how often it was asked. *)
Definition tick {A} (o : outcome A) : M nat A := λ c, (o, mkCtx (S (store c)) (events c)).
Fixpoint text_of (n : nat) : string := match n with O => "" | S n => String "x"%char (text_of n) end.
#[local] Instance Ref_rand : SimRand nat := {
  RandomAcc accs := tick (match accs with a :: _ => Ok a | [] => Panic "invalid argument to Intn" end);
  RandPositiveInt max := tick (match max with
                               | Some m => if decide (1 ≤ m) then Ok (Z.min m 10) else Err (new_err "max too small")
                               | None => Panic "nil" end);
  RandomFees coins := tick (Ok (match coins with [c] => if decide (1 ≤ Amount c) then [mkCoin (Denom c) 1] else [] | _ => [] end));
  RandStringOfLength n := tick (Ok (text_of n));
  Intn n := tick (Ok 0);
}.
Lemma tick_returns {A} (Q : A → Prop) (o : outcome A) : (∀ a, o = Ok a → Q a) → returns Q (tick o).
Proof. intros HQ c a c' [= -> _]. by apply HQ. Qed.
#[local] Instance Ref_rand_laws : SimRandLaws nat.
Proof.
  constructor; cbn.
  - intros accs. apply tick_returns. intros a. destruct accs; [done|]. intros [= ->]. left.
  - intros max. apply tick_returns. intros a. destruct max as [m|]; [|done]. case_decide; [|done]. intros [= <-].
    exists m. split_and!; [done|lia|lia|]. assert (10 < 2 ^ 256) by done. lia.
  - intros coins. apply tick_returns. intros fees [= <-] d. unfold amount_of.
    destruct coins as [|c [|c' cs]]; cbn; [lia| |lia]. case_decide; cbn; repeat case_decide; lia.
  - intros n. apply tick_returns. intros s [= <-]. induction n as [|n IH]; cbn; by rewrite ?IH.
Qed.

#[local] Instance Sim_coin_types : CoinTypes := {
  NewSdkCoin d a := match a with
                    | Some x => if decide (0 ≤ x ∧ d ≠ "") then Ok (mkCoin d x) else Panic "invalid coin"
                    | None => Panic "nil" end;
  NewDecCoin d a := Panic "not used";
  NewDecCoins := Ok;
  Int_GT a b := match a, b with Some x, Some y => Ok (y <? x) | _, _ => Panic "nil" end;
}.
#[local] Instance Sim_coins : SimCoins := {
  SafeSub a b := let r := sum_coins (a ++ ((λ c, mkCoin (Denom c) (- Amount c)) <$> b)) in
    Ok (filter (λ c, Amount c ≠ 0) r, existsb (λ c, Amount c <? 0) r);
}.
Lemma amount_of_nonzero d cs : amount_of d (filter (λ c, Amount c ≠ 0) cs) = amount_of d cs.
Proof.
  unfold amount_of. induction cs as [|c cs IH]; [done|]. rewrite filter_cons. case_decide; cbn [foldr]; rewrite IH; [done|].
  case_decide; lia.
Qed.
Lemma amount_of_neg d cs : amount_of d ((λ c, mkCoin (Denom c) (- Amount c)) <$> cs) = - amount_of d cs.
Proof. unfold amount_of. induction cs as [|c cs IH]; [done|]. cbn in *. rewrite IH. case_decide; lia. Qed.
#[local] Instance Sim_coins_laws : SimCoinsLaws.
Proof.
  constructor; cbn [NewSdkCoin Sim_coin_types NewCoins Ref_coins SafeSub Sim_coins].
  - intros d [x|] c; [|done]. case_decide as Hd; [|done]. intros [= <-]. exists x. cbn.
    split_and!; [done|done|lia|]. by rewrite decide_False by tauto.
  - intros cs r d. destruct (forallb _ _); [|done]. intros [= <-]. apply amount_of_nonzero.
  - intros a b r d [= <- _]. rewrite amount_of_nonzero, sum_coins_amount, amount_of_app, amount_of_neg. lia.
Qed.

Lemma tick_quiet {A} (o : outcome A) c : is_panic o = false → is_panic (tick o c).1 = false.
Proof. done. Qed.
#[local] Instance Ref_run_laws : SimRunLaws nat.
Proof.
  constructor; cbn [RandomAcc RandPositiveInt RandomFees RandStringOfLength Intn Ref_rand NewSdkCoin Sim_coin_types NewCoins Ref_coins
    SafeSub Sim_coins].
  - intros [|a accs] c Hne; [done|]. by eexists _, _.
  - intros m c. apply tick_quiet. by case_decide.
  - intros coins c _. by apply tick_quiet.
  - intros n c. by eexists _, _.
  - intros n c Hn. eexists _, _. split; [reflexivity|lia].
  - intros d n Hn Hd. rewrite decide_True; [done|]. split; [done|]. by intros ->.
  - intros d n Hn Hd. cbn [forallb Amount]. by rewrite bool_decide_true.
  - done.
  - intros a b r [= <- Hneg]. apply Forall_forall. intros x [_ Hx]%list_elem_of_filter.
    apply not_true_iff_false in Hneg. destruct (decide (0 ≤ Amount x)); [done|]. exfalso. apply Hneg, existsb_exists.
    exists x. split; [by apply list_elem_of_In|]. apply Z.ltb_lt. lia.
Qed.

(** Alice is a validator and has 50 tokens, 40 of which she can spend. *)
#[local] Instance Sim_bank : SimBank RefKV := {
  GetBalance _ _ d := mkWCoin d (Some 50);
  SpendableCoins _ _ := [mkCoin "ufury" 40];
}.
Definition alice_response : json :=
  JObj [("operator", JStr "furya1alice"); ("pubkey", JObj [("ed25519", JStr "azE=")]);
        ("metadata", JObj [("moniker", JStr "alice")]); ("active_validator", JBool true)].
#[local] Instance Sim_contracts : ContractCalls RefKV := {
  Execute _ _ _ _ := fail_with (new_err "contract");
  QuerySmart _ _ q :=
    match q with
    | JObj [("staked", _)] =>
        Ok (JText (JObj [("liquid", JObj [("denom", JStr "ufury"); ("amount", JStr "30")]);
                         ("vesting", JObj [("denom", JStr "ufury"); ("amount", JStr "0")])]))
    | JObj [("list_validators", _)] => Ok (JText (JObj [("validators", JArr [alice_response])]))
    | JObj [("validator", _)] => Ok (JText (JObj []))
    | _ => Err (new_err "contract")
    end;
}.
Definition sim_chain : KState RefKV :=
  mkKState ∅ (<[PoEContractTypeValset := "valset"]> (<[PoEContractTypeStaking := "stake"]> ∅)) [].
Definition sim_accs : list SimAccount := [mkSimAccount "alice" (Some "secret") (Some "key")].
Definition any_key (k : PubKey) : outcome Any := Ok (mkAny (PK_Type k) (PK_Bytes k)).
Definition any_bytes (b : bytes) : outcome Any := Ok (mkAny "ed25519" b).

Lemma sim_accs_ok : sim_accounts sim_accs.
Proof. intros a Ha%list_elem_of_singleton. subst a. split_and!; [done|cbn; lia|eauto]. Qed.

Definition delegated : OpResult * Ctx nat :=
  match SimulateMsgDelegate any_key sim_chain sim_accs (mkCtx 0%nat []) with
  | (Ok r, c) => (r, c)
  | (_, c) => (noop "" "", c)
  end.

Lemma sim_chain_ready : sim_ready any_key any_bytes sim_chain sim_accs.
Proof.
  constructor; try done.
  - intros s. cbn [AccAddressFromBech32 Ref_bech32]. by repeat case_match.
  - vm_compute. discriminate.
  - intros a. by exists 40.
Qed.

(** C40: alice delegates ten tokens and pays a fee of one. *)
Lemma simulated_operations_valid_witness :
  delegated.1 = (GenAndDeliverTx (BuildOperationInput (SimDelegate (mkMsgDelegate "furya1alice" (mkWCoin "ufury" (Some 10))
    (mkWCoin "ufury" (Some 0)))) (mkSimAccount "alice" (Some "secret") (Some "key")) []) [mkCoin "ufury" 1], None) ∧
  deliverable sim_chain sim_accs delegated.1 ∧
  ∃ r c', SimulateMsgDelegate any_key sim_chain sim_accs (mkCtx 7%nat []) = (Ok r, c').
Proof.
  split; [vm_compute; reflexivity|].
  destruct (simulated_operations_valid any_key any_bytes err_root ∅ sim_chain sim_accs sim_accs_ok) as [Hall _].
  destruct (Hall 200 (SimulateMsgDelegate any_key sim_chain)) as [Hvalid Hruns]; [right; right; left|].
  split; [|exact (Hruns sim_chain_ready (mkCtx 7%nat []))].
  apply (Hvalid (mkCtx 0%nat []) delegated.2). vm_compute. reflexivity.
Defined.
