(* ===== verification/SimGenesis.v ===== *)
(** The random genesis of the simulator (x/poe/simulation/genesis.go) and the simulation of x/twasm
    (x/twasm/simulation).

    The codecs of the modules' genesis states, the signing of a transaction and the operations of wasmd are parameters;
    the random numbers of the generator are an interface with the ranges they document. *)
From stdpp Require Import base list strings gmap.
From Stdlib Require Import ZArith Lia Ascii.
From S2P Require Import Prelude ProgramLogic Sdk RefStore Slice Json Privilege TwasmMsgs Wasm GoTime PoETypes PoEMsgs PoEKeeper PoEContractIO PoEQueries GenTxCollect GenAccounts TwasmGenesis ModuleGenesis Testnet Simulation.
Open Scope Z_scope.

Class GenRand (R : Type) := {
  (** [Rand.Int], [Rand.Int63n] (which panics unless its argument is positive) and the key made from 15 random bytes *)
  Rand_Int : M R Z;
  Rand_Int63n : Z → M R Z;
  Rand_PubKey : M R bytes;
}.

(** [module.SimulationState] *)
Record SimulationState := mkSimState {
  SS_GenState : gmap string json; SS_Accounts : list SimAccount; NumBonded : Z; InitialStake : Z }.

Definition defaultDenom : string := "ufury".
(** [xs[i]] *)
Definition index {A} (xs : list A) (i : Z) : outcome A :=
  if i <? 0 then Panic "index out of range"
  else match xs !! Z.to_nat i with Some x => Ok x | None => Panic "index out of range" end.
(** [if err != nil { panic(err) }] *)
Definition or_panic {A} (o : outcome A) : outcome A := match o with Err _ => Panic "error" | _ => o end.

Section genesis.
Context `{!GenRand R, !CoinAmounts, !CoinTypes, !SdkCoins, !SdkMath, !Bech32, !BankJSON, !PoEJSON}.
Variables (conv : Z → Z) (NewAnyOfKey : bytes → outcome Any) (decode_tx : json_bytes → outcome (list GenMsg))
  (Any_String : option Any → string).
(** The transaction with the message, signed by the account, as JSON. *)
Variable sign_tx : SimAccount → MsgCreateValidator → outcome json_bytes.
(** [Coins.Sub] panics on a negative result; [SetSendEnabledParam(denom, true)] on the parameters of the module. *)
Variables (Coins_Sub : list Coin → list Coin → outcome (list Coin)) (set_send_enabled : string → json → json).

(** The check that validator [i] has what it stakes. *)
Definition check_stake (balances : list Balance) (stake : Z) (i : Z) : outcome () :=
  b ← index balances i;
  a ← Coins_AmountOf (Balance_Coins b) defaultDenom;
  match a with
  | Some availableBalance =>
      let stakedAmount := Z.min stake availableBalance in
      if (stakedAmount =? 0) || negb (stakedAmount =? stake) then Panic "not enough to stake on balance" else Ok ()
  | None => Panic "nil pointer"
  end.
Fixpoint check_stakes (balances : list Balance) (stake : Z) (idxs : list Z) : outcome () :=
  match idxs with
  | [] => Ok ()
  | i :: idxs' => check_stake balances stake i ;; check_stakes balances stake idxs'
  end.

(** [make([]string, count)] and the loop over the accounts after the bonded ones. *)
Fixpoint addresses_from (accs : list SimAccount) (from : Z) (count : nat) : outcome (list string) :=
  match count with
  | O => Ok []
  | S n => a ← index accs from; r ← addresses_from accs (from + 1) n; Ok (AccAddress_String (Sim_Address a) :: r)
  end.
Definition random_members (accs : list SimAccount) (numBonded : Z) : M R (list string) :=
  r ← Rand_Int;
  let count := Z.min (wrap_s 64 (r + 1)) (Z.of_nat (length accs) - numBonded) in
  if count <? 0 then panic "makeslice: len out of range"
  else lift (addresses_from accs numBonded (Z.to_nat count)).

(** The genesis transaction of account [i]. *)
Definition sim_gentx (s : SimulationState) (balances : list Balance) (i : Z) : M R (TG4Member * json_bytes) :=
  acc ← lift (index (SS_Accounts s) i);
  b ← lift (index balances i);
  if decide (AccAddress_String (Sim_Address acc) ≠ Balance_Address b) then panic "all is broken when accounts do not match balances"
  else
    key ← Rand_PubKey;
    liquid ← lift (NewSdkCoin defaultDenom (Some (InitialStake s)));
    vesting ← lift (NewSdkCoin defaultDenom (Some 0));
    msg ← lift (or_panic (NewMsgCreateValidator NewAnyOfKey (Sim_Address acc) (Some key) (wire liquid) (wire vesting)
                  (mkDescription "testing" "" "" "" "")));
    tx ← lift (or_panic (sign_tx acc msg));
    mret (mkTG4Member (AccAddress_String (Sim_Address acc)) 2000, tx).
Fixpoint sim_gentxs (s : SimulationState) (balances : list Balance) (idxs : list Z) : M R (list (TG4Member * json_bytes)) :=
  match idxs with
  | [] => mret []
  | i :: idxs' => x ← sim_gentx s balances i; r ← sim_gentxs s balances idxs'; mret (x :: r)
  end.

Definition with_denom (c : WireCoin) : WireCoin := mkWCoin defaultDenom (WCoin_Amount c).
(** The defaults with the members and transactions; every epoch takes a second. *)
Definition sim_seed (d : SeedContracts) (bootstrap : string) (txs : list (TG4Member * json_bytes)) (oc ap : list string) : SeedContracts :=
  {| GenTxs := txs.*2; BootstrapAccountAddress := bootstrap; Engagement := txs.*1;
     StakeConfig := StakeConfig d;
     ValsetConfig := (λ v, {| MinPoints := MinPoints v; MaxValidators := MaxValidators v; EpochLength := Second;
       EpochReward := with_denom (EpochReward v); Scaling := Scaling v; FeePercentage := FeePercentage v;
       AutoUnjail := AutoUnjail v; DoubleSignSlashRatio := DoubleSignSlashRatio v;
       ValidatorRewardRatio := ValidatorRewardRatio v; EngagementRewardRatio := EngagementRewardRatio v;
       CommunityPoolRewardRatio := CommunityPoolRewardRatio v; VerifyValidators := VerifyValidators v;
       OfflineJailDuration := OfflineJailDuration v |}) <$> ValsetConfig d;
     EngagementConfig := EngagementConfig d; BondDenom := defaultDenom;
     OversightCommitteeConfig := (λ c, mkOCConfig (OC_Name c) (with_denom (OC_EscrowAmount c)) (OC_VotingRules c)
       (OC_DenyListContractAddress c)) <$> OversightCommitteeConfig d;
     CommunityPoolConfig := CommunityPoolConfig d; ValidatorVotingConfig := ValidatorVotingConfig d;
     OversightCommunityMembers := oc; ArbiterPoolMembers := ap;
     ArbiterPoolConfig := (λ c, mkAPConfig (AP_Name c) (with_denom (AP_EscrowAmount c)) (AP_VotingRules c)
       (AP_DenyListContractAddress c) (with_denom (DisputeCost c)) (WaitingPeriod c)) <$> ArbiterPoolConfig d;
     MixerConfig := MixerConfig d |}.

Definition RandomizedGenState (default_bootstrap : string) (s : SimulationState) : M R SimulationState :=
  let genState := replace_json "stake" defaultDenom <$> SS_GenState s in
  let accs := SS_Accounts s in
  rawBankState ← lift (match genState !! "bank" with Some j => Ok j | None => Panic "no bank genesis state" end);
  bankGenesis ← lift (or_panic (dec_bank rawBankState));
  lift (check_stakes (BG_Balances bankGenesis) (InitialStake s) (seqZ 0 (NumBonded s))) ;;
  let totalBound := Z.max 0 (NumBonded s) * InitialStake s in
  numBonded ← (if Z.of_nat (length accs) - NumBonded s =? 0 then r ← Rand_Int63n (NumBonded s - 1); mret (1 + r)
               else mret (NumBonded s));
  ocMembers ← random_members accs numBonded;
  apMembers ← random_members accs numBonded;
  txs ← sim_gentxs s (BG_Balances bankGenesis) (seqZ 1 (numBonded - 1));
  last ← lift (index accs (Z.of_nat (length accs) - 1));
  let poeGenesis := mkPoEGenesis
    (mkPoEParams (HistoricalEntries_p DefaultParams) 100 (MinDelegationAmounts DefaultParams))
    (GenesisState_SeedContracts (Some (sim_seed (DefaultSeedContracts default_bootstrap)
       (AccAddress_String (Sim_Address last)) txs ocMembers apMembers))) in
  lift (or_panic (PoEMsgs.ValidateGenesis conv decode_tx Any_String poeGenesis)) ;;
  bound ← lift (NewSdkCoin defaultDenom (Some totalBound));
  boundCoins ← lift (Sdk.NewCoins [bound]);
  supply ← lift (Coins_Sub (BG_Supply bankGenesis) boundCoins);
  let bank' := mkBankGenesis (BG_Balances bankGenesis) supply (set_send_enabled defaultDenom (BG_rest bankGenesis)) in
  mret (mkSimState (<["bank" := enc_bank bank']> (<["poe" := poe_MarshalJSON poeGenesis]> genState)) accs numBonded (InitialStake s)).
End genesis.

(** ** The simulation of x/twasm *)

(** A genesis with the default parameters and nothing else, whatever was there before. *)
Definition twasm_RandomizedGenState `{!GenesisJSON GenesisState} (DefaultParams : bytes) (genState : gmap string json) : gmap string json :=
  <["wasm" := MarshalJSON (mkGenesis DefaultParams [] [] "" "" [] [])]> genState.

Section twasm.
Context `{!Bech32}.

Definition OpWeightMsgStoreCode : string := "op_weight_msg_store_code".
Definition OpWeightMsgInstantiateContract : string := "op_weight_msg_instantiate_contract".
Definition OpWeightMsgExecuteContract : string := "op_weight_msg_execute_contract".
Definition DefaultWeightMsgStoreCode : Z := 50.
Definition DefaultWeightMsgInstantiateContract : Z := 100.
Definition DefaultWeightMsgExecuteContract : Z := 100.

(** The weights of the three operations of wasmd. A parameter for the execution is read into the variable of the
    instantiation; the default is not. *)
Definition twasm_weights (appParams : gmap string Z) : Z * Z * Z :=
  let store := GetOrGenerate appParams OpWeightMsgStoreCode DefaultWeightMsgStoreCode in
  let instantiate := GetOrGenerate appParams OpWeightMsgInstantiateContract DefaultWeightMsgInstantiateContract in
  match appParams !! OpWeightMsgExecuteContract with
  | Some w => (store, w, 0)
  | None => (store, instantiate, DefaultWeightMsgExecuteContract)
  end.

(** [len(poetypes.PoEContractType_name)] *)
Definition contract_type_names : Z := 12.
(** A code: its id and whether everybody may instantiate it. *)
Fixpoint PetriSimulationCodeIDSelector (codes : list (Z * bool)) : Z :=
  match codes with
  | [] => 0
  | (u, everybody) :: codes' =>
      if negb everybody || (u <? contract_type_names) then PetriSimulationCodeIDSelector codes' else u
  end.
(** A contract: its address and the id of its code. *)
Fixpoint PetriSimulationExecuteContractSelector (contracts : list (AccAddress * Z)) : AccAddress :=
  match contracts with
  | [] => ""
  | (a, codeID) :: contracts' =>
      if codeID <? contract_type_names - 1 then PetriSimulationExecuteContractSelector contracts' else a
  end.

(** [NewDecodeStore]: [%q] and the text of the answers are parameters. *)
Variables (quote : bytes → string) (contract_storage : string → string → bytes → string → string → bytes → string)
  (store_pairs : bytes → bytes → bytes → bytes → string).
Definition ContractStorePrefix : Z := 3.
Definition ContractAddrLen : nat := 32.
Definition tail (n : nat) (s : bytes) : bytes := String.substring n (String.length s - n) s.
Definition address_and_path (key : bytes) : string * string :=
  if decide (ContractAddrLen + 1 < String.length key)%nat
  then (AccAddress_String (String.substring 1 ContractAddrLen key), tail (ContractAddrLen + 1) key)
  else (quote (tail 1 key), "").
Definition NewDecodeStore (kvA kvB : bytes * bytes) : outcome string :=
  match kvA.1 with
  | "" => Panic "slice bounds out of range"
  | String a _ =>
      if of_byte a =? ContractStorePrefix then
        match kvB.1 with
        | "" => Panic "slice bounds out of range"
        | _ => let '(addrA, pathA) := address_and_path kvA.1 in
               let '(addrB, pathB) := address_and_path kvB.1 in
               Ok (contract_storage addrA pathA kvA.2 addrB pathB kvB.2)
        end
      else Ok (store_pairs kvA.1 kvA.2 kvB.1 kvB.2)
  end.
End twasm.

(** * Theorems *)
Class GenRandLaws (R : Type) `{GenRand R} := { Rand_Int63n_range n : returns (λ r, 0 ≤ r < n) (Rand_Int63n n) }.

Lemma index_ok {A} (xs : list A) i x : index xs i = Ok x → x ∈ xs.
Proof. unfold index. destruct (i <? 0); [done|]. destruct (xs !! _) eqn:E; [|done]. intros [= ->]. by eapply list_elem_of_lookup_2. Qed.
Lemma or_panic_ok {A} (o : outcome A) a : or_panic o = Ok a → o = Ok a.
Proof. by destruct o. Qed.

Section genesis_theorems.
Context `{!GenRand R, !GenRandLaws R, !CoinAmounts, !CoinTypes, !SdkCoins, !SdkMath, !Bech32, !BankJSON, !PoEJSON}.
Variables (conv : Z → Z) (NewAnyOfKey : bytes → outcome Any) (decode_tx : json_bytes → outcome (list GenMsg))
  (Any_String : option Any → string) (sign_tx : SimAccount → MsgCreateValidator → outcome json_bytes)
  (Coins_Sub : list Coin → list Coin → outcome (list Coin)) (set_send_enabled : string → json → json).

(** The balance covers the stake. *)
Definition can_stake (balances : list Balance) (stake i : Z) : Prop :=
  ∃ b a, index balances i = Ok b ∧ Coins_AmountOf (Balance_Coins b) defaultDenom = Ok (Some a) ∧ stake ≤ a ∧ stake ≠ 0.
Lemma check_stake_ok balances stake i : check_stake balances stake i = Ok () → can_stake balances stake i.
Proof.
  intros (b & Hb & (a & Ha & Hc)%outcome_bind_ok)%outcome_bind_ok. destruct a as [a|]; [|done]. cbv zeta in Hc.
  destruct (_ || _) eqn:E in Hc; [done|]. apply orb_false_iff in E as [?%Z.eqb_neq ?%negb_false_iff%Z.eqb_eq].
  exists b, a. split_and!; [done|done|lia|lia].
Qed.
Lemma check_stakes_ok balances stake idxs : check_stakes balances stake idxs = Ok () → ∀ i, i ∈ idxs → can_stake balances stake i.
Proof.
  induction idxs as [|j idxs IH]; [by intros _ i Hi%not_elem_of_nil|].
  intros ([] & Hj%check_stake_ok & Hr)%outcome_bind_ok i [->|Hi]%elem_of_cons; auto.
Qed.

(** The validator [m] is an account, with the points of a genesis validator, that can pay its stake. *)
Definition funded (s : SimulationState) (balances : list Balance) (m : TG4Member) : Prop :=
  ∃ acc b a, acc ∈ SS_Accounts s ∧ b ∈ balances ∧ Member_Address m = AccAddress_String (Sim_Address acc) ∧
    Balance_Address b = Member_Address m ∧ Points m = 2000 ∧
    Coins_AmountOf (Balance_Coins b) defaultDenom = Ok (Some a) ∧ InitialStake s ≤ a.
Lemma sim_gentx_ok s balances i :
  can_stake balances (InitialStake s) i → returns (λ x, funded s balances x.1) (sim_gentx NewAnyOfKey sign_tx s balances i).
Proof.
  intros (b' & a & Hb' & Ha & Hle & _) c x c' Hrun. unfold sim_gentx in Hrun.
  apply M_bind_ok in Hrun as (acc & c1 & [= Hacc <-] & Hrun). apply M_bind_ok in Hrun as (b & c1 & [= Hb <-] & Hrun).
  rewrite Hb' in Hb. injection Hb as <-. case_decide as Haddr; [done|].
  repeat (apply M_bind_ok in Hrun as (? & ? & _ & Hrun)). injection Hrun as <- _.
  exists acc, b', a. cbn. split_and!; try done; by eapply index_ok.
Qed.
Lemma sim_gentxs_ok s balances idxs :
  (∀ i, i ∈ idxs → can_stake balances (InitialStake s) i) →
  returns (λ xs, length xs = length idxs ∧ Forall (λ x, funded s balances x.1) xs) (sim_gentxs NewAnyOfKey sign_tx s balances idxs).
Proof.
  intros Hall. induction idxs as [|i idxs IH]; cbn [sim_gentxs]; [by apply returns_ret|].
  eapply returns_bind; [apply sim_gentx_ok, Hall; left|]. intros x Hx.
  eapply returns_bind; [apply IH; intros j Hj; apply Hall; by right|]. intros xs [Hl Hxs].
  apply returns_ret. split; [cbn; by rewrite Hl|by constructor].
Qed.

(** A genesis that is made passes the validation of x/poe. It has one genesis transaction for every validator but the
    first account, all of accounts whose balance covers the stake, and the supply of the bank is reduced by the
    stake of all accounts that were to be bonded. *)
Lemma RandomizedGenState_ok bootstrap s (c c' : Ctx R) s' :
  RandomizedGenState conv NewAnyOfKey decode_tx Any_String sign_tx Coins_Sub set_send_enabled bootstrap s c = (Ok s', c') →
  ∃ raw bank gs seed supply, (replace_json "stake" defaultDenom <$> SS_GenState s) !! "bank" = Some raw ∧ dec_bank raw = Ok bank ∧
    SS_GenState s' !! "poe" = Some (poe_MarshalJSON gs) ∧
    PoEMsgs.ValidateGenesis conv decode_tx Any_String gs = Ok () ∧ GetSeedContracts gs = Some seed ∧
    NumBonded s' ≤ NumBonded s ∧ length (GenTxs seed) = Z.to_nat (NumBonded s' - 1) ∧
    Forall (funded s (BG_Balances bank)) (Engagement seed) ∧
    SS_GenState s' !! "bank" = Some (enc_bank (mkBankGenesis (BG_Balances bank) supply (set_send_enabled defaultDenom (BG_rest bank)))) ∧
    (∃ coin coins, NewSdkCoin defaultDenom (Some (Z.max 0 (NumBonded s) * InitialStake s)) = Ok coin ∧
       Sdk.NewCoins [coin] = Ok coins ∧ Coins_Sub (BG_Supply bank) coins = Ok supply).
Proof.
  unfold RandomizedGenState. intros (raw & c1 & [= Hraw <-] & Hrun)%M_bind_ok.
  destruct (_ !! "bank") as [j|] eqn:Hbank in Hraw; [|done]. injection Hraw as ->.
  apply M_bind_ok in Hrun as (bank & c1 & [= Hdec%or_panic_ok <-] & Hrun).
  apply M_bind_ok in Hrun as ([] & c1 & [= Hst <-] & Hrun). pose proof (check_stakes_ok _ _ _ Hst) as Hall.
  apply M_bind_ok in Hrun as (n & c1 & Hn & Hrun).
  assert (n ≤ NumBonded s) as Hle.
  { destruct (_ =? 0) in Hn; [|by injection Hn as <- _]. apply M_bind_ok in Hn as (r & c2 & Hr%Rand_Int63n_range & [= <- _]). lia. }
  apply M_bind_ok in Hrun as (oc & c2 & _ & Hrun). apply M_bind_ok in Hrun as (ap & c3 & _ & Hrun).
  apply M_bind_ok in Hrun as (txs & c4 & Htxs & Hrun).
  apply sim_gentxs_ok in Htxs as [Hlen Hfund].
  2:{ intros i Hi%elem_of_seqZ. apply Hall, elem_of_seqZ. lia. }
  apply M_bind_ok in Hrun as (last & c5 & _ & Hrun).
  apply M_bind_ok in Hrun as ([] & c6 & [= Hval%or_panic_ok <-] & Hrun).
  apply M_bind_ok in Hrun as (coin & c7 & [= Hcoin <-] & Hrun). apply M_bind_ok in Hrun as (coins & c8 & [= Hcoins <-] & Hrun).
  apply M_bind_ok in Hrun as (supply & c9 & [= Hsup <-] & [= <- _]).
  eexists raw, bank, _, _, supply. split_and!; [done|done| |exact Hval|reflexivity|exact Hle| | | |eauto].
  - cbn. rewrite lookup_insert_ne by done. apply lookup_insert_eq.
  - cbn. rewrite length_fmap, Hlen, length_seqZ. done.
  - cbn. by apply Forall_fmap.
  - cbn. apply lookup_insert_eq.
Qed.
End genesis_theorems.

(** A weight for the execution of contracts is lost: it becomes the weight of the instantiation. *)
Lemma execute_weight_misplaced appParams w :
  appParams !! OpWeightMsgExecuteContract = Some w →
  (twasm_weights appParams).1.2 = w ∧ (twasm_weights appParams).2 = 0.
Proof. intros Hw. unfold twasm_weights. by rewrite Hw. Qed.

(** A code that is picked is none of the first eleven, and the first that everybody may instantiate. *)
Lemma CodeIDSelector_spec codes :
  PetriSimulationCodeIDSelector codes =
    default 0 (fst ∘ snd <$> list_find (λ c, c.2 = true ∧ contract_type_names ≤ c.1) codes).
Proof.
  induction codes as [|[u e] codes IH]; [done|]. cbn [PetriSimulationCodeIDSelector list_find].
  destruct e; cbn [negb orb fst snd].
  - destruct (u <? contract_type_names) eqn:E.
    + apply Z.ltb_lt in E. rewrite decide_False by (cbn; lia). rewrite IH. by destruct (list_find _ codes) as [[]|].
    + apply Z.ltb_ge in E. by rewrite decide_True by (cbn; split; [done|lia]).
  - rewrite decide_False by (cbn; by intros [? _]). rewrite IH. by destruct (list_find _ codes) as [[]|].
Qed.

Lemma substring_all s : String.substring 0 (String.length s) s = s.
Proof. induction s as [|a s IH]; [done|]. cbn. by rewrite IH. Qed.
Lemma substring_prefix m s : (m ≤ String.length s)%nat → String.substring 0 m s +:+ tail m s = s.
Proof.
  unfold tail. revert s. induction m as [|m IH]; intros s Hle.
  - rewrite Nat.sub_0_r, substring_all. by destruct s.
  - destruct s as [|a s]; cbn in Hle; [lia|]. cbn [String.substring String.length Nat.sub].
    change (String a (String.substring 0 m s +:+ String.substring m (String.length s - m) s) = String a s).
    by rewrite IH by lia.
Qed.
Lemma tail_tail n m s : (n + m ≤ String.length s)%nat → tail m (tail n s) = tail (n + m) s ∧ String.length (tail n s) = (String.length s - n)%nat ∧
  String.substring 0 m (tail n s) = String.substring n m s.
Proof.
  unfold tail. revert s. induction n as [|n IH]; intros s Hle.
  - by rewrite Nat.sub_0_r, substring_all.
  - destruct s as [|a s]; cbn in Hle; [lia|]. cbn [String.substring String.length Nat.sub Nat.add]. apply IH. lia.
Qed.

(** The address and the path of a contract's entry are the key after its prefix, nothing is lost. *)
Lemma address_and_path_split `{Bech32} quote key :
  (ContractAddrLen + 1 < String.length key)%nat →
  ∃ addr, (address_and_path quote key).1 = AccAddress_String addr ∧ addr +:+ (address_and_path quote key).2 = tail 1 key.
Proof.
  intros Hlen. unfold address_and_path. rewrite decide_True by done. eexists. split; [reflexivity|]. cbn [snd].
  destruct (tail_tail 1 ContractAddrLen key) as (Ht & Hl & Hs); [unfold ContractAddrLen in *; lia|].
  rewrite <-Hs. change (ContractAddrLen + 1)%nat with (1 + ContractAddrLen)%nat. rewrite <-Ht. apply substring_prefix.
  rewrite Hl. unfold ContractAddrLen in *. lia.
Qed.
