(* ===== verification/AppWiring.v ===== *)
(** The construction of the application ([NewPetriApp] of app/app.go up to the loading of the state, and the
    constructors of the three modules that it calls).

    The constructor is run for its effects: it makes store keys and parameter subspaces, fills the fields of
    [PetriApp] one after the other and hands them on, by value or by reference, before it registers routes, modules
    and callbacks. Its state is the trace of what has been made so far, in order, with the arguments of every component.
    A field that is passed by value is copied as it is at that moment; [&app.f] sees what is assigned later.

    The registries of the SDK (subspaces, capabilities, routers, the module manager) refuse some calls with a panic:
    they are an interface with the documented conditions, as are the constructors of other modules. *)
From stdpp Require Import base list strings gmap sets.
From Stdlib Require Import ZArith Lia.
From S2P Require Import Prelude ProgramLogic Sdk RefStore Slice Json Privilege Wasm TwasmMsgs TwasmKeeper TwasmHandler GlobalFee PoETypes PoEMsgs PoEKeeper PoEContractIO PoEServer AppUpgrade AppAnte AppBlock AppWasm RefWorld RefPoE PoEExamples AppAnteProps.
Open Scope Z_scope.

(** The fields of [PetriApp] that hold keepers. *)
Inductive Field :=
  | accountKeeper | bankKeeper | capabilityKeeper | crisisKeeper | upgradeKeeper | paramsKeeper | ibcKeeper
  | transferKeeper | icaHostKeeper | feeGrantKeeper | authzKeeper | twasmKeeper | poeKeeper.
#[export] Instance Field_eq_dec : EqDecision Field.
Proof. solve_decision. Defined.

Inductive StoreKind := KVStoreKey | TransientStoreKey | MemoryStoreKey.
#[export] Instance StoreKind_eq_dec : EqDecision StoreKind.
Proof. solve_decision. Defined.

(** What a component is given: a store key ([keys[name]], nil when there is none), a subspace (empty when there is none),
    a scoped capability keeper, a field by value or by reference, a router. *)
Inductive Arg :=
  | Key (kind : StoreKind) (name : string)
  | Space (name : string)
  | Scoped (name : string)
  | Copy (f : Field)
  | Ref (f : Field)
  | GovRouterArg.
#[export] Instance Arg_eq_dec : EqDecision Arg.
Proof. solve_decision. Defined.

Inductive RouterKind := GovRoutes | IBCRoutes | MsgRoutes.
#[export] Instance RouterKind_eq_dec : EqDecision RouterKind.
Proof. solve_decision. Defined.
Inductive OrderKind := BeginBlockers | EndBlockers | InitGenesisOrder.
#[export] Instance OrderKind_eq_dec : EqDecision OrderKind.
Proof. solve_decision. Defined.
Inductive ServiceKind := MsgServer | QueryServer.
#[export] Instance ServiceKind_eq_dec : EqDecision ServiceKind.
Proof. solve_decision. Defined.

(** One step of the construction. *)
Inductive Act :=
  | NewKey (kind : StoreKind) (name : string)
  | NewSpace (name : string)
  | SetKeyTable (name : string)
  | Scope (name : string)
  | SealScopes
  | Assign (f : Field) (args : list Arg)
  | Route (r : RouterKind) (name : string) (args : list Arg)
  | SealRoutes (r : RouterKind)
  | Component (name : string) (args : list Arg)
  | Module (m : AppModuleName) (args : list Arg)
  | SimModule (m : AppModuleName) (args : list Arg)
  | Order (o : OrderKind) (ms : list AppModuleName)
  | Service (k : ServiceKind) (name : string) (args : list Arg)
  | UpgradeHandler (name : string)
  | Mount (kind : StoreKind) (name : string)
  | Callback (name : string) (args : list Arg).
#[export] Instance Act_eq_dec : EqDecision Act.
Proof. solve_decision. Defined.
Abbreviation Trace := (list Act).

(** What the trace says has been registered. *)
Definition spaces (tr : Trace) : list string := omap (λ a, match a with NewSpace s => Some s | _ => None end) tr.
Definition tables (tr : Trace) : list string := omap (λ a, match a with SetKeyTable s => Some s | _ => None end) tr.
Definition scopes (tr : Trace) : list string := omap (λ a, match a with Scope s => Some s | _ => None end) tr.
Definition routes (r : RouterKind) (tr : Trace) : list string :=
  omap (λ a, match a with Route r' s _ => if decide (r = r') then Some s else None | _ => None end) tr.
Definition modules (tr : Trace) : list AppModuleName := omap (λ a, match a with Module m _ => Some m | _ => None end) tr.
Definition store_keys (tr : Trace) : list (StoreKind * string) :=
  omap (λ a, match a with NewKey k s => Some (k, s) | _ => None end) tr.
Definition mounted (tr : Trace) : list (StoreKind * string) :=
  omap (λ a, match a with Mount k s => Some (k, s) | _ => None end) tr.
Definition assigned (tr : Trace) : list Field := omap (λ a, match a with Assign f _ => Some f | _ => None end) tr.
Definition sealed (a : Act) (tr : Trace) : bool := bool_decide (a ∈ tr).

(** The SDK: each call gets what the registry has so far. *)
Class SdkSetup := {
  (** [paramsKeeper.Subspace(name)] *)
  Subspace : list string → string → outcome ();
  (** [subspace.WithKeyTable(table)]; whether the subspace exists and whether it has a table *)
  WithKeyTable : bool → bool → outcome ();
  (** [capabilityKeeper.ScopeToModule(name)]; whether the keeper is sealed *)
  ScopeToModule : bool → list string → string → outcome ();
  (** [AddRoute]; whether the router is sealed *)
  AddRoute : RouterKind → bool → list string → string → outcome ();
  (** [SetOrder...] *)
  SetOrder : list AppModuleName → list AppModuleName → outcome ();
  (** [MountKVStores] and the like, store by store *)
  MountStore : list (StoreKind * string) → StoreKind * string → outcome ();
  (** The constructor of a keeper of another module, with its arguments and the module accounts there are. *)
  NewForeign : Field → list Arg → list string → outcome ();
}.

Section construction.
Context `{!SdkSetup}.
Abbreviation B := (M Trace).

Definition act (a : Act) : B () := modify (λ tr, tr ++ [a]).
(** A call that may be refused, and what it adds. *)
Definition guarded (g : Trace → outcome ()) (a : Act) : B () := tr ← gets id; lift (g tr) ;; act a.

Definition new_subspace (name : string) : B () := guarded (λ tr, Subspace (spaces tr) name) (NewSpace name).
(** [HasKeyTable] and [WithKeyTable] of the subspace [app.getSubspace(name)]; an empty one has no table. *)
Definition HasKeyTable (name : string) (tr : Trace) : bool := bool_decide (name ∈ tables tr).
Definition with_key_table (name : string) : B () :=
  guarded (λ tr, WithKeyTable (bool_decide (name ∈ spaces tr)) (HasKeyTable name tr)) (SetKeyTable name).
Definition scope_to_module (name : string) : B () :=
  guarded (λ tr, ScopeToModule (sealed SealScopes tr) (scopes tr) name) (Scope name).
Definition add_route (r : RouterKind) (name : string) (args : list Arg) : B () :=
  guarded (λ tr, AddRoute r (sealed (SealRoutes r) tr) (routes r tr) name) (Route r name args).
Definition set_order (o : OrderKind) (ms : list AppModuleName) : B () :=
  guarded (λ tr, SetOrder (modules tr) ms) (Order o ms).
Definition mount (k : StoreKind * string) : B () := guarded (λ tr, MountStore (mounted tr) k) (Mount k.1 k.2).
Definition new_foreign (f : Field) (args : list Arg) : B () :=
  guarded (λ _, NewForeign f args maccPerms.*1) (Assign f args).

(** ** Constructors of the three modules *)

(** [poekeeper.NewKeeper(key, paramSpace, twasmKeeper, accountKeeper)]; the account keeper is only asked for the pool. *)
Definition poe_NewKeeper (key space : string) (twasmK ak : Arg) : B () :=
  has ← gets (HasKeyTable space);
  (if (has : bool) then mret () else with_key_table space) ;;
  if bool_decide (BondedPoolName ∈ maccPerms.*1)
  then act (Assign poeKeeper [Key KVStoreKey key; Space space; twasmK])
  else panic "%s module account has not been set".

(** [twasmkeeper.NewKeeper]: wasmd's keeper is embedded, and the governance router is kept. *)
Definition twasm_NewKeeper (key space : string) (args : list Arg) : B () :=
  new_foreign twasmKeeper (Key KVStoreKey key :: Space space :: args ++ [GovRouterArg]).

(** [globalfee.NewAppModule(paramSpace)] *)
Definition globalfee_NewAppModule (space : string) : B (list Arg) :=
  has ← gets (HasKeyTable space);
  (if (has : bool) then mret () else with_key_table space) ;;
  mret [Space space].
(** [globalfee.NewGlobalMinimumChainFeeDecorator(paramSpace)] *)
Definition NewGlobalMinimumChainFeeDecorator (space : string) : B () :=
  has ← gets (HasKeyTable space);
  if (has : bool) then mret () else panic "paramspace was not set up via module".
(** [poe.NewDeductFeeDecorator(ak, bankKeeper, feegrantKeeper, contractSource)] *)
Definition NewDeductFeeDecorator (ak bk fk cs : Arg) : list Arg := [ak; bk; fk; cs].

(** [poe.NewAppModule] and [twasm.NewAppModule]: the keepers they get. *)
Definition poe_NewAppModule (poeK twasmK bankK accountK contractK : Arg) : list Arg := [poeK; twasmK; bankK; accountK; contractK].
Definition twasm_NewAppModule (keeper ak bk : Arg) : list Arg := [keeper; ak; bk].

(** [twasm.ReadWasmConfig(appOpts)] *)
Definition ReadWasmConfig {Cfg} (wasm_ReadWasmConfig : outcome Cfg) : outcome Cfg := wrap "wasm" wasm_ReadWasmConfig.

(** [RegisterServices] and [Route] of the modules of this repository, with the fields of the module that they use. *)
Definition poe_RegisterServices (poeK contractK twasmK : Arg) : B () :=
  act (Service QueryServer "confio.poe.v1beta1.Query" [poeK]) ;;
  act (Service MsgServer "confio.poe.v1beta1.Msg" [poeK; contractK; twasmK]) ;;
  act (Service QueryServer "cosmos.staking.v1beta1.Query" [poeK]) ;;
  act (Service QueryServer "cosmos.slashing.v1beta1.Query" [poeK]) ;;
  act (Service QueryServer "cosmos.distribution.v1beta1.Query" [poeK]).
Definition poe_Route (poeK contractK twasmK : Arg) : B () := add_route MsgRoutes "poe" [poeK; contractK; twasmK].
Definition twasm_RegisterServices (keeper : Arg) : B () :=
  act (Service QueryServer "confio.twasm.v1beta1.Query" [keeper]) ;;
  act (Service MsgServer "cosmwasm.wasm.v1.Msg" [keeper]) ;;
  act (Service QueryServer "cosmwasm.wasm.v1.Query" [keeper]).
Definition twasm_Route (keeper : Arg) : B () := add_route MsgRoutes "wasm" [keeper].
Definition globalfee_RegisterServices (paramSpace : Arg) : B () :=
  act (Service QueryServer "confio.globalfee.v1beta1.Query" [paramSpace]).

(** ** [NewPetriApp], section by section *)

(** Names of stores, subspaces and routes: the constants of the modules. *)
Definition kv_stores : list string :=
  ["acc"; "bank"; "params"; "ibc"; "upgrade"; "transfer"; "capability"; "feegrant"; "authz"; "wasm"; "poe"; "icahost"].
Definition make_keys : B () :=
  forM kv_stores (λ k, act (NewKey KVStoreKey k)) ;;
  act (NewKey TransientStoreKey "transient_params") ;;
  act (NewKey MemoryStoreKey "mem_capability").

Definition make_params : B () :=
  forM initParamsKeeper new_subspace ;;
  act (Assign paramsKeeper [Key KVStoreKey "params"; Key TransientStoreKey "transient_params"]) ;;
  new_subspace "baseapp" ;;
  with_key_table "baseapp" ;;
  act (Callback "SetParamStore" [Space "baseapp"]).

Definition make_capabilities : B () :=
  new_foreign capabilityKeeper [Key KVStoreKey "capability"; Key MemoryStoreKey "mem_capability"] ;;
  scope_to_module "ibc" ;;
  scope_to_module "icahost" ;;
  scope_to_module "transfer" ;;
  scope_to_module "wasm" ;;
  act SealScopes.

Definition make_sdk_keepers : B () :=
  new_foreign accountKeeper [Key KVStoreKey "acc"; Space "auth"] ;;
  new_foreign bankKeeper [Key KVStoreKey "bank"; Copy accountKeeper; Space "bank"] ;;
  new_foreign authzKeeper [Key KVStoreKey "authz"] ;;
  new_foreign feeGrantKeeper [Key KVStoreKey "feegrant"; Copy accountKeeper] ;;
  new_foreign crisisKeeper [Space "crisis"; Copy bankKeeper] ;;
  new_foreign upgradeKeeper [Key KVStoreKey "upgrade"].

(** The field [ibcKeeper] is a pointer: its parts can only be used when it is set. *)
Definition deref (f : Field) : B () :=
  ok ← gets (λ tr, bool_decide (f ∈ assigned tr));
  if (ok : bool) then mret () else panic "invalid memory address or nil pointer dereference".

Definition make_ibc : B () :=
  new_foreign ibcKeeper [Key KVStoreKey "ibc"; Space "ibc"; Ref poeKeeper; Copy upgradeKeeper; Scoped "ibc"] ;;
  add_route GovRoutes "gov" [] ;;
  add_route GovRoutes "params" [Copy paramsKeeper] ;;
  add_route GovRoutes "upgrade" [Copy upgradeKeeper] ;;
  deref ibcKeeper ;;
  add_route GovRoutes "client" [Copy ibcKeeper].

Definition make_ibc_apps : B () :=
  deref ibcKeeper ;;
  new_foreign transferKeeper [Key KVStoreKey "transfer"; Space "transfer"; Copy ibcKeeper; Copy accountKeeper; Copy bankKeeper;
    Scoped "transfer"] ;;
  act (Component "transfer.NewAppModule" [Copy transferKeeper]) ;;
  act (Component "transfer.NewIBCModule" [Copy transferKeeper]) ;;
  new_foreign icaHostKeeper [Key KVStoreKey "icahost"; Space "icahost"; Copy ibcKeeper; Copy accountKeeper; Scoped "icahost"] ;;
  act (Component "ica.NewAppModule" [Ref icaHostKeeper]) ;;
  act (Component "icahost.NewIBCModule" [Copy icaHostKeeper]).

(** The governance router is shared: the route that is added last is seen by the handlers that have it already. *)
Definition make_twasm {Cfg} (wasm_ReadWasmConfig : outcome Cfg) : B Cfg :=
  twasmConfig ← lift (match ReadWasmConfig wasm_ReadWasmConfig with
                      | Err _ => Panic "error while reading wasm config: "
                      | o => o
                      end);
  act (Component "SetupWasmHandlers" [Copy bankKeeper; GovRouterArg; Ref twasmKeeper; Ref poeKeeper]) ;;
  deref ibcKeeper ;;
  twasm_NewKeeper "wasm" "wasm" [Copy accountKeeper; Copy bankKeeper; Copy ibcKeeper; Scoped "wasm"; Copy transferKeeper] ;;
  add_route GovRoutes "wasm" [Copy twasmKeeper] ;;
  mret twasmConfig.

Definition make_ibc_router : B () :=
  deref ibcKeeper ;;
  add_route IBCRoutes "wasm" [Copy twasmKeeper; Copy ibcKeeper] ;;
  add_route IBCRoutes "transfer" [Copy transferKeeper] ;;
  add_route IBCRoutes "icahost" [Copy icaHostKeeper] ;;
  act (SealRoutes IBCRoutes).

Definition make_poe : B () := poe_NewKeeper "poe" "poe" (Copy twasmKeeper) (Copy accountKeeper).

Definition app_poe_module : list Arg :=
  poe_NewAppModule (Ref poeKeeper) (Ref twasmKeeper) (Copy bankKeeper) (Copy accountKeeper) (Copy twasmKeeper).
Definition app_twasm_module : list Arg := twasm_NewAppModule (Ref twasmKeeper) (Copy accountKeeper) (Copy bankKeeper).
Definition make_manager : B () :=
  deref capabilityKeeper ;;
  globalfeeModule ← globalfee_NewAppModule "globalfee";
  act (Module poe_ModuleName app_poe_module) ;;
  act (Module authtypes_ModuleName [Copy accountKeeper]) ;;
  act (Module vestingtypes_ModuleName [Copy accountKeeper; Copy bankKeeper]) ;;
  act (Module banktypes_ModuleName [Copy bankKeeper; Copy accountKeeper]) ;;
  act (Module capabilitytypes_ModuleName [Copy capabilityKeeper]) ;;
  act (Module upgradetypes_ModuleName [Copy upgradeKeeper]) ;;
  act (Module twasm_ModuleName app_twasm_module) ;;
  act (Module feegrant_ModuleName [Copy accountKeeper; Copy bankKeeper; Copy feeGrantKeeper]) ;;
  act (Module authz_ModuleName [Copy authzKeeper; Copy accountKeeper; Copy bankKeeper]) ;;
  act (Module ibchost_ModuleName [Copy ibcKeeper]) ;;
  act (Module paramstypes_ModuleName [Copy paramsKeeper]) ;;
  act (Module ibctransfertypes_ModuleName [Copy transferKeeper]) ;;
  act (Module globalfee_ModuleName globalfeeModule) ;;
  act (Module icatypes_ModuleName [Ref icaHostKeeper]) ;;
  act (Module crisistypes_ModuleName [Ref crisisKeeper]).

(** The names of [Upgrades], each with its handler. *)
Definition upgradeNames : list string := ["v2"; "v3"].
Definition make_orders : B () :=
  set_order BeginBlockers OrderBeginBlockers ;;
  set_order EndBlockers OrderEndBlockers ;;
  set_order InitGenesisOrder OrderInitGenesis.

(** The message routes and the services of the modules of this repository, and the upgrade handlers. The manager goes through a
    map: the order of the modules is not fixed, and no call depends on it. The route of x/globalfee is empty and is skipped. *)
Definition make_services : B () :=
  act (Callback "RegisterInvariants" [Ref crisisKeeper]) ;;
  poe_Route (Ref poeKeeper) (Copy twasmKeeper) (Ref twasmKeeper) ;;
  twasm_Route (Ref twasmKeeper) ;;
  poe_RegisterServices (Ref poeKeeper) (Copy twasmKeeper) (Ref twasmKeeper) ;;
  twasm_RegisterServices (Ref twasmKeeper) ;;
  globalfee_RegisterServices (Space "globalfee") ;;
  forM upgradeNames (λ u, act (UpgradeHandler u)).

Definition make_simulation : B () :=
  act (SimModule authtypes_ModuleName [Copy accountKeeper]) ;;
  act (SimModule banktypes_ModuleName [Copy bankKeeper; Copy accountKeeper]) ;;
  act (SimModule capabilitytypes_ModuleName [Copy capabilityKeeper]) ;;
  act (SimModule feegrant_ModuleName [Copy accountKeeper; Copy bankKeeper; Copy feeGrantKeeper]) ;;
  act (SimModule paramstypes_ModuleName [Copy paramsKeeper]) ;;
  act (SimModule twasm_ModuleName app_twasm_module) ;;
  act (SimModule poe_ModuleName app_poe_module) ;;
  act (SimModule ibchost_ModuleName [Copy ibcKeeper]) ;;
  act (SimModule ibctransfertypes_ModuleName [Copy transferKeeper]) ;;
  globalfeeModule ← globalfee_NewAppModule "globalfee";
  act (SimModule globalfee_ModuleName globalfeeModule) ;;
  act (Callback "RegisterStoreDecoders" []).

Definition make_stores : B () :=
  tr ← gets id;
  forM (store_keys tr) mount.

(** The options of the ante handler: of the interfaces only [bankKeeper] and [ibcKeeper] are fields that may be nil; the others
    hold values. The decorators are made in the order of the chain. *)
Section ante.
Context {W T Consumer : Type} `{!KVStore W, !SdkDec, !FeeParams W, !FeeKeepers W, !StakingTypes, !SdkCoins,
  !ForeignDecorators W T Consumer}.
Variable fee_tx : T → option SdkFeeTx.

Definition ante_options (simulationGasLimit : option Z) (tr : Trace) : HandlerOptions Consumer :=
  mkHandlerOptions Consumer true (bool_decide (bankKeeper ∈ assigned tr)) true true
    (Some DefaultSigVerificationGasConsumer) (bool_decide (ibcKeeper ∈ assigned tr))
    (Some simulationGasLimit) (Some "wasm") (if bool_decide ("globalfee" ∈ spaces tr) then "globalfee" else "") true.
Definition make_ante (simulationGasLimit : option Z) : B (AnteHandler W T) :=
  tr ← gets id;
  match NewAnteHandler fee_tx (ante_options simulationGasLimit tr) with
  | Ok handler =>
      NewGlobalMinimumChainFeeDecorator "globalfee" ;;
      act (Callback "SetAnteHandler" (Copy ibcKeeper :: Key KVStoreKey "wasm" :: Space "globalfee" ::
        NewDeductFeeDecorator (Copy accountKeeper) (Copy bankKeeper) (Copy feeGrantKeeper) (Ref poeKeeper))) ;;
      act (Callback "SetInitChainer" []) ;;
      act (Callback "SetBeginBlocker" []) ;;
      act (Callback "SetEndBlocker" []) ;;
      mret handler
  | Err _ => panic "failed to create AnteHandler: %s"
  | Panic p => panic p
  end.

(** [None] without a snapshot manager; [RegisterExtensions] may fail. *)
Definition make_snapshots (RegisterExtensions : option (outcome ())) : B () :=
  match RegisterExtensions with
  | None => mret ()
  | Some (Ok _) => act (Callback "RegisterExtensions" [Ref twasmKeeper])
  | Some (Err _) => panic "failed to register snapshot extension: %s"
  | Some (Panic p) => panic p
  end.

(** [NewPetriApp] without the loading of the state; the configuration of wasm is the gas limit of simulations. *)
Definition NewPetriApp (wasm_ReadWasmConfig : outcome (option Z)) (RegisterExtensions : option (outcome ())) : B (AnteHandler W T) :=
  make_keys ;;
  make_params ;;
  make_capabilities ;;
  make_sdk_keepers ;;
  make_ibc ;;
  make_ibc_apps ;;
  twasmConfig ← make_twasm wasm_ReadWasmConfig;
  make_ibc_router ;;
  make_poe ;;
  make_manager ;;
  make_orders ;;
  make_services ;;
  make_simulation ;;
  make_stores ;;
  handler ← make_ante twasmConfig;
  make_snapshots RegisterExtensions ;;
  mret handler.
End ante.
End construction.

(** * Theorems *)

(** [sdk.IsAlphaNumeric] *)
Definition alphanumeric (s : string) : bool :=
  match s with "" => false | _ => forallb (λ a, let z := of_byte a in
    (48 <=? z) && (z <=? 57) || (65 <=? z) && (z <=? 90) || (97 <=? z) && (z <=? 122)) (String.list_ascii_of_string s) end.

(** The arguments that are there, given what was made before. *)
Definition arg_ok (before : Trace) (a : Arg) : Prop :=
  match a with
  | Key k s => (k, s) ∈ store_keys before
  | Space s => s ∈ spaces before
  | Scoped s => s ∈ scopes before
  | Copy f => f ∈ assigned before
  | Ref _ | GovRouterArg => True
  end.
#[export] Instance arg_ok_dec before a : Decision (arg_ok before a).
Proof. destruct a; cbn; apply _. Defined.

(** The module accounts that the constructors of other modules ask for. *)
Definition required_accounts (f : Field) : list string :=
  match f with transferKeeper => ["transfer"] | icaHostKeeper => ["interchainaccounts"] | _ => [] end.

(** When the SDK does not refuse a call. *)
Class SdkSetupLaws `{SdkSetup} := {
  Subspace_new occupied s : s ∉ occupied → s ≠ "" → Subspace occupied s = Ok ();
  WithKeyTable_new : WithKeyTable true false = Ok ();
  ScopeToModule_new taken s : s ∉ taken → s ≠ "" → ScopeToModule false taken s = Ok ();
  AddRoute_new r taken s : s ∉ taken → alphanumeric s = true → AddRoute r false taken s = Ok ();
  SetOrder_complete ms order : (∀ m, m ∈ ms → m ∈ order) → SetOrder ms order = Ok ();
  MountStore_new taken k : k ∉ taken → MountStore taken k = Ok ();
  NewForeign_accounts f args accounts : (∀ a, a ∈ required_accounts f → a ∈ accounts) → NewForeign f args accounts = Ok ();
  (** Names that are taken, tables that are set, forgotten modules and missing accounts are refused. *)
  Subspace_taken occupied s : s ∈ occupied → is_panic (Subspace occupied s) = true;
  WithKeyTable_refused exists_ has : exists_ = false ∨ has = true → is_panic (WithKeyTable exists_ has) = true;
  AddRoute_taken r b taken s : s ∈ taken → is_panic (AddRoute r b taken s) = true;
  SetOrder_forgotten ms order m : m ∈ ms → m ∉ order → is_panic (SetOrder ms order) = true;
  NewForeign_missing f args accounts a : a ∈ required_accounts f → a ∉ accounts → is_panic (NewForeign f args accounts) = true;
}.

Definition act_args (a : Act) : list Arg :=
  match a with
  | Assign _ args | Route _ _ args | Component _ args | Module _ args | SimModule _ args | Service _ _ args | Callback _ args => args
  | _ => []
  end.

(** A run from one trace to another, whatever the events are. *)
Definition runs {A} (m : M Trace A) (tr : Trace) (a : A) (tr' : Trace) : Prop :=
  ∀ es, m (mkCtx tr es) = (Ok a, mkCtx tr' es).

Lemma runs_bind {A B} (m : M Trace A) (f : A → M Trace B) tr a tr1 b tr2 :
  runs m tr a tr1 → runs (f a) tr1 b tr2 → runs (m ≫= f) tr b tr2.
Proof. intros Hm Hf es. unfold mbind, M_bind. rewrite Hm. apply Hf. Qed.
Lemma runs_ret {A} (a : A) tr : runs (mret a) tr a tr.
Proof. done. Qed.
Lemma runs_gets {A} (f : Trace → A) tr : runs (gets f) tr (f tr) tr.
Proof. done. Qed.
Lemma runs_act a tr : runs (act a) tr () (tr ++ [a]).
Proof. done. Qed.
Lemma runs_lift {A} (o : outcome A) a tr : o = Ok a → runs (lift o) tr a tr.
Proof. by intros -> es. Qed.
Lemma runs_guarded g a tr : g tr = Ok () → runs (guarded g a) tr () (tr ++ [a]).
Proof.
  intros Hg. unfold guarded. eapply runs_bind; [apply runs_gets|]. cbn [id].
  eapply runs_bind; [by apply runs_lift|]. apply runs_act.
Qed.
Lemma runs_forM_nil {A} (f : A → M Trace ()) tr : runs (forM [] f) tr () tr.
Proof. done. Qed.
Lemma runs_forM_cons {A} x xs (f : A → M Trace ()) tr tr1 tr2 :
  runs (f x) tr () tr1 → runs (forM xs f) tr1 () tr2 → runs (forM (x :: xs) f) tr () tr2.
Proof. intros Hx Hxs. cbn [forM]. by eapply runs_bind. Qed.

Lemma runs_eq {A} (m : M Trace A) tr a tr1 tr2 : runs m tr a tr1 → tr1 = tr2 → runs m tr a tr2.
Proof. by intros ? <-. Qed.

(** Decidable facts about a concrete trace. *)
Ltac on_trace := apply (bool_decide_unpack _); vm_compute; exact I.

Section runs.
Context `{!SdkSetup, !SdkSetupLaws}.

Lemma runs_subspace s tr : (s ∉ spaces tr) ∧ s ≠ "" → runs (new_subspace s) tr () (tr ++ [NewSpace s]).
Proof. intros [? ?]. by apply runs_guarded, Subspace_new. Qed.
Lemma runs_key_table s tr : s ∈ spaces tr ∧ s ∉ tables tr → runs (with_key_table s) tr () (tr ++ [SetKeyTable s]).
Proof.
  intros [? ?]. apply runs_guarded. unfold HasKeyTable. rewrite bool_decide_eq_true_2, bool_decide_eq_false_2 by done.
  apply WithKeyTable_new.
Qed.
Lemma runs_scope s tr : (s ∉ scopes tr) ∧ s ≠ "" ∧ SealScopes ∉ tr → runs (scope_to_module s) tr () (tr ++ [Scope s]).
Proof.
  intros (? & ? & ?). apply runs_guarded. unfold sealed. rewrite bool_decide_eq_false_2 by done. by apply ScopeToModule_new.
Qed.
Lemma runs_route r s args tr :
  (s ∉ routes r tr) ∧ alphanumeric s = true ∧ SealRoutes r ∉ tr → runs (add_route r s args) tr () (tr ++ [Route r s args]).
Proof.
  intros (? & ? & ?). apply runs_guarded. unfold sealed. rewrite bool_decide_eq_false_2 by done. by apply AddRoute_new.
Qed.
Lemma runs_order o ms tr : Forall (.∈ ms) (modules tr) → runs (set_order o ms) tr () (tr ++ [Order o ms]).
Proof. intros Hall. apply runs_guarded, SetOrder_complete. by apply Forall_forall. Qed.
Lemma runs_mount k tr : k ∉ mounted tr → runs (mount k) tr () (tr ++ [Mount k.1 k.2]).
Proof. intros Hk. by apply runs_guarded, MountStore_new. Qed.
Lemma runs_foreign f args tr :
  Forall (.∈ maccPerms.*1) (required_accounts f) → runs (new_foreign f args) tr () (tr ++ [Assign f args]).
Proof. intros Hall. apply runs_guarded, NewForeign_accounts. by apply Forall_forall. Qed.
Lemma runs_deref f tr : f ∈ assigned tr → runs (deref f) tr () tr.
Proof.
  intros Hf. unfold deref. eapply runs_bind; [apply runs_gets|]. cbn beta. rewrite bool_decide_eq_true_2 by done. apply runs_ret.
Qed.

(** Subspaces keep their table: the second module of x/globalfee finds that of the first. *)
Lemma runs_globalfee_first s tr :
  s ∈ spaces tr ∧ s ∉ tables tr → runs (globalfee_NewAppModule s) tr [Space s] (tr ++ [SetKeyTable s]).
Proof.
  intros Hs. unfold globalfee_NewAppModule. eapply runs_bind; [apply runs_gets|]. unfold HasKeyTable at 1.
  rewrite (bool_decide_eq_false_2 (s ∈ tables tr)) by apply Hs. eapply runs_bind; [by apply runs_key_table|]. apply runs_ret.
Qed.
Lemma runs_globalfee_again s tr : s ∈ tables tr → runs (globalfee_NewAppModule s) tr [Space s] tr.
Proof.
  intros Hs. unfold globalfee_NewAppModule. eapply runs_bind; [apply runs_gets|]. unfold HasKeyTable.
  rewrite bool_decide_eq_true_2 by done. eapply runs_bind; apply runs_ret.
Qed.
Lemma runs_poe_NewKeeper key s twasmK ak tr :
  s ∈ spaces tr ∧ s ∉ tables tr →
  runs (poe_NewKeeper key s twasmK ak) tr () ((tr ++ [SetKeyTable s]) ++ [Assign poeKeeper [Key KVStoreKey key; Space s; twasmK]]).
Proof.
  intros Hs. unfold poe_NewKeeper. eapply runs_bind; [apply runs_gets|]. unfold HasKeyTable at 1.
  rewrite (bool_decide_eq_false_2 (s ∈ tables tr)) by apply Hs. eapply runs_bind; [by apply runs_key_table|].
  rewrite bool_decide_eq_true_2 by on_trace. apply runs_act.
Qed.
End runs.

Ltac run_step :=
  lazymatch goal with
  | |- runs (_ ≫= _) _ _ _ => eapply runs_bind
  | |- runs (act _) _ _ _ => apply runs_act
  | |- runs (mret _) _ _ _ => apply runs_ret
  | |- runs (forM [] _) _ _ _ => apply runs_forM_nil
  | |- runs (forM (_ :: _) _) _ _ _ => eapply runs_forM_cons
  | |- runs (new_subspace _) _ _ _ => apply runs_subspace; on_trace
  | |- runs (with_key_table _) _ _ _ => apply runs_key_table; on_trace
  | |- runs (scope_to_module _) _ _ _ => apply runs_scope; on_trace
  | |- runs (add_route _ _ _) _ _ _ => apply runs_route; on_trace
  | |- runs (set_order _ _) _ _ _ => apply runs_order; on_trace
  | |- runs (mount _) _ _ _ => apply runs_mount; on_trace
  | |- runs (new_foreign _ _) _ _ _ => apply runs_foreign; on_trace
  | |- runs (deref _) _ _ _ => apply runs_deref; on_trace
  end.

(** ** Use after construction *)

(** Every step only uses what was made before it. *)
Fixpoint in_order (before tr : Trace) : Prop :=
  match tr with
  | [] => True
  | a :: tr' => Forall (arg_ok before) (act_args a) ∧ in_order (before ++ [a]) tr'
  end.
#[export] Instance in_order_dec before tr : Decision (in_order before tr).
Proof. revert before. induction tr as [|a tr IH]; intros before; cbn [in_order]; apply _. Defined.
Lemma in_order_split before pre a post : in_order before (pre ++ a :: post) → Forall (arg_ok (before ++ pre)) (act_args a).
Proof.
  revert before. induction pre as [|b pre IH]; intros before; cbn [in_order app].
  - rewrite app_nil_r. by intros [? _].
  - intros [_ Hpre]. apply IH in Hpre. by rewrite <-app_assoc in Hpre.
Qed.

(** ** The application is built *)
#[export] Instance Field_finite : finite.Finite Field.
Proof.
  refine {| finite.enum := [accountKeeper; bankKeeper; capabilityKeeper; crisisKeeper; upgradeKeeper; paramsKeeper; ibcKeeper;
    transferKeeper; icaHostKeeper; feeGrantKeeper; authzKeeper; twasmKeeper; poeKeeper] |}.
  - apply (bool_decide_unpack _). vm_compute. exact I.
  - intros []; apply (bool_decide_unpack _); vm_compute; exact I.
Defined.

(** An order has all the modules and no others. *)
Definition order_complete (ms : list AppModuleName) (a : Act) : Prop :=
  match a with Order _ order => Forall (.∈ order) ms ∧ Forall (.∈ ms) order | _ => True end.
#[export] Instance order_complete_dec ms a : Decision (order_complete ms a).
Proof. destruct a; cbn; apply _. Defined.

(** What a finished construction is. *)
Record Wired (tr : Trace) : Prop := mkWired {
  wired_in_order pre a post : tr = pre ++ a :: post → Forall (arg_ok pre) (act_args a);
  wired_assigned f : f ∈ assigned tr;
  wired_once : NoDup (assigned tr);
  (** The keeper of x/poe is assigned after its users are built: they have it by reference. *)
  wired_poe_shared : Forall (λ a, Copy poeKeeper ∉ act_args a) tr;
  wired_gov : routes GovRoutes tr = ["gov"; "params"; "upgrade"; "client"; "wasm"];
  wired_ibc : routes IBCRoutes tr = ["wasm"; "transfer"; "icahost"];
  wired_stores : mounted tr = store_keys tr;
  wired_spaces : Forall (.∈ spaces tr) (tables tr) ∧ NoDup (tables tr);
  wired_orders : Forall (order_complete (modules tr)) tr;
}.

Lemma assigned_app tr1 tr2 : assigned (tr1 ++ tr2) = assigned tr1 ++ assigned tr2.
Proof. apply omap_app. Qed.
Lemma routes_app r tr1 tr2 : routes r (tr1 ++ tr2) = routes r tr1 ++ routes r tr2.
Proof. apply omap_app. Qed.

Section built.
Context `{!SdkSetup, SetupLaws : !SdkSetupLaws} {W T Consumer : Type} `{!KVStore W, !SdkDec, !FeeParams W, !FeeKeepers W,
  !StakingTypes, !SdkCoins, !ForeignDecorators W T Consumer}.
Variable fee_tx : T → option SdkFeeTx.

Lemma runs_make_ante limit tr :
  bankKeeper ∈ assigned tr ∧ ibcKeeper ∈ assigned tr ∧ "globalfee" ∈ spaces tr ∧ "globalfee" ∈ tables tr →
  runs (make_ante fee_tx limit) tr (ChainAnteDecorators (anteDecorators fee_tx limit "wasm" DefaultSigVerificationGasConsumer))
    (tr ++ [Callback "SetAnteHandler" [Copy ibcKeeper; Key KVStoreKey "wasm"; Space "globalfee"; Copy accountKeeper; Copy bankKeeper;
              Copy feeGrantKeeper; Ref poeKeeper];
            Callback "SetInitChainer" []; Callback "SetBeginBlocker" []; Callback "SetEndBlocker" []]).
Proof.
  intros (Hb & Hi & Hs & Ht). unfold make_ante. eapply runs_bind; [apply runs_gets|]. unfold ante_options. cbn [id].
  rewrite !bool_decide_eq_true_2 by done. unfold NewAnteHandler, is_set, required, check.
  rewrite bool_decide_eq_false_2 by done. cbn -[ChainAnteDecorators anteDecorators runs].
  eapply runs_bind.
  { unfold NewGlobalMinimumChainFeeDecorator, HasKeyTable. eapply runs_bind; [apply runs_gets|]. cbn beta.
    rewrite bool_decide_eq_true_2 by done. apply runs_ret. }
  eapply runs_eq; [repeat run_step|]. by rewrite <-!app_assoc.
Qed.
Lemma runs_make_twasm {Cfg} (cfg : Cfg) tr :
  ibcKeeper ∈ assigned tr ∧ ("wasm" ∉ routes GovRoutes tr) ∧ (SealRoutes GovRoutes ∉ tr) →
  runs (make_twasm (Ok cfg)) tr cfg
    (tr ++ [Component "SetupWasmHandlers" [Copy bankKeeper; GovRouterArg; Ref twasmKeeper; Ref poeKeeper];
            Assign twasmKeeper [Key KVStoreKey "wasm"; Space "wasm"; Copy accountKeeper; Copy bankKeeper; Copy ibcKeeper; Scoped "wasm";
              Copy transferKeeper; GovRouterArg];
            Route GovRoutes "wasm" [Copy twasmKeeper]]).
Proof.
  intros (Hi & Hw & Hs). unfold make_twasm, ReadWasmConfig, twasm_NewKeeper. eapply runs_bind; [by apply runs_lift|].
  eapply runs_bind; [apply runs_act|]. eapply runs_bind.
  { apply runs_deref. by rewrite assigned_app, elem_of_app; left. }
  eapply runs_bind; [run_step|]. eapply runs_eq; [eapply runs_bind; [|apply runs_ret]|].
  - apply runs_route. rewrite !routes_app, !elem_of_app. set_solver.
  - by rewrite <-!app_assoc.
Qed.
Lemma runs_make_stores tr tr' : runs (forM (store_keys tr) mount) tr () tr' → runs make_stores tr () tr'.
Proof. intros Hm. unfold make_stores. eapply runs_bind; [apply runs_gets|]. exact Hm. Qed.

(** A step that panics ends the construction. *)
Definition interrupted {A} (m : M Trace A) (tr : Trace) : Prop := ∀ es, is_panic (m (mkCtx tr es)).1 = true.
Lemma interrupted_bind {A B} (m : M Trace A) (f : A → M Trace B) tr : interrupted m tr → interrupted (m ≫= f) tr.
Proof. intros Hm es. specialize (Hm es). unfold mbind, M_bind. by destruct (m _) as [[] ?]. Qed.
Lemma interrupted_after {A B} (m : M Trace A) (f : A → M Trace B) tr a tr' : runs m tr a tr' → interrupted (f a) tr' → interrupted (m ≫= f) tr.
Proof. intros Hm Hf es. unfold mbind, M_bind. rewrite Hm. apply Hf. Qed.
Lemma make_twasm_interrupted {Cfg} (read : outcome Cfg) tr : (∀ cfg, read ≠ Ok cfg) → interrupted (make_twasm read) tr.
Proof. intros Hr. apply interrupted_bind. intros es. destruct read as [cfg|e|p]; [by destruct (Hr cfg)|done..]. Qed.

(** One section after the other. *)
Ltac steps := repeat first [run_step | apply runs_poe_NewKeeper; on_trace | apply runs_globalfee_again; on_trace
  | apply runs_globalfee_first; on_trace].
Ltac after := first [eapply runs_bind | eapply interrupted_after].
Ltac build :=
  after; [unfold make_keys, kv_stores; steps|];
  after; [unfold make_params, initParamsKeeper; steps|];
  after; [unfold make_capabilities; steps|];
  after; [unfold make_sdk_keepers; steps|];
  after; [unfold make_ibc; steps|];
  after; [unfold make_ibc_apps; steps|].
Ltac build_rest :=
  after; [apply runs_make_twasm; on_trace|];
  after; [unfold make_ibc_router; steps|];
  after; [unfold make_poe; steps|];
  after; [unfold make_manager; steps|];
  after; [unfold make_orders; steps|];
  after; [unfold make_services, poe_Route, twasm_Route, upgradeNames, poe_RegisterServices, twasm_RegisterServices, globalfee_RegisterServices; steps|];
  after; [unfold make_simulation; steps|];
  after; [apply runs_make_stores; cbv [store_keys omap list_omap app]; steps|];
  after; [apply runs_make_ante; on_trace|];
  unfold make_snapshots; steps.

Ltac wired := constructor; [intros pre a post Htr; apply (in_order_split [] pre a post); rewrite <-Htr; on_trace | intros []; on_trace | on_trace..].

Lemma NewPetriApp_runs limit ext :
  ext = None ∨ ext = Some (Ok ()) →
  ∃ tr, runs (NewPetriApp fee_tx (Ok limit) ext) []
    (ChainAnteDecorators (anteDecorators fee_tx limit "wasm" DefaultSigVerificationGasConsumer)) tr ∧ Wired tr.
Proof using SetupLaws.
  intros Hext. destruct Hext as [->| ->]; eexists; (split; [unfold NewPetriApp; build; build_rest|wired]).
Qed.


(** C15: The construction of the application: it stops with a panic when the configuration of wasm cannot be read or the snapshot
    extension is refused; otherwise it finishes, whatever registries with the documented conditions the SDK has, without a
    refused call. Then every component was given stores, subspaces, capabilities and copies of keepers that had been made before
    (never an unset field), each keeper field is assigned exactly once and the keeper of x/poe is only handed out by reference,
    the routes of proposals and of IBC are the expected ones, every store key is mounted, the orders have all modules and no
    others, and the ante handler is the chain of decorators with the gas limit of the configuration. *)
Theorem NewPetriApp_wired (read : outcome (option Z)) (ext : option (outcome ())) :
  match read, ext with
  | Ok limit, None | Ok limit, Some (Ok _) =>
      ∃ tr, runs (NewPetriApp fee_tx read ext) []
        (ChainAnteDecorators (anteDecorators fee_tx limit "wasm" DefaultSigVerificationGasConsumer)) tr ∧ Wired tr
  | _, _ => interrupted (NewPetriApp fee_tx read ext) []
  end.
Proof using SetupLaws.
  destruct read as [limit|e|p].
  - destruct ext as [[[]|e|p]|]; [apply NewPetriApp_runs; by right| | |apply NewPetriApp_runs; by left];
      unfold NewPetriApp; build; build_rest; by apply interrupted_bind.
  - unfold NewPetriApp. build. by apply interrupted_bind, make_twasm_interrupted.
  - unfold NewPetriApp. build. by apply interrupted_bind, make_twasm_interrupted.
Qed.
End built.

(** The upgrades whose handlers are registered are those of [Upgrades]. *)
Lemma upgrade_names `{!AuthKeeper W, !Bech32} (RunMigrations : VersionMap → M W VersionMap) :
  (Upgrades RunMigrations).*1 = upgradeNames.
Proof. reflexivity. Qed.

(** ** Calls that would be refused *)
Section refused.
Context `{!SdkSetup, SetupLaws : !SdkSetupLaws}.

Lemma guarded_interrupted g a tr : is_panic (g tr) = true → interrupted (guarded g a) tr.
Proof.
  intros Hg. unfold guarded. eapply interrupted_after; [apply runs_gets|]. apply interrupted_bind. by intros es.
Qed.

(** Orders that forget a module of the manager, a keeper whose account is missing and the decorator of x/globalfee without
    its module are found out when the application is built. *)
Lemma forgotten_module_refused o m order tr : m ∈ modules tr → m ∉ order → interrupted (set_order o order) tr.
Proof using SetupLaws. intros ? ?. by eapply guarded_interrupted, SetOrder_forgotten. Qed.
Lemma second_subspace_refused s tr : s ∈ spaces tr → interrupted (new_subspace s) tr.
Proof using SetupLaws. intros ?. by apply guarded_interrupted, Subspace_taken. Qed.
Lemma second_route_refused r s args tr : s ∈ routes r tr → interrupted (add_route r s args) tr.
Proof using SetupLaws. intros ?. by apply guarded_interrupted, AddRoute_taken. Qed.
Lemma fee_decorator_needs_module s tr : s ∉ tables tr → interrupted (NewGlobalMinimumChainFeeDecorator s) tr.
Proof.
  intros Hs. unfold NewGlobalMinimumChainFeeDecorator. eapply interrupted_after; [apply runs_gets|]. unfold HasKeyTable.
  rewrite bool_decide_eq_false_2 by done. by intros es.
Qed.
End refused.

(** ** Concrete registries *)
Definition when (P : Prop) `{!Decision P} (msg : string) : outcome () := if decide P then Ok () else Panic msg.
#[local] Instance Ref_setup : SdkSetup := {
  Subspace occupied s := when ((s ∉ occupied) ∧ s ≠ "") "subspace already occupied";
  WithKeyTable exists_ has := when (exists_ = true ∧ has = false) "SetKeyTable() called on already initialized Subspace";
  ScopeToModule sealed_ taken s := when (sealed_ = false ∧ (s ∉ taken) ∧ s ≠ "") "cannot create multiple scoped keepers for the same module name";
  AddRoute r sealed_ taken s := when (sealed_ = false ∧ (s ∉ taken) ∧ alphanumeric s = true) "route has already been initialized";
  SetOrder ms order := when (Forall (.∈ order) ms) "missing modules";
  MountStore taken k := when (k ∉ taken) "store duplicate store key";
  NewForeign f args accounts := when (Forall (.∈ accounts) (required_accounts f)) "the module account has not been set";
}.
#[local] Instance Ref_setup_laws : SdkSetupLaws.
Proof.
  constructor; unfold Subspace, WithKeyTable, ScopeToModule, AddRoute, SetOrder, MountStore, NewForeign, Ref_setup, when; intros;
    case_decide as Hd; rewrite ?Forall_forall in Hd; naive_solver.
Qed.

(** C15: the application of the reference registries, with a gas limit for simulations and a snapshot manager. *)
Lemma NewPetriApp_wired_witness :
  ∃ tr, runs (NewPetriApp Some (Ok (Some 3000000)) (Some (Ok ()))) []
    (ChainAnteDecorators (anteDecorators Some (Some 3000000) "wasm" DefaultSigVerificationGasConsumer)) tr ∧ Wired tr.
Proof. exact (NewPetriApp_wired (W := PWorld) (Consumer := ()) Some (Ok (Some 3000000)) (Some (Ok ()))). Defined.
