(* ===== verification/ModuleInfo.v ===== *)
(** What the modules tell the SDK about their data: the sets of parameters with the functions that validate them
    (x/poe/types/params.go, x/globalfee/types/params.go), the methods that the messages of x/poe have for routing and signing
    (x/poe/types/msg.go), and the types and texts of the proposals of x/twasm (x/twasm/types/proposal.go). *)
From stdpp Require Import base list strings gmap sets.
From Stdlib Require Import ZArith Lia Ascii.
From S2P Require Import Prelude Sdk RefStore Slice Json Privilege Wasm TwasmMsgs GlobalFee PoETypes PoEMsgs AppUpgrade AppWiring.
Open Scope Z_scope.

(** ** Sets of parameters *)

(** A value of type [interface{}]: the types that parameters have, and any other. *)
Inductive Iface :=
  | Uint32 (z : Z)
  | Uint64 (z : Z)
  | CoinsI (c : list Coin)
  | DecCoinsI (c : list DecCoin)
  | OtherI.

Definition bad_type : error := errorf "invalid parameter type: %T".

Section params.
Context `{!SdkMath, !SdkDec}.

Definition validateUint64 (i : Iface) : outcome () := match i with Uint64 _ => Ok () | _ => Err bad_type end.
Definition validateUint32 (i : Iface) : outcome () := match i with Uint32 _ => Ok () | _ => Err bad_type end.
Definition validateSDKCoins (i : Iface) : outcome () := match i with CoinsI c => Coins_Validate c | _ => Err bad_type end.
Definition validateMinimumGasPricesI (i : Iface) : outcome () :=
  match i with DecCoinsI v => validateMinimumGasPrices v | _ => Err (Wrap (new_err "wasm/invalid") "type: %T") end.

(** [paramtypes.NewParamSetPair(key, value, validate)] *)
Record ParamSetPair := mkPair { Pair_Key : string; Pair_Value : Iface; Pair_Validate : Iface → outcome () }.

Definition KeyHistoricalEntries : string := "HistoricalEntries".
Definition KeyInitialValEngagementPoints : string := "InitialValidatorEngagementPoints".
Definition KeyMinDelegationAmounts : string := "MinDelegationAmounts".
Definition poe_ParamSetPairs (p : PoEParams) : list ParamSetPair :=
  [mkPair KeyHistoricalEntries (Uint32 (HistoricalEntries_p p)) validateUint32;
   mkPair KeyInitialValEngagementPoints (Uint64 (InitialValEngagementPoints p)) validateUint64;
   mkPair KeyMinDelegationAmounts (CoinsI (MinDelegationAmounts p)) validateSDKCoins].

Definition ParamStoreKeyMinGasPrices : string := "MinimumGasPricesParam".
Definition globalfee_ParamSetPairs (p : list DecCoin) : list ParamSetPair :=
  [mkPair ParamStoreKeyMinGasPrices (DecCoinsI p) validateMinimumGasPricesI].

(** A subspace takes a set of parameters when the function of every pair accepts its value, and panics otherwise. *)
Definition accepted (ps : list ParamSetPair) : Prop := Forall (λ p, Pair_Validate p (Pair_Value p) = Ok ()) ps.

(** The parameters a subspace takes are those that the validation of a genesis file accepts, in both modules: genesis parameters
    that were validated are stored without a panic, and a proposal cannot store others. *)
Lemma poe_params_accepted p : accepted (poe_ParamSetPairs p) ↔ Params_Validate p = Ok ().
Proof.
  unfold accepted, poe_ParamSetPairs, Params_Validate. rewrite !Forall_cons, Forall_nil. cbn.
  destruct (Coins_Validate _) as [[]|e|e]; cbn; naive_solver.
Qed.
Lemma globalfee_params_accepted p : accepted (globalfee_ParamSetPairs p) ↔ Params_ValidateBasic p = Ok ().
Proof. unfold accepted, globalfee_ParamSetPairs. rewrite Forall_cons, Forall_nil. naive_solver. Qed.

(** The keys can be registered: they differ, and have letters and digits only. *)
Lemma poe_param_keys p :
  NoDup (Pair_Key <$> poe_ParamSetPairs p) ∧ Forall (λ k, alphanumeric k = true) (Pair_Key <$> poe_ParamSetPairs p).
Proof. split; apply (bool_decide_unpack _); vm_compute; exact I. Qed.
Lemma globalfee_param_keys p : Forall (λ k, alphanumeric k = true) (Pair_Key <$> globalfee_ParamSetPairs p).
Proof. apply (bool_decide_unpack _). vm_compute. exact I. Qed.
End params.

(** ** Methods of the messages of x/poe *)
Section messages.
Context `{!Bech32}.
(** [ModuleCdc.MustMarshalJSON] and [sdk.MustSortJSON] *)
Variables (MustMarshalJSON : ∀ {Msg : Type}, Msg → outcome bytes) (MustSortJSON : bytes → outcome bytes).

(** [sdk.Msg] and the interface of the messages that are signed as amino JSON. *)
Record LegacyMsg := mkLegacyMsg {
  Msg_Route : string; Msg_Type : string; Msg_GetSigners : outcome (list AccAddress); Msg_GetSignBytes : outcome bytes }.

Definition sign_bytes {Msg} (msg : Msg) : outcome bytes := bz ← MustMarshalJSON msg; MustSortJSON bz.
Definition MsgCreateValidator_Legacy (msg : MsgCreateValidator) : LegacyMsg :=
  mkLegacyMsg poe_RouterKey TypeMsgCreateValidator (GetSigners (CV_OperatorAddress msg)) (sign_bytes msg).
Definition MsgUpdateValidator_Legacy (msg : MsgUpdateValidator) : LegacyMsg :=
  mkLegacyMsg poe_RouterKey TypeMsgUpdateValidator (GetSigners (UV_OperatorAddress msg)) (sign_bytes msg).
Definition MsgDelegate_Legacy (msg : MsgDelegate) : LegacyMsg :=
  mkLegacyMsg poe_RouterKey TypeMsgDelegate (GetSigners (MD_OperatorAddress msg)) (sign_bytes msg).
Definition MsgUndelegate_Legacy (msg : MsgUndelegate) : LegacyMsg :=
  mkLegacyMsg poe_RouterKey TypeMsgUndelegate (GetSigners (MU_OperatorAddress msg)) (sign_bytes msg).

(** A message that passes the validation has one signer, its operator: asking for the signers does not panic. *)
Context `{!SdkMath}.
Lemma delegate_signer msg : MsgDelegate_ValidateBasic msg = Ok () → ∃ a,
  AccAddressFromBech32 (MD_OperatorAddress msg) = Ok a ∧ Msg_GetSigners (MsgDelegate_Legacy msg) = Ok [a].
Proof.
  unfold MsgDelegate_ValidateBasic, operator_address. cbn [Msg_GetSigners MsgDelegate_Legacy]. unfold GetSigners.
  destruct (AccAddressFromBech32 _) as [a|e|p]; [by exists a|done..].
Qed.
Lemma undelegate_signer msg : MsgUndelegate_ValidateBasic msg = Ok () → ∃ a,
  AccAddressFromBech32 (MU_OperatorAddress msg) = Ok a ∧ Msg_GetSigners (MsgUndelegate_Legacy msg) = Ok [a].
Proof.
  unfold MsgUndelegate_ValidateBasic, operator_address. cbn [Msg_GetSigners MsgUndelegate_Legacy]. unfold GetSigners.
  destruct (AccAddressFromBech32 _) as [a|e|p]; [by exists a|done..].
Qed.
Lemma types_distinct :
  NoDup [TypeMsgCreateValidator; TypeMsgUpdateValidator; TypeMsgDelegate; TypeMsgUndelegate].
Proof. apply (bool_decide_unpack _). vm_compute. exact I. Qed.
End messages.

(** ** Proposals of x/twasm *)
Definition ProposalTypePromoteContract : string := "PromoteToPrivilegedContract".
Definition ProposalTypeDemoteContract : string := "DemotePrivilegedContract".
Definition EnableAllProposals : list string := [ProposalTypePromoteContract; ProposalTypeDemoteContract].

Definition nl : string := String "010"%char "".
(** The payload of the two proposals is the contract. *)
Definition Promote_String (p : Titled string) : string :=
  "Store Code Proposal:" +:+ nl +:+ "  Title:       " +:+ Title p +:+ nl +:+ "  Description: " +:+ Description p +:+ nl +:+
  "  Contract:    " +:+ payload p +:+ nl.
Definition Demote_String (p : Titled string) : string :=
  "Store Code Proposal:" +:+ nl +:+ "  Title:       " +:+ Title p +:+ nl +:+ "  Description: " +:+ Description p +:+ nl +:+
  "  Contract:    " +:+ payload p +:+ nl.

(** Types can be registered once. *)
Lemma proposal_types_distinct : NoDup EnableAllProposals.
Proof. apply (bool_decide_unpack _). vm_compute. exact I. Qed.

(** The texts of the two proposals are the same: nobody can tell a demotion from a promotion by it. *)
Lemma proposal_texts_agree p : Promote_String p = Demote_String p.
Proof. reflexivity. Qed.
