(* ===== verification/StakingAdapter.v ===== *)
(** The staking and slashing adapters (x/poe/stakingadapter): what the modules that need a staking keeper are given. The methods
    that are called report that they are not implemented and answer with a constant. The state is the log of the context. *)
From stdpp Require Import base list strings gmap.
From Stdlib Require Import ZArith Lia.
From S2P Require Import Prelude Sdk RefStore Slice Json Privilege Wasm PoETypes GenAccounts.
Open Scope Z_scope.

(** A log line of level error. *)
Record LogLine := mkLogLine { Log_Msg : string; Log_Fn : string }.
Abbreviation Log := (list LogLine).

Definition ErrNotImplemented : error := errors_New "not implemented".
Definition log (msg : string) : M Log () := modify (λ l, l ++ [mkLogLine "NOT IMPLEMENTED: " msg]).

(** ** [StakingAdapter] *)
Section adapter.
(** Types of x/staking with their zero values, validators and delegations as interfaces that may be nil. *)
Context {Validator Delegation ValidatorI DelegationI RewardsResponse ValidatorUpdate : Type}.
Variables (validator0 : Validator) (delegation0 : Delegation).

Definition Staking_BondDenom : M Log string := log "BondDenom" ;; mret "ufury".
Definition Staking_GetValidator (addr : bytes) : M Log (Validator * bool) := log "GetValidator" ;; mret (validator0, false).
Definition Staking_GetBondedValidatorsByPower : M Log (list Validator) := log "GetBondedValidatorsByPower" ;; mret [].
Definition Staking_GetAllDelegatorDelegations (delegator : bytes) : M Log (list Delegation) := log "GetAllDelegatorDelegations" ;; mret [].
Definition Staking_GetDelegation (delAddr valAddr : bytes) : M Log (Delegation * bool) := log "GetDelegation" ;; mret (delegation0, false).
Definition Staking_HasReceivingRedelegation (delAddr valDstAddr : bytes) : M Log bool := mret false.
(** A nil response and no error. *)
Definition Staking_DelegationRewards : M Log (option RewardsResponse) := log "DelegationRewards" ;; mret None.
Definition Staking_ValidatorByConsAddr (address : bytes) : M Log (option ValidatorI) := log "ValidatorByConsAddr" ;; mret None.
Definition Staking_ApplyAndReturnValidatorSetUpdates : M Log (list ValidatorUpdate) := log "ApplyAndReturnValidatorSetUpdates" ;; mret [].
Definition Staking_IterateValidators (f : Z → ValidatorI → M Log bool) : M Log () := log "IterateValidators".
Definition Staking_Validator (address : bytes) : M Log (option ValidatorI) := log "Validator" ;; mret None.
Definition Staking_Slash (address : bytes) (i i2 : Z) (dec : Dec) : M Log () := log "Slash".
Definition Staking_Jail (address : bytes) : M Log () := log "Jail".
Definition Staking_Unjail (address : bytes) : M Log () := log "Unjail".
Definition Staking_Delegation (address address2 : bytes) : M Log (option DelegationI) := log "Delegation" ;; mret None.
Definition Staking_MaxValidators : M Log Z := log "MaxValidators" ;; mret 100.
Definition Staking_StakingTokenSupply : M Log Int := log "StakingTokenSupply" ;; mret (Some 1000000).
Definition Staking_BondedRatio : M Log Dec := log "BondedRatio" ;; mret (Some 0).
Definition Staking_IterateBondedValidatorsByPower (f : Z → ValidatorI → M Log bool) : M Log () := log "IterateBondedValidatorsByPower".
Definition Staking_TotalBondedTokens : M Log Int := log "TotalBondedTokens" ;; mret (Some 0).
Definition Staking_IterateDelegations (delegator : bytes) (fn : Z → DelegationI → M Log bool) : M Log () := log "IterateDelegations".
End adapter.

(** ** [SlashingAdapter] *)
Section adapter.
Context {PubKey : Type}.

Definition Slashing_GetPubkey (address : bytes) : M Log PubKey := log "GetPubkey" ;; fail_with ErrNotImplemented.
Definition Slashing_IsTombstoned (address : bytes) : M Log bool := log "IsTombstoned" ;; mret false.
Definition Slashing_HasValidatorSigningInfo (address : bytes) : M Log bool := log "HasValidatorSigningInfo" ;; mret false.
Definition Slashing_Tombstone (address : bytes) : M Log () := log "Tombstone".
Definition Slashing_Slash (address : bytes) (dec : Dec) (i i2 : Z) : M Log () := log "Slash".
Definition Slashing_SlashFractionDoubleSign : M Log Dec := log "SlashFractionDoubleSign" ;; mret (Some 0).
Definition Slashing_Jail (address : bytes) : M Log () := log "Jail".
Definition Slashing_JailUntil (address : bytes) (time : Z) : M Log () := log "JailUntil".
End adapter.

(** ** What callers can rely on *)

(** A call never stops the block: it returns (an answer or an error), keeps the events, and adds at most one line. *)
Definition harmless {A} (m : M Log A) : Prop :=
  ∀ c, is_panic (m c).1 = false ∧ events (m c).2 = events c ∧
    (store (m c).2 = store c ∨ ∃ line, store (m c).2 = store c ++ [line]).

Lemma log_harmless fn : harmless (log fn).
Proof. intros c. split_and!; [done..|]. right. by eexists. Qed.
Lemma answer_harmless {A} fn (a : A) : harmless (log fn ;; mret a).
Proof. intros c. split_and!; [done..|]. right. by eexists. Qed.
Lemma refusal_harmless {A} fn e : harmless (log fn ;; fail_with (A := A) e).
Proof. intros c. split_and!; [done..|]. right. by eexists. Qed.

Lemma ret_harmless {A} (a : A) : harmless (mret a).
Proof. intros c. by split_and!; [..|left]. Qed.
Ltac quiet := split_and!; first [apply answer_harmless | apply log_harmless | apply refusal_harmless | apply ret_harmless].

Section harmless.
Context {Validator Delegation ValidatorI DelegationI RewardsResponse ValidatorUpdate PubKey : Type}.
Variables (v0 : Validator) (d0 : Delegation) (a b : bytes) (i j : Z) (d : Dec).
Variables (on_validator : Z → ValidatorI → M Log bool) (on_delegation : Z → DelegationI → M Log bool).

(** Every method, on any arguments; the iterators never call back. *)
Lemma staking_queries_harmless :
  harmless Staking_BondDenom ∧ harmless (Staking_GetValidator v0 a) ∧ harmless (Staking_GetBondedValidatorsByPower (Validator := Validator)) ∧
  harmless (Staking_GetAllDelegatorDelegations (Delegation := Delegation) a) ∧ harmless (Staking_GetDelegation d0 a b) ∧
  harmless (Staking_HasReceivingRedelegation a b) ∧ harmless (Staking_DelegationRewards (RewardsResponse := RewardsResponse)) ∧
  harmless (Staking_ValidatorByConsAddr (ValidatorI := ValidatorI) a) ∧ harmless (Staking_Validator (ValidatorI := ValidatorI) a) ∧
  harmless (Staking_Delegation (DelegationI := DelegationI) a b) ∧ harmless Staking_MaxValidators ∧ harmless Staking_StakingTokenSupply ∧
  harmless Staking_BondedRatio ∧ harmless Staking_TotalBondedTokens.
Proof. quiet. Qed.
Lemma staking_updates_harmless :
  harmless (Staking_ApplyAndReturnValidatorSetUpdates (ValidatorUpdate := ValidatorUpdate)) ∧
  harmless (Staking_IterateValidators on_validator) ∧ harmless (Staking_IterateBondedValidatorsByPower on_validator) ∧
  harmless (Staking_IterateDelegations a on_delegation) ∧ harmless (Staking_Slash a i j d) ∧ harmless (Staking_Jail a) ∧
  harmless (Staking_Unjail a).
Proof. quiet. Qed.
Lemma slashing_harmless :
  harmless (Slashing_GetPubkey (PubKey := PubKey) a) ∧ harmless (Slashing_IsTombstoned a) ∧ harmless (Slashing_HasValidatorSigningInfo a) ∧
  harmless (Slashing_Tombstone a) ∧ harmless (Slashing_Slash a d i j) ∧ harmless Slashing_SlashFractionDoubleSign ∧
  harmless (Slashing_Jail a) ∧ harmless (Slashing_JailUntil a i).
Proof. quiet. Qed.

(** The denom is the default of x/poe. *)
Lemma adapter_denom c : (Staking_BondDenom c).1 = Ok DefaultBondDenom.
Proof. reflexivity. Qed.
End harmless.
