(* ===== verification/NodeStart.v ===== *)
(** The start of a node (cmd/furya/root.go): [newApp] turns the options of the command into the arguments of the application,
    and [customizeInitCmdDefaults] sets a default of the configuration before the init command runs. A started node is the
    construction of the application followed by the loading of the last state. *)
From stdpp Require Import base list strings gmap sets.
From Stdlib Require Import ZArith Lia.
From S2P Require Import Prelude ProgramLogic Sdk RefStore Slice Json Privilege Wasm TwasmMsgs GlobalFee PoETypes PoEMsgs PoEKeeper PoEContractIO PoEServer PoEBootstrap AppAnte AppBlock AppGenesis CollectCmd AppWiring.
Open Scope Z_scope.

(** Conversion of options, from the package [cast]: a value that cannot be converted, or none, gives the zero value. *)
Class CastOptions (V : Type) := {
  ToBool : option V → bool; ToString : option V → string; ToIntSlice : option V → list Z; ToStringSlice : option V → list string;
  ToUint : option V → Z; ToUint32 : option V → Z; ToUint64 : option V → Z }.

(** Options of the base application. *)
Inductive BaseAppOption (Pruning SnapshotStore : Type) :=
  | SetPruning (o : Pruning)
  | SetMinGasPrices (s : string)
  | SetHaltHeight (h : Z)
  | SetHaltTime (t : Z)
  | SetMinRetainBlocks (n : Z)
  | SetInterBlockCache (cache : bool)
  | SetTrace (b : bool)
  | SetIndexEvents (es : list string)
  | SetSnapshotStore (s : SnapshotStore)
  | SetSnapshotInterval (n : Z)
  | SetSnapshotKeepRecent (n : Z).
Arguments SetPruning {_ _} o.
Arguments SetMinGasPrices {_ _} s.
Arguments SetHaltHeight {_ _} h.
Arguments SetHaltTime {_ _} t.
Arguments SetMinRetainBlocks {_ _} n.
Arguments SetInterBlockCache {_ _} cache.
Arguments SetTrace {_ _} b.
Arguments SetIndexEvents {_ _} es.
Arguments SetSnapshotStore {_ _} s.
Arguments SetSnapshotInterval {_ _} n.
Arguments SetSnapshotKeepRecent {_ _} n.

(** The arguments of [NewPetriApp] that the command decides. *)
Record AppArgs (Pruning SnapshotStore : Type) := mkAppArgs {
  Arg_loadLatest : bool; Arg_skipUpgradeHeights : gmap Z bool; Arg_homePath : string; Arg_invCheckPeriod : Z;
  Arg_baseAppOptions : list (BaseAppOption Pruning SnapshotStore) }.
Arguments mkAppArgs {_ _} _ _ _ _ _.
Arguments Arg_loadLatest {_ _} _.
Arguments Arg_skipUpgradeHeights {_ _} _.
Arguments Arg_homePath {_ _} _.
Arguments Arg_invCheckPeriod {_ _} _.
Arguments Arg_baseAppOptions {_ _} _.

Section start.
Context {V Pruning DB SnapshotStore : Type} `{!CastOptions V}.
(** [server.GetPruningOptionsFromFlags], [sdk.NewLevelDB], [snapshots.NewStore] *)
Variables (GetPruningOptionsFromFlags : (string → option V) → outcome Pruning) (NewLevelDB : string → string → outcome DB)
  (NewSnapshotStore : DB → string → outcome SnapshotStore).

(** [if err != nil { panic(err) }] *)
Definition or_panic {A} (o : outcome A) : outcome A := match o with Err _ => Panic "newApp" | _ => o end.

Definition skip_heights (hs : list Z) : gmap Z bool := foldl (λ m h, <[h := true]> m) ∅ hs.

Definition newApp (appOpts : string → option V) : outcome (AppArgs Pruning SnapshotStore) :=
  let cache := ToBool (appOpts "inter-block-cache") in
  let skipUpgradeHeights := skip_heights (ToIntSlice (appOpts "unsafe-skip-upgrades")) in
  pruningOpts ← or_panic (GetPruningOptionsFromFlags appOpts);
  let snapshotDir := filepath_Join [ToString (appOpts "home"); "data"; "snapshots"] in
  snapshotDB ← or_panic (NewLevelDB "metadata" snapshotDir);
  snapshotStore ← or_panic (NewSnapshotStore snapshotDB snapshotDir);
  Ok (mkAppArgs true skipUpgradeHeights (ToString (appOpts "home")) (ToUint (appOpts "inv-check-period"))
    [SetPruning pruningOpts;
     SetMinGasPrices (ToString (appOpts "minimum-gas-prices"));
     SetHaltHeight (ToUint64 (appOpts "halt-height"));
     SetHaltTime (ToUint64 (appOpts "halt-time"));
     SetMinRetainBlocks (ToUint64 (appOpts "min-retain-blocks"));
     SetInterBlockCache cache;
     SetTrace (ToBool (appOpts "trace"));
     SetIndexEvents (ToStringSlice (appOpts "index-events"));
     SetSnapshotStore snapshotStore;
     SetSnapshotInterval (ToUint64 (appOpts "state-sync.snapshot-interval"));
     SetSnapshotKeepRecent (ToUint32 (appOpts "state-sync.snapshot-keep-recent"))]).

(** The heights whose upgrade is skipped are those of the flag. *)
Lemma skip_heights_from (hs : list Z) (m : gmap Z bool) (h : Z) : foldl (λ m h, <[h := true]> m) m hs !! h = if decide (h ∈ hs) then Some true else m !! h.
Proof.
  revert m. induction hs as [|x hs IH]; intros m; cbn [foldl]; [by rewrite decide_False by apply not_elem_of_nil|]. rewrite IH.
  repeat case_decide; rewrite elem_of_cons in *; try naive_solver.
  - destruct (decide (h = x)) as [->|]; [by rewrite lookup_insert_eq|naive_solver].
  - by rewrite lookup_insert_ne by naive_solver.
Qed.
Lemma skip_heights_spec hs h : skip_heights hs !! h = if decide (h ∈ hs) then Some true else None.
Proof. unfold skip_heights. by rewrite skip_heights_from, lookup_empty. Qed.

(** A node is not started without pruning options and a store for snapshots; no error is returned. *)
Lemma newApp_total appOpts :
  (∃ args, newApp appOpts = Ok args ∧ Arg_loadLatest args = true ∧ Arg_homePath args = ToString (appOpts "home") ∧
     (∀ h, Arg_skipUpgradeHeights args !! h = if decide (h ∈ ToIntSlice (appOpts "unsafe-skip-upgrades")) then Some true else None) ∧
     ∃ db snaps, let dir := filepath_Join [ToString (appOpts "home"); "data"; "snapshots"] in
       NewLevelDB "metadata" dir = Ok db ∧ NewSnapshotStore db dir = Ok snaps ∧ SetSnapshotStore snaps ∈ Arg_baseAppOptions args) ∨
  is_panic (newApp appOpts) = true.
Proof.
  unfold newApp. destruct (GetPruningOptionsFromFlags appOpts) as [pr|e|p]; cbn -[skip_heights filepath_Join]; [|by right..].
  destruct (NewLevelDB _ _) as [db|e|p] eqn:Hdb; cbn -[skip_heights filepath_Join]; [|by right..].
  destruct (NewSnapshotStore _ _) as [snaps|e|p] eqn:Hs; cbn -[skip_heights filepath_Join]; [|by right..].
  left. eexists. split_and!; [done..| |].
  - intros h. apply skip_heights_spec.
  - exists db, snaps. split_and!; [done..|]. cbn. by repeat constructor.
Qed.
End start.

(** ** The init command *)
Section init_cmd.
Context {S Config : Type}.
(** The configuration of the command's context, its setter, and the peers in it. *)
Variables (GetServerContextFromCmd : S → Config) (SetCmdServerContext : Config → M S ()) (set_MaxNumOutboundPeers : Z → Config → Config).

Definition customizeInitCmdDefaults {A} (orig : A → M S ()) (args : A) : M S () :=
  cfg ← gets GetServerContextFromCmd;
  (λ c, match SetCmdServerContext (set_MaxNumOutboundPeers 200 cfg) c with
        | (Err _, c') => (Panic "SetCmdServerContext", c')
        | r => r
        end) ;;
  orig args.

(** The command runs with the default in place, as far as the context can be set. *)
Lemma customized_init {A} (orig : A → M S ()) args c c1 :
  SetCmdServerContext (set_MaxNumOutboundPeers 200 (GetServerContextFromCmd (store c))) c = (Ok (), c1) →
  customizeInitCmdDefaults orig args c = orig args c1.
Proof. intros Hset. unfold customizeInitCmdDefaults, mbind, M_bind. cbn. by rewrite Hset. Qed.
End init_cmd.

(** ** The started node *)
Section node.
Context `{!SdkSetup, SetupLaws : !SdkSetupLaws} {W T Consumer V Pruning DB SnapshotStore : Type} `{!KVStore W, !SdkDec, !FeeParams W,
  !FeeKeepers W, !StakingTypes, !SdkCoins, !ForeignDecorators W T Consumer, !CastOptions V}.
Variable fee_tx : T → option SdkFeeTx.
Variables (InitializePinnedCodes : W → outcome ()) (code : EmbeddedContracts).

(** [NewPetriApp] to the end: the construction, then the state when it is to be loaded; [w] is the version that
    [LoadLatestVersion] finds. The fields of the scoped capability keepers are set in between; only tests read them. *)
Definition start_app (wasm_ReadWasmConfig : outcome (option Z)) (RegisterExtensions : option (outcome ())) (loadLatest : bool) (w : W) :
    outcome (AnteHandler W T * option (App W)) :=
  handler ← (NewPetriApp fee_tx wasm_ReadWasmConfig RegisterExtensions (mkCtx [] [])).1;
  if loadLatest then
    a ← NewPetriApp_loadLatest InitializePinnedCodes code w;
    Ok (handler, Some a)
  else Ok (handler, None).

Lemma started limit w a :
  NewPetriApp_loadLatest InitializePinnedCodes code w = Ok a →
  start_app (Ok limit) (Some (Ok ())) true w =
    Ok (ChainAnteDecorators (anteDecorators fee_tx limit "wasm" DefaultSigVerificationGasConsumer), Some a).
Proof using SetupLaws.
  intros Hload. unfold start_app. destruct (NewPetriApp_runs fee_tx limit (Some (Ok ()))) as (tr & Hrun & _); [by right|].
  specialize (Hrun []). rewrite Hrun. cbn [fst]. cbn. by rewrite Hload.
Qed.
End node.
