(* ===== verification/CommandFlags.v ===== *)
(** The flags of the commands (x/poe/client/cli/flags.go and tx.go, genutil_gentx.go, query.go, genutil_collect.go,
    cmd/furya/testnet.go and genaccounts.go): the set of flags each command defines, against what its function reads.

    Flag sets are those of the library pflag, an interface with its documented behaviour, as are the flags that the SDK
    adds to every transaction or query. *)
From stdpp Require Import base list strings gmap sets.
From Stdlib Require Import ZArith Lia.
From S2P Require Import Prelude Sdk RefStore Slice Json Privilege Wasm TwasmMsgs PoETypes PoEMsgs PoEKeeper GenTxCollect ClientTx.
Open Scope Z_scope.

(** The type of a flag with its default value. *)
Inductive FlagValue := StringFlag (s : string) | BoolFlag (b : bool) | IntFlag (z : Z) | Int64Flag (z : Z)
  | DurationFlag (ns : Z).
#[export] Instance FlagValue_eq_dec : EqDecision FlagValue.
Proof. solve_decision. Defined.

Class PFlag (F : Type) := {
  NewFlagSet : F;
  (** [Lookup] *)
  flag_of : F → string → option FlagValue;
  (** [fs.String(name, value, usage)] and the like *)
  Define : string → FlagValue → F → outcome F;
  AddFlagSet : F → F → F;
  MarkFlagRequired : string → F → outcome F;
  GetString : F → string → outcome string;
  GetBool : F → string → outcome bool;
  (** [flags.AddTxFlagsToCmd], [flags.AddQueryFlagsToCmd]: flags of the SDK *)
  TxFlags : list (string * FlagValue);
  QueryFlags : list (string * FlagValue);
}.

Definition flagEngagement : string := "engagement".
Definition flagDistribution : string := "distribution".
Definition flagAddress : string := "address".

(** The flags that transactions and queries define beside those of the SDK. *)
Definition own_tx_flags : list string :=
  [FlagPubKey; FlagAmount; FlagVestingAmount; FlagMoniker; FlagIdentity; FlagWebsite; FlagSecurityContact; FlagDetails; FlagNodeID;
   FlagIP; flagEngagement; flagDistribution; "home"; "output-document"; "chain-id"].
Definition own_query_flags : list string :=
  [flagAddress; flagEngagement; flagDistribution; "home"; "keyring-backend"; "vesting-amount"; "vesting-start-time"; "vesting-end-time"].

(** A flag can be defined once; a set that is added does not replace flags. *)
Class PFlagLaws (F : Type) `{PFlag F} := {
  NewFlagSet_empty n : flag_of NewFlagSet n = None;
  Define_new n v f : flag_of f n = None → ∃ f', Define n v f = Ok f' ∧ ∀ m, flag_of f' m = if decide (m = n) then Some v else flag_of f m;
  Define_twice n v f : is_Some (flag_of f n) → is_panic (Define n v f) = true;
  AddFlagSet_lookup f g n : flag_of (AddFlagSet f g) n = match flag_of f n with Some v => Some v | None => flag_of g n end;
  MarkFlagRequired_known n f : is_Some (flag_of f n) → ∃ f', MarkFlagRequired n f = Ok f' ∧ ∀ m, flag_of f' m = flag_of f m;
  GetString_known f n s : flag_of f n = Some (StringFlag s) → GetString f n = Ok s;
  GetString_unknown f n : flag_of f n = None → is_ok (GetString f n) = false;
  GetBool_known f n b : flag_of f n = Some (BoolFlag b) → GetBool f n = Ok b;
  TxFlags_distinct : NoDup TxFlags.*1;
  TxFlags_from : ("from", StringFlag "") ∈ TxFlags;
  TxFlags_generate_only : ("generate-only", BoolFlag false) ∈ TxFlags;
  QueryFlags_distinct : NoDup QueryFlags.*1;
  (** The SDK has other names than the commands here. *)
  TxFlags_other : Forall (.∉ TxFlags.*1) own_tx_flags;
  QueryFlags_other : Forall (.∉ QueryFlags.*1) own_query_flags;
}.

Section flags.
Context `{!PFlag F}.

(** A sequence of definitions; a command's own flag set is empty at first. *)
Definition define_all (l : list (string * FlagValue)) (f : F) : outcome F :=
  foldl (λ acc nv, f ← acc; Define nv.1 nv.2 f) (Ok f) l.
Definition AddTxFlagsToCmd : F → outcome F := define_all TxFlags.
Definition AddQueryFlagsToCmd : F → outcome F := define_all QueryFlags.

(** ** x/poe/client/cli/flags.go *)
Definition FlagSetAmounts : outcome F :=
  define_all [(FlagAmount, StringFlag ""); (FlagVestingAmount, StringFlag "")] NewFlagSet.
Definition FlagSetPublicKey : outcome F := define_all [(FlagPubKey, StringFlag "")] NewFlagSet.
Definition flagSetDescriptionCreate : outcome F :=
  define_all [(FlagMoniker, StringFlag ""); (FlagIdentity, StringFlag ""); (FlagWebsite, StringFlag "");
    (FlagSecurityContact, StringFlag ""); (FlagDetails, StringFlag "")] NewFlagSet.

(** ** x/poe/client/cli/tx.go *)
Definition flagSetValidatorDescription (defaultValue : string) : outcome F :=
  define_all [(FlagMoniker, StringFlag defaultValue); (FlagIdentity, StringFlag defaultValue); (FlagWebsite, StringFlag defaultValue);
    (FlagSecurityContact, StringFlag defaultValue); (FlagDetails, StringFlag defaultValue)] NewFlagSet.
Definition CreateValidatorMsgFlagSet (ipDefault : string) : outcome F :=
  f ← define_all [(FlagIP, StringFlag ipDefault); (FlagNodeID, StringFlag "")] NewFlagSet;
  d ← flagSetValidatorDescription "";
  a ← FlagSetAmounts;
  k ← FlagSetPublicKey;
  Ok (AddFlagSet (AddFlagSet (AddFlagSet f d) a) k).

(** The loop over the required flags. *)
Definition require_all (names : list string) (f : F) : outcome F :=
  foldl (λ acc n, f ← acc; match MarkFlagRequired n f with Err _ => Panic "mark %q flag require: %s" | o => o end) (Ok f) names.
Definition create_validator_flags : outcome F :=
  k ← FlagSetPublicKey;
  a ← FlagSetAmounts;
  d ← flagSetDescriptionCreate;
  f ← define_all [(FlagIP, StringFlag ""); (FlagNodeID, StringFlag "")] (AddFlagSet (AddFlagSet (AddFlagSet NewFlagSet k) a) d);
  f ← AddTxFlagsToCmd f;
  require_all ["from"; FlagAmount; FlagVestingAmount; FlagPubKey; FlagMoniker] f.
Definition edit_validator_flags : outcome F :=
  d ← flagSetValidatorDescription DoNotModifyDesc;
  AddTxFlagsToCmd (AddFlagSet NewFlagSet d).
Definition claim_rewards_flags : outcome F :=
  f ← AddTxFlagsToCmd NewFlagSet;
  define_all [(flagEngagement, BoolFlag false); (flagDistribution, BoolFlag false)] f.

(** ** The other commands *)
Definition gentx_flags (ExternalIP : outcome string) (defaultNodeHome : string) : outcome F :=
  ipDefault ← match ExternalIP with Err _ => Panic "ExternalIP" | o => o end;
  fsCreateValidator ← CreateValidatorMsgFlagSet ipDefault;
  f ← define_all [("home", StringFlag defaultNodeHome); ("output-document", StringFlag ""); ("chain-id", StringFlag "")] NewFlagSet;
  AddTxFlagsToCmd (AddFlagSet f fsCreateValidator).
Definition contract_address_flags : outcome F :=
  f ← AddQueryFlagsToCmd NewFlagSet;
  define_all [(flagAddress, BoolFlag false)] f.
Definition reward_flags : outcome F :=
  f ← AddQueryFlagsToCmd NewFlagSet;
  define_all [(flagEngagement, BoolFlag false); (flagDistribution, BoolFlag false)] f.
Definition collect_flags (defaultNodeHome : string) : outcome F :=
  define_all [("home", StringFlag defaultNodeHome); ("gentx-dir", StringFlag "")] NewFlagSet.
Definition genesis_account_flags (defaultNodeHome DefaultKeyringBackend : string) : outcome F :=
  f ← define_all [("home", StringFlag defaultNodeHome); ("keyring-backend", StringFlag DefaultKeyringBackend);
        ("vesting-amount", StringFlag ""); ("vesting-start-time", Int64Flag 0); ("vesting-end-time", Int64Flag 0)] NewFlagSet;
  AddQueryFlagsToCmd f.
Definition testnet_flags (DefaultKeyringBackend : string) : outcome F :=
  define_all [("v", IntFlag 4); ("output-dir", StringFlag "./mytestnet"); ("node-dir-prefix", StringFlag "node");
    ("node-daemon-home", StringFlag "furya"); ("starting-ip-address", StringFlag "192.168.0.1"); ("chain-id", StringFlag "");
    ("minimum-gas-prices", StringFlag ("0.000006" +:+ "ufury")); ("keyring-backend", StringFlag DefaultKeyringBackend);
    ("algo", StringFlag "secp256k1"); ("commit-timeout", DurationFlag (5 * 10 ^ 9)); ("single-host", BoolFlag false);
    ("vesting-validators", BoolFlag false)] NewFlagSet.
End flags.

(** ** What the sets contain *)

(** Decidable facts about names that are known. *)
Ltac known := first [reflexivity | apply (bool_decide_unpack _); vm_compute; exact I].

Section theorems.
Context `{!PFlag F, Laws : !PFlagLaws F}.

Abbreviation fmap_of l := (list_to_map l : gmap string FlagValue).

(** The flags of a set are those of the map. *)
Definition contents (f : F) (g : gmap string FlagValue) : Prop := ∀ m, flag_of f m = g !! m.
Abbreviation flags_of l := (list_to_map l : gmap string FlagValue).

Lemma contents_empty : contents NewFlagSet ∅.
Proof using Laws. intros m. by rewrite NewFlagSet_empty, lookup_empty. Qed.
Lemma contents_add f g h k : contents f g → contents h k → contents (AddFlagSet f h) (g ∪ k).
Proof using Laws.
  intros Hf Hh m. rewrite AddFlagSet_lookup, Hf, Hh, lookup_union. by destruct (g !! m), (k !! m).
Qed.

(** Flags with different names that are not there yet can be defined. *)
Lemma define_all_ok l f g :
  contents f g → NoDup l.*1 → Forall (λ n, g !! n = None) l.*1 → ∃ f', define_all l f = Ok f' ∧ contents f' (flags_of l ∪ g).
Proof using Laws.
  revert f g. induction l as [|[n v] l IH]; intros f g Hg Hnd Hnew.
  { exists f. split; [done|]. by rewrite list_to_map_nil, (left_id_L ∅ (∪)). }
  cbn [fmap list_fmap fst] in Hnd, Hnew. apply NoDup_cons in Hnd as [Hn Hnd]. apply Forall_cons in Hnew as [Hgn Hnew].
  destruct (Define_new n v f) as (f1 & Hdef & Hf1); [by rewrite Hg|].
  destruct (IH f1 (<[n := v]> g)) as (f' & Hall & Hf'); [|done| |].
  - intros m. rewrite Hf1. case_decide as Hm; [subst m; by rewrite lookup_insert_eq|by rewrite lookup_insert_ne, Hg by done].
  - rewrite Forall_forall in Hnew |- *. intros m Hm. rewrite lookup_insert_ne by (intros ->; done). by apply Hnew.
  - exists f'. split; [unfold define_all; cbn [foldl mbind outcome_bind fst snd]; rewrite Hdef; exact Hall|].
    rewrite list_to_map_cons. rewrite <-insert_union_l, insert_union_r by (by apply not_elem_of_list_to_map_1). exact Hf'.
Qed.
Lemma require_all_ok names f g :
  contents f g → Forall (λ n, is_Some (g !! n)) names → ∃ f', require_all names f = Ok f' ∧ contents f' g.
Proof using Laws.
  revert f. induction names as [|n names IH]; intros f Hg Hall; [by exists f|]. apply Forall_cons in Hall as [Hn Hall].
  destruct (MarkFlagRequired_known n f) as (f1 & Hreq & Hf1); [by rewrite Hg|].
  destruct (IH f1) as (f' & Hr & Hf'); [intros m; by rewrite Hf1|done|]. exists f'. split; [|done].
  unfold require_all. cbn [foldl mbind outcome_bind]. by rewrite Hreq.
Qed.

(** The flags of the SDK go with those of a command whose names are its own. *)
Lemma tx_flags_ok f g :
  contents f g → Forall (.∈ own_tx_flags) (map_to_list g).*1 → ∃ f', AddTxFlagsToCmd f = Ok f' ∧ contents f' (flags_of TxFlags ∪ g).
Proof using Laws.
  intros Hg Hown. apply define_all_ok; [done|apply TxFlags_distinct|]. apply Forall_forall. intros n Hn.
  destruct (g !! n) as [v|] eqn:Hv; [|done]. exfalso. pose proof TxFlags_other as Ho. rewrite Forall_forall in Ho, Hown.
  apply (Ho n); [|done]. apply Hown, list_elem_of_fmap. exists (n, v). split; [done|]. by apply elem_of_map_to_list.
Qed.
Lemma own_flag g n v : n ∈ own_tx_flags → g !! n = Some v → (flags_of TxFlags ∪ g) !! n = Some v.
Proof using Laws.
  intros Hn Hg. pose proof TxFlags_other as Ho. rewrite Forall_forall in Ho.
  rewrite lookup_union_r by (apply not_elem_of_list_to_map_1; by apply Ho). done.
Qed.
Lemma sdk_flag g n v : (n, v) ∈ TxFlags → (flags_of TxFlags ∪ g) !! n = Some v.
Proof using Laws. intros Hn. apply lookup_union_Some_l, elem_of_list_to_map; [apply TxFlags_distinct|done]. Qed.

Lemma reads f g n s : contents f g → g !! n = Some (StringFlag s) → GetString f n = Ok s.
Proof using Laws. intros Hg Hn. apply GetString_known. by rewrite Hg. Qed.
Lemma reads_bool f g n b : contents f g → g !! n = Some (BoolFlag b) → GetBool f n = Ok b.
Proof using Laws. intros Hg Hn. apply GetBool_known. by rewrite Hg. Qed.

Ltac merged := repeat first [eassumption | apply contents_empty | apply contents_add].
Ltac next_set f Hf := edestruct define_all_ok as (f & -> & Hf); [merged|known..|]; cbn [mbind outcome_bind].
Ltac with_tx_flags f Hf := edestruct tx_flags_ok as (f & -> & Hf); [merged|known|]; cbn [mbind outcome_bind].
Ltac own := eapply reads; [eassumption|]; apply own_flag; known.

(** create-validator: the command can be built, its required flags are there, and every flag that its function reads is. *)
Lemma create_validator_flags_ok :
  ∃ f, create_validator_flags = Ok f ∧
    Forall (λ n, GetString f n = Ok "") [FlagAmount; FlagVestingAmount; FlagPubKey; FlagMoniker; FlagIdentity; FlagWebsite;
      FlagSecurityContact; FlagDetails; FlagIP; FlagNodeID] ∧ GetBool f "generate-only" = Ok false.
Proof using Laws.
  unfold create_validator_flags, FlagSetPublicKey, FlagSetAmounts, flagSetDescriptionCreate.
  next_set k Hk. next_set a Ha. next_set d Hd. next_set f Hf. with_tx_flags f1 Hf1.
  edestruct require_all_ok as (f2 & -> & Hf2); [exact Hf1| |].
  { repeat constructor; [eexists; apply sdk_flag, TxFlags_from|..]; eexists; apply own_flag; known. }
  exists f2. split_and!; [done| |eapply reads_bool; [exact Hf2|apply sdk_flag, TxFlags_generate_only]].
  repeat constructor; own.
Qed.

(** edit-validator: a flag that is not given leaves its part of the description alone. *)
Lemma edit_validator_flags_ok :
  ∃ f, edit_validator_flags = Ok f ∧
    Forall (λ n, GetString f n = Ok DoNotModifyDesc) [FlagMoniker; FlagIdentity; FlagWebsite; FlagSecurityContact; FlagDetails].
Proof using Laws.
  unfold edit_validator_flags, flagSetValidatorDescription. next_set d Hd. with_tx_flags f Hf.
  exists f. split; [done|]. repeat constructor; own.
Qed.

(** claim-rewards: both switches are off at first. *)
Lemma claim_rewards_flags_ok :
  ∃ f, claim_rewards_flags = Ok f ∧ GetBool f flagEngagement = Ok false ∧ GetBool f flagDistribution = Ok false.
Proof using Laws.
  unfold claim_rewards_flags. with_tx_flags f Hf. rewrite (right_id_L ∅ (∪)) in Hf.
  edestruct define_all_ok as (f1 & -> & Hf1); [exact Hf|known| |].
  { pose proof TxFlags_other as Ho. rewrite Forall_forall in Ho.
    repeat constructor; apply not_elem_of_list_to_map_1, Ho; known. }
  exists f1. split_and!; [done|eapply reads_bool; [exact Hf1|]; by apply lookup_union_Some_l..].
Qed.

(** gentx: what the address of the machine is decides the default of one flag; without it there is no command. *)
Lemma gentx_flags_ok ip home :
  ∃ f, gentx_flags (Ok ip) home = Ok f ∧ GetString f FlagIP = Ok ip ∧ GetString f "output-document" = Ok "" ∧
    Forall (λ n, GetString f n = Ok "") [FlagNodeID; FlagPubKey; FlagMoniker; FlagIdentity; FlagWebsite; FlagSecurityContact; FlagDetails;
      FlagAmount; FlagVestingAmount].
Proof using Laws.
  unfold gentx_flags, CreateValidatorMsgFlagSet, flagSetValidatorDescription, FlagSetAmounts, FlagSetPublicKey. cbn [mbind outcome_bind].
  next_set a Ha. next_set b Hb. next_set c Hc. next_set d Hd. next_set e He. with_tx_flags f Hf.
  exists f. split_and!; [done|own|own|]. repeat constructor; own.
Qed.

(** Without a network address there is no gentx command: the whole command line ends with a panic. *)
Lemma gentx_needs_address e home : is_panic (gentx_flags (F := F) (Err e) home) = true.
Proof. reflexivity. Qed.

(** The testnet command: all defaults are there. *)
Lemma testnet_flags_ok backend :
  ∃ f, testnet_flags backend = Ok f ∧ GetString f "output-dir" = Ok "./mytestnet" ∧ GetString f "node-dir-prefix" = Ok "node" ∧
    GetString f "node-daemon-home" = Ok "furya" ∧ GetString f "starting-ip-address" = Ok "192.168.0.1" ∧
    GetString f "keyring-backend" = Ok backend ∧ GetString f "chain-id" = Ok "" ∧ GetString f "algo" = Ok "secp256k1" ∧
    GetString f "minimum-gas-prices" = Ok "0.000006ufury" ∧ GetBool f "single-host" = Ok false ∧ GetBool f "vesting-validators" = Ok false.
Proof using Laws.
  unfold testnet_flags. next_set f Hf. exists f.
  split_and!; first [reflexivity | eapply reads; [exact Hf|reflexivity] | eapply reads_bool; [exact Hf|reflexivity]].
Qed.
End theorems.

(** ** The commands with their own flags *)
Section composed.
Context `{!PFlag F, Laws : !PFlagLaws F, !Bech32, !SdkMath, !CoinAmounts, !ClientCoins} {Tx : Type}.

(** edit-validator without a flag changes nothing, and is refused. *)
Lemma edit_validator_untouched from a :
  AccAddressFromBech32 (AccAddress_String from) = Ok a →
  ∃ f e, edit_validator_flags = Ok f ∧ NewEditValidatorCmd from (GetString f) = Err e.
Proof using Laws.
  intros Ha. destruct edit_validator_flags_ok as (f & Hf & Hall). exists f, (Wrap ErrInvalidRequest "empty description"). split; [done|].
  unfold NewEditValidatorCmd, value_of.
  apply Forall_cons in Hall as [-> Hall]. apply Forall_cons in Hall as [-> Hall]. apply Forall_cons in Hall as [-> Hall].
  apply Forall_cons in Hall as [-> Hall]. apply Forall_cons in Hall as [-> _].
  unfold MsgUpdateValidator_ValidateBasic. cbn [NewMsgUpdateValidator UV_OperatorAddress UV_Description]. rewrite Ha.
  vm_compute. reflexivity.
Qed.

(** gentx without flags writes a transaction for the default amount only. *)
Lemma gentx_untouched NewAny Unmarshal defaultAmount gs balances id key Keyring_Key validate (sign : option string → MsgCreateValidator → outcome Tx)
    moniker chainID j st name liquid vested tx ip home :
  dec_raw_map j = Ok st → defaultAmount ≠ "" →
  ∃ f, gentx_flags (Ok ip) home = Ok f ∧
    (GenTxCmd NewAny Unmarshal defaultAmount gs balances (Ok (id, key)) Keyring_Key validate sign (GetString f) moniker
      (Ok (chainID, JText j)) name liquid vested = Ok (Written tx) → liquid = defaultAmount).
Proof using Laws.
  intros Hst Hne. destruct (gentx_flags_ok ip home) as (f & Hf & Hip & _ & Hall). exists f. split; [done|]. intros Hrun.
  rewrite Forall_forall in Hall.
  assert (GetString f FlagAmount = Ok "") as Hamt by (apply Hall; known).
  eapply (GenTxCmd_written _ _ _ _ _ _ _ _ (λ _, Ok tx) (λ _, None) (λ _, [])) in Hrun as (? & ? & ? & ? & ? & ? & _ & _ & _ & _ & _ & Ha & _); try eassumption.
  destruct Ha as [Ha|Ha]; [by destruct Hne|done].
Qed.
End composed.

(** ** A concrete library *)
#[local] Instance Ref_pflag : PFlag (gmap string FlagValue) := {
  NewFlagSet := ∅;
  flag_of f n := f !! n;
  Define n v f := match f !! n with Some _ => Panic "flag redefined" | None => Ok (<[n := v]> f) end;
  AddFlagSet f g := f ∪ g;
  MarkFlagRequired n f := match f !! n with Some _ => Ok f | None => Err (new_err "no such flag") end;
  GetString f n := match f !! n with Some (StringFlag s) => Ok s | _ => Err (new_err "flag accessed but not defined") end;
  GetBool f n := match f !! n with Some (BoolFlag b) => Ok b | _ => Err (new_err "flag accessed but not defined") end;
  TxFlags := [("from", StringFlag ""); ("fees", StringFlag ""); ("gas", StringFlag ""); ("generate-only", BoolFlag false)];
  QueryFlags := [("node", StringFlag "tcp://localhost:26657"); ("height", Int64Flag 0); ("output", StringFlag "text")];
}.
#[local] Instance Ref_pflag_laws : PFlagLaws (gmap string FlagValue).
Proof.
  constructor; cbn; try (intros; apply (bool_decide_unpack _); vm_compute; exact I); try done.
  - intros n v f ->. eexists. split; [done|]. intros m. case_decide as Hm; [subst m; by rewrite lookup_insert_eq|by rewrite lookup_insert_ne].
  - intros n v f [x ->]. done.
  - intros f g n. rewrite lookup_union. by destruct (f !! n), (g !! n).
  - intros n f [x ->]. by eexists.
  - intros f n s ->. done.
  - intros f n ->. done.
  - intros f n b ->. done.
Qed.
Example create_validator_required :
  (flag_of (F := gmap string FlagValue) <$> match create_validator_flags with Ok f => Some f | _ => None end) ≫= (λ l, l FlagMoniker) =
    Some (StringFlag "").
Proof. vm_compute. reflexivity. Qed.
